(** * Firmware staging engine of the MCUboot update handler

    A shallow embedding of [mcubupdate_handler.cpp]: the aligned block
    writer ([CombinedDownloadInstall], [bd_read_program_unit]), the image
    header gate, the persistent upgrade-state store ([nvImgUpgSt_*]), the
    boot-time recovery routine ([Update_NVImgUpgSt_PostReboot]), the
    integrity verifier ([VerifySignature]) and the [Apply] step.

    Conventions.
    - [size_t] and [uint32_t] values are [Z] with the 32-bit wrap-around of
      the Cortex-M targets written out ([SizeT.wrap]).
    - Buffers are [list byte]; a [memcpy] that would leave its source or
      destination buffer, a failed [MBED_ASSERT] and a division by zero are
      faults that abort the operation.
    - External collaborators (block device, key-value store, bootloader,
      workflow, hash library) are explicit state or parameters.

    The last part of the definitions embeds the code that creates the
    handler: [ExtensionManager] of [extension_manager.cpp] and
    [GetUpdateManifestHandler] of [mbed_adu_core_impl.cpp]. *)

From Stdlib Require Import ZArith List Bool Lia.
From Stdlib Require Import Init.Byte Strings.Byte.
From Stdlib Require String DecimalString DecimalZ DecimalPos.
Import ListNotations.
Open Scope Z_scope.

(* ================================================================= *)
(** ** Machine integers *)

Module SizeT.
(** [size_t] on the 32-bit targets of the port. *)
Definition modulus : Z := 2 ^ 32.
Definition wrap (z : Z) : Z := z mod modulus.
Definition add (a b : Z) : Z := wrap (a + b).
Definition sub (a b : Z) : Z := wrap (a - b).
Definition mul (a b : Z) : Z := wrap (a * b).
End SizeT.

(* ================================================================= *)
(** ** Raw memory: bytes, buffers and C strings *)

Definition bool_of_byte (b : byte) : bool := negb (Byte.eqb b x00).

Definition byte_of_bool (b : bool) : byte := if b then x01 else x00.

(** [memset(buf, c, n)]. *)
Definition memset (buf : list byte) (c : byte) (n : nat) : list byte :=
  repeat c n ++ skipn n buf.

(** [memcpy(dst + pos, src, n)], both ranges inside their buffers. *)
Definition memcpy_at (dst : list byte) (pos : nat) (src : list byte) (n : nat)
  : list byte :=
  firstn pos dst ++ firstn n src ++ skipn (pos + n) dst.

(** [strlen]: the bytes before the first NUL.  The scan stops at the end of
    the enclosing object; every caller rejects such a length. *)
Fixpoint strlen (s : list byte) : nat :=
  match s with
  | [] => O
  | c :: s' => if Byte.eqb c x00 then O else S (strlen s')
  end.

(** [memcmp(a, b, n) == 0]. *)
Definition bytes_eqb (a b : list byte) : bool :=
  if list_eq_dec byte_eq_dec a b then true else false.

(* ================================================================= *)
(** ** Key-value persistence *)

Inductive kv_status := MBED_SUCCESS | MBED_ERROR.

(** Modelled from the spec: the key-value persistence interface
    ([kv_get], [kv_set] of Mbed OS, not part of this repository), a byte
    blob under the single key [OTA_IMAGE_UPDATE_STATE_KEY].  [kv_get_fault]
    and [kv_set_fault] stand for a backing store that rejects the call. *)
Record KVStore := mkKV {
  kv_blob : option (list byte);
  kv_get_fault : bool;
  kv_set_fault : bool
}.

(** [kv_get(key, buf, maxlen, &actual)]: status, bytes placed in [buf],
    [actual]. *)
Definition kv_get (maxlen : nat) (kv : KVStore) : kv_status * list byte * nat :=
  if kv_get_fault kv then (MBED_ERROR, [], O)
  else match kv_blob kv with
       | None => (MBED_ERROR, [], O)
       | Some b => (MBED_SUCCESS, firstn maxlen b, Nat.min maxlen (length b))
       end.

(** [kv_set(key, buf, len, 0)]. *)
Definition kv_set (buf : list byte) (len : nat) (kv : KVStore)
  : kv_status * KVStore :=
  if kv_set_fault kv then (MBED_ERROR, kv)
  else (MBED_SUCCESS,
        mkKV (Some (firstn len buf)) (kv_get_fault kv) (kv_set_fault kv)).

(* ================================================================= *)
(** ** MCUboot: image header and bootloader flags *)

(** Modelled from the spec: [struct image_header] and [struct image_version]
    of MCUboot's [bootutil/image.h] (not part of this repository), in their
    little-endian in-memory layout. *)
Definition sizeof_image_header : nat := 32.
Definition sizeof_image_version : nat := 8.
Definition offsetof_ih_magic : nat := 0.
Definition offsetof_ih_ver : nat := 20.

(** [IMAGE_MAGIC] = 0x96f3b83d as it lies in memory. *)
Definition IMAGE_MAGIC_bytes : list byte := [x3d; xb8; xf3; x96].

Definition ih_magic_ok (header : list byte) : bool :=
  bytes_eqb (firstn 4 (skipn offsetof_ih_magic header)) IMAGE_MAGIC_bytes.

Definition ih_ver (header : list byte) : list byte :=
  firstn sizeof_image_version (skipn offsetof_ih_ver header).

Definition BOOT_FLAG_SET : Z := 1.
Definition BOOT_FLAG_BAD : Z := 2.
Definition BOOT_FLAG_UNSET : Z := 3.

(** Modelled from the spec: the bootloader interface
    ([flash_area_open], [boot_read_image_ok], [boot_set_confirmed],
    [boot_set_pending] of MCUboot, not part of this repository) and the
    header of the running image at [MCUBOOT_PRIMARY_SLOT_START_ADDR]. *)
Record Bootloader := mkBoot {
  primary_header : list byte;
  flash_area_open_rc : Z;
  boot_read_image_ok_rc : Z;
  image_ok : Z;
  boot_set_confirmed_rc : Z;
  boot_set_pending_rc : Z;
  swap_pending : bool
}.

(** [boot_read_image_ok(fap, &image_ok)]: the caller's variable is written
    only when the read succeeds. *)
Definition boot_read_image_ok (bl : Bootloader) (var : Z) : Z * Z :=
  if boot_read_image_ok_rc bl =? 0 then (0, image_ok bl)
  else (boot_read_image_ok_rc bl, var).

Definition boot_set_confirmed (bl : Bootloader) : Bootloader :=
  if boot_set_confirmed_rc bl =? 0
  then mkBoot (primary_header bl) (flash_area_open_rc bl)
              (boot_read_image_ok_rc bl) BOOT_FLAG_SET
              (boot_set_confirmed_rc bl) (boot_set_pending_rc bl)
              (swap_pending bl)
  else bl.

Definition boot_set_pending (permanent : bool) (bl : Bootloader)
  : Z * Bootloader :=
  if boot_set_pending_rc bl =? 0
  then (0, mkBoot (primary_header bl) (flash_area_open_rc bl)
                  (boot_read_image_ok_rc bl) (image_ok bl)
                  (boot_set_confirmed_rc bl) (boot_set_pending_rc bl) true)
  else (boot_set_pending_rc bl, bl).

(* ================================================================= *)
(** ** The in-storage record [OTA_NonVolatileImageUpgradeState_t] *)

Definition INSTALLEDCRITERIA_MAXCHAR : nat := 64.

(** Field offsets of the struct under the 32-bit ARM ABI (one-byte [bool],
    natural alignment). *)
Definition offsetof_stageVersion_valid : nat := 0.
Definition offsetof_stageVersion : nat := 4.
Definition offsetof_installRebooted_valid : nat := 12.
Definition offsetof_installRebooted : nat := 13.
Definition offsetof_stageInstalledCriteria_valid : nat := 14.
Definition offsetof_stageInstalledCriteria : nat := 15.
Definition offsetof_reserved : nat := 80.
Definition offsetof_persistentInstalledCriteria_valid : nat := 84.
Definition offsetof_persistentInstalledCriteria : nat := 85.
Definition sizeof_state : nat := 152.

Definition field_bool (off : nat) (st : list byte) : bool :=
  bool_of_byte (nth off st x00).

Definition store_bool (off : nat) (v : bool) (st : list byte) : list byte :=
  memcpy_at st off [byte_of_bool v] 1.

Definition field_bytes (off n : nat) (st : list byte) : list byte :=
  firstn n (skipn off st).

(** A character array member seen as a C string. *)
Definition field_str (off : nat) (st : list byte) : list byte :=
  let tail := skipn off st in firstn (strlen tail) tail.

Definition nvImgUpgSt_setAll (imageUpgradeState : list byte) (kv : KVStore)
  : bool * KVStore :=
  match kv_set imageUpgradeState sizeof_state kv with
  | (MBED_SUCCESS, kv') => (true, kv')
  | (MBED_ERROR, kv') => (false, kv')
  end.

(** [Some st] when the call returns true with the struct filled in; the
    local struct is indeterminate otherwise, and no caller reads it then. *)
Definition nvImgUpgSt_getAll (kv : KVStore) : option (list byte) :=
  match kv_get sizeof_state kv with
  | (MBED_SUCCESS, buf, actual_size) =>
      if Nat.eqb actual_size sizeof_state then Some buf else None
  | (MBED_ERROR, _, _) => None
  end.

Definition nvImgUpgSt_reset (includeReserved : bool) (kv : KVStore)
  : bool * KVStore :=
  match (if includeReserved then None else nvImgUpgSt_getAll kv) with
  | None => nvImgUpgSt_setAll (repeat x00 sizeof_state) kv
  | Some imageUpgradeState =>
      nvImgUpgSt_setAll (memset imageUpgradeState x00 offsetof_reserved) kv
  end.

Definition nvImgUpgSt_setStageVersion (stageVersion : list byte) (kv : KVStore)
  : bool * KVStore :=
  match nvImgUpgSt_getAll kv with
  | None => (false, kv)
  | Some st =>
      let st := memcpy_at st offsetof_stageVersion stageVersion
                          sizeof_image_version in
      let st := store_bool offsetof_stageVersion_valid true st in
      nvImgUpgSt_setAll st kv
  end.

Definition nvImgUpgSt_setInstallRebooted (installRebooted : bool)
    (kv : KVStore) : bool * KVStore :=
  match nvImgUpgSt_getAll kv with
  | None => (false, kv)
  | Some st =>
      let st := store_bool offsetof_installRebooted installRebooted st in
      let st := store_bool offsetof_installRebooted_valid true st in
      nvImgUpgSt_setAll st kv
  end.

(** The argument is the caller's C string without its terminator. *)
Definition nvImgUpgSt_setStageInstalledCriteria (installedCriteria : list byte)
    (kv : KVStore) : bool * KVStore :=
  match nvImgUpgSt_getAll kv with
  | None => (false, kv)
  | Some st =>
      let len := strlen installedCriteria in
      if Nat.ltb INSTALLEDCRITERIA_MAXCHAR len then (false, kv)
      else
        let st := memcpy_at st offsetof_stageInstalledCriteria
                            (firstn len installedCriteria ++ [x00]) (len + 1) in
        let st := store_bool offsetof_stageInstalledCriteria_valid true st in
        nvImgUpgSt_setAll st kv
  end.

Definition nvImgUpgSt_settleInstalledCriteria (kv : KVStore)
  : bool * KVStore :=
  match nvImgUpgSt_getAll kv with
  | None => (false, kv)
  | Some st =>
      if negb (field_bool offsetof_stageInstalledCriteria_valid st)
      then (false, kv)
      else
        let stage := skipn offsetof_stageInstalledCriteria st in
        let len := strlen stage in
        if Nat.ltb INSTALLEDCRITERIA_MAXCHAR len then (false, kv)
        else
          let st := memcpy_at st offsetof_persistentInstalledCriteria
                              stage (len + 1) in
          let st := store_bool offsetof_persistentInstalledCriteria_valid
                               true st in
          let st := store_bool offsetof_stageInstalledCriteria_valid
                               false st in
          let st := firstn offsetof_stageInstalledCriteria st
                    ++ memset (skipn offsetof_stageInstalledCriteria st) x00
                              (INSTALLEDCRITERIA_MAXCHAR + 1) in
          nvImgUpgSt_setAll st kv
  end.

(** [None] when the call returns false; [Some c] when it returns true with
    [*confirmed = c]. *)
Definition nvImgUpgSt_installed (kv : KVStore) (bl : Bootloader)
  : option bool :=
  match nvImgUpgSt_getAll kv with
  | None => None
  | Some st =>
      if negb (field_bool offsetof_installRebooted_valid st)
         || negb (field_bool offsetof_installRebooted st)
      then None
      else if negb (field_bool offsetof_stageVersion_valid st) then None
      else if negb (bytes_eqb
                      (field_bytes offsetof_stageVersion
                                   sizeof_image_version st)
                      (ih_ver (primary_header bl)))
      then None
      else if negb (flash_area_open_rc bl =? 0) then None
      else
        let '(_, image_ok) := boot_read_image_ok bl BOOT_FLAG_UNSET in
        if image_ok =? BOOT_FLAG_SET then Some true else Some false
  end.

Definition nvImgUpgSt_installRebooted (kv : KVStore) : option bool :=
  match nvImgUpgSt_getAll kv with
  | None => None
  | Some st =>
      if negb (field_bool offsetof_installRebooted_valid st) then None
      else Some (field_bool offsetof_installRebooted st)
  end.

(** [Some s]: returns true with the C string [s] (terminator included)
    copied to the caller's buffer. *)
Definition nvImgUpgSt_persistentInstalledCriteria
    (installedCriteria_maxlen : nat) (kv : KVStore) : option (list byte) :=
  match nvImgUpgSt_getAll kv with
  | None => None
  | Some st =>
      if negb (field_bool offsetof_persistentInstalledCriteria_valid st)
      then None
      else
        let persistent := skipn offsetof_persistentInstalledCriteria st in
        let len := strlen persistent in
        if Nat.ltb installedCriteria_maxlen (len + 1) then None
        else Some (firstn (len + 1) persistent)
  end.

(* ================================================================= *)
(** ** Boot-time recovery: [Update_NVImgUpgSt_PostReboot] *)

(** "Indicate install rebooted". *)
Definition indicate_install_rebooted (kv : KVStore) : KVStore :=
  match nvImgUpgSt_installRebooted kv with
  | Some false => snd (nvImgUpgSt_setInstallRebooted true kv)
  | _ => kv
  end.

(** "Try to confirm MCUboot firmware upgrade anyway". *)
Definition try_confirm (kv : KVStore) (bl : Bootloader) : Bootloader :=
  match nvImgUpgSt_installed kv bl with
  | Some false => boot_set_confirmed bl
  | _ => bl
  end.

(** "Settle ADU installed criteria only after MCUboot firmware upgrade
    has confirmed".  The flag tells whether [NVIC_SystemReset] is called. *)
Definition settle_or_revert (kv : KVStore) (bl : Bootloader)
  : KVStore * bool :=
  match nvImgUpgSt_installed kv bl with
  | Some true =>
      let kv := snd (nvImgUpgSt_settleInstalledCriteria kv) in
      (snd (nvImgUpgSt_reset false kv), false)
  | Some false => (snd (nvImgUpgSt_reset false kv), true)
  | None => (kv, false)
  end.

(** The constructor of the global object [update_nvImgUpgSt_postReboot]:
    the store and the bootloader it leaves, and whether it ended in
    [NVIC_SystemReset]. *)
Definition Update_NVImgUpgSt_PostReboot (kv : KVStore) (bl : Bootloader)
  : KVStore * Bootloader * bool :=
  let kv := indicate_install_rebooted kv in
  let bl := try_confirm kv bl in
  let '(kv, system_reset) := settle_or_revert kv bl in
  (kv, bl, system_reset).

(* ================================================================= *)
(** ** Secondary block device *)

Inductive bd_request :=
| BdInit
| BdDeinit
| BdRead (addr size : Z)
| BdProgram (addr size : Z)
| BdErase (addr size : Z).

(** Modelled from the spec: the storage device interface
    ([mbed::BlockDevice], not part of this repository).  [bd_mem] is what a
    read returns: the bytes last programmed.  [bd_rejects] tells which
    requests the device answers with an error code, and [bd_log] keeps
    every request made, most recent first. *)
Record BlockDevice := mkBD {
  bd_mem : Z -> byte;
  bd_rejects : bd_request -> bool;
  bd_log : list bd_request;
  bd_program_size : Z;
  bd_read_size : Z;
  bd_size : Z;
  bd_erase_value : byte
}.

Definition BD_ERROR_DEVICE_ERROR : Z := -4001.

(** The bytes of [[addr, addr + n)]. *)
Definition bd_peek (mem : Z -> byte) (addr : Z) (n : nat) : list byte :=
  map (fun k => mem (addr + Z.of_nat k)) (seq 0 n).

(** [mem] with [[addr, addr + size)] replaced by the start of [buf]. *)
Definition bd_poke (mem : Z -> byte) (addr size : Z) (buf : list byte)
  : Z -> byte :=
  fun a => if (addr <=? a) && (a <? addr + size)
           then nth (Z.to_nat (a - addr)) buf x00
           else mem a.

Definition bd_serve (rq : bd_request) (mem' : Z -> byte) (bd : BlockDevice)
  : Z * BlockDevice :=
  if bd_rejects bd rq
  then (BD_ERROR_DEVICE_ERROR,
        mkBD (bd_mem bd) (bd_rejects bd) (rq :: bd_log bd)
             (bd_program_size bd) (bd_read_size bd) (bd_size bd)
             (bd_erase_value bd))
  else (0,
        mkBD mem' (bd_rejects bd) (rq :: bd_log bd)
             (bd_program_size bd) (bd_read_size bd) (bd_size bd)
             (bd_erase_value bd)).

Definition bd_init (bd : BlockDevice) : Z * BlockDevice :=
  bd_serve BdInit (bd_mem bd) bd.

Definition bd_deinit (bd : BlockDevice) : Z * BlockDevice :=
  bd_serve BdDeinit (bd_mem bd) bd.

Definition bd_read (addr size : Z) (bd : BlockDevice)
  : Z * list byte * BlockDevice :=
  let '(rc, bd') := bd_serve (BdRead addr size) (bd_mem bd) bd in
  (rc, bd_peek (bd_mem bd) addr (Z.to_nat size), bd').

Definition bd_program (buf : list byte) (addr size : Z) (bd : BlockDevice)
  : Z * BlockDevice :=
  bd_serve (BdProgram addr size) (bd_poke (bd_mem bd) addr size buf) bd.

Definition bd_erase (addr size : Z) (bd : BlockDevice) : Z * BlockDevice :=
  bd_serve (BdErase addr size)
           (bd_poke (bd_mem bd) addr size
                    (repeat (bd_erase_value bd) (Z.to_nat size))) bd.

(* ================================================================= *)
(** ** Handler state *)

Inductive ADUC_ResultCode :=
| ADUC_Result_Failure
| ADUC_Result_Download_Success
| ADUC_Result_Apply_Success
| ADUC_Result_Apply_RequiredReboot
| ADUC_Result_Cancel_Success
| ADUC_Result_Cancel_UnableToCancel
| ADUC_Result_IsInstalled_Installed
| ADUC_Result_IsInstalled_NotInstalled.

Definition IsAducResultCodeFailure (rc : ADUC_ResultCode) : bool :=
  match rc with ADUC_Result_Failure => true | _ => false end.

(** [OTA_OperationContext_t].  The pointers are kept as "non-null" flags:
    the secondary device itself is the one static object of
    [get_secondary_bd], and the two scratch buffers are refilled before
    every use. *)
Record OTA_OperationContext_t := mkCtx {
  fwu_active_image_header : list byte;
  fwu_stage_image_header : list byte;
  secondary_bd : bool;
  secondary_bd_inited : bool;
  secondary_bd_progunit : bool;
  secondary_bd_progunit_size : Z;
  secondary_bd_readblock : bool;
  secondary_bd_readblock_size : Z;
  dl_prog_offset : Z;
  dl_prog_total_exp : Z;
  dl_prog_total_act : Z
}.

(** The handler object with everything it reaches through globals. *)
Record Device := mkDevice {
  otaCtx_opaque : option OTA_OperationContext_t;
  secondary : BlockDevice;
  get_secondary_bd_null : bool;
  malloc_null : Z -> bool;
  nvstore : KVStore;
  bootloader : Bootloader
}.

Definition with_ctx (c : option OTA_OperationContext_t) (d : Device) : Device :=
  mkDevice c (secondary d) (get_secondary_bd_null d) (malloc_null d)
           (nvstore d) (bootloader d).

Definition with_secondary (bd : BlockDevice) (d : Device) : Device :=
  mkDevice (otaCtx_opaque d) bd (get_secondary_bd_null d) (malloc_null d)
           (nvstore d) (bootloader d).

Definition with_nvstore (kv : KVStore) (d : Device) : Device :=
  mkDevice (otaCtx_opaque d) (secondary d) (get_secondary_bd_null d)
           (malloc_null d) kv (bootloader d).

Definition with_bootloader (bl : Bootloader) (d : Device) : Device :=
  mkDevice (otaCtx_opaque d) (secondary d) (get_secondary_bd_null d)
           (malloc_null d) (nvstore d) bl.

(* ================================================================= *)
(** ** Control: early exit and faults *)

Inductive fault := AssertFailed | OutOfBounds | DivideByZero | OutOfFuel.

(** [ExitFailure] is the [goto done] / [goto cleanup] of the source with
    the failure result set. *)
Inductive exit := ExitFailure | ExitFault (f : fault).

Definition M (A : Type) : Type := Device -> (A + exit) * Device.

Definition ret {A} (a : A) : M A := fun d => (inl a, d).

Definition bind {A B} (m : M A) (k : A -> M B) : M B :=
  fun d => match m d with
           | (inl a, d') => k a d'
           | (inr e, d') => (inr e, d')
           end.

Declare Scope ota_scope.
Delimit Scope ota_scope with ota.
Notation "x <- m ;; k" := (bind m (fun x => k))
  (at level 61, m at next level, right associativity) : ota_scope.
Notation "' p <- m ;; k" := (bind m (fun x => let p := x in k))
  (at level 61, p pattern, m at next level, right associativity) : ota_scope.
Notation "m ;; k" := (bind m (fun _ => k))
  (at level 61, right associativity) : ota_scope.
Open Scope ota_scope.

Definition goto_failure {A} : M A := fun d => (inr ExitFailure, d).

Definition raise {A} (f : fault) : M A := fun d => (inr (ExitFault f), d).

Definition MBED_ASSERT (c : bool) : M unit :=
  if c then ret tt else raise AssertFailed.

Definition udiv (a b : Z) : M Z :=
  if b =? 0 then raise DivideByZero else ret (a / b).

Definition the_ctx : M OTA_OperationContext_t :=
  fun d => match otaCtx_opaque d with
           | Some c => (inl c, d)
           | None => (inr (ExitFault AssertFailed), d)
           end.

Definition set_ctx (c : OTA_OperationContext_t) : M unit :=
  fun d => (inl tt, with_ctx (Some c) d).

Definition on_secondary {A} (f : BlockDevice -> A * BlockDevice) : M A :=
  fun d => let '(a, bd') := f (secondary d) in (inl a, with_secondary bd' d).

Definition on_nvstore {A} (f : KVStore -> A * KVStore) : M A :=
  fun d => let '(a, kv') := f (nvstore d) in (inl a, with_nvstore kv' d).

(** A [memcpy] of [n] bytes from [src + pos]. *)
Definition memcpy_from (src : list byte) (pos n : Z) : M (list byte) :=
  if (0 <=? pos) && (0 <=? n) && (pos + n <=? Z.of_nat (length src))
  then ret (firstn (Z.to_nat n) (skipn (Z.to_nat pos) src))
  else raise OutOfBounds.

(** A [memcpy] of the first [n] bytes of [src] to [dst + pos]. *)
Definition memcpy_into (dst : list byte) (pos : Z) (src : list byte) (n : Z)
  : M (list byte) :=
  if (0 <=? pos) && (0 <=? n) && (pos + n <=? Z.of_nat (length dst))
     && (n <=? Z.of_nat (length src))
  then ret (memcpy_at dst (Z.to_nat pos) src (Z.to_nat n))
  else raise OutOfBounds.

(* ================================================================= *)
(** ** Aligned block writer *)

(** [bd_read_program_unit]: the return code and the program-unit buffer. *)
Definition bd_read_program_unit (progunit_size readblock_size offset : Z)
  : M (Z * list byte) :=
  MBED_ASSERT (progunit_size <=? readblock_size) ;;
  qr <- udiv offset readblock_size ;;
  let readblock_aligndown := SizeT.mul qr readblock_size in
  qp <- udiv offset progunit_size ;;
  let progunit_aligndown := SizeT.mul qp progunit_size in
  MBED_ASSERT (readblock_aligndown <=? progunit_aligndown) ;;
  '(rc, readblock) <-
     on_secondary (bd_read readblock_aligndown readblock_size) ;;
  if negb (rc =? 0) then ret (rc, [])
  else
    progunit <- memcpy_from readblock
                  (progunit_aligndown - readblock_aligndown) progunit_size ;;
    ret (rc, progunit).

(** The local variables [fwu_data], [fwu_offset], [fwu_rmn]. *)
Record Cursor := mkCursor {
  fwu_data : list byte;
  fwu_offset : Z;
  fwu_rmn : Z
}.

Definition advance (c : Cursor) (fwu_todo : Z) : Cursor :=
  mkCursor (skipn (Z.to_nat fwu_todo) (fwu_data c))
           (SizeT.add (fwu_offset c) fwu_todo)
           (SizeT.sub (fwu_rmn c) fwu_todo).

(** "Program first data which doesn't align on program unit boundary". *)
Definition program_first (progunit_size readblock_size : Z) (c : Cursor)
  : M Cursor :=
  q <- udiv (SizeT.sub (SizeT.add (fwu_offset c) progunit_size) 1)
            progunit_size ;;
  let fwu_offset_alignup := SizeT.mul q progunit_size in
  let fwu_todo := SizeT.sub fwu_offset_alignup (fwu_offset c) in
  let fwu_todo := if fwu_rmn c <? fwu_todo then fwu_rmn c else fwu_todo in
  MBED_ASSERT (fwu_todo <? progunit_size) ;;
  if fwu_todo =? 0 then ret c
  else
    '(rc, progunit) <-
       bd_read_program_unit progunit_size readblock_size (fwu_offset c) ;;
    if negb (rc =? 0) then goto_failure
    else
      qf <- udiv (fwu_offset c) progunit_size ;;
      let fwu_offset_first := SizeT.mul qf progunit_size in
      let fwu_todo_first := progunit_size in
      fwu_data_first <-
        memcpy_into progunit (SizeT.sub (fwu_offset c) fwu_offset_first)
                    (fwu_data c) fwu_todo ;;
      let c' := advance c fwu_todo in
      rc <- on_secondary
              (bd_program fwu_data_first fwu_offset_first fwu_todo_first) ;;
      if negb (rc =? 0) then goto_failure else ret c'.

(** "Program data which aligns on program unit boundary". *)
Definition program_aligned (progunit_size : Z) (c : Cursor) : M Cursor :=
  q <- udiv (fwu_rmn c) progunit_size ;;
  let fwu_todo := SizeT.mul q progunit_size in
  if fwu_todo =? 0 then ret c
  else
    rc <- on_secondary (bd_program (fwu_data c) (fwu_offset c) fwu_todo) ;;
    if negb (rc =? 0) then goto_failure else ret (advance c fwu_todo).

(** "Program last data which doesn't align on program unit boundary". *)
Definition program_last (progunit_size readblock_size : Z) (c : Cursor)
  : M Cursor :=
  let fwu_todo := fwu_rmn c in
  if fwu_todo =? 0 then ret c
  else
    MBED_ASSERT (fwu_todo <? progunit_size) ;;
    '(rc, progunit) <-
       bd_read_program_unit progunit_size readblock_size (fwu_offset c) ;;
    if negb (rc =? 0) then goto_failure
    else
      let fwu_offset_last := fwu_offset c in
      let fwu_todo_last := progunit_size in
      fwu_data_last <- memcpy_into progunit 0 (fwu_data c) fwu_todo ;;
      let c' := advance c fwu_todo in
      rc <- on_secondary
              (bd_program fwu_data_last fwu_offset_last fwu_todo_last) ;;
      if negb (rc =? 0) then goto_failure else ret c'.

Definition with_stage_header (h : list byte) (c : OTA_OperationContext_t)
  : OTA_OperationContext_t :=
  mkCtx (fwu_active_image_header c) h (secondary_bd c)
        (secondary_bd_inited c) (secondary_bd_progunit c)
        (secondary_bd_progunit_size c) (secondary_bd_readblock c)
        (secondary_bd_readblock_size c) (dl_prog_offset c)
        (dl_prog_total_exp c) (dl_prog_total_act c).

Definition with_dl_prog (offset total_exp total_act : Z)
    (c : OTA_OperationContext_t) : OTA_OperationContext_t :=
  mkCtx (fwu_active_image_header c) (fwu_stage_image_header c)
        (secondary_bd c) (secondary_bd_inited c) (secondary_bd_progunit c)
        (secondary_bd_progunit_size c) (secondary_bd_readblock c)
        (secondary_bd_readblock_size c) offset total_exp total_act.

(** "Catch MCUBOOT header at offset 0 and store it in buffer". *)
Definition catch_header (dl_data : list byte) : M unit :=
  otaCtx_inst <- the_ctx ;;
  let dl_length := Z.of_nat (length dl_data) in
  if dl_prog_offset otaCtx_inst <? Z.of_nat sizeof_image_header then
    let image_header_offset := dl_prog_offset otaCtx_inst in
    let image_header_todo :=
      SizeT.sub (Z.of_nat sizeof_image_header) image_header_offset in
    let image_header_todo :=
      if dl_length <? image_header_todo then dl_length
      else image_header_todo in
    image_header <-
      memcpy_into (fwu_stage_image_header otaCtx_inst) image_header_offset
                  dl_data image_header_todo ;;
    set_ctx (with_stage_header image_header otaCtx_inst) ;;
    if image_header_offset + image_header_todo
       =? Z.of_nat sizeof_image_header
    then
      if negb (ih_magic_ok image_header) then goto_failure
      else
        ok <- on_nvstore (nvImgUpgSt_setStageVersion (ih_ver image_header)) ;;
        if negb ok then goto_failure else ret tt
    else ret tt
  else ret tt.

(** "Write through BlockDevice program()", from the readiness check of
    the secondary device to the advance of the download offset. *)
Definition write_through (dl_data : list byte) : M unit :=
  otaCtx_inst <- the_ctx ;;
  if negb (secondary_bd otaCtx_inst)
     || negb (secondary_bd_inited otaCtx_inst)
  then goto_failure
  else
    MBED_ASSERT (secondary_bd_progunit otaCtx_inst) ;;
    MBED_ASSERT (negb (secondary_bd_progunit_size otaCtx_inst =? 0)) ;;
    let dl_length := Z.of_nat (length dl_data) in
    let c := mkCursor dl_data (SizeT.add 0 (dl_prog_offset otaCtx_inst))
                      dl_length in
    c <- (c <- program_first (secondary_bd_progunit_size otaCtx_inst)
                             (secondary_bd_readblock_size otaCtx_inst) c ;;
          c <- program_aligned (secondary_bd_progunit_size otaCtx_inst) c ;;
          program_last (secondary_bd_progunit_size otaCtx_inst)
                       (secondary_bd_readblock_size otaCtx_inst) c) ;;
    MBED_ASSERT (fwu_rmn c =? 0) ;;
    set_ctx (with_dl_prog
               (SizeT.add (dl_prog_offset otaCtx_inst) dl_length)
               (dl_prog_total_exp otaCtx_inst)
               (dl_prog_total_act otaCtx_inst) otaCtx_inst).

Definition CombinedDownloadInstall_body (dl_data : list byte) : M unit :=
  the_ctx ;;
  catch_header dl_data ;;
  write_through dl_data.

(** What a call does: it returns a value or stops in a fault. *)
Inductive outcome (A : Type) := Returns (a : A) | Faults (f : fault).
Arguments Returns {A} a.
Arguments Faults {A} f.

Definition CombinedDownloadInstall (dl_data : list byte) (d : Device)
  : outcome ADUC_ResultCode * Device :=
  match CombinedDownloadInstall_body dl_data d with
  | (inl _, d') => (Returns ADUC_Result_Download_Success, d')
  | (inr ExitFailure, d') => (Returns ADUC_Result_Failure, d')
  | (inr (ExitFault f), d') => (Faults f, d')
  end.

(** The body callback [CombinedDownloadInstallTask] of [Download]: [result]
    is the captured result, [cancel_requested] what
    [workflow_is_cancel_requested] answers at this callback. *)
Definition CombinedDownloadInstallTask (result : ADUC_ResultCode)
    (cancel_requested : bool) (dl_data : list byte) (d : Device)
  : outcome ADUC_ResultCode * Device :=
  if IsAducResultCodeFailure result || cancel_requested
  then (Returns result, d)
  else CombinedDownloadInstall dl_data d.

(** The transport delivering the body chunk by chunk. *)
Fixpoint http_body (chunks : list (bool * list byte))
    (result : ADUC_ResultCode) (d : Device)
  : outcome ADUC_ResultCode * Device :=
  match chunks with
  | [] => (Returns result, d)
  | (cancel_requested, dl_data) :: rest =>
      match CombinedDownloadInstallTask result cancel_requested dl_data d with
      | (Returns result', d') => http_body rest result' d'
      | (Faults f, d') => (Faults f, d')
      end
  end.

(* ================================================================= *)
(** ** Operation context life cycle *)

Definition FWU_READ_BLOCK_DEFSIZE : Z := 1024.

Definition OTACtx_Deinit (d : Device) : Device :=
  match otaCtx_opaque d with
  | None => d
  | Some otaCtx_inst =>
      let bd :=
        if secondary_bd otaCtx_inst && secondary_bd_inited otaCtx_inst
        then snd (bd_deinit (secondary d))
        else secondary d in
      with_ctx None (with_secondary bd d)
  end.

Definition OTACtx_Reinit (d : Device) : bool * Device :=
  let d := OTACtx_Deinit d in
  let '(ok, kv) := nvImgUpgSt_reset false (nvstore d) in
  let d := with_nvstore kv d in
  if negb ok then (false, d)
  else if get_secondary_bd_null d then (false, d)
  else
    let '(rc_bd, bd) := bd_init (secondary d) in
    let d := with_secondary bd d in
    if negb (rc_bd =? 0) then (false, d)
    else
      let progunit_size := SizeT.wrap (bd_program_size bd) in
      let read_size := SizeT.wrap (bd_read_size bd) in
      let readblock_size :=
        if FWU_READ_BLOCK_DEFSIZE <? read_size then read_size
        else FWU_READ_BLOCK_DEFSIZE in
      let second_bd_size := SizeT.wrap (bd_size bd) in
      let '(rc_bd, bd) := bd_erase 0 second_bd_size bd in
      let d := with_secondary bd d in
      if negb (rc_bd =? 0) then (false, d)
      else
        (true,
         with_ctx
           (Some (mkCtx (repeat x00 sizeof_image_header)
                        (repeat x00 sizeof_image_header)
                        true true
                        (negb (malloc_null d progunit_size)) progunit_size
                        (negb (malloc_null d readblock_size)) readblock_size
                        0 0 0)) d).

(* ================================================================= *)
(** ** Integrity verifier *)

Inductive SHAversion := SHA1 | SHA224 | SHA256 | SHA384 | SHA512.

(** The hash and encoding routines the verifier calls ([aduc/hash_utils.h],
    [azure_c_shared_utility/sha.h] and [azure_base64.h], not part of this
    repository).  [None] is an error return. *)
Class HashLibrary := {
  USHAContext : Type;
  ADUC_HashUtils_GetShaVersionForTypeString : list byte -> option SHAversion;
  USHAReset : SHAversion -> option USHAContext;
  USHAInput : USHAContext -> list byte -> option USHAContext;
  USHAResult : USHAContext -> option (list byte);
  Azure_Base64_Encode_Bytes : list byte -> option (list byte)
}.

Record ADUC_Hash := mkHash {
  hash_value : option (list byte);
  hash_type : option (list byte)
}.

Record ADUC_FileEntity := mkFileEntity {
  HashCount : nat;
  Hash : list ADUC_Hash;
  SizeInBytes : Z
}.

Definition ADUC_HashUtils_GetHashType (hashArray : list ADUC_Hash)
    (arraySize index : nat) : option (list byte) :=
  if Nat.leb arraySize index then None
  else match nth_error hashArray index with
       | Some h => hash_type h
       | None => None
       end.

Definition ADUC_HashUtils_GetHashValue (hashArray : list ADUC_Hash)
    (arraySize index : nat) : option (list byte) :=
  if Nat.leb arraySize index then None
  else match nth_error hashArray index with
       | Some h => hash_value h
       | None => None
       end.

(** [strcmp(a, b) == 0]. *)
Definition strcmp_eqb (a b : list byte) : bool :=
  bytes_eqb (firstn (strlen a) a) (firstn (strlen b) b).

Section Verifier.
Context {H : HashLibrary}.

(** "First or middle chunks which align on read block boundary": the
    loop leaves [fwu_offset], [fwu_rmn] and the hash context. *)
Fixpoint read_aligned_blocks (fuel : nat) (readblock_size : Z)
    (fwu_offset fwu_rmn : Z) (shaCtx : USHAContext)
  : M (Z * Z * USHAContext) :=
  match fuel with
  | O => raise OutOfFuel
  | S fuel' =>
      if fwu_rmn =? 0 then ret (fwu_offset, fwu_rmn, shaCtx)
      else
        let fwu_todo :=
          if readblock_size <? fwu_rmn then readblock_size else fwu_rmn in
        if fwu_todo <? readblock_size
        then ret (fwu_offset, fwu_rmn, shaCtx)
        else
          '(rc_bd, fwu_data) <- on_secondary (bd_read fwu_offset fwu_todo) ;;
          if negb (rc_bd =? 0) then goto_failure
          else
            match USHAInput shaCtx (firstn (Z.to_nat fwu_todo) fwu_data) with
            | None => goto_failure
            | Some shaCtx' =>
                read_aligned_blocks fuel' readblock_size
                  (SizeT.add fwu_offset fwu_todo)
                  (SizeT.sub fwu_rmn fwu_todo) shaCtx'
            end
  end.

(** "Last chunk which doesn't align on read block boundary". *)
Definition read_last_block (readblock_size fwu_offset fwu_rmn : Z)
    (shaCtx : USHAContext) : M USHAContext :=
  if fwu_rmn =? 0 then ret shaCtx
  else
    let fwu_todo := fwu_rmn in
    MBED_ASSERT (fwu_todo <? readblock_size) ;;
    '(rc_bd, fwu_data) <- on_secondary (bd_read fwu_offset readblock_size) ;;
    if negb (rc_bd =? 0) then goto_failure
    else
      match USHAInput shaCtx (firstn (Z.to_nat fwu_todo) fwu_data) with
      | None => goto_failure
      | Some shaCtx' => ret shaCtx'
      end.

Definition VerifySignature_body (fileEntity : ADUC_FileEntity) : M unit :=
  otaCtx_inst <- the_ctx ;;
  if Nat.eqb (HashCount fileEntity) 0 then ret tt
  else
    match ADUC_HashUtils_GetHashType (Hash fileEntity)
                                     (HashCount fileEntity) 0 with
    | None => goto_failure
    | Some hashType =>
    match ADUC_HashUtils_GetShaVersionForTypeString hashType with
    | None => goto_failure
    | Some shaVersion =>
    match USHAReset shaVersion with
    | None => goto_failure
    | Some shaCtx =>
        MBED_ASSERT (secondary_bd otaCtx_inst) ;;
        MBED_ASSERT (secondary_bd_inited otaCtx_inst) ;;
        MBED_ASSERT (secondary_bd_readblock otaCtx_inst) ;;
        MBED_ASSERT (negb (secondary_bd_readblock_size otaCtx_inst =? 0)) ;;
        let readblock_size := secondary_bd_readblock_size otaCtx_inst in
        let fwu_rmn := SizeInBytes fileEntity in
        '(fwu_offset, fwu_rmn, shaCtx) <-
           read_aligned_blocks (S (Z.to_nat fwu_rmn)) readblock_size
                               0 fwu_rmn shaCtx ;;
        shaCtx <- read_last_block readblock_size fwu_offset fwu_rmn shaCtx ;;
        match USHAResult shaCtx with
        | None => goto_failure
        | Some shaDigest =>
        match Azure_Base64_Encode_Bytes shaDigest with
        | None => goto_failure
        | Some h_shaDigestBase64 =>
        match ADUC_HashUtils_GetHashValue (Hash fileEntity)
                                          (HashCount fileEntity) 0 with
        | None => goto_failure
        | Some hashValueBase64 =>
            if negb (strcmp_eqb hashValueBase64 h_shaDigestBase64)
            then goto_failure
            else ret tt
        end end end
    end end end.

Definition VerifySignature (fileEntity : ADUC_FileEntity) (d : Device)
  : outcome bool * Device :=
  match VerifySignature_body fileEntity d with
  | (inl _, d') => (Returns true, d')
  | (inr ExitFailure, d') => (Returns false, d')
  | (inr (ExitFault f), d') => (Faults f, d')
  end.
End Verifier.

(* ================================================================= *)
(** ** Content-handler operations *)

(** What the handler asks of the workflow ([aduc/workflow_utils.h], not
    part of this repository). *)
Record Workflow := mkWorkflow {
  wf_cancel_requested : bool;
  wf_request_cancel_ok : bool;
  wf_update_files_count : Z;
  wf_update_file : option ADUC_FileEntity;
  wf_installed_criteria : option (list byte);
  wf_reboot_requested : bool
}.

Definition workflow_request_cancel (wf : Workflow) : bool * Workflow :=
  if wf_request_cancel_ok wf
  then (true, mkWorkflow true (wf_request_cancel_ok wf)
                         (wf_update_files_count wf) (wf_update_file wf)
                         (wf_installed_criteria wf) (wf_reboot_requested wf))
  else (false, wf).

Definition workflow_request_reboot (wf : Workflow) : Workflow :=
  mkWorkflow (wf_cancel_requested wf) (wf_request_cancel_ok wf)
             (wf_update_files_count wf) (wf_update_file wf)
             (wf_installed_criteria wf) true.

(** [IsNullOrEmpty] on an optional C string. *)
Definition IsNullOrEmpty (s : option (list byte)) : bool :=
  match s with
  | None => true
  | Some s => Nat.eqb (strlen s) 0
  end.

Definition Cancel (wf : Workflow) : ADUC_ResultCode * Workflow :=
  match workflow_request_cancel wf with
  | (true, wf') => (ADUC_Result_Cancel_Success, wf')
  | (false, wf') => (ADUC_Result_Cancel_UnableToCancel, wf')
  end.

Definition Apply (wf : Workflow) (d : Device)
  : ADUC_ResultCode * Workflow * Device :=
  let installedCriteria := wf_installed_criteria wf in
  if IsNullOrEmpty installedCriteria then (ADUC_Result_Failure, wf, d)
  else if wf_cancel_requested wf
  then let '(result, wf') := Cancel wf in (result, wf', d)
  else
    let '(ok, kv) :=
      nvImgUpgSt_setStageInstalledCriteria
        (match installedCriteria with Some s => s | None => [] end)
        (nvstore d) in
    let d := with_nvstore kv d in
    if negb ok then (ADUC_Result_Failure, wf, d)
    else
      let '(rc, bl) := boot_set_pending false (bootloader d) in
      let d := with_bootloader bl d in
      if negb (rc =? 0) then (ADUC_Result_Failure, wf, d)
      else
        let '(ok, kv) := nvImgUpgSt_setInstallRebooted false (nvstore d) in
        let d := with_nvstore kv d in
        if negb ok then (ADUC_Result_Failure, wf, d)
        else (ADUC_Result_Apply_RequiredReboot, workflow_request_reboot wf, d).

Definition IsInstalled (wf : Workflow) (d : Device) : ADUC_ResultCode :=
  let installedCriteria := wf_installed_criteria wf in
  if IsNullOrEmpty installedCriteria then ADUC_Result_Failure
  else
    match nvImgUpgSt_persistentInstalledCriteria
            (INSTALLEDCRITERIA_MAXCHAR + 1) (nvstore d) with
    | None => ADUC_Result_IsInstalled_NotInstalled
    | Some installedCriteria_persistent =>
        if strcmp_eqb
             (match installedCriteria with Some s => s | None => [] end)
             installedCriteria_persistent
        then ADUC_Result_IsInstalled_Installed
        else ADUC_Result_IsInstalled_NotInstalled
    end.

(** The HTTP(S) request of [Download]: the body chunks with the answer of
    [workflow_is_cancel_requested] at each callback, whether [send]
    returned a response, and the cancel flag seen after [send]. *)
Record Transport := mkTransport {
  http_chunks : list (bool * list byte);
  http_response_null : bool;
  cancel_after_send : bool
}.

Section Download.
Context {H : HashLibrary}.

Definition Download (wf : Workflow) (tr : Transport) (d : Device)
  : outcome ADUC_ResultCode * Workflow * Device :=
  if wf_cancel_requested wf
  then let '(result, wf') := Cancel wf in (Returns result, wf', d)
  else if negb (wf_update_files_count wf =? 1)
  then (Returns ADUC_Result_Failure, wf, d)
  else
    match wf_update_file wf with
    | None => (Returns ADUC_Result_Failure, wf, d)
    | Some fileEntity =>
        let '(ok, d) := OTACtx_Reinit d in
        if negb ok then (Returns ADUC_Result_Failure, wf, d)
        else
          match otaCtx_opaque d with
          | None => (Faults AssertFailed, wf, d)
          | Some otaCtx_inst =>
              let header := primary_header (bootloader d) in
              if negb (ih_magic_ok header)
              then (Returns ADUC_Result_Failure, wf, d)
              else
                let otaCtx_inst :=
                  mkCtx (firstn sizeof_image_header header)
                        (fwu_stage_image_header otaCtx_inst)
                        (secondary_bd otaCtx_inst)
                        (secondary_bd_inited otaCtx_inst)
                        (secondary_bd_progunit otaCtx_inst)
                        (secondary_bd_progunit_size otaCtx_inst)
                        (secondary_bd_readblock otaCtx_inst)
                        (secondary_bd_readblock_size otaCtx_inst)
                        0 (SizeInBytes fileEntity) 0 in
                let d := with_ctx (Some otaCtx_inst) d in
                match http_body (http_chunks tr)
                                ADUC_Result_Download_Success d with
                | (Faults f, d) => (Faults f, wf, d)
                | (Returns result, d) =>
                    if http_response_null tr && negb (cancel_after_send tr)
                    then (Returns ADUC_Result_Failure, wf, d)
                    else if cancel_after_send tr
                    then let '(result, wf') := Cancel wf in
                         (Returns result, wf', d)
                    else if IsAducResultCodeFailure result
                    then (Returns result, wf, d)
                    else
                      match otaCtx_opaque d with
                      | None => (Faults AssertFailed, wf, d)
                      | Some otaCtx_inst =>
                          let total_act := dl_prog_offset otaCtx_inst in
                          let d :=
                            with_ctx
                              (Some (with_dl_prog
                                       (dl_prog_offset otaCtx_inst)
                                       (dl_prog_total_exp otaCtx_inst)
                                       total_act otaCtx_inst)) d in
                          if negb (total_act
                                   =? dl_prog_total_exp otaCtx_inst)
                          then (Returns ADUC_Result_Failure, wf, d)
                          else
                            match VerifySignature fileEntity d with
                            | (Faults f, d) => (Faults f, wf, d)
                            | (Returns true, d) => (Returns result, wf, d)
                            | (Returns false, d) =>
                                (Returns ADUC_Result_Failure, wf, d)
                            end
                      end
                end
          end
    end.
End Download.

(* ================================================================= *)
(** ** Vocabulary of the statements *)

(** The device answers every request with success. *)
Definition all_served (bd : BlockDevice) : Prop :=
  forall rq, bd_rejects bd rq = false.

(** The operation context as [OTACtx_Reinit] leaves it when both of its
    allocations succeed (it tests neither), on a device whose read block
    is a whole number of program units: the device is there and
    initialised, the program-unit buffer and the read-block buffer are
    not null, and the sizes are positive. *)
Definition writer_ready (c : OTA_OperationContext_t) : Prop :=
  secondary_bd c = true
  /\ secondary_bd_inited c = true
  /\ secondary_bd_progunit c = true
  /\ secondary_bd_readblock c = true
  /\ 0 < secondary_bd_progunit_size c
  /\ 0 < secondary_bd_readblock_size c
  /\ secondary_bd_readblock_size c mod secondary_bd_progunit_size c = 0.

(** Two contexts that differ at most in the cached stage header and the
    download progress. *)
Definition same_config (c c' : OTA_OperationContext_t) : Prop :=
  fwu_active_image_header c' = fwu_active_image_header c
  /\ secondary_bd c' = secondary_bd c
  /\ secondary_bd_inited c' = secondary_bd_inited c
  /\ secondary_bd_progunit c' = secondary_bd_progunit c
  /\ secondary_bd_progunit_size c' = secondary_bd_progunit_size c
  /\ secondary_bd_readblock c' = secondary_bd_readblock c
  /\ secondary_bd_readblock_size c' = secondary_bd_readblock_size c.

(** [bd'] is [bd] after [n] bytes of [data] went to address [addr]:
    those bytes are read back, every other byte is as before, and the
    device serves what it served. *)
Definition bd_wrote (bd bd' : BlockDevice) (addr n : Z) (data : list byte)
  : Prop :=
  (forall a, bd_mem bd' a = bd_poke (bd_mem bd) addr n data a)
  /\ bd_rejects bd' = bd_rejects bd.

(** A step that leaves the operation context and the store alone. *)
Definition keeps_handler {A : Type} (m : M A) : Prop :=
  forall d, otaCtx_opaque (snd (m d)) = otaCtx_opaque d
            /\ nvstore (snd (m d)) = nvstore d.

(** The chunks that reach [CombinedDownloadInstall] when no earlier call
    has failed: those delivered with no cancel request pending. *)
Definition delivered (chunks : list (bool * list byte)) : list (list byte) :=
  map snd (filter (fun ch => negb (fst ch)) chunks).

(** A body delivered with no cancel request. *)
Definition uncancelled (chunks : list (list byte)) : list (bool * list byte) :=
  map (fun dl_data => (false, dl_data)) chunks.

(* ================================================================= *)
(** ** Vocabulary of the handler-level properties *)

(** The updates of the stored record, as one type. *)
Inductive nv_update :=
| NvReset (includeReserved : bool)
| NvSetStageVersion (stageVersion : list byte)
| NvSetInstallRebooted (installRebooted : bool)
| NvSetStageInstalledCriteria (installedCriteria : list byte)
| NvSettleInstalledCriteria.

Definition nv_apply (u : nv_update) : KVStore -> bool * KVStore :=
  match u with
  | NvReset includeReserved => nvImgUpgSt_reset includeReserved
  | NvSetStageVersion stageVersion => nvImgUpgSt_setStageVersion stageVersion
  | NvSetInstallRebooted installRebooted =>
      nvImgUpgSt_setInstallRebooted installRebooted
  | NvSetStageInstalledCriteria installedCriteria =>
      nvImgUpgSt_setStageInstalledCriteria installedCriteria
  | NvSettleInstalledCriteria => nvImgUpgSt_settleInstalledCriteria
  end.

(** The persistent installed criteria read the same from both stores. *)
Definition same_persistent (kv kv' : KVStore) : Prop :=
  forall n, nvImgUpgSt_persistentInstalledCriteria n kv'
            = nvImgUpgSt_persistentInstalledCriteria n kv.

(** Whatever record the store [kv] returns, the store [kv'] returns a
    record with the same reserved part (the persistent installed
    criteria and their flag). *)
Definition keeps_reserved (kv kv' : KVStore) : Prop :=
  forall st,
    nvImgUpgSt_getAll kv = Some st ->
    exists st',
      nvImgUpgSt_getAll kv' = Some st'
      /\ skipn offsetof_reserved st' = skipn offsetof_reserved st.

(** The C string at the start of [buf], its terminator included. *)
Definition c_string (buf : list byte) : list byte :=
  firstn (strlen buf + 1) buf.

(** A store that answers reads and writes and holds the record [st]. *)
Definition stored (kv : KVStore) (st : list byte) : Prop :=
  nvImgUpgSt_getAll kv = Some st /\ kv_set_fault kv = false.

(** [m] moves the device along [R] and, when it returns a value, returns
    one that satisfies [post]. *)
Definition runs {A : Type} (R : Device -> Device -> Prop) (post : A -> Prop)
    (m : M A) : Prop :=
  forall d, R d (snd (m d)) /\ forall a, fst (m d) = inl a -> post a.

(** The requests made between [d] and [d'] all satisfy [Q]. *)
Definition requests_since (Q : bd_request -> Prop) (d d' : Device) : Prop :=
  exists new, bd_log (secondary d') = new ++ bd_log (secondary d)
              /\ Forall Q new.

(** What the device asks of a request of the writer: whole read blocks at
    read-block boundaries, whole program units at unit boundaries. *)
Definition aligned_request (P R : Z) (rq : bd_request) : Prop :=
  match rq with
  | BdRead addr size => size = R /\ addr mod R = 0
  | BdProgram addr size => 0 < size /\ addr mod P = 0 /\ size mod P = 0
  | _ => False
  end.

(** The cursor stays inside the 32-bit range. *)
Definition in_range (P : Z) (c : Cursor) : Prop :=
  0 <= fwu_offset c /\ 0 <= fwu_rmn c
  /\ fwu_offset c + fwu_rmn c + P <= 2 ^ 32.

(** Nothing is left, or the cursor stands at a unit boundary. *)
Definition at_boundary (P : Z) (c : Cursor) : Prop :=
  fwu_rmn c = 0 \/ fwu_offset c mod P = 0.

Definition is_read (rq : bd_request) : Prop :=
  match rq with BdRead _ _ => True | _ => False end.

(** [d'] is [d] after reads of the secondary device and nothing else. *)
Definition only_reads (d d' : Device) : Prop :=
  otaCtx_opaque d' = otaCtx_opaque d
  /\ nvstore d' = nvstore d
  /\ bootloader d' = bootloader d
  /\ bd_mem (secondary d') = bd_mem (secondary d)
  /\ requests_since is_read d d'.

(** The operation context [OTACtx_Reinit] builds for a device with the
    given geometry. *)
Definition fresh_ctx (d : Device) : OTA_OperationContext_t :=
  let progunit_size := SizeT.wrap (bd_program_size (secondary d)) in
  let read_size := SizeT.wrap (bd_read_size (secondary d)) in
  let readblock_size :=
    if FWU_READ_BLOCK_DEFSIZE <? read_size then read_size
    else FWU_READ_BLOCK_DEFSIZE in
  mkCtx (repeat x00 sizeof_image_header) (repeat x00 sizeof_image_header)
        true true
        (negb (malloc_null d progunit_size)) progunit_size
        (negb (malloc_null d readblock_size)) readblock_size
        0 0 0.

(** Two devices that differ in contents and request log only. *)
Definition same_geometry (bd bd' : BlockDevice) : Prop :=
  bd_rejects bd' = bd_rejects bd
  /\ bd_program_size bd' = bd_program_size bd
  /\ bd_read_size bd' = bd_read_size bd
  /\ bd_size bd' = bd_size bd
  /\ bd_erase_value bd' = bd_erase_value bd.

Definition keeps_geometry (d d' : Device) : Prop :=
  same_geometry (secondary d) (secondary d').

Section VerifierVocabulary.
Context {H : HashLibrary}.

(** [USHAInput] consumes its input byte by byte: feeding a stream in two
    parts is feeding it at once, and an empty input changes nothing. *)
Definition USHA_streams : Prop :=
  (forall ctx, USHAInput ctx [] = Some ctx)
  /\ forall ctx a b,
       USHAInput ctx (a ++ b)
       = match USHAInput ctx a with
         | Some ctx' => USHAInput ctx' b
         | None => None
         end.

(** The digest of [image], taken at once with the hash type of the first
    entry of the file's hash array, encoded, equals the value of that
    entry. *)
Definition digest_matches (fileEntity : ADUC_FileEntity) (image : list byte)
  : bool :=
  match ADUC_HashUtils_GetHashType (Hash fileEntity)
                                   (HashCount fileEntity) 0 with
  | None => false
  | Some hashType =>
  match ADUC_HashUtils_GetShaVersionForTypeString hashType with
  | None => false
  | Some shaVersion =>
  match USHAReset shaVersion with
  | None => false
  | Some shaCtx =>
  match USHAInput shaCtx image with
  | None => false
  | Some shaCtx =>
  match USHAResult shaCtx with
  | None => false
  | Some shaDigest =>
  match Azure_Base64_Encode_Bytes shaDigest with
  | None => false
  | Some h_shaDigestBase64 =>
  match ADUC_HashUtils_GetHashValue (Hash fileEntity)
                                    (HashCount fileEntity) 0 with
  | None => false
  | Some hashValueBase64 => strcmp_eqb hashValueBase64 h_shaDigestBase64
  end end end end end end end.
End VerifierVocabulary.

(* ================================================================= *)
(** ** Sample configurations for the concrete checks *)

(** An erased device that serves every request. *)
Definition sample_bd (program_size read_size : Z) : BlockDevice :=
  mkBD (fun _ => xff) (fun _ => false) [] program_size read_size 4096 xff.

Definition sample_boot : Bootloader :=
  mkBoot ([x3d; xb8; xf3; x96] ++ repeat x00 28) 0 0 BOOT_FLAG_UNSET 0 0 false.

(** A store holding a zeroed record. *)
Definition sample_kv : KVStore := mkKV (Some (repeat x00 152)) false false.

(** A handler in the middle of a stage attempt at offset 0. *)
Definition sample_device (progunit_size readblock_size : Z) : Device :=
  mkDevice
    (Some (mkCtx (repeat x00 32) (repeat x00 32) true true
                 true progunit_size true readblock_size 0 0 0))
    (sample_bd progunit_size 1) false (fun _ => false) sample_kv sample_boot.

(** A handler that has not staged anything, on a board without a record. *)
Definition fresh_device (program_size : Z) : Device :=
  mkDevice None (sample_bd program_size 1) false (fun _ => false)
           (mkKV None false false) sample_boot.

(** A valid image header: the magic, then version 2.0.0+0 at [ih_ver]. *)
Definition sample_header : list byte :=
  [x3d; xb8; xf3; x96] ++ repeat x00 16 ++ [x02; x00; x00; x00]
  ++ repeat x00 8.

(** A stand-in hash library: the digest of a stream is the stream, and
    the encoding is the identity. *)
#[local] Instance sample_hash : HashLibrary := {
  USHAContext := list byte;
  ADUC_HashUtils_GetShaVersionForTypeString := fun _ => Some SHA256;
  USHAReset := fun _ => Some [];
  USHAInput := fun ctx data => Some (ctx ++ data);
  USHAResult := fun ctx => Some ctx;
  Azure_Base64_Encode_Bytes := fun digest => Some digest
}.

(** Further sample configurations. *)

(** A store after a stage and an apply of criteria "v" for the sample image. *)
Definition sample_applied_kv : KVStore :=
  snd (nvImgUpgSt_setInstallRebooted false
         (snd (nvImgUpgSt_setStageInstalledCriteria [x76]
                 (snd (nvImgUpgSt_setStageVersion (ih_ver sample_header)
                         sample_kv))))).

(** The bootloader state after the swap to the sample image, unconfirmed. *)
Definition sample_swapped_boot : Bootloader :=
  mkBoot sample_header 0 0 BOOT_FLAG_UNSET 0 0 false.

(** A 34-byte image with a valid header, its file entity under the
    stand-in hash library, and a transport that delivers it in two
    chunks. *)
Definition sample_image : list byte := sample_header ++ [x41; x42].

Definition sample_file : ADUC_FileEntity :=
  mkFileEntity 1 [mkHash (Some sample_image) (Some [x73])] 34.

Definition sample_workflow : Workflow :=
  mkWorkflow false true 1 (Some sample_file) (Some [x76; x32]) false.

Definition sample_chunks : list (list byte) :=
  [firstn 20 sample_image; skipn 20 sample_image].

Definition sample_transport : Transport :=
  mkTransport (uncancelled sample_chunks) false false.

(* ================================================================= *)
(** ** The extension manager and the manifest handler lookup

    [extension_manager.cpp] and the static [GetUpdateManifestHandler]
    of [mbed_adu_core_impl.cpp]: the code that creates the update
    handler objects, [MCUbUpdateHandlerImpl::CreateContentHandler]
    included.

    Conventions.
    - A [ContentHandler*] is a [nat]: [nullptr] is 0 and the object at
      [S n] is entry [n] of the list of objects ever created; [new]
      appends to that list.  [delete] marks the object.
    - [std::unordered_map<std::string, ContentHandler*>] is an
      association list with one entry per key; [emplace] leaves an
      existing entry alone.
    - The values of [aduc/result.h] are those of the library: the
      failure codes are 0, [ADUC_GeneralResult_Success] is 1, a code is
      a success when positive and a failure otherwise.
    - [COMPONENT_AZIOT_OTA_PAL_MCUBOOT] is the build flag of the same
      name, a parameter.
    - [StepsHandlerImpl::CreateContentHandler], which is not part of
      these sources, creates an object as
      [MCUbUpdateHandlerImpl::CreateContentHandler] does.  What a
      handler object holds besides its contract is the [Device] of the
      first part. *)

Module ExtensionManager.
Import String.

Definition ADUC_Result_Failure : Z := 0.
Definition ADUC_GeneralResult_Failure : Z := 0.
Definition ADUC_GeneralResult_Success : Z := 1.

Definition IsAducResultCodeSuccess (resultCode : Z) : bool := 0 <? resultCode.
Definition IsAducResultCodeFailure (resultCode : Z) : bool := resultCode <=? 0.

(** The extended result codes the two files assign; [ERC_ZERO] is the
    zero of an [ADUC_Result] initialised with its result code only. *)
Inductive ADUC_ExtendedResultCode :=
| ERC_ZERO
| ADUC_ERC_EXTENSION_CREATE_FAILURE_INVALID_ARG
| ADUC_ERC_UPDATE_CONTENT_HANDLER_CREATE_FAILURE_CREATE
| ADUC_ERC_UTILITIES_UPDATE_DATA_PARSER_UNSUPPORTED_UPDATE_MANIFEST_VERSION.

Record ADUC_Result := mkResult {
  ResultCode : Z;
  ExtendedResultCode : ADUC_ExtendedResultCode
}.

Definition ADUC_V1_CONTRACT_MAJOR_VER : Z := 1.
Definition ADUC_V1_CONTRACT_MINOR_VER : Z := 0.

Record ADUC_ExtensionContractInfo := mkContractInfo {
  majorVer : Z;
  minorVer : Z
}.

(** The classes of handler object: the two the manager creates itself,
    and whatever a caller registers. *)
Inductive handler_class :=
| StepsHandlerImpl
| MCUbUpdateHandlerImpl
| OtherContentHandler.

(** A handler object, as far as the manager touches it. *)
Record ContentHandler := mkContentHandler {
  class_of : handler_class;
  contractInfo : option ADUC_ExtensionContractInfo;
  deleted : bool
}.

Definition nullptr : nat := 0%nat.

(** The static [_contentHandlers] and the objects created so far. *)
Record Manager := mkManager {
  _contentHandlers : list (string * nat);
  objects : list ContentHandler
}.

(** *** [std::unordered_map] *)

Definition count (key : string) (m : list (string * nat)) : nat :=
  if existsb (fun e => String.eqb (fst e) key) m then 1%nat else 0%nat.

(** [at]; it is called for a key that is present only. *)
Definition at_ (key : string) (m : list (string * nat)) : nat :=
  match find (fun e => String.eqb (fst e) key) m with
  | Some e => snd e
  | None => nullptr
  end.

Definition emplace (key : string) (value : nat) (m : list (string * nat))
  : list (string * nat) :=
  if existsb (fun e => String.eqb (fst e) key) m then m
  else m ++ [(key, value)].

Definition erase (key : string) (m : list (string * nat))
  : list (string * nat) :=
  filter (fun e => negb (String.eqb (fst e) key)) m.

(** *** Objects *)

Definition deref (p : nat) (objs : list ContentHandler)
  : option ContentHandler :=
  match p with
  | O => None
  | S n => nth_error objs n
  end.

Fixpoint update_object (n : nat) (f : ContentHandler -> ContentHandler)
    (objs : list ContentHandler) : list ContentHandler :=
  match objs, n with
  | [], _ => []
  | o :: rest, O => f o :: rest
  | o :: rest, S n => o :: update_object n f rest
  end.

(** A method call on [p] that changes the object by [f]. *)
Definition on_object (p : nat) (f : ContentHandler -> ContentHandler)
    (objs : list ContentHandler) : list ContentHandler :=
  match p with
  | O => objs
  | S n => update_object n f objs
  end.

(** [new C()]: the object is appended, its address is not null. *)
Definition new_handler (c : handler_class) (objs : list ContentHandler)
  : nat * list ContentHandler :=
  (S (List.length objs), objs ++ [mkContentHandler c None false]).

Definition SetContractInfo (info : ADUC_ExtensionContractInfo)
    (o : ContentHandler) : ContentHandler :=
  mkContentHandler (class_of o) (Some info) (deleted o).

Definition delete (o : ContentHandler) : ContentHandler :=
  mkContentHandler (class_of o) (contractInfo o) true.

(** The update types served by the steps handler. *)
Definition steps_update_type (updateType : string) : bool :=
  String.eqb updateType "microsoft/steps:1"
  || String.eqb updateType "microsoft/update-manifest"
  || String.eqb updateType "microsoft/update-manifest:4"
  || String.eqb updateType "microsoft/update-manifest:5".

Section Build.
Variable COMPONENT_AZIOT_OTA_PAL_MCUBOOT : bool.

(** [ExtensionManager::LoadUpdateContentHandlerExtension].
    [handler_null] tells whether the out-parameter [handler] is null;
    the second component of the value is [*handler] on return
    ([nullptr] when there is no [*handler]). *)
Definition LoadUpdateContentHandlerExtension (updateType : string)
    (handler_null : bool) (s : Manager) : ADUC_Result * nat * Manager :=
  let result := mkResult ADUC_Result_Failure ERC_ZERO in
  if handler_null then
    (mkResult (ResultCode result)
              ADUC_ERC_EXTENSION_CREATE_FAILURE_INVALID_ARG, nullptr, s)
  else
  (* Try to find cached handler. *)
  let handler := nullptr in
  let handler :=
    if (0 <? count updateType (_contentHandlers s))%nat
    then at_ updateType (_contentHandlers s) else handler in
  if IsAducResultCodeSuccess (ResultCode result)
     && negb (handler =? nullptr)%nat
  then (result, handler, s)
  else
  let '(handler, objs) :=
    if steps_update_type updateType
    then new_handler StepsHandlerImpl (objects s)
    else if COMPONENT_AZIOT_OTA_PAL_MCUBOOT
            && String.eqb updateType "nuvoton/mcubupdate:1"
    then new_handler MCUbUpdateHandlerImpl (objects s)
    else (handler, objects s) in
  if (handler =? nullptr)%nat then
    (mkResult ADUC_GeneralResult_Failure
              ADUC_ERC_UPDATE_CONTENT_HANDLER_CREATE_FAILURE_CREATE,
     handler, mkManager (_contentHandlers s) objs)
  else
  let contractInfo :=
    mkContractInfo ADUC_V1_CONTRACT_MAJOR_VER ADUC_V1_CONTRACT_MINOR_VER in
  let objs := on_object handler (SetContractInfo contractInfo) objs in
  let m := emplace updateType handler (_contentHandlers s) in
  (mkResult ADUC_GeneralResult_Success ERC_ZERO, handler, mkManager m objs).

(** [ExtensionManager::SetUpdateContentHandlerExtension]. *)
Definition SetUpdateContentHandlerExtension (updateType : string)
    (handler : nat) (s : Manager) : ADUC_Result * Manager :=
  let result := mkResult ADUC_Result_Failure ERC_ZERO in
  if (handler =? nullptr)%nat then
    (mkResult (ResultCode result)
              ADUC_ERC_EXTENSION_CREATE_FAILURE_INVALID_ARG, s)
  else
  (* Remove existing one. *)
  let m := erase updateType (_contentHandlers s) in
  let m := emplace updateType handler m in
  (mkResult ADUC_GeneralResult_Success ERC_ZERO, mkManager m (objects s)).

(** [ExtensionManager::UnloadAllUpdateContentHandlers]. *)
Definition UnloadAllUpdateContentHandlers (s : Manager) : Manager :=
  mkManager []
    (fold_left (fun objs e => on_object (snd e) delete objs)
               (_contentHandlers s) (objects s)).

(** [ExtensionManager::UnloadAllExtensions] and [ExtensionManager::Uninit]. *)
Definition UnloadAllExtensions (s : Manager) : Manager :=
  UnloadAllUpdateContentHandlers s.

Definition Uninit (s : Manager) : Manager := UnloadAllExtensions s.

(** *** [GetUpdateManifestHandler] ([mbed_adu_core_impl.cpp]) *)

Definition UPDATE_MANIFEST_DEFAULT_HANDLER : string :=
  "microsoft/update-manifest".

(** [ADUC_StringFormat("microsoft/update-manifest:%d", n)]. *)
Definition update_manifest_handler_name (updateManifestVersion : Z)
  : string :=
  "microsoft/update-manifest:"
  ++ DecimalString.NilZero.string_of_int (Z.to_int updateManifestVersion).

(** [updateManifestVersion] is what
    [workflow_get_update_manifest_version] answers, [result] the value
    of [*result] at the call.  The value is the handler returned, then
    [*result] on return. *)
Definition GetUpdateManifestHandler (updateManifestVersion : Z)
    (result : ADUC_Result) (s : Manager) : nat * ADUC_Result * Manager :=
  let contentHandler := nullptr in
  let '(loadResult, contentHandler, s) :=
    if 4 <=? updateManifestVersion then
      let updateManifestHandler :=
        update_manifest_handler_name updateManifestVersion in
      let '(loadResult, contentHandler, s) :=
        LoadUpdateContentHandlerExtension updateManifestHandler false s in
      (* If handler for the current manifest version is not available,
         fallback to the V4 default handler. *)
      if IsAducResultCodeFailure (ResultCode loadResult)
      then LoadUpdateContentHandlerExtension
             UPDATE_MANIFEST_DEFAULT_HANDLER false s
      else (loadResult, contentHandler, s)
    else
      (mkResult ADUC_Result_Failure
         ADUC_ERC_UTILITIES_UPDATE_DATA_PARSER_UNSUPPORTED_UPDATE_MANIFEST_VERSION,
       contentHandler, s) in
  if IsAducResultCodeFailure (ResultCode loadResult)
  then (nullptr, loadResult, s)
  else (contentHandler, result, s).

End Build.

(** *** Vocabulary of the properties *)

(** The handler the cache holds for [updateType]. *)
Definition cached (updateType : string) (s : Manager) : option nat :=
  option_map snd
    (find (fun e => String.eqb (fst e) updateType) (_contentHandlers s)).

(** The update types the manager creates a handler for. *)
Definition built_in (mcuboot : bool) (updateType : string) : bool :=
  steps_update_type updateType
  || mcuboot && String.eqb updateType "nuvoton/mcubupdate:1".

(** One entry per update type, none of them null. *)
Definition cache_ok (s : Manager) : Prop :=
  NoDup (map fst (_contentHandlers s))
  /\ Forall (fun e => snd e <> nullptr) (_contentHandlers s).

(** The cached handlers are objects created so far. *)
Definition cache_valid (s : Manager) : Prop :=
  Forall (fun e => (snd e <= List.length (objects s))%nat)
         (_contentHandlers s).

(** The requests a client makes of the manager, as one type. *)
Inductive request :=
| Load (updateType : string)
| Register (updateType : string) (handler : nat)
| UnloadAll.

Definition serve (mcuboot : bool) (s : Manager) (rq : request) : Manager :=
  match rq with
  | Load updateType =>
      snd (LoadUpdateContentHandlerExtension mcuboot updateType false s)
  | Register updateType handler =>
      snd (SetUpdateContentHandlerExtension updateType handler s)
  | UnloadAll => UnloadAllUpdateContentHandlers s
  end.

(** The manager at start-up. *)
Definition initial : Manager := mkManager [] [].

(** The update type of this handler. *)
Definition mcubupdate_type : string := "nuvoton/mcubupdate:1".

End ExtensionManager.

(* ================================================================= *)
(** * Properties *)

(* ----------------------------------------------------------------- *)
(** ** Buffers *)

Section BufferFacts.
Local Open Scope nat_scope.

Lemma memcpy_at_length (dst src : list byte) (pos n : nat) :
  n <= length src -> pos + n <= length dst ->
  length (memcpy_at dst pos src n) = length dst.
Proof.
  intros Hs Hd. unfold memcpy_at.
  rewrite !length_app, length_firstn, length_firstn, length_skipn. lia.
Qed.

Lemma memcpy_at_nth_before (dst src : list byte) (pos n i : nat) (d : byte) :
  pos <= length dst -> i < pos ->
  nth i (memcpy_at dst pos src n) d = nth i dst d.
Proof.
  intros Hp Hi. unfold memcpy_at.
  rewrite app_nth1 by (rewrite length_firstn; lia).
  rewrite <- (firstn_skipn pos dst) at 2.
  rewrite app_nth1 by (rewrite length_firstn; lia). reflexivity.
Qed.

Lemma memcpy_at_nth_inside (dst src : list byte) (pos n i : nat) (d : byte) :
  pos <= length dst -> n <= length src -> pos <= i < pos + n ->
  nth i (memcpy_at dst pos src n) d = nth (i - pos) src d.
Proof.
  intros Hp Hs Hi. unfold memcpy_at.
  rewrite app_nth2 by (rewrite length_firstn; lia).
  rewrite length_firstn, Nat.min_l by lia.
  rewrite app_nth1 by (rewrite length_firstn; lia).
  rewrite <- (firstn_skipn n src) at 2.
  rewrite app_nth1 by (rewrite length_firstn; lia). reflexivity.
Qed.

Lemma memcpy_at_nth_after (dst src : list byte) (pos n i : nat) (d : byte) :
  n <= length src -> pos + n <= length dst -> pos + n <= i ->
  nth i (memcpy_at dst pos src n) d = nth i dst d.
Proof.
  intros Hs Hd Hi. unfold memcpy_at.
  rewrite app_nth2 by (rewrite length_firstn; lia).
  rewrite length_firstn, Nat.min_l by lia.
  rewrite app_nth2 by (rewrite length_firstn; lia).
  rewrite length_firstn, Nat.min_l by lia.
  rewrite nth_skipn. f_equal. lia.
Qed.

Lemma memset_length (buf : list byte) (c : byte) (n : nat) :
  n <= length buf -> length (memset buf c n) = length buf.
Proof.
  intros Hn. unfold memset.
  rewrite length_app, repeat_length, length_skipn. lia.
Qed.

Lemma memset_nth_inside (buf : list byte) (c d : byte) (n i : nat) :
  i < n -> nth i (memset buf c n) d = c.
Proof.
  intros Hi. unfold memset.
  rewrite app_nth1 by (rewrite repeat_length; lia).
  apply nth_repeat_lt. exact Hi.
Qed.

Lemma memset_nth_after (buf : list byte) (c d : byte) (n i : nat) :
  n <= i -> nth i (memset buf c n) d = nth i buf d.
Proof.
  intros Hi. unfold memset.
  rewrite app_nth2 by (rewrite repeat_length; lia).
  rewrite repeat_length, nth_skipn. f_equal. lia.
Qed.

Lemma store_bool_length (off : nat) (v : bool) (st : list byte) :
  off < length st -> length (store_bool off v st) = length st.
Proof.
  intros Ho. unfold store_bool. apply memcpy_at_length; simpl; lia.
Qed.

Lemma store_bool_nth_other (off i : nat) (v : bool) (st : list byte)
    (d : byte) :
  off < length st -> i <> off ->
  nth i (store_bool off v st) d = nth i st d.
Proof.
  intros Ho Hi. unfold store_bool.
  destruct (Nat.lt_ge_cases i off).
  - apply memcpy_at_nth_before; lia.
  - apply memcpy_at_nth_after; simpl; lia.
Qed.

Lemma store_bool_field (off : nat) (v : bool) (st : list byte) :
  off < length st -> field_bool off (store_bool off v st) = v.
Proof.
  intros Ho. unfold field_bool, store_bool.
  rewrite memcpy_at_nth_inside by (simpl; lia).
  rewrite Nat.sub_diag. destruct v; reflexivity.
Qed.

Lemma store_bool_field_other (off off' : nat) (v : bool) (st : list byte) :
  off < length st -> off' <> off ->
  field_bool off' (store_bool off v st) = field_bool off' st.
Proof.
  intros Ho Hne. unfold field_bool.
  rewrite store_bool_nth_other by assumption. reflexivity.
Qed.

(** Two buffers of one length that agree at every index are equal. *)
Lemma bytes_ext (a b : list byte) :
  length a = length b ->
  (forall i, i < length a -> nth i a x00 = nth i b x00) -> a = b.
Proof.
  intros Hl Hn. apply (nth_ext a b x00 x00); assumption.
Qed.
End BufferFacts.

(* ----------------------------------------------------------------- *)
(** ** Persistent upgrade-state store *)

Section StoreFacts.
Local Open Scope nat_scope.

Lemma getAll_Some_inv (kv : KVStore) (st : list byte) :
  nvImgUpgSt_getAll kv = Some st ->
  kv_get_fault kv = false /\
  exists b, kv_blob kv = Some b /\ st = firstn sizeof_state b
            /\ sizeof_state <= length b.
Proof.
  unfold nvImgUpgSt_getAll, kv_get.
  destruct (kv_get_fault kv); [discriminate|].
  destruct (kv_blob kv) as [b|]; [|discriminate].
  destruct (Nat.eqb_spec (Nat.min sizeof_state (length b)) sizeof_state)
    as [Hm|Hm]; [|discriminate].
  intros [= <-]. split; [reflexivity|].
  exists b. repeat split. lia.
Qed.

Lemma getAll_length (kv : KVStore) (st : list byte) :
  nvImgUpgSt_getAll kv = Some st -> length st = sizeof_state.
Proof.
  intros Hg. destruct (getAll_Some_inv _ _ Hg) as (_ & b & _ & -> & Hl).
  rewrite length_firstn. lia.
Qed.

Lemma getAll_None_iff (kv : KVStore) :
  nvImgUpgSt_getAll kv = None <->
  (fst (fst (kv_get sizeof_state kv)) = MBED_ERROR
   \/ snd (kv_get sizeof_state kv) <> sizeof_state).
Proof.
  unfold nvImgUpgSt_getAll.
  destruct (kv_get sizeof_state kv) as [[s buf] actual]; simpl.
  destruct s.
  - destruct (Nat.eqb_spec actual sizeof_state); split; intros Hx;
      try discriminate; try reflexivity.
    + destruct Hx as [Hx|Hx]; [discriminate|contradiction].
    + right; assumption.
  - split; intros _; [left|]; reflexivity.
Qed.

Lemma setAll_fault (st : list byte) (kv : KVStore) :
  kv_set_fault kv = true -> nvImgUpgSt_setAll st kv = (false, kv).
Proof.
  intros Hf. unfold nvImgUpgSt_setAll, kv_set. rewrite Hf. reflexivity.
Qed.

Lemma setAll_ok (st : list byte) (kv : KVStore) :
  kv_set_fault kv = false -> length st = sizeof_state ->
  nvImgUpgSt_setAll st kv
  = (true, mkKV (Some st) (kv_get_fault kv) (kv_set_fault kv)).
Proof.
  intros Hf Hl. unfold nvImgUpgSt_setAll, kv_set. rewrite Hf.
  rewrite firstn_all2 by lia. reflexivity.
Qed.

Lemma getAll_stored (st : list byte) (sf : bool) :
  length st = sizeof_state ->
  nvImgUpgSt_getAll (mkKV (Some st) false sf) = Some st.
Proof.
  intros Hl. unfold nvImgUpgSt_getAll, kv_get. simpl kv_get_fault.
  cbv iota. simpl kv_blob. cbv iota.
  rewrite Hl, Nat.min_id, Nat.eqb_refl, firstn_all2 by lia. reflexivity.
Qed.

(** Reading back what a successful [setAll] stored. *)
Lemma getAll_after_setAll (st : list byte) (kv : KVStore) :
  kv_get_fault kv = false -> kv_set_fault kv = false ->
  length st = sizeof_state ->
  nvImgUpgSt_getAll (snd (nvImgUpgSt_setAll st kv)) = Some st.
Proof.
  intros Hg Hf Hl. rewrite setAll_ok by assumption. simpl snd.
  rewrite Hg. apply getAll_stored. exact Hl.
Qed.

Lemma reset_readable (kv : KVStore) (st : list byte) :
  nvImgUpgSt_getAll kv = Some st ->
  nvImgUpgSt_reset false kv
  = nvImgUpgSt_setAll (memset st x00 offsetof_reserved) kv.
Proof. intros Hg. unfold nvImgUpgSt_reset. rewrite Hg. reflexivity. Qed.
End StoreFacts.

(** C3.  For a stored record, [reset(true)] writes back an all-zero
    record; [reset(false)] writes back a record whose bytes before the
    offset of [reserved] are zero and whose bytes from that offset on are
    those of the stored record. *)
Theorem reset_reserved_frame (kv : KVStore) (st : list byte) :
  nvImgUpgSt_getAll kv = Some st ->
  nvImgUpgSt_reset true kv = nvImgUpgSt_setAll (repeat x00 sizeof_state) kv
  /\ exists st',
      nvImgUpgSt_reset false kv = nvImgUpgSt_setAll st' kv
      /\ length st' = sizeof_state
      /\ (forall i, (i < offsetof_reserved)%nat -> nth i st' x01 = x00)
      /\ (forall i, (offsetof_reserved <= i < sizeof_state)%nat ->
                    nth i st' x00 = nth i st x00)
      /\ (kv_set_fault kv = false ->
          nvImgUpgSt_getAll (snd (nvImgUpgSt_reset true kv))
          = Some (repeat x00 sizeof_state)
          /\ nvImgUpgSt_getAll (snd (nvImgUpgSt_reset false kv)) = Some st').
Proof.
  intros Hg.
  pose proof (getAll_length _ _ Hg) as Hl.
  destruct (getAll_Some_inv _ _ Hg) as (Hgf & _).
  split; [reflexivity|].
  exists (memset st x00 offsetof_reserved).
  assert (Hl' : length (memset st x00 offsetof_reserved) = sizeof_state).
  { rewrite memset_length; rewrite Hl; unfold offsetof_reserved, sizeof_state;
      lia. }
  split; [apply reset_readable; exact Hg|].
  split; [exact Hl'|].
  split; [intros i Hi; apply memset_nth_inside; exact Hi|].
  split; [intros i Hi; apply memset_nth_after; lia|].
  intros Hsf. split.
  - unfold nvImgUpgSt_reset.
    apply getAll_after_setAll; try assumption. apply repeat_length.
  - rewrite (reset_readable _ _ Hg).
    apply getAll_after_setAll; assumption.
Qed.

Lemma reset_reserved_frame_witness :
  let kv := mkKV (Some (repeat x07 152)) false false in
  nvImgUpgSt_getAll kv = Some (repeat x07 152)
  /\ exists st',
      nvImgUpgSt_reset false kv = nvImgUpgSt_setAll st' kv
      /\ nth 79 st' x01 = x00 /\ nth 80 st' x00 = x07.
Proof.
  intros kv.
  assert (Hg : nvImgUpgSt_getAll kv = Some (repeat x07 152))
    by reflexivity.
  split; [exact Hg|].
  destruct (reset_reserved_frame kv _ Hg) as (_ & st' & Hr & _ & Hz & Hk & _).
  exists st'. split; [exact Hr|]. split.
  - apply Hz. unfold offsetof_reserved. lia.
  - rewrite Hk; [reflexivity|]. unfold offsetof_reserved, sizeof_state. lia.
Defined.

(** C10.  When the record cannot be read back (the get fails or returns
    another length than the record size), [reset(false)] writes an
    entirely zeroed record: nothing of the reserved region or of
    [persistentInstalledCriteria] survives. *)
Theorem reset_unreadable_zeroes_all (kv : KVStore) :
  (fst (fst (kv_get sizeof_state kv)) = MBED_ERROR
   \/ snd (kv_get sizeof_state kv) <> sizeof_state) ->
  nvImgUpgSt_reset false kv
  = nvImgUpgSt_setAll (repeat x00 sizeof_state) kv
  /\ (kv_set_fault kv = false ->
      kv_blob (snd (nvImgUpgSt_reset false kv))
      = Some (repeat x00 sizeof_state))
  /\ (forall i, nth i (repeat x00 sizeof_state) x00 = x00)
  /\ field_bool offsetof_persistentInstalledCriteria_valid
                (repeat x00 sizeof_state) = false
  /\ field_str offsetof_persistentInstalledCriteria
               (repeat x00 sizeof_state) = [].
Proof.
  intros Hu. apply getAll_None_iff in Hu.
  assert (Hr : nvImgUpgSt_reset false kv
               = nvImgUpgSt_setAll (repeat x00 sizeof_state) kv).
  { unfold nvImgUpgSt_reset. rewrite Hu. reflexivity. }
  split; [exact Hr|]. split.
  - intros Hsf. rewrite Hr, setAll_ok; [reflexivity|exact Hsf|].
    apply repeat_length.
  - split; [|split; reflexivity].
    intros i. destruct (Nat.lt_ge_cases i sizeof_state) as [Hi|Hi].
    + apply nth_repeat_lt. exact Hi.
    + apply nth_overflow. rewrite repeat_length. exact Hi.
Qed.

Lemma reset_unreadable_zeroes_all_witness :
  let kv := mkKV (Some (repeat x07 100)) false false in
  snd (kv_get sizeof_state kv) <> sizeof_state
  /\ kv_blob (snd (nvImgUpgSt_reset false kv))
     = Some (repeat x00 sizeof_state).
Proof.
  intros kv.
  assert (Hu : snd (kv_get sizeof_state kv) <> sizeof_state)
    by (vm_compute; discriminate).
  split; [exact Hu|].
  destruct (reset_unreadable_zeroes_all kv (or_intror Hu)) as (_ & Hb & _).
  apply Hb. reflexivity.
Defined.

Section CStringFacts.
Local Open Scope nat_scope.

(** A string that ends inside a prefix is determined by that prefix. *)
Lemma strlen_prefix (s t : list byte) (k : nat) :
  strlen s < k -> strlen s < length s ->
  firstn k s = firstn k t -> strlen t = strlen s.
Proof.
  revert t k. induction s as [|c s IH]; intros t k Hk Hl He.
  - simpl in Hl. lia.
  - destruct k as [|k]; [lia|].
    destruct t as [|c' t]; [discriminate|].
    simpl in He. injection He as <- He.
    simpl in *. destruct (Byte.eqb c x00); [reflexivity|].
    f_equal. apply (IH t k); [lia|lia|exact He].
Qed.

Lemma field_str_prefix (s t : list byte) (k : nat) :
  strlen s < k -> strlen s < length s ->
  firstn k s = firstn k t ->
  firstn (strlen t) t = firstn (strlen s) s.
Proof.
  intros Hk Hl He. rewrite (strlen_prefix s t k Hk Hl He).
  rewrite <- (Nat.min_l (strlen s) k) by lia.
  rewrite <- !firstn_firstn, He. reflexivity.
Qed.
End CStringFacts.

Section SettleFacts.
Local Open Scope nat_scope.

(** The record [nvImgUpgSt_settleInstalledCriteria] hands to
    [nvImgUpgSt_setAll]. *)
Lemma settle_clear_as_memcpy (st : list byte) :
  length st = sizeof_state ->
  firstn offsetof_stageInstalledCriteria st
  ++ memset (skipn offsetof_stageInstalledCriteria st) x00
            (INSTALLEDCRITERIA_MAXCHAR + 1)
  = memcpy_at st offsetof_stageInstalledCriteria
              (repeat x00 (INSTALLEDCRITERIA_MAXCHAR + 1))
              (INSTALLEDCRITERIA_MAXCHAR + 1).
Proof.
  intros Hl. unfold memset, memcpy_at.
  rewrite skipn_skipn.
  rewrite (firstn_all2 (repeat x00 _)) by (rewrite repeat_length; lia).
  reflexivity.
Qed.
End SettleFacts.

(** C4.  On a stored record whose [stageInstalledCriteria_valid] is false
    the settle operation returns failure and leaves the store as it is.
    When the flag is true and the stage string fits, it copies the stage
    string to [persistentInstalledCriteria], sets the persistent flag,
    clears the stage string and its flag, and writes the record back. *)
Theorem settle_installed_criteria_contract (kv : KVStore) (st : list byte) :
  nvImgUpgSt_getAll kv = Some st ->
  (field_bool offsetof_stageInstalledCriteria_valid st = false ->
   nvImgUpgSt_settleInstalledCriteria kv = (false, kv))
  /\ (field_bool offsetof_stageInstalledCriteria_valid st = true ->
      (strlen (skipn offsetof_stageInstalledCriteria st)
       <= INSTALLEDCRITERIA_MAXCHAR)%nat ->
      exists st',
        nvImgUpgSt_settleInstalledCriteria kv = nvImgUpgSt_setAll st' kv
        /\ length st' = sizeof_state
        /\ field_str offsetof_persistentInstalledCriteria st'
           = field_str offsetof_stageInstalledCriteria st
        /\ field_bool offsetof_persistentInstalledCriteria_valid st' = true
        /\ field_bool offsetof_stageInstalledCriteria_valid st' = false
        /\ (forall i, (offsetof_stageInstalledCriteria <= i
                       < offsetof_reserved)%nat -> nth i st' x01 = x00)
        /\ (forall i, (i < offsetof_stageInstalledCriteria_valid
                       \/ offsetof_reserved <= i
                          < offsetof_persistentInstalledCriteria_valid)%nat ->
                      nth i st' x00 = nth i st x00)
        /\ (kv_set_fault kv = false ->
            nvImgUpgSt_settleInstalledCriteria kv
            = (true, mkKV (Some st') (kv_get_fault kv) (kv_set_fault kv)))).
Proof.
  intros Hg. pose proof (getAll_length _ _ Hg) as Hl.
  unfold nvImgUpgSt_settleInstalledCriteria. rewrite Hg.
  split.
  - intros Hv. rewrite Hv. reflexivity.
  - intros Hv Hlen. rewrite Hv. cbv [negb].
    destruct (Nat.ltb_spec INSTALLEDCRITERIA_MAXCHAR
                (strlen (skipn offsetof_stageInstalledCriteria st)))
      as [Hbad|_]; [lia|].
    set (stage := skipn offsetof_stageInstalledCriteria st) in *.
    set (len := strlen stage) in *.
    set (st1 := memcpy_at st offsetof_persistentInstalledCriteria stage
                          (len + 1)).
    set (st2 := store_bool offsetof_persistentInstalledCriteria_valid true st1).
    set (st3 := store_bool offsetof_stageInstalledCriteria_valid false st2).
    unfold offsetof_stageInstalledCriteria, offsetof_reserved,
      offsetof_persistentInstalledCriteria_valid, INSTALLEDCRITERIA_MAXCHAR,
      offsetof_persistentInstalledCriteria, sizeof_state,
      offsetof_stageInstalledCriteria_valid in *.
    assert (Hstage : length stage = 137%nat)
      by (unfold stage; rewrite length_skipn; lia).
    assert (Hl1 : length st1 = 152%nat)
      by (unfold st1; rewrite memcpy_at_length; lia).
    assert (Hl2 : length st2 = 152%nat)
      by (unfold st2; rewrite store_bool_length; lia).
    assert (Hl3 : length st3 = 152%nat)
      by (unfold st3; rewrite store_bool_length; lia).
    pose proof (settle_clear_as_memcpy st3 Hl3) as Hclr.
    unfold offsetof_stageInstalledCriteria, INSTALLEDCRITERIA_MAXCHAR in Hclr.
    rewrite Hclr.
    set (st4 := memcpy_at st3 15 (repeat x00 (64 + 1)) (64 + 1)).
    assert (Hl4 : length st4 = 152%nat).
    { unfold st4. rewrite memcpy_at_length; rewrite ?repeat_length; lia. }
    assert (Hfar : forall i d, (80 <= i)%nat -> nth i st4 d = nth i st3 d).
    { intros i d Hi. unfold st4.
      apply memcpy_at_nth_after; rewrite ?repeat_length; lia. }
    assert (Hnear : forall i d, (i < 15)%nat -> nth i st4 d = nth i st3 d).
    { intros i d Hi. unfold st4. apply memcpy_at_nth_before; lia. }
    exists st4. split; [reflexivity|]. split; [exact Hl4|].
    split; [|split; [|split; [|split; [|split]]]].
    + (* the persistent string is the stage string *)
      unfold field_str. fold stage. fold len.
      apply (field_str_prefix stage (skipn 85 st4) (len + 1)); [lia|lia|].
      apply bytes_ext.
      * rewrite !length_firstn, length_skipn. lia.
      * intros i Hi. rewrite length_firstn in Hi.
        rewrite !nth_firstn.
        destruct (Nat.ltb_spec i (len + 1)) as [Hi'|Hi']; [|lia].
        rewrite nth_skipn, Hfar by lia.
        unfold st3. rewrite store_bool_nth_other by lia.
        unfold st2. rewrite store_bool_nth_other by lia.
        unfold st1. rewrite memcpy_at_nth_inside by lia.
        f_equal. lia.
    + unfold field_bool. rewrite Hfar by lia.
      unfold st3. rewrite store_bool_nth_other by lia.
      fold (field_bool 84 st2). unfold st2.
      apply store_bool_field. lia.
    + unfold field_bool. rewrite Hnear by lia.
      fold (field_bool 14 st3). unfold st3.
      apply store_bool_field. lia.
    + intros i Hi. unfold st4.
      rewrite memcpy_at_nth_inside by (rewrite ?repeat_length; lia).
      apply nth_repeat_lt. lia.
    + intros i Hi.
      assert (Hst3 : nth i st4 x00 = nth i st3 x00)
        by (destruct Hi; [apply Hnear|apply Hfar]; lia).
      rewrite Hst3. unfold st3. rewrite store_bool_nth_other by lia.
      unfold st2. rewrite store_bool_nth_other by lia.
      unfold st1. apply memcpy_at_nth_before; lia.
    + intros Hsf. apply setAll_ok; assumption.
Qed.

Lemma settle_installed_criteria_contract_witness :
  let kv :=
    snd (nvImgUpgSt_setStageInstalledCriteria [x76; x32; x2e; x30]
           (mkKV (Some (repeat x00 152)) false false)) in
  exists st,
    nvImgUpgSt_getAll kv = Some st
    /\ field_bool offsetof_stageInstalledCriteria_valid st = true
    /\ (strlen (skipn offsetof_stageInstalledCriteria st)
        <= INSTALLEDCRITERIA_MAXCHAR)%nat
    /\ exists st',
        nvImgUpgSt_settleInstalledCriteria kv = nvImgUpgSt_setAll st' kv
        /\ field_str offsetof_persistentInstalledCriteria st'
           = [x76; x32; x2e; x30].
Proof.
  intros kv.
  destruct (nvImgUpgSt_getAll kv) as [st|] eqn:Hg; [|discriminate Hg].
  assert (Hv : field_bool offsetof_stageInstalledCriteria_valid st = true).
  { vm_compute in Hg. injection Hg as <-. reflexivity. }
  assert (Hn : (strlen (skipn offsetof_stageInstalledCriteria st)
                <= INSTALLEDCRITERIA_MAXCHAR)%nat).
  { vm_compute in Hg. injection Hg as <-. vm_compute.
    repeat constructor. }
  assert (Hs : field_str offsetof_stageInstalledCriteria st
               = [x76; x32; x2e; x30]).
  { vm_compute in Hg. injection Hg as <-. reflexivity. }
  exists st. split; [reflexivity|]. split; [exact Hv|]. split; [exact Hn|].
  destruct (settle_installed_criteria_contract kv st Hg) as (_ & Hok).
  destruct (Hok Hv Hn) as (st' & Hr & _ & Hstr & _).
  exists st'. split; [exact Hr|]. rewrite Hstr. exact Hs.
Defined.

(* ----------------------------------------------------------------- *)
(** [nvImgUpgSt_installed] as one gate on the record, the running image
    and the flash area, followed by the reading of the image-ok flag. *)
Lemma installed_unfold (kv : KVStore) (bl : Bootloader) (st : list byte) :
  nvImgUpgSt_getAll kv = Some st ->
  nvImgUpgSt_installed kv bl
  = if field_bool offsetof_installRebooted_valid st
       && field_bool offsetof_installRebooted st
       && field_bool offsetof_stageVersion_valid st
       && bytes_eqb (field_bytes offsetof_stageVersion sizeof_image_version st)
                    (ih_ver (primary_header bl))
       && (flash_area_open_rc bl =? 0)
    then Some ((if boot_read_image_ok_rc bl =? 0 then image_ok bl
                else BOOT_FLAG_UNSET) =? BOOT_FLAG_SET)
    else None.
Proof.
  intros Hg. unfold nvImgUpgSt_installed, boot_read_image_ok. rewrite Hg.
  destruct (field_bool offsetof_installRebooted_valid st); [|reflexivity].
  destruct (field_bool offsetof_installRebooted st); [|reflexivity].
  destruct (field_bool offsetof_stageVersion_valid st); [|reflexivity].
  destruct (bytes_eqb _ _); [|reflexivity].
  destruct (flash_area_open_rc bl =? 0); [|reflexivity].
  simpl. destruct (boot_read_image_ok_rc bl =? 0);
    match goal with |- context [?x =? BOOT_FLAG_SET] =>
      destruct (x =? BOOT_FLAG_SET) end; reflexivity.
Qed.

(** C5, as the code has it.  On a stored record the query fails unless
    [installRebooted] is valid and true and [stageVersion] is valid; it
    fails when [stageVersion] differs from the version of the running
    image, and also when the primary flash area cannot be opened; in the
    remaining case it returns true and reports as confirmed whether the
    image-ok flag read for the primary slot is set, a flag that could not
    be read counting as unset. *)
Theorem query_installed_two_source (kv : KVStore) (bl : Bootloader)
    (st : list byte) :
  nvImgUpgSt_getAll kv = Some st ->
  let rebooted := field_bool offsetof_installRebooted_valid st
                  && field_bool offsetof_installRebooted st in
  let staged := field_bool offsetof_stageVersion_valid st in
  let same_version :=
    bytes_eqb (field_bytes offsetof_stageVersion sizeof_image_version st)
              (ih_ver (primary_header bl)) in
  ((rebooted && staged) = false -> nvImgUpgSt_installed kv bl = None)
  /\ ((rebooted && staged) = true -> same_version = false ->
      nvImgUpgSt_installed kv bl = None)
  /\ ((rebooted && staged) = true -> same_version = true ->
      flash_area_open_rc bl <> 0 -> nvImgUpgSt_installed kv bl = None)
  /\ ((rebooted && staged) = true -> same_version = true ->
      flash_area_open_rc bl = 0 ->
      nvImgUpgSt_installed kv bl
      = Some ((if boot_read_image_ok_rc bl =? 0 then image_ok bl
               else BOOT_FLAG_UNSET) =? BOOT_FLAG_SET)).
Proof.
  intros Hg rebooted staged same_version.
  rewrite (installed_unfold kv bl st Hg).
  fold rebooted. fold staged. fold same_version.
  repeat split.
  - intros Hr. rewrite Hr. reflexivity.
  - intros Hr Hv. rewrite Hr, Hv. reflexivity.
  - intros Hr Hv Hf. rewrite Hr, Hv.
    apply Z.eqb_neq in Hf. rewrite Hf. reflexivity.
  - intros Hr Hv Hf. rewrite Hr, Hv, Hf. reflexivity.
Qed.

(** A record of an attempt that rebooted into version 2.0.0+0. *)
Lemma query_installed_two_source_witness :
  let st := store_bool offsetof_installRebooted_valid true
              (store_bool offsetof_installRebooted true
                 (store_bool offsetof_stageVersion_valid true
                    (memcpy_at (repeat x00 152) offsetof_stageVersion
                               (ih_ver sample_header) 8))) in
  let kv := mkKV (Some st) false false in
  let bl := mkBoot sample_header 0 0 BOOT_FLAG_SET 0 0 false in
  nvImgUpgSt_getAll kv = Some st
  /\ nvImgUpgSt_installed kv bl = Some true.
Proof.
  intros st kv bl.
  assert (Hg : nvImgUpgSt_getAll kv = Some st) by reflexivity.
  split; [exact Hg|].
  destruct (query_installed_two_source kv bl st Hg) as (_ & _ & _ & Hok).
  rewrite Hok; reflexivity.
Defined.

(** C5 as stated fails: with a record that rebooted into the running
    version and a set image-ok flag, the query still returns false when
    the primary flash area does not open. *)
Lemma query_installed_counterexample :
  let st := store_bool offsetof_installRebooted_valid true
              (store_bool offsetof_installRebooted true
                 (store_bool offsetof_stageVersion_valid true
                    (memcpy_at (repeat x00 152) offsetof_stageVersion
                               (ih_ver sample_header) 8))) in
  let kv := mkKV (Some st) false false in
  let bl := mkBoot sample_header (-1) 0 BOOT_FLAG_SET 0 0 false in
  nvImgUpgSt_getAll kv = Some st
  /\ field_bool offsetof_installRebooted_valid st = true
  /\ field_bool offsetof_installRebooted st = true
  /\ field_bool offsetof_stageVersion_valid st = true
  /\ field_bytes offsetof_stageVersion sizeof_image_version st
     = ih_ver (primary_header bl)
  /\ image_ok bl = BOOT_FLAG_SET
  /\ nvImgUpgSt_installed kv bl = None
  /\ nvImgUpgSt_installed kv bl <> Some true.
Proof.
  intros st kv bl. repeat split; try reflexivity.
  vm_compute. discriminate.
Qed.

(* ----------------------------------------------------------------- *)
(** ** Integrity verifier and Apply *)

(** C9.  With [HashCount == 0] the verifier returns true and leaves the
    handler, the device and its request log as they were: nothing is read
    and nothing compared. *)
Theorem verify_without_hash_passes {H : HashLibrary}
    (fileEntity : ADUC_FileEntity) (d : Device)
    (otaCtx_inst : OTA_OperationContext_t) :
  HashCount fileEntity = O ->
  otaCtx_opaque d = Some otaCtx_inst ->
  VerifySignature fileEntity d = (Returns true, d)
  /\ bd_log (secondary (snd (VerifySignature fileEntity d)))
     = bd_log (secondary d).
Proof.
  intros Hc Hctx.
  assert (Hv : VerifySignature fileEntity d = (Returns true, d)).
  { unfold VerifySignature, VerifySignature_body, bind, the_ctx.
    rewrite Hctx, Hc. reflexivity. }
  split; [exact Hv|]. rewrite Hv. reflexivity.
Qed.

Lemma verify_without_hash_passes_witness :
  let fileEntity := mkFileEntity 0 [] 34 in
  let d := sample_device 4 1024 in
  HashCount fileEntity = O
  /\ VerifySignature fileEntity d = (Returns true, d).
Proof.
  intros fileEntity d. split; [reflexivity|].
  apply (verify_without_hash_passes (H := sample_hash) fileEntity d
           (mkCtx (repeat x00 32) (repeat x00 32) true true
                  true 4 true 1024 0 0 0)); reflexivity.
Defined.

(** C8, as the code has it.  [Apply] fails when the installed-criteria
    property is missing or empty; with a cancel requested it returns the
    result of [Cancel]; otherwise it returns RequiredReboot exactly when
    persisting the stage criteria, [boot_set_pending] and persisting
    [installRebooted = false] all succeed, and Failure when one of them
    fails.  The result is a function of the store and the bootloader only:
    no outcome of a preceding stage attempt is consulted. *)
Theorem apply_result_characterised (wf : Workflow) (d : Device) :
  let installedCriteria := wf_installed_criteria wf in
  let s := match installedCriteria with Some s => s | None => [] end in
  let staged := nvImgUpgSt_setStageInstalledCriteria s (nvstore d) in
  (IsNullOrEmpty installedCriteria = true ->
   fst (fst (Apply wf d)) = ADUC_Result_Failure)
  /\ (IsNullOrEmpty installedCriteria = false ->
      wf_cancel_requested wf = true ->
      fst (fst (Apply wf d)) = fst (Cancel wf))
  /\ (IsNullOrEmpty installedCriteria = false ->
      wf_cancel_requested wf = false ->
      fst (fst (Apply wf d))
      = if fst staged
           && (boot_set_pending_rc (bootloader d) =? 0)
           && fst (nvImgUpgSt_setInstallRebooted false (snd staged))
        then ADUC_Result_Apply_RequiredReboot
        else ADUC_Result_Failure)
  /\ (forall d' : Device,
        nvstore d' = nvstore d -> bootloader d' = bootloader d ->
        fst (fst (Apply wf d')) = fst (fst (Apply wf d))).
Proof.
  intros installedCriteria s staged.
  assert (Hmain : forall d0 : Device,
            IsNullOrEmpty installedCriteria = false ->
            wf_cancel_requested wf = false ->
            fst (fst (Apply wf d0))
            = if fst (nvImgUpgSt_setStageInstalledCriteria s (nvstore d0))
                 && (boot_set_pending_rc (bootloader d0) =? 0)
                 && fst (nvImgUpgSt_setInstallRebooted false
                           (snd (nvImgUpgSt_setStageInstalledCriteria s
                                   (nvstore d0))))
              then ADUC_Result_Apply_RequiredReboot
              else ADUC_Result_Failure).
  { intros d0 Hn Hc. unfold Apply. fold installedCriteria. rewrite Hn, Hc.
    fold s. destruct (nvImgUpgSt_setStageInstalledCriteria s (nvstore d0))
      as [ok kv1]. simpl fst; simpl snd.
    destruct ok; [|reflexivity]. cbv [negb andb].
    unfold boot_set_pending.
    destruct (boot_set_pending_rc (bootloader d0) =? 0) eqn:Hp.
    - simpl. destruct (nvImgUpgSt_setInstallRebooted false kv1) as [ok2 kv2].
      destruct ok2; reflexivity.
    - simpl. rewrite Hp. reflexivity. }
  split; [|split; [|split]].
  - intros Hn. unfold Apply. fold installedCriteria. rewrite Hn. reflexivity.
  - intros Hn Hc. unfold Apply. fold installedCriteria. rewrite Hn, Hc.
    destruct (Cancel wf). reflexivity.
  - apply Hmain.
  - intros d' Hkv Hbl.
    destruct (IsNullOrEmpty installedCriteria) eqn:Hn.
    + unfold Apply. fold installedCriteria. rewrite Hn. reflexivity.
    + destruct (wf_cancel_requested wf) eqn:Hc.
      * unfold Apply. fold installedCriteria. rewrite Hn, Hc.
        destruct (Cancel wf). reflexivity.
      * rewrite (Hmain d' eq_refl eq_refl), (Hmain d eq_refl eq_refl),
          Hkv, Hbl. reflexivity.
Qed.

(** C8 as stated fails: a stage attempt whose digest does not match ends
    in Failure, and the [Apply] that follows still answers
    RequiredReboot. *)
Lemma apply_gating_counterexample :
  let fileEntity := mkFileEntity 1 [mkHash (Some [x58]) (Some [x73])] 34 in
  let wf := mkWorkflow false true 1 (Some fileEntity)
                       (Some [x76; x32; x2e; x30]) false in
  let tr := mkTransport [(false, sample_header ++ [x41; x42])] false false in
  let staged := Download wf tr (fresh_device 4) in
  fst (fst staged) = Returns ADUC_Result_Failure
  /\ hd BdInit (bd_log (secondary (snd staged))) = BdRead 0 1024
  /\ fst (fst (Apply (snd (fst staged)) (snd staged)))
     = ADUC_Result_Apply_RequiredReboot.
Proof. vm_compute. repeat split. Qed.

(* ----------------------------------------------------------------- *)
(** ** Boot-time recovery *)

Lemma boot_set_confirmed_idem (bl : Bootloader) :
  boot_set_confirmed (boot_set_confirmed bl) = boot_set_confirmed bl.
Proof.
  unfold boot_set_confirmed.
  destruct (boot_set_confirmed_rc bl =? 0) eqn:Hrc; simpl; rewrite Hrc;
    reflexivity.
Qed.

Lemma try_confirm_idem (kv : KVStore) (bl : Bootloader) :
  try_confirm kv (try_confirm kv bl) = try_confirm kv bl.
Proof.
  unfold try_confirm.
  destruct (nvImgUpgSt_installed kv bl) as [[|]|] eqn:Hi;
    try (rewrite Hi; reflexivity).
  destruct (nvImgUpgSt_installed kv (boot_set_confirmed bl)) as [[|]|];
    try reflexivity.
  apply boot_set_confirmed_idem.
Qed.

(** With a store that rejects writes, no operation changes it. *)
Lemma setAll_fault_snd (st : list byte) (kv : KVStore) :
  kv_set_fault kv = true -> snd (nvImgUpgSt_setAll st kv) = kv.
Proof. intros Hf. rewrite setAll_fault by exact Hf. reflexivity. Qed.

Lemma setInstallRebooted_fault (b : bool) (kv : KVStore) :
  kv_set_fault kv = true -> snd (nvImgUpgSt_setInstallRebooted b kv) = kv.
Proof.
  intros Hf. unfold nvImgUpgSt_setInstallRebooted.
  destruct (nvImgUpgSt_getAll kv); [|reflexivity].
  apply setAll_fault_snd. exact Hf.
Qed.

Lemma settle_fault (kv : KVStore) :
  kv_set_fault kv = true -> snd (nvImgUpgSt_settleInstalledCriteria kv) = kv.
Proof.
  intros Hf. unfold nvImgUpgSt_settleInstalledCriteria.
  destruct (nvImgUpgSt_getAll kv); [|reflexivity].
  destruct (negb _); [reflexivity|].
  destruct (Nat.ltb _ _); [reflexivity|].
  apply setAll_fault_snd. exact Hf.
Qed.

Lemma reset_fault (b : bool) (kv : KVStore) :
  kv_set_fault kv = true -> snd (nvImgUpgSt_reset b kv) = kv.
Proof.
  intros Hf. unfold nvImgUpgSt_reset.
  destruct (if b then None else nvImgUpgSt_getAll kv);
    apply setAll_fault_snd; exact Hf.
Qed.

Lemma setAll_set_fault (st : list byte) (kv : KVStore) :
  kv_set_fault (snd (nvImgUpgSt_setAll st kv)) = kv_set_fault kv.
Proof.
  unfold nvImgUpgSt_setAll, kv_set.
  destruct (kv_set_fault kv) eqn:Hf; simpl; [exact Hf|reflexivity].
Qed.

Lemma settle_set_fault (kv : KVStore) :
  kv_set_fault (snd (nvImgUpgSt_settleInstalledCriteria kv))
  = kv_set_fault kv.
Proof.
  unfold nvImgUpgSt_settleInstalledCriteria.
  destruct (nvImgUpgSt_getAll kv); [|reflexivity].
  destruct (negb _); [reflexivity|].
  destruct (Nat.ltb _ _); [reflexivity|].
  apply setAll_set_fault.
Qed.

(** After a [reset(false)] that reached the store, the record carries no
    valid [installRebooted]. *)
Lemma reset_false_clears (kv : KVStore) :
  kv_set_fault kv = false ->
  let kv' := snd (nvImgUpgSt_reset false kv) in
  nvImgUpgSt_getAll kv' = None
  \/ exists st', nvImgUpgSt_getAll kv' = Some st'
                 /\ field_bool offsetof_installRebooted_valid st' = false.
Proof.
  intros Hf kv'. subst kv'. unfold nvImgUpgSt_reset.
  destruct (nvImgUpgSt_getAll kv) as [st|] eqn:Hg.
  - right. pose proof (getAll_length _ _ Hg) as Hl.
    destruct (getAll_Some_inv _ _ Hg) as (Hgf & _).
    exists (memset st x00 offsetof_reserved). split.
    + apply getAll_after_setAll; try assumption.
      rewrite memset_length; [exact Hl|].
      rewrite Hl. unfold offsetof_reserved, sizeof_state. lia.
    + unfold field_bool. rewrite memset_nth_inside; [reflexivity|].
      unfold offsetof_installRebooted_valid, offsetof_reserved. lia.
  - rewrite setAll_ok by (try assumption; apply repeat_length). simpl snd.
    destruct (kv_get_fault kv).
    + left. reflexivity.
    + right. exists (repeat x00 sizeof_state). split; reflexivity.
Qed.

Lemma quiet_installRebooted (kv : KVStore) :
  (nvImgUpgSt_getAll kv = None
   \/ exists st, nvImgUpgSt_getAll kv = Some st
                 /\ field_bool offsetof_installRebooted_valid st = false) ->
  nvImgUpgSt_installRebooted kv = None.
Proof.
  unfold nvImgUpgSt_installRebooted.
  intros [Hg|(st & Hg & Hv)]; rewrite Hg; [reflexivity|].
  rewrite Hv. reflexivity.
Qed.

Lemma quiet_installed (kv : KVStore) (bl : Bootloader) :
  (nvImgUpgSt_getAll kv = None
   \/ exists st, nvImgUpgSt_getAll kv = Some st
                 /\ field_bool offsetof_installRebooted_valid st = false) ->
  nvImgUpgSt_installed kv bl = None.
Proof.
  unfold nvImgUpgSt_installed.
  intros [Hg|(st & Hg & Hv)]; rewrite Hg; [reflexivity|].
  rewrite Hv. reflexivity.
Qed.

Lemma indicate_install_rebooted_idem (kv : KVStore) :
  indicate_install_rebooted (indicate_install_rebooted kv)
  = indicate_install_rebooted kv.
Proof.
  unfold indicate_install_rebooted.
  destruct (nvImgUpgSt_installRebooted kv) as [[|]|] eqn:Hi;
    try (rewrite Hi; reflexivity).
  destruct (kv_set_fault kv) eqn:Hf.
  - rewrite !setInstallRebooted_fault by exact Hf. rewrite Hi. reflexivity.
  - unfold nvImgUpgSt_installRebooted in Hi.
    unfold nvImgUpgSt_setInstallRebooted.
    destruct (nvImgUpgSt_getAll kv) as [st|] eqn:Hg; [|discriminate].
    pose proof (getAll_length _ _ Hg) as Hl.
    destruct (getAll_Some_inv _ _ Hg) as (Hgf & _).
    set (st1 := store_bool offsetof_installRebooted true st).
    set (st2 := store_bool offsetof_installRebooted_valid true st1).
    unfold sizeof_state, offsetof_installRebooted,
      offsetof_installRebooted_valid in *.
    assert (Hl1 : length st1 = 152%nat)
      by (unfold st1; rewrite store_bool_length; lia).
    assert (Hl2 : length st2 = 152%nat)
      by (unfold st2; rewrite store_bool_length; lia).
    assert (Hq : nvImgUpgSt_installRebooted
                   (snd (nvImgUpgSt_setAll st2 kv)) = Some true).
    { unfold nvImgUpgSt_installRebooted.
      rewrite getAll_after_setAll by assumption.
      unfold offsetof_installRebooted_valid, offsetof_installRebooted.
      unfold st2 at 1. rewrite store_bool_field by lia. simpl negb. cbv iota.
      unfold st2. rewrite store_bool_field_other by lia.
      unfold st1. rewrite store_bool_field by lia. reflexivity. }
    rewrite Hq. reflexivity.
Qed.

(** When the last step leaves the store alone, a second run repeats the
    first. *)
Lemma recovery_repeats (kv : KVStore) (bl : Bootloader) :
  let kv1 := indicate_install_rebooted kv in
  let bl1 := try_confirm kv1 bl in
  fst (settle_or_revert kv1 bl1) = kv1 ->
  Update_NVImgUpgSt_PostReboot kv1 bl1
  = (kv1, bl1, snd (settle_or_revert kv1 bl1)).
Proof.
  intros kv1 bl1 Hk. unfold Update_NVImgUpgSt_PostReboot.
  unfold kv1 at 1 2 3. rewrite indicate_install_rebooted_idem. fold kv1.
  unfold bl1 at 1 2. rewrite try_confirm_idem. fold bl1.
  destruct (settle_or_revert kv1 bl1) as [k r]. simpl in Hk. subst k.
  reflexivity.
Qed.

(** C6.  Running the recovery routine a second time, from the store and
    the bootloader state the first run left, leaves the same store and the
    same bootloader state as the first run. *)
Theorem recovery_idempotent (kv : KVStore) (bl : Bootloader) :
  let once := Update_NVImgUpgSt_PostReboot kv bl in
  let twice := Update_NVImgUpgSt_PostReboot (fst (fst once)) (snd (fst once)) in
  fst (fst twice) = fst (fst once) /\ snd (fst twice) = snd (fst once).
Proof.
  pose proof (recovery_repeats kv bl) as Hsame.
  set (kv1 := indicate_install_rebooted kv) in *.
  set (bl1 := try_confirm kv1 bl) in *.
  cbv zeta in Hsame.
  intros once twice. subst twice.
  assert (Ho : once = (let '(k, r) := settle_or_revert kv1 bl1 in
                        (k, bl1, r))) by reflexivity.
  clearbody once. subst once.
  destruct (settle_or_revert kv1 bl1) as [kv3 rst] eqn:Hs.
  simpl fst in *. simpl snd in *.
  assert (Hrep : kv3 = kv1 ->
            fst (fst (Update_NVImgUpgSt_PostReboot kv3 bl1)) = kv3
            /\ snd (fst (Update_NVImgUpgSt_PostReboot kv3 bl1)) = bl1).
  { intros He. rewrite He. fold bl1 in Hsame. rewrite Hs in Hsame.
    rewrite (Hsame He). split; reflexivity. }
  destruct (kv_set_fault kv1) eqn:Hf.
  - apply Hrep. unfold settle_or_revert in Hs.
    destruct (nvImgUpgSt_installed kv1 bl1) as [[|]|]; injection Hs as <- _.
    + rewrite settle_fault by exact Hf. apply reset_fault. exact Hf.
    + apply reset_fault. exact Hf.
    + reflexivity.
  - unfold settle_or_revert in Hs.
    destruct (nvImgUpgSt_installed kv1 bl1) as [c|] eqn:Hi.
    + assert (Hq : nvImgUpgSt_getAll kv3 = None
                   \/ exists st', nvImgUpgSt_getAll kv3 = Some st'
                        /\ field_bool offsetof_installRebooted_valid st'
                           = false).
      { destruct c; injection Hs as <- _.
        - apply reset_false_clears. rewrite settle_set_fault. exact Hf.
        - apply reset_false_clears. exact Hf. }
      unfold Update_NVImgUpgSt_PostReboot, indicate_install_rebooted.
      rewrite (quiet_installRebooted kv3 Hq).
      unfold try_confirm. rewrite (quiet_installed kv3 bl1 Hq).
      unfold settle_or_revert. rewrite (quiet_installed kv3 bl1 Hq).
      split; reflexivity.
    + apply Hrep. injection Hs as <- _. reflexivity.
Qed.

(* ----------------------------------------------------------------- *)
(** ** Arithmetic of alignment *)

Lemma wrap_small (z : Z) : 0 <= z < 2 ^ 32 -> SizeT.wrap z = z.
Proof. intros Hz. unfold SizeT.wrap, SizeT.modulus. apply Z.mod_small. exact Hz. Qed.

Lemma sub_add_wrap (a b c : Z) :
  SizeT.sub (SizeT.add a b) c = SizeT.wrap (a + b - c).
Proof.
  unfold SizeT.sub, SizeT.add, SizeT.wrap. apply Zminus_mod_idemp_l.
Qed.

Section Alignment.
Variables P R : Z.
Hypothesis HP : 0 < P.

Lemma aligndown_bounds (o : Z) :
  0 <= o -> 0 <= o / P * P <= o /\ o < o / P * P + P.
Proof.
  intros Ho. pose proof (Z.div_mod o P ltac:(lia)).
  pose proof (Z.mod_pos_bound o P HP). pose proof (Z.div_pos o P). nia.
Qed.

Lemma alignup_bounds (o : Z) : 0 <= o -> o <= (o + P - 1) / P * P < o + P.
Proof.
  intros Ho. pose proof (Z.div_mod (o + P - 1) P ltac:(lia)).
  pose proof (Z.mod_pos_bound (o + P - 1) P HP). nia.
Qed.

Lemma alignup_unaligned (o : Z) :
  0 <= o -> o < (o + P - 1) / P * P ->
  (o + P - 1) / P * P = o / P * P + P.
Proof.
  intros Ho Hlt. pose proof (Z.div_mod (o + P - 1) P ltac:(lia)).
  pose proof (Z.mod_pos_bound (o + P - 1) P HP).
  pose proof (Z.div_mod o P ltac:(lia)).
  pose proof (Z.mod_pos_bound o P HP).
  assert ((o + P - 1) / P = o / P + 1) by nia. nia.
Qed.

Lemma aligned_down (o : Z) : o mod P = 0 -> o / P * P = o.
Proof. intros Hm. pose proof (Z.div_mod o P ltac:(lia)). nia. Qed.

Lemma aligned_add (o m : Z) : o mod P = 0 -> (o + m / P * P) mod P = 0.
Proof.
  intros Hm. rewrite Z.add_mod, Hm, Z_mod_mult by lia. reflexivity.
Qed.

Lemma remainder_bounds (m : Z) : 0 <= m -> 0 <= m / P * P <= m /\ m - m / P * P < P.
Proof. intros Hm. pose proof (aligndown_bounds m Hm). lia. Qed.

Lemma floor_unique (b x : Z) :
  b mod P = 0 -> b <= x < b + P -> x / P * P = b.
Proof.
  intros Hb Hx. pose proof (aligned_down b Hb) as Hd.
  rewrite <- (Z.div_unique x P (b / P) (x - b)); [exact Hd|lia|lia].
Qed.

Hypothesis HR : 0 < R.
Hypothesis HRP : R mod P = 0.

Lemma unit_le_block : P <= R.
Proof.
  pose proof (Z.div_mod R P ltac:(lia)) as Hd. rewrite HRP in Hd.
  destruct (Z_lt_le_dec (R / P) 1); nia.
Qed.

Lemma readblock_below (o : Z) : 0 <= o -> o / R * R <= o / P * P.
Proof.
  intros Ho. pose proof (Z.div_mod R P ltac:(lia)) as Hd. rewrite HRP in Hd.
  pose proof (Z.div_mod o R ltac:(lia)). pose proof (Z.mod_pos_bound o R HR).
  pose proof (Z.div_mod o P ltac:(lia)). pose proof (Z.mod_pos_bound o P HP).
  assert (o / R * (R / P) <= o / P)
    by (apply Z.div_le_lower_bound; [lia|nia]).
  nia.
Qed.

Lemma readblock_above (o : Z) : 0 <= o -> o / P * P + P <= o / R * R + R.
Proof.
  intros Ho. pose proof (Z.div_mod R P ltac:(lia)) as Hd. rewrite HRP in Hd.
  pose proof (Z.div_mod o R ltac:(lia)). pose proof (Z.mod_pos_bound o R HR).
  pose proof (Z.div_mod o P ltac:(lia)). pose proof (Z.mod_pos_bound o P HP).
  assert (o / P < (o / R + 1) * (R / P))
    by (apply Z.div_lt_upper_bound; [lia|nia]).
  nia.
Qed.
End Alignment.

(* ----------------------------------------------------------------- *)
(** ** Device memory *)

Lemma peek_length (mem : Z -> byte) (a : Z) (n : nat) :
  length (bd_peek mem a n) = n.
Proof. unfold bd_peek. rewrite length_map, length_seq. reflexivity. Qed.

Lemma peek_nth (mem : Z -> byte) (a : Z) (n i : nat) (d : byte) :
  (i < n)%nat -> nth i (bd_peek mem a n) d = mem (a + Z.of_nat i).
Proof.
  intros Hi. unfold bd_peek.
  rewrite (nth_indep _ d (mem (a + Z.of_nat 0)))
    by (rewrite length_map, length_seq; exact Hi).
  rewrite (map_nth (fun k => mem (a + Z.of_nat k)) (seq 0 n) O i).
  rewrite seq_nth by exact Hi. reflexivity.
Qed.

Lemma peek_slice (mem : Z -> byte) (a : Z) (m k n : nat) :
  (k + n <= m)%nat ->
  firstn n (skipn k (bd_peek mem a m)) = bd_peek mem (a + Z.of_nat k) n.
Proof.
  intros Hb. apply (nth_ext _ _ x00 x00).
  - rewrite length_firstn, length_skipn, !peek_length. lia.
  - intros i Hi. rewrite length_firstn, length_skipn, peek_length in Hi.
    rewrite nth_firstn. destruct (Nat.ltb_spec i n) as [Hin|Hin]; [|lia].
    rewrite nth_skipn, !peek_nth by lia. f_equal. lia.
Qed.

Lemma poke_inside (mem : Z -> byte) (addr n : Z) (buf : list byte) (a : Z) :
  addr <= a < addr + n ->
  bd_poke mem addr n buf a = nth (Z.to_nat (a - addr)) buf x00.
Proof.
  intros Ha. unfold bd_poke.
  destruct (Z.leb_spec addr a); [|lia].
  destruct (Z.ltb_spec a (addr + n)); [|lia]. reflexivity.
Qed.

Lemma poke_outside (mem : Z -> byte) (addr n : Z) (buf : list byte) (a : Z) :
  a < addr \/ addr + n <= a -> bd_poke mem addr n buf a = mem a.
Proof.
  intros Ha. unfold bd_poke.
  destruct (Z.leb_spec addr a); [|reflexivity].
  destruct (Z.ltb_spec a (addr + n)); [lia|reflexivity].
Qed.

Lemma bd_read_served (addr size : Z) (bd : BlockDevice) :
  all_served bd ->
  exists bd',
    bd_read addr size bd = (0, bd_peek (bd_mem bd) addr (Z.to_nat size), bd')
    /\ bd_mem bd' = bd_mem bd
    /\ bd_rejects bd' = bd_rejects bd
    /\ bd_log bd' = BdRead addr size :: bd_log bd.
Proof.
  intros Hs. unfold bd_read, bd_serve. rewrite Hs.
  eexists. split; [reflexivity|]. repeat split.
Qed.

Lemma bd_program_served (buf : list byte) (addr size : Z) (bd : BlockDevice) :
  all_served bd ->
  exists bd',
    bd_program buf addr size bd = (0, bd')
    /\ bd_mem bd' = bd_poke (bd_mem bd) addr size buf
    /\ bd_rejects bd' = bd_rejects bd
    /\ bd_log bd' = BdProgram addr size :: bd_log bd.
Proof.
  intros Hs. unfold bd_program, bd_serve. rewrite Hs.
  eexists. split; [reflexivity|]. repeat split.
Qed.

Lemma all_served_same (bd bd' : BlockDevice) :
  bd_rejects bd' = bd_rejects bd -> all_served bd -> all_served bd'.
Proof. intros He Hs rq. rewrite He. apply Hs. Qed.

(* ----------------------------------------------------------------- *)
(** ** Stepping through the control monad *)

Lemma bind_inl {A B} (m : M A) (k : A -> M B) (d d' : Device) (a : A) :
  m d = (inl a, d') -> bind m k d = k a d'.
Proof. intros Hm. unfold bind. rewrite Hm. reflexivity. Qed.


Lemma assert_true (c : bool) (d : Device) :
  c = true -> MBED_ASSERT c d = (inl tt, d).
Proof. intros ->. reflexivity. Qed.

Lemma udiv_ok (a b : Z) (d : Device) :
  b <> 0 -> udiv a b d = (inl (a / b), d).
Proof.
  intros Hb. unfold udiv. apply Z.eqb_neq in Hb. rewrite Hb. reflexivity.
Qed.

Section Unit.
Variables P R : Z.
Hypothesis HP : 0 < P.
Hypothesis HR : 0 < R.
Hypothesis HRP : R mod P = 0.

(** Under these sizes [bd_read_program_unit] returns the unit around
    [offset] as the device holds it. *)
Lemma bd_read_program_unit_spec (offset : Z) (d : Device) :
  0 <= offset < 2 ^ 32 -> all_served (secondary d) ->
  exists bd',
    bd_read_program_unit P R offset d
    = (inl (0, bd_peek (bd_mem (secondary d)) (offset / P * P) (Z.to_nat P)),
       with_secondary bd' d)
    /\ bd_mem bd' = bd_mem (secondary d)
    /\ bd_rejects bd' = bd_rejects (secondary d)
    /\ bd_log bd' = BdRead (offset / R * R) R :: bd_log (secondary d).
Proof.
  intros Ho Hs.
  pose proof (unit_le_block P R HP HR HRP) as HPR.
  pose proof (aligndown_bounds P HP offset (proj1 Ho)) as HdP.
  pose proof (aligndown_bounds R HR offset (proj1 Ho)) as HdR.
  pose proof (readblock_below P R HP HR HRP offset (proj1 Ho)) as Hlo.
  pose proof (readblock_above P R HP HR HRP offset (proj1 Ho)) as Hhi.
  destruct (bd_read_served (offset / R * R) R (secondary d) Hs)
    as (bd' & Hrd & Hmem & Hrej & Hlog).
  exists bd'. split; [|repeat split; assumption].
  unfold bd_read_program_unit.
  rewrite (bind_inl _ _ d d tt)
    by (apply assert_true; apply Z.leb_le; exact HPR).
  rewrite (bind_inl _ _ d d (offset / R)) by (apply udiv_ok; lia).
  rewrite (bind_inl _ _ d d (offset / P)) by (apply udiv_ok; lia).
  unfold SizeT.mul.
  set (rb := offset / R * R) in *. set (pu := offset / P * P) in *.
  rewrite !wrap_small by lia.
  rewrite (bind_inl _ _ d d tt)
    by (apply assert_true; apply Z.leb_le; exact Hlo).
  rewrite (bind_inl _ _ d (with_secondary bd' d)
             (0, bd_peek (bd_mem (secondary d)) rb (Z.to_nat R)))
    by (unfold on_secondary; rewrite Hrd; reflexivity).
  cbv beta iota zeta. simpl negb. cbv iota.
  unfold memcpy_from. rewrite peek_length.
  replace ((0 <=? pu - rb) && (0 <=? P)
           && (pu - rb + P <=? Z.of_nat (Z.to_nat R)))
    with true
    by (symmetry; rewrite !andb_true_iff, !Z.leb_le; lia).
  unfold bind, ret. rewrite peek_slice by lia.
  simpl. repeat f_equal. lia.
Qed.

Lemma rmw_poke (mem : Z -> byte) (base k n : Z) (data : list byte) (a : Z) :
  0 <= k -> 0 <= n -> k + n <= P -> n <= Z.of_nat (length data) ->
  bd_poke mem base P
          (memcpy_at (bd_peek mem base (Z.to_nat P)) (Z.to_nat k) data
                     (Z.to_nat n)) a
  = bd_poke mem (base + k) n data a.
Proof.
  intros Hk Hn Hkn Hd.
  destruct (Z_lt_le_dec a base) as [Hlo|Hlo];
    [rewrite !poke_outside by lia; reflexivity|].
  destruct (Z_lt_le_dec a (base + P)) as [Hhi|Hhi];
    [|rewrite !poke_outside by lia; reflexivity].
  rewrite poke_inside by lia.
  destruct (Z_lt_le_dec a (base + k)) as [Hb|Hb].
  - rewrite poke_outside by lia.
    rewrite memcpy_at_nth_before by (rewrite ?peek_length; lia).
    rewrite peek_nth by lia. f_equal. lia.
  - destruct (Z_lt_le_dec a (base + k + n)) as [Hi|Hi].
    + rewrite poke_inside by lia.
      rewrite memcpy_at_nth_inside by (rewrite ?peek_length; lia).
      f_equal. lia.
    + rewrite poke_outside by lia.
      rewrite memcpy_at_nth_after by (rewrite ?peek_length; lia).
      rewrite peek_nth by lia. f_equal. lia.
Qed.

Lemma poke_nothing (mem : Z -> byte) (addr : Z) (buf : list byte) (a : Z) :
  bd_poke mem addr 0 buf a = mem a.
Proof. apply poke_outside. lia. Qed.

(** The first phase writes [h] bytes, up to the next unit boundary. *)
Lemma program_first_spec (c : Cursor) (d : Device) :
  0 <= fwu_offset c ->
  fwu_rmn c = Z.of_nat (length (fwu_data c)) ->
  fwu_offset c + fwu_rmn c + P <= 2 ^ 32 ->
  all_served (secondary d) ->
  exists h bd',
    program_first P R c d
    = (inl (mkCursor (skipn (Z.to_nat h) (fwu_data c)) (fwu_offset c + h)
                     (fwu_rmn c - h)),
       with_secondary bd' d)
    /\ 0 <= h <= fwu_rmn c
    /\ (fwu_rmn c - h = 0 \/ (fwu_offset c + h) mod P = 0)
    /\ bd_wrote (secondary d) bd' (fwu_offset c) h (fwu_data c)
    /\ (h = 0 -> bd' = secondary d)
    /\ (0 < h ->
        fwu_offset c + h <= fwu_offset c / P * P + P
        /\ exists rest, bd_log bd' = BdProgram (fwu_offset c / P * P) P :: rest).
Proof.
  destruct c as [data o rmn]. simpl. intros Ho Hrmn Hfit Hs.
  pose proof (alignup_bounds P HP o Ho) as Hup.
  pose proof (aligndown_bounds P HP o Ho) as Hdn.
  assert (Hmult : ((o + P - 1) / P * P) mod P = 0) by apply Z_mod_mult.
  pose proof (alignup_unaligned P HP o Ho) as Hun.
  unfold program_first. simpl.
  rewrite sub_add_wrap.
  unfold SizeT.add, SizeT.sub, SizeT.mul.
  rewrite (wrap_small (o + P - 1)) by lia.
  rewrite (bind_inl _ _ d d ((o + P - 1) / P)) by (apply udiv_ok; lia).
  set (up := (o + P - 1) / P * P) in *. set (base := o / P * P) in *.
  rewrite (wrap_small up) by lia.
  rewrite (wrap_small (up - o)) by lia.
  set (todo := if rmn <? up - o then rmn else up - o).
  assert (Htodo : 0 <= todo <= rmn /\ todo <= up - o
                  /\ (todo = rmn \/ todo = up - o)).
  { unfold todo. destruct (Z.ltb_spec rmn (up - o)); lia. }
  rewrite (bind_inl _ _ d d tt) by (apply assert_true; apply Z.ltb_lt; lia).
  destruct (Z.eqb_spec todo 0) as [Hz|Hnz].
  - exists 0, (secondary d). rewrite Z.add_0_r, Z.sub_0_r. simpl skipn.
    split; [destruct d; reflexivity|].
    split; [lia|]. split.
    { destruct Htodo as (_ & _ & [He|He]); [left; lia|right].
      replace o with up by lia. exact Hmult. }
    split; [split; [intros a; symmetry; apply poke_nothing|reflexivity]|].
    split; [reflexivity|lia].
  - destruct (bd_read_program_unit_spec o d ltac:(lia) Hs)
      as (bd1 & Hrd & Hmem1 & Hrej1 & _).
    fold base in Hrd.
    assert (Hs1 : all_served bd1) by (apply (all_served_same _ _ Hrej1 Hs)).
    destruct (bd_program_served
                (memcpy_at (bd_peek (bd_mem (secondary d)) base (Z.to_nat P))
                           (Z.to_nat (o - base)) data (Z.to_nat todo))
                base P bd1 Hs1) as (bd2 & Hpr & Hmem2 & Hrej2 & Hlog2).
    exists todo, bd2. split.
    { rewrite (bind_inl _ _ _ _ _ Hrd). cbv beta iota zeta.
      change (negb (0 =? 0)) with false. cbv iota.
      rewrite (bind_inl _ _ _ (with_secondary bd1 d) (o / P))
        by (apply udiv_ok; lia).
      fold base. rewrite (wrap_small base) by lia.
      rewrite (wrap_small (o - base)) by lia.
      unfold memcpy_into. rewrite peek_length.
      replace ((0 <=? o - base) && (0 <=? todo)
               && (o - base + todo <=? Z.of_nat (Z.to_nat P))
               && (todo <=? Z.of_nat (length data)))
        with true
        by (symmetry; rewrite !andb_true_iff, !Z.leb_le; lia).
      unfold bind at 1. unfold ret at 1.
      rewrite (bind_inl _ _ _ (with_secondary bd2 d) 0)
        by (unfold on_secondary; simpl secondary; rewrite Hpr; reflexivity).
      change (negb (0 =? 0)) with false. cbv iota. unfold ret, advance.
      simpl. unfold SizeT.add, SizeT.sub.
      rewrite (wrap_small (o + todo)) by lia.
      rewrite (wrap_small (rmn - todo)) by lia. reflexivity. }
    split; [lia|]. split.
    { destruct Htodo as (_ & _ & [He|He]); [left; lia|right].
      replace (o + todo) with up by lia. exact Hmult. }
    split.
    { split; [|congruence]. intros a. rewrite Hmem2, Hmem1.
      rewrite (rmw_poke _ base (o - base) todo) by lia.
      f_equal. lia. }
    split; [lia|]. intros _. split; [|eexists; exact Hlog2].
    rewrite <- Hun by lia. lia.
Qed.

(** The second phase writes the whole units that remain. *)
Lemma program_aligned_spec (c : Cursor) (d : Device) :
  0 <= fwu_offset c ->
  fwu_rmn c = Z.of_nat (length (fwu_data c)) ->
  fwu_offset c + fwu_rmn c + P <= 2 ^ 32 ->
  all_served (secondary d) ->
  exists bd',
    let m := fwu_rmn c / P * P in
    program_aligned P c d
    = (inl (mkCursor (skipn (Z.to_nat m) (fwu_data c)) (fwu_offset c + m)
                     (fwu_rmn c - m)),
       with_secondary bd' d)
    /\ bd_wrote (secondary d) bd' (fwu_offset c) m (fwu_data c)
    /\ (m = 0 -> bd' = secondary d)
    /\ (0 < m -> exists rest, bd_log bd' = BdProgram (fwu_offset c) m :: rest).
Proof.
  destruct c as [data o rmn]. simpl. intros Ho Hrmn Hfit Hs.
  assert (Hr : 0 <= rmn) by lia.
  pose proof (remainder_bounds P HP rmn Hr) as Hm.
  set (m := rmn / P * P) in *.
  destruct (bd_program_served data o m (secondary d) Hs)
    as (bd1 & Hpr & Hmem & Hrej & Hlog).
  unfold program_aligned. simpl.
  rewrite (bind_inl _ _ d d (rmn / P)) by (apply udiv_ok; lia).
  unfold SizeT.mul. fold m. rewrite (wrap_small m) by lia.
  destruct (Z.eqb_spec m 0) as [Hz|Hnz].
  - exists (secondary d). rewrite Hz, Z.add_0_r, Z.sub_0_r. simpl skipn.
    split; [destruct d; reflexivity|].
    split; [split; [intros a; symmetry; apply poke_nothing|reflexivity]|].
    split; [reflexivity|lia].
  - exists bd1. split.
    { rewrite (bind_inl _ _ _ (with_secondary bd1 d) 0)
        by (unfold on_secondary; rewrite Hpr; reflexivity).
      change (negb (0 =? 0)) with false. cbv iota. unfold ret, advance.
      simpl. unfold SizeT.add, SizeT.sub.
      rewrite (wrap_small (o + m)) by lia.
      rewrite (wrap_small (rmn - m)) by lia. reflexivity. }
    split; [split; [intros a; rewrite Hmem; reflexivity|exact Hrej]|].
    split; [lia|]. intros _. eexists. exact Hlog.
Qed.

(** The last phase writes the partial unit that remains, through a
    read-modify-write of the unit it starts. *)
Lemma program_last_spec (c : Cursor) (d : Device) :
  0 <= fwu_offset c ->
  fwu_rmn c = Z.of_nat (length (fwu_data c)) ->
  fwu_rmn c < P ->
  (fwu_rmn c = 0 \/ fwu_offset c mod P = 0) ->
  fwu_offset c + fwu_rmn c + P <= 2 ^ 32 ->
  all_served (secondary d) ->
  exists bd',
    program_last P R c d
    = (inl (mkCursor (skipn (Z.to_nat (fwu_rmn c)) (fwu_data c))
                     (fwu_offset c + fwu_rmn c) 0),
       with_secondary bd' d)
    /\ bd_wrote (secondary d) bd' (fwu_offset c) (fwu_rmn c) (fwu_data c)
    /\ (fwu_rmn c = 0 -> bd' = secondary d)
    /\ (0 < fwu_rmn c ->
        exists rest, bd_log bd' = BdProgram (fwu_offset c) P :: rest).
Proof.
  destruct c as [data o rmn]. simpl. intros Ho Hrmn Hlt Hal Hfit Hs.
  unfold program_last. simpl.
  destruct (Z.eqb_spec rmn 0) as [Hz|Hnz].
  - exists (secondary d). rewrite Hz, Z.add_0_r. simpl skipn.
    split; [destruct d; reflexivity|].
    split; [split; [intros a; symmetry; apply poke_nothing|reflexivity]|].
    split; [reflexivity|lia].
  - assert (Hbase : o / P * P = o)
      by (apply (aligned_down P HP); destruct Hal; [lia|assumption]).
    destruct (bd_read_program_unit_spec o d ltac:(lia) Hs)
      as (bd1 & Hrd & Hmem1 & Hrej1 & _).
    rewrite Hbase in Hrd.
    assert (Hs1 : all_served bd1) by (apply (all_served_same _ _ Hrej1 Hs)).
    destruct (bd_program_served
                (memcpy_at (bd_peek (bd_mem (secondary d)) o (Z.to_nat P))
                           (Z.to_nat 0) data (Z.to_nat rmn))
                o P bd1 Hs1) as (bd2 & Hpr & Hmem2 & Hrej2 & Hlog2).
    exists bd2. split.
    { rewrite (bind_inl _ _ d d tt)
        by (apply assert_true; apply Z.ltb_lt; lia).
      rewrite (bind_inl _ _ _ _ _ Hrd). cbv beta iota zeta.
      change (negb (0 =? 0)) with false. cbv iota.
      unfold memcpy_into. rewrite peek_length.
      replace ((0 <=? 0) && (0 <=? rmn)
               && (0 + rmn <=? Z.of_nat (Z.to_nat P))
               && (rmn <=? Z.of_nat (length data)))
        with true
        by (symmetry; rewrite !andb_true_iff, !Z.leb_le; lia).
      unfold bind at 1. unfold ret at 1.
      rewrite (bind_inl _ _ _ (with_secondary bd2 d) 0)
        by (unfold on_secondary; simpl secondary; rewrite Hpr; reflexivity).
      change (negb (0 =? 0)) with false. cbv iota. unfold ret, advance.
      simpl. unfold SizeT.add, SizeT.sub.
      rewrite (wrap_small (o + rmn)) by lia.
      rewrite Z.sub_diag. reflexivity. }
    split.
    { split; [|congruence]. intros a. rewrite Hmem2, Hmem1.
      rewrite (rmw_poke _ o 0 rmn) by lia. f_equal. lia. }
    split; [lia|]. intros _. eexists. exact Hlog2.
Qed.

Lemma bd_wrote_append (bd bd1 bd2 : BlockDevice) (o h m : Z)
    (data : list byte) :
  0 <= h -> 0 <= m ->
  bd_wrote bd bd1 o h data ->
  bd_wrote bd1 bd2 (o + h) m (skipn (Z.to_nat h) data) ->
  bd_wrote bd bd2 o (h + m) data.
Proof.
  intros Hh Hm [Hw1 Hr1] [Hw2 Hr2]. split; [|congruence].
  intros a. rewrite Hw2.
  destruct (Z_lt_le_dec a (o + h)) as [Hlo|Hlo].
  - rewrite (poke_outside _ (o + h)) by lia. rewrite Hw1.
    destruct (Z_lt_le_dec a o).
    + rewrite !poke_outside by lia. reflexivity.
    + rewrite !poke_inside by lia. reflexivity.
  - destruct (Z_lt_le_dec a (o + h + m)) as [Hhi|Hhi].
    + rewrite !poke_inside by lia. rewrite nth_skipn. f_equal. lia.
    + rewrite (poke_outside _ (o + h)) by lia. rewrite Hw1.
      rewrite !poke_outside by lia. reflexivity.
Qed.

(** The three phases together write the chunk at its offset; when the
    chunk ends inside a unit, the last request programs that unit. *)
Lemma write_phases_spec (data : list byte) (o : Z) (d : Device) :
  let n := Z.of_nat (length data) in
  0 <= o -> o + n + P <= 2 ^ 32 -> all_served (secondary d) ->
  exists c3 bd',
    (c <- program_first P R (mkCursor data o n) ;;
     c <- program_aligned P c ;;
     program_last P R c) d
    = (inl c3, with_secondary bd' d)
    /\ fwu_rmn c3 = 0
    /\ bd_wrote (secondary d) bd' o n data
    /\ (0 < n -> (o + n) mod P <> 0 ->
        exists rest, bd_log bd' = BdProgram ((o + n) / P * P) P :: rest).
Proof.
  intros n Ho Hfit Hs.
  destruct (program_first_spec (mkCursor data o n) d Ho eq_refl Hfit Hs)
    as (h & bd1 & Hrun1 & Hh & Hal1 & Hw1 & Hid1 & Hlog1).
  simpl in Hrun1, Hh, Hal1, Hw1, Hlog1.
  set (c1 := mkCursor (skipn (Z.to_nat h) data) (o + h) (n - h)) in *.
  assert (Hs1 : all_served bd1) by (apply (all_served_same _ _ (proj2 Hw1) Hs)).
  assert (Hlen1 : fwu_rmn c1 = Z.of_nat (length (fwu_data c1)))
    by (simpl; rewrite length_skipn; lia).
  destruct (program_aligned_spec c1 (with_secondary bd1 d)
              ltac:(simpl; lia) Hlen1 ltac:(simpl; lia) Hs1)
    as (bd2 & Hrun2 & Hw2 & Hid2 & Hlog2).
  simpl in Hrun2, Hw2, Hid2, Hlog2.
  pose proof (remainder_bounds P HP (n - h) ltac:(lia)) as Hm.
  set (m := (n - h) / P * P) in *.
  set (c2 := mkCursor (skipn (Z.to_nat m) (skipn (Z.to_nat h) data))
                      (o + h + m) (n - h - m)) in *.
  assert (Hs2 : all_served bd2) by (apply (all_served_same _ _ (proj2 Hw2) Hs1)).
  assert (Hlen2 : fwu_rmn c2 = Z.of_nat (length (fwu_data c2)))
    by (simpl; rewrite !length_skipn; lia).
  assert (Hal2 : fwu_rmn c2 = 0 \/ fwu_offset c2 mod P = 0).
  { simpl. destruct Hal1 as [Hz|Hz].
    - left. unfold m. rewrite Hz. simpl. lia.
    - right. apply (aligned_add P HP). exact Hz. }
  destruct (program_last_spec c2 (with_secondary bd2 d)
              ltac:(simpl; lia) Hlen2 ltac:(simpl; lia) Hal2
              ltac:(simpl; lia) Hs2)
    as (bd3 & Hrun3 & Hw3 & Hid3 & Hlog3).
  simpl in Hrun3, Hw3, Hid3, Hlog3.
  eexists. exists bd3. split.
  { rewrite (bind_inl _ _ _ _ _ Hrun1).
    rewrite (bind_inl _ _ _ _ _ Hrun2). exact Hrun3. }
  split; [reflexivity|]. split.
  { replace n with (h + (m + (n - h - m))) by lia.
    apply (bd_wrote_append _ bd1); [lia|lia|exact Hw1|].
    apply (bd_wrote_append _ bd2); [lia|lia|exact Hw2|exact Hw3]. }
  intros Hn Hend.
  destruct (Z.eq_dec (n - h - m) 0) as [Ht|Ht].
  - rewrite (Hid3 Ht).
    destruct (Z.eq_dec m 0) as [Hm0|Hm0].
    + rewrite (Hid2 Hm0).
      assert (Hhn : h = n) by lia. subst h.
      destruct (Hlog1 Hn) as (Hle & rest & Hl). exists rest. rewrite Hl.
      do 2 f_equal. symmetry. apply (floor_unique P HP).
      * apply Z_mod_mult.
      * pose proof (aligndown_bounds P HP o Ho) as Hdn.
        assert ((o + n) <> o / P * P + P).
        { intros He. apply Hend. rewrite He.
          rewrite Z.add_mod, Z_mod_mult, Z_mod_same_full by lia. reflexivity. }
        lia.
    + exfalso. apply Hend.
      replace (o + n) with (o + h + m) by lia.
      destruct Hal1 as [Hz|Hz]; [unfold m in Hm0; rewrite Hz in Hm0;
                                 simpl in Hm0; lia|].
      apply (aligned_add P HP). exact Hz.
  - destruct (Hlog3 ltac:(lia)) as (rest & Hl). exists rest. rewrite Hl.
    do 2 f_equal. symmetry. apply (floor_unique P HP).
    + destruct Hal2 as [Hz|Hz]; [simpl in Hz; lia|exact Hz].
    + lia.
Qed.
End Unit.

(* ----------------------------------------------------------------- *)
(** ** Frames of the writer steps *)

Lemma keeps_ret {A} (a : A) : keeps_handler (ret a).
Proof. intros d. split; reflexivity. Qed.

Lemma keeps_raise {A} (f : fault) : keeps_handler (@raise A f).
Proof. intros d. split; reflexivity. Qed.

Lemma keeps_goto_failure {A} : keeps_handler (@goto_failure A).
Proof. intros d. split; reflexivity. Qed.

Lemma keeps_bind {A B} (m : M A) (k : A -> M B) :
  keeps_handler m -> (forall a, keeps_handler (k a)) ->
  keeps_handler (bind m k).
Proof.
  intros Hm Hk d. unfold bind. specialize (Hm d).
  destruct (m d) as [[a|e] d1]; simpl in Hm.
  - destruct (Hk a d1) as [H1 H2]. destruct Hm as [H3 H4].
    split; congruence.
  - exact Hm.
Qed.

Lemma keeps_assert (c : bool) : keeps_handler (MBED_ASSERT c).
Proof. destruct c; [apply keeps_ret|apply keeps_raise]. Qed.

Lemma keeps_udiv (a b : Z) : keeps_handler (udiv a b).
Proof. unfold udiv. destruct (b =? 0); [apply keeps_raise|apply keeps_ret]. Qed.

Lemma keeps_memcpy_from (src : list byte) (pos n : Z) :
  keeps_handler (memcpy_from src pos n).
Proof.
  unfold memcpy_from. destruct (_ && _); [apply keeps_ret|apply keeps_raise].
Qed.

Lemma keeps_memcpy_into (dst : list byte) (pos : Z) (src : list byte) (n : Z) :
  keeps_handler (memcpy_into dst pos src n).
Proof.
  unfold memcpy_into. destruct (_ && _); [apply keeps_ret|apply keeps_raise].
Qed.

Lemma keeps_on_secondary {A} (f : BlockDevice -> A * BlockDevice) :
  keeps_handler (on_secondary f).
Proof.
  intros d. unfold on_secondary. destruct (f (secondary d)). split; reflexivity.
Qed.

Lemma keeps_if {A} (c : bool) (m1 m2 : M A) :
  keeps_handler m1 -> keeps_handler m2 -> keeps_handler (if c then m1 else m2).
Proof. destruct c; auto. Qed.

Create HintDb keeps.
#[local] Hint Resolve keeps_ret keeps_raise keeps_goto_failure keeps_assert
  keeps_udiv keeps_memcpy_from keeps_memcpy_into keeps_on_secondary : keeps.

Ltac keeps_step :=
  first [ apply keeps_bind; [|intros ?]
        | apply keeps_if
        | match goal with |- keeps_handler (let '(_, _) := ?p in _) =>
            destruct p end
        | solve [auto with keeps] ].

Lemma keeps_bd_read_program_unit (P R offset : Z) :
  keeps_handler (bd_read_program_unit P R offset).
Proof. unfold bd_read_program_unit. repeat keeps_step. Qed.

Lemma keeps_program_first (P R : Z) (c : Cursor) :
  keeps_handler (program_first P R c).
Proof.
  unfold program_first. pose proof keeps_bd_read_program_unit.
  repeat keeps_step; auto.
Qed.

Lemma keeps_program_aligned (P : Z) (c : Cursor) :
  keeps_handler (program_aligned P c).
Proof. unfold program_aligned. repeat keeps_step. Qed.

Lemma keeps_program_last (P R : Z) (c : Cursor) :
  keeps_handler (program_last P R c).
Proof.
  unfold program_last. pose proof keeps_bd_read_program_unit.
  repeat keeps_step; auto.
Qed.

Lemma keeps_write_phases (P R : Z) (c : Cursor) :
  keeps_handler (c <- program_first P R c ;;
                 c <- program_aligned P c ;;
                 program_last P R c).
Proof.
  apply keeps_bind; [apply keeps_program_first|intros c1].
  apply keeps_bind; [apply keeps_program_aligned|intros c2].
  apply keeps_program_last.
Qed.

(** Whatever the configuration, [write_through] leaves the store and the
    context alone, except that a successful write advances the offset. *)
Lemma write_through_handler (dl_data : list byte) (d : Device)
    (c : OTA_OperationContext_t) :
  otaCtx_opaque d = Some c ->
  nvstore (snd (write_through dl_data d)) = nvstore d
  /\ otaCtx_opaque (snd (write_through dl_data d))
     = match fst (write_through dl_data d) with
       | inl _ =>
           Some (with_dl_prog
                   (SizeT.add (dl_prog_offset c) (Z.of_nat (length dl_data)))
                   (dl_prog_total_exp c) (dl_prog_total_act c) c)
       | inr _ => Some c
       end.
Proof.
  intros Hc. destruct (write_through dl_data d) as [r d'] eqn:Hw.
  simpl fst; simpl snd. revert Hw. unfold write_through.
  rewrite (bind_inl _ _ d d c) by (unfold the_ctx; rewrite Hc; reflexivity).
  destruct (negb (secondary_bd c) || negb (secondary_bd_inited c));
    [intros [= <- <-]; split; [reflexivity|exact Hc]|].
  destruct (secondary_bd_progunit c);
    [|intros [= <- <-]; split; [reflexivity|exact Hc]].
  rewrite (bind_inl _ _ d d tt) by reflexivity.
  destruct (negb (secondary_bd_progunit_size c =? 0));
    [|intros [= <- <-]; split; [reflexivity|exact Hc]].
  rewrite (bind_inl _ _ d d tt) by reflexivity.
  cbv zeta.
  pose proof (keeps_write_phases (secondary_bd_progunit_size c)
                (secondary_bd_readblock_size c)
                (mkCursor dl_data (SizeT.add 0 (dl_prog_offset c))
                          (Z.of_nat (length dl_data))) d) as [Hk1 Hk2].
  unfold bind at 1.
  destruct ((c0 <- program_first _ _ _ ;; c1 <- program_aligned _ c0 ;;
             program_last _ _ c1) d) as [[c3|e] d1];
    simpl in Hk1, Hk2; [|intros [= <- <-]; split; congruence].
  destruct (fwu_rmn c3 =? 0).
  - rewrite (bind_inl _ _ d1 d1 tt) by reflexivity.
    unfold set_ctx. intros [= <- <-]. simpl. split; [exact Hk2|reflexivity].
  - intros [= <- <-]. split; congruence.
Qed.

(** On a ready context, with room below the address limit and a device
    that serves everything, [write_through] succeeds and writes the chunk
    at the download offset. *)
Lemma write_through_ready (dl_data : list byte) (d : Device)
    (c : OTA_OperationContext_t) :
  let n := Z.of_nat (length dl_data) in
  let P := secondary_bd_progunit_size c in
  otaCtx_opaque d = Some c -> writer_ready c ->
  0 <= dl_prog_offset c -> dl_prog_offset c + n + P <= 2 ^ 32 ->
  all_served (secondary d) ->
  exists bd',
    write_through dl_data d
    = (inl tt,
       with_ctx (Some (with_dl_prog (dl_prog_offset c + n)
                                    (dl_prog_total_exp c)
                                    (dl_prog_total_act c) c))
                (with_secondary bd' d))
    /\ bd_wrote (secondary d) bd' (dl_prog_offset c) n dl_data
    /\ (0 < n -> (dl_prog_offset c + n) mod P <> 0 ->
        exists rest,
          bd_log bd'
          = BdProgram ((dl_prog_offset c + n) / P * P) P :: rest).
Proof.
  intros n P Hc (Hbd & Hin & Hpu & Hrb & HP & HR & HRP) Ho Hfit Hs.
  fold P in HP, HRP.
  destruct (write_phases_spec P (secondary_bd_readblock_size c) HP HR HRP
              dl_data (dl_prog_offset c) d Ho Hfit Hs)
    as (c3 & bd' & Hrun & Hrmn & Hw & Hlog).
  exists bd'. split; [|split; assumption].
  unfold write_through.
  rewrite (bind_inl _ _ d d c) by (unfold the_ctx; rewrite Hc; reflexivity).
  rewrite Hbd, Hin, Hpu. cbn [negb orb].
  rewrite (bind_inl _ _ d d tt) by reflexivity.
  fold P. replace (P =? 0) with false by (symmetry; apply Z.eqb_neq; lia).
  cbn [negb]. rewrite (bind_inl _ _ d d tt) by reflexivity.
  cbv zeta. unfold SizeT.add at 1. rewrite Z.add_0_l.
  rewrite (wrap_small (dl_prog_offset c)) by (fold n in Hfit; lia).
  fold n. rewrite (bind_inl _ _ _ _ _ Hrun).
  rewrite Hrmn. rewrite (bind_inl _ _ _ (with_secondary bd' d) tt)
    by reflexivity.
  unfold set_ctx, SizeT.add. rewrite wrap_small by lia. reflexivity.
Qed.

(* ----------------------------------------------------------------- *)
(** ** Header gate *)

Lemma catch_header_past (dl_data : list byte) (d : Device)
    (c : OTA_OperationContext_t) :
  otaCtx_opaque d = Some c ->
  Z.of_nat sizeof_image_header <= dl_prog_offset c ->
  catch_header dl_data d = (inl tt, d).
Proof.
  intros Hc Ho. unfold catch_header.
  rewrite (bind_inl _ _ d d c) by (unfold the_ctx; rewrite Hc; reflexivity).
  destruct (Z.ltb_spec (dl_prog_offset c) (Z.of_nat sizeof_image_header));
    [lia|reflexivity].
Qed.

(** The header bytes a chunk contributes. *)
Lemma catch_header_spec (dl_data : list byte) (d : Device)
    (c : OTA_OperationContext_t) :
  otaCtx_opaque d = Some c ->
  0 <= dl_prog_offset c < 32 ->
  length (fwu_stage_image_header c) = 32%nat ->
  let n := Z.of_nat (length dl_data) in
  let o := dl_prog_offset c in
  let todo := if n <? 32 - o then n else 32 - o in
  let h' := memcpy_at (fwu_stage_image_header c) (Z.to_nat o) dl_data
                      (Z.to_nat todo) in
  let dh := with_ctx (Some (with_stage_header h' c)) d in
  catch_header dl_data d
  = if o + todo =? 32
    then if ih_magic_ok h'
         then let '(ok, kv') :=
                nvImgUpgSt_setStageVersion (ih_ver h') (nvstore d) in
              (if ok then inl tt else inr ExitFailure, with_nvstore kv' dh)
         else (inr ExitFailure, dh)
    else (inl tt, dh).
Proof.
  intros Hc Ho Hl n o todo h' dh. unfold catch_header.
  rewrite (bind_inl _ _ d d c) by (unfold the_ctx; rewrite Hc; reflexivity).
  fold n. fold o. change (Z.of_nat sizeof_image_header) with 32.
  destruct (Z.ltb_spec o 32); [|lia].
  unfold SizeT.sub. rewrite (wrap_small (32 - o)) by lia. fold todo.
  assert (Ht : 0 <= todo <= n /\ o + todo <= 32)
    by (unfold todo; destruct (Z.ltb_spec n (32 - o)); lia).
  unfold memcpy_into. rewrite Hl.
  replace ((0 <=? o) && (0 <=? todo) && (o + todo <=? Z.of_nat 32)
           && (todo <=? Z.of_nat (length dl_data)))
    with true
    by (symmetry; rewrite !andb_true_iff, !Z.leb_le; fold n; lia).
  unfold bind at 1. unfold ret at 1. fold h'.
  rewrite (bind_inl _ _ d dh tt) by reflexivity.
  destruct (o + todo =? 32); [|reflexivity].
  destruct (ih_magic_ok h'); [|reflexivity]. cbn [negb].
  unfold bind, on_nvstore. change (nvstore dh) with (nvstore d).
  destruct (nvImgUpgSt_setStageVersion (ih_ver h') (nvstore d)) as [ok kv'].
  destruct ok; reflexivity.
Qed.

Lemma same_config_ready (c c' : OTA_OperationContext_t) :
  same_config c c' -> writer_ready c -> writer_ready c'.
Proof.
  intros (_ & H1 & H2 & H3 & H4 & H5 & H6)
         (R1 & R2 & R3 & R4 & R5 & R6 & R7).
  unfold writer_ready. rewrite H1, H2, H3, H4, H5, H6.
  repeat split; assumption.
Qed.

(** The header step touches the cached header and, when the header
    completes, the store; nothing else. *)
Lemma catch_header_frame (dl_data : list byte) (d : Device)
    (c : OTA_OperationContext_t) :
  otaCtx_opaque d = Some c ->
  secondary (snd (catch_header dl_data d)) = secondary d
  /\ exists c',
      otaCtx_opaque (snd (catch_header dl_data d)) = Some c'
      /\ same_config c c'
      /\ dl_prog_offset c' = dl_prog_offset c.
Proof.
  intros Hc. destruct (catch_header dl_data d) as [r dh] eqn:Hh.
  simpl snd. revert Hh. unfold catch_header.
  rewrite (bind_inl _ _ d d c) by (unfold the_ctx; rewrite Hc; reflexivity).
  assert (Hcc : secondary d = secondary d
                /\ exists c', otaCtx_opaque d = Some c' /\ same_config c c'
                              /\ dl_prog_offset c' = dl_prog_offset c)
    by (split; [reflexivity|exists c; repeat split; exact Hc]).
  destruct (dl_prog_offset c <? Z.of_nat sizeof_image_header);
    [|intros [= <- <-]; exact Hcc].
  unfold memcpy_into.
  destruct (_ && _); [|intros [= <- <-]; exact Hcc].
  unfold bind at 1. unfold ret at 1.
  match goal with |- context [set_ctx ?x] => set (ch := x) end.
  rewrite (bind_inl _ _ d (with_ctx (Some ch) d) tt) by reflexivity.
  assert (Hch : forall kv,
            secondary (with_nvstore kv (with_ctx (Some ch) d)) = secondary d
            /\ exists c',
                otaCtx_opaque (with_nvstore kv (with_ctx (Some ch) d))
                = Some c'
                /\ same_config c c' /\ dl_prog_offset c' = dl_prog_offset c)
    by (intros kv; split; [reflexivity|exists ch; repeat split]).
  destruct (_ =? Z.of_nat sizeof_image_header);
    [|intros [= <- <-]; exact (Hch (nvstore d))].
  destruct (negb _); [intros [= <- <-]; exact (Hch (nvstore d))|].
  unfold bind, on_nvstore.
  destruct (nvImgUpgSt_setStageVersion _ _) as [ok kv'].
  destruct ok; intros [= <- <-]; exact (Hch kv').
Qed.

(** One call of [CombinedDownloadInstall] on a ready context: once the
    header step lets the chunk through, the chunk is written and the
    offset advances by its length. *)
Lemma CombinedDownloadInstall_writes (dl_data : list byte) (d dh : Device)
    (c : OTA_OperationContext_t) :
  let n := Z.of_nat (length dl_data) in
  let P := secondary_bd_progunit_size c in
  otaCtx_opaque d = Some c -> writer_ready c ->
  0 <= dl_prog_offset c -> dl_prog_offset c + n + P <= 2 ^ 32 ->
  all_served (secondary d) ->
  catch_header dl_data d = (inl tt, dh) ->
  exists ch bd',
    otaCtx_opaque dh = Some ch
    /\ same_config c ch
    /\ CombinedDownloadInstall dl_data d
       = (Returns ADUC_Result_Download_Success,
          with_ctx (Some (with_dl_prog (dl_prog_offset c + n)
                                       (dl_prog_total_exp ch)
                                       (dl_prog_total_act ch) ch))
                   (with_secondary bd' dh))
    /\ bd_wrote (secondary d) bd' (dl_prog_offset c) n dl_data
    /\ (0 < n -> (dl_prog_offset c + n) mod P <> 0 ->
        exists rest,
          bd_log bd'
          = BdProgram ((dl_prog_offset c + n) / P * P) P :: rest).
Proof.
  intros n P Hc Hready Ho Hfit Hs Hh.
  destruct (catch_header_frame dl_data d c Hc) as (Hsec & ch & Hch & Hcfg & Hoff).
  rewrite Hh in Hsec, Hch. simpl in Hsec, Hch.
  assert (HP : secondary_bd_progunit_size ch = P)
    by (destruct Hcfg as (_ & _ & _ & _ & H4 & _); exact H4).
  destruct (write_through_ready dl_data dh ch Hch
              (same_config_ready _ _ Hcfg Hready)
              ltac:(rewrite Hoff; exact Ho)
              ltac:(rewrite Hoff, HP; exact Hfit)
              ltac:(rewrite Hsec; exact Hs))
    as (bd' & Hrun & Hw & Hlog).
  rewrite Hoff in Hrun. rewrite Hoff in Hw. rewrite Hoff, HP in Hlog.
  rewrite Hsec in Hw.
  exists ch, bd'. split; [exact Hch|]. split; [exact Hcfg|].
  split; [|split; assumption].
  unfold CombinedDownloadInstall, CombinedDownloadInstall_body.
  rewrite (bind_inl _ _ d d c) by (unfold the_ctx; rewrite Hc; reflexivity).
  rewrite (bind_inl _ _ _ _ _ Hh). fold n. rewrite Hrun. reflexivity.
Qed.


(* ----------------------------------------------------------------- *)
(** ** Trailing partial unit *)




(* ----------------------------------------------------------------- *)
(** ** The body stream *)

Lemma http_body_failed (chunks : list (bool * list byte)) (d : Device) :
  http_body chunks ADUC_Result_Failure d = (Returns ADUC_Result_Failure, d).
Proof.
  induction chunks as [|[cancel dl_data] rest IH]; [reflexivity|].
  simpl. exact IH.
Qed.

Lemma delivered_app (xs ys : list (bool * list byte)) :
  delivered (xs ++ ys) = delivered xs ++ delivered ys.
Proof. unfold delivered. rewrite filter_app, map_app. reflexivity. Qed.

(** Chunks that arrive under a cancel request are dropped. *)
Lemma http_body_delivered (chunks : list (bool * list byte))
    (result : ADUC_ResultCode) (d : Device) :
  http_body chunks result d
  = http_body (uncancelled (delivered chunks)) result d.
Proof.
  revert result d.
  induction chunks as [|[cancel dl_data] rest IH]; intros result d;
    [reflexivity|].
  destruct cancel.
  - change (delivered ((true, dl_data) :: rest)) with (delivered rest).
    rewrite <- IH. simpl. unfold CombinedDownloadInstallTask.
    rewrite orb_true_r. reflexivity.
  - change (delivered ((false, dl_data) :: rest))
      with (dl_data :: delivered rest).
    simpl.
    destruct (CombinedDownloadInstallTask result false dl_data d)
      as [[result'|f] d']; [apply IH|reflexivity].
Qed.

Lemma CombinedDownloadInstall_unfold (dl_data : list byte) (d : Device)
    (c : OTA_OperationContext_t) :
  otaCtx_opaque d = Some c ->
  CombinedDownloadInstall dl_data d
  = match catch_header dl_data d with
    | (inl _, dh) =>
        match write_through dl_data dh with
        | (inl _, d') => (Returns ADUC_Result_Download_Success, d')
        | (inr ExitFailure, d') => (Returns ADUC_Result_Failure, d')
        | (inr (ExitFault f), d') => (Faults f, d')
        end
    | (inr ExitFailure, dh) => (Returns ADUC_Result_Failure, dh)
    | (inr (ExitFault f), dh) => (Faults f, dh)
    end.
Proof.
  intros Hc. unfold CombinedDownloadInstall, CombinedDownloadInstall_body.
  rewrite (bind_inl _ _ d d c) by (unfold the_ctx; rewrite Hc; reflexivity).
  unfold bind. destruct (catch_header dl_data d) as [[u|e] dh];
    [|destruct e; reflexivity].
  destruct (write_through dl_data dh) as [[u'|e] d']; reflexivity.
Qed.

(** The call that completes a header without the magic fails: the
    offset and the device stay as they were. *)
Lemma header_gate_call (dl_data : list byte) (d : Device)
    (c : OTA_OperationContext_t) :
  let o := dl_prog_offset c in
  let h' := memcpy_at (fwu_stage_image_header c) (Z.to_nat o) dl_data
                      (Z.to_nat (32 - o)) in
  otaCtx_opaque d = Some c ->
  length (fwu_stage_image_header c) = 32%nat ->
  0 <= o < 32 -> 32 <= o + Z.of_nat (length dl_data) ->
  ih_magic_ok h' = false ->
  CombinedDownloadInstall dl_data d
  = (Returns ADUC_Result_Failure,
     with_ctx (Some (with_stage_header h' c)) d).
Proof.
  intros o h' Hc Hl Ho Hn Hbad.
  rewrite (CombinedDownloadInstall_unfold dl_data d c Hc).
  rewrite (catch_header_spec dl_data d c Hc Ho Hl). cbv zeta. fold o.
  destruct (Z.ltb_spec (Z.of_nat (length dl_data)) (32 - o)); [lia|].
  fold h'. replace (o + (32 - o) =? 32) with true
    by (symmetry; apply Z.eqb_eq; lia).
  rewrite Hbad. reflexivity.
Qed.

Section HeaderPrefix.
Local Open Scope nat_scope.

(** What the cached header holds once a chunk has been copied in. *)
Lemma header_after_chunk (h pre dl_data : list byte) (k : nat) :
  length h = 32 -> length pre < 32 -> firstn (length pre) h = pre ->
  k <= length dl_data -> length pre + k <= 32 ->
  firstn (length pre + k) (memcpy_at h (length pre) dl_data k)
  = pre ++ firstn k dl_data.
Proof.
  intros Hl Hp Hpre Hk Hfit. unfold memcpy_at. rewrite Hpre.
  rewrite firstn_app, (firstn_all2 pre) by lia.
  replace (length pre + k - length pre) with k by lia.
  rewrite firstn_app, firstn_firstn, Nat.min_id.
  rewrite length_firstn, Nat.min_l by lia.
  rewrite Nat.sub_diag. simpl. rewrite app_nil_r. reflexivity.
Qed.

Lemma header_completed (h pre dl_data rest : list byte) :
  length h = 32 -> length pre < 32 -> firstn (length pre) h = pre ->
  32 <= length pre + length dl_data ->
  memcpy_at h (length pre) dl_data (32 - length pre)
  = firstn 32 (pre ++ dl_data ++ rest).
Proof.
  intros Hl Hp Hpre Hn.
  rewrite <- (firstn_all2 (n := 32) (memcpy_at h (length pre) dl_data (32 - length pre)))
    by (rewrite memcpy_at_length; lia).
  replace 32 with (length pre + (32 - length pre)) at 1 by lia.
  rewrite header_after_chunk by (try assumption; lia).
  rewrite firstn_app, (firstn_all2 pre) by lia.
  f_equal. rewrite firstn_app.
  replace (32 - length pre - length dl_data) with 0 by lia.
  simpl. rewrite app_nil_r. reflexivity.
Qed.
End HeaderPrefix.

(** While the header is incomplete and its completion will lack the
    magic, no run of chunks moves the offset to the header size. *)
Lemma header_gate_stream (chunks : list (list byte)) (later pre : list byte) :
  forall (d : Device) (c : OTA_OperationContext_t),
  otaCtx_opaque d = Some c ->
  length (fwu_stage_image_header c) = 32%nat ->
  dl_prog_offset c = Z.of_nat (length pre) ->
  (length pre < 32)%nat ->
  firstn (length pre) (fwu_stage_image_header c) = pre ->
  (32 <= length (pre ++ concat chunks ++ later))%nat ->
  ih_magic_ok (firstn 32 (pre ++ concat chunks ++ later)) = false ->
  exists out d' c',
    http_body (uncancelled chunks) ADUC_Result_Download_Success d = (out, d')
    /\ otaCtx_opaque d' = Some c'
    /\ 0 <= dl_prog_offset c' < 32
    /\ ((32 <= length (pre ++ concat chunks))%nat ->
        out <> Returns ADUC_Result_Download_Success).
Proof.
  revert pre. induction chunks as [|dl_data rest IH];
    intros pre d c Hc Hl Ho Hp Hpre Hlen Hbad.
  - exists (Returns ADUC_Result_Download_Success), d, c.
    split; [reflexivity|]. split; [exact Hc|]. split; [lia|].
    simpl. rewrite app_nil_r. lia.
  - change (uncancelled (dl_data :: rest))
      with ((false, dl_data) :: uncancelled rest).
    cbn [http_body]. unfold CombinedDownloadInstallTask.
    cbn [IsAducResultCodeFailure orb].
    simpl concat in Hlen, Hbad. rewrite <- app_assoc in Hlen, Hbad.
    destruct (Nat.le_gt_cases 32 (length pre + length dl_data)) as [Hfull|Hpart].
    + (* this chunk completes the header *)
      pose proof (header_completed (fwu_stage_image_header c) pre dl_data
                    (concat rest ++ later) Hl Hp Hpre Hfull) as Hh.
      rewrite (header_gate_call dl_data d c Hc Hl ltac:(lia) ltac:(lia)).
      2:{ rewrite Ho, Nat2Z.id.
          replace (Z.to_nat (32 - Z.of_nat (length pre)))
            with (32 - length pre)%nat by lia.
          rewrite Hh. exact Hbad. }
      rewrite http_body_failed.
      eexists _, _, _. split; [reflexivity|].
      split; [reflexivity|]. split; [simpl; lia|]. discriminate.
    + (* the header stays incomplete *)
      rewrite (CombinedDownloadInstall_unfold dl_data d c Hc).
      rewrite (catch_header_spec dl_data d c Hc ltac:(lia) Hl). cbv zeta.
      rewrite Ho.
      destruct (Z.ltb_spec (Z.of_nat (length dl_data))
                  (32 - Z.of_nat (length pre))) as [_|Hge]; [|lia].
      replace (Z.of_nat (length pre) + Z.of_nat (length dl_data) =? 32)
        with false by (symmetry; apply Z.eqb_neq; lia).
      rewrite !Nat2Z.id.
      set (h' := memcpy_at (fwu_stage_image_header c) (length pre) dl_data
                           (length dl_data)).
      set (ch := with_stage_header h' c).
      set (dh := with_ctx (Some ch) d).
      destruct (write_through_handler dl_data dh ch eq_refl) as [_ Hctx].
      destruct (write_through dl_data dh) as [[u|e] d2]; cbn [fst snd] in Hctx.
      * assert (Hoff : SizeT.add (dl_prog_offset ch)
                                 (Z.of_nat (length dl_data))
                       = Z.of_nat (length (pre ++ dl_data))).
        { unfold SizeT.add. change (dl_prog_offset ch) with (dl_prog_offset c).
          rewrite Ho, wrap_small, length_app by lia. lia. }
        rewrite Hoff in Hctx.
        assert (Hl' : length h' = 32%nat)
          by (unfold h'; rewrite memcpy_at_length; lia).
        destruct (IH (pre ++ dl_data) d2 _ Hctx Hl' eq_refl) as
          (out & d' & c' & Hrun & Hc' & Hoff' & Hout).
        { rewrite length_app. lia. }
        { change (firstn (length (pre ++ dl_data)) h' = pre ++ dl_data).
          rewrite length_app. unfold h'.
          rewrite header_after_chunk by (try assumption; lia).
          rewrite firstn_all. reflexivity. }
        { rewrite <- app_assoc. exact Hlen. }
        { rewrite <- app_assoc. exact Hbad. }
        exists out, d', c'. split; [exact Hrun|]. split; [exact Hc'|].
        split; [exact Hoff'|]. intros Hfull. apply Hout.
        simpl concat in Hfull. rewrite <- app_assoc. exact Hfull.
      * destruct e as [|f].
        -- rewrite http_body_failed. exists (Returns ADUC_Result_Failure), d2, ch.
           split; [reflexivity|]. split; [exact Hctx|].
           split; [change (dl_prog_offset ch) with (dl_prog_offset c); lia|].
           discriminate.
        -- exists (Faults f), d2, ch.
           split; [reflexivity|]. split; [exact Hctx|].
           split; [change (dl_prog_offset ch) with (dl_prog_offset c); lia|].
           discriminate.
Qed.

(** C7.  Take a body whose first [header_size] bytes, as they reach the
    handler, lack the magic.  After any part of it has been delivered the
    tracked offset is below [header_size], and once the header bytes are
    in, the result is not success.  The call that completes the header
    returns Failure and moves neither the offset nor the device. *)
Theorem header_gate (chunks more : list (bool * list byte)) (d : Device)
    (c : OTA_OperationContext_t) :
  otaCtx_opaque d = Some c ->
  dl_prog_offset c = 0 ->
  length (fwu_stage_image_header c) = 32%nat ->
  let stream := concat (delivered (chunks ++ more)) in
  (32 <= length stream)%nat ->
  ih_magic_ok (firstn 32 stream) = false ->
  (exists out d' c',
     http_body chunks ADUC_Result_Download_Success d = (out, d')
     /\ otaCtx_opaque d' = Some c'
     /\ 0 <= dl_prog_offset c' < 32
     /\ ((32 <= length (concat (delivered chunks)))%nat ->
         out <> Returns ADUC_Result_Download_Success))
  /\ (forall (dl_data : list byte) (d1 : Device)
             (c1 : OTA_OperationContext_t),
        otaCtx_opaque d1 = Some c1 ->
        length (fwu_stage_image_header c1) = 32%nat ->
        0 <= dl_prog_offset c1 < 32 ->
        32 <= dl_prog_offset c1 + Z.of_nat (length dl_data) ->
        ih_magic_ok
          (memcpy_at (fwu_stage_image_header c1)
                     (Z.to_nat (dl_prog_offset c1)) dl_data
                     (Z.to_nat (32 - dl_prog_offset c1))) = false ->
        exists d2 c2,
          CombinedDownloadInstall dl_data d1
          = (Returns ADUC_Result_Failure, d2)
          /\ otaCtx_opaque d2 = Some c2
          /\ dl_prog_offset c2 = dl_prog_offset c1
          /\ secondary d2 = secondary d1).
Proof.
  intros Hc Ho Hl stream Hlen Hbad. split.
  - rewrite http_body_delivered.
    unfold stream in Hlen, Hbad. rewrite delivered_app, concat_app in Hlen, Hbad.
    apply (header_gate_stream (delivered chunks) (concat (delivered more)) []
             d c Hc Hl Ho); simpl; try lia; try reflexivity; assumption.
  - intros dl_data d1 c1 Hc1 Hl1 Ho1 Hn1 Hbad1.
    rewrite (header_gate_call dl_data d1 c1 Hc1 Hl1 Ho1 Hn1 Hbad1).
    eexists _, _. repeat split.
Qed.

Lemma header_gate_witness :
  let chunks := [(false, repeat x22 10); (true, sample_header);
                 (false, repeat x22 30)] in
  let d := sample_device 4 1024 in
  (32 <= length (concat (delivered chunks)))%nat
  /\ ih_magic_ok (firstn 32 (concat (delivered chunks))) = false
  /\ exists d' c',
      http_body chunks ADUC_Result_Download_Success d
      = (Returns ADUC_Result_Failure, d')
      /\ otaCtx_opaque d' = Some c'
      /\ 0 <= dl_prog_offset c' < 32.
Proof.
  intros chunks d.
  assert (Hlen : (32 <= length (concat (delivered (chunks ++ []))))%nat)
    by (vm_compute; repeat constructor).
  assert (Hbad : ih_magic_ok
                   (firstn 32 (concat (delivered (chunks ++ [])))) = false)
    by reflexivity.
  destruct (header_gate chunks [] d _ eq_refl eq_refl eq_refl Hlen Hbad)
    as ((out & d' & c' & Hrun & Hc' & Hoff & _) & _).
  split; [vm_compute; repeat constructor|]. split; [reflexivity|].
  exists d', c'. split; [|split; assumption].
  rewrite Hrun. f_equal.
  assert (Hout : fst (http_body chunks ADUC_Result_Download_Success d)
                 = Returns ADUC_Result_Failure) by reflexivity.
  rewrite Hrun in Hout. exact Hout.
Defined.

(* ----------------------------------------------------------------- *)
(** ** Chunk-split invariance *)

Lemma setStageVersion_ok (stageVersion : list byte) (kv : KVStore) :
  nvImgUpgSt_getAll kv <> None -> kv_set_fault kv = false ->
  fst (nvImgUpgSt_setStageVersion stageVersion kv) = true.
Proof.
  intros Hg Hf. unfold nvImgUpgSt_setStageVersion.
  destruct (nvImgUpgSt_getAll kv); [|contradiction].
  unfold nvImgUpgSt_setAll, kv_set. rewrite Hf. reflexivity.
Qed.

(** The header step lets through every chunk of a body whose header
    carries the magic, given a store that takes the stage version. *)
Lemma catch_header_passes (dl_data pre later : list byte) (d : Device)
    (c : OTA_OperationContext_t) :
  otaCtx_opaque d = Some c ->
  length (fwu_stage_image_header c) = 32%nat ->
  dl_prog_offset c = Z.of_nat (length pre) ->
  ((length pre < 32)%nat ->
   firstn (length pre) (fwu_stage_image_header c) = pre) ->
  ((length pre < 32)%nat ->
   (32 <= length (pre ++ dl_data ++ later))%nat ->
   ih_magic_ok (firstn 32 (pre ++ dl_data ++ later)) = true
   /\ nvImgUpgSt_getAll (nvstore d) <> None
   /\ kv_set_fault (nvstore d) = false) ->
  exists dh ch,
    catch_header dl_data d = (inl tt, dh)
    /\ otaCtx_opaque dh = Some ch
    /\ length (fwu_stage_image_header ch) = 32%nat
    /\ ((length (pre ++ dl_data) < 32)%nat ->
        firstn (length (pre ++ dl_data)) (fwu_stage_image_header ch)
        = pre ++ dl_data
        /\ nvstore dh = nvstore d).
Proof.
  intros Hc Hl Ho Hpre Hhdr.
  destruct (Nat.le_gt_cases 32 (length pre)) as [Hpast|Hp].
  - exists d, c. rewrite (catch_header_past dl_data d c Hc)
      by (change (Z.of_nat sizeof_image_header) with 32; lia).
    split; [reflexivity|]. split; [exact Hc|]. split; [exact Hl|].
    rewrite length_app. lia.
  - specialize (Hpre Hp). specialize (Hhdr Hp).
    rewrite (catch_header_spec dl_data d c Hc ltac:(lia) Hl). cbv zeta.
    rewrite Ho, Nat2Z.id.
    destruct (Z.ltb_spec (Z.of_nat (length dl_data))
                (32 - Z.of_nat (length pre))) as [Hpart|Hfull].
    + (* still incomplete *)
      replace (Z.of_nat (length pre) + Z.of_nat (length dl_data) =? 32)
        with false by (symmetry; apply Z.eqb_neq; lia).
      rewrite Nat2Z.id. eexists _, _. split; [reflexivity|].
      split; [reflexivity|].
      cbn [fwu_stage_image_header with_stage_header].
      split; [rewrite memcpy_at_length; lia|].
      intros _. split; [|reflexivity].
      rewrite length_app, header_after_chunk by (try assumption; lia).
      rewrite firstn_all. reflexivity.
    + (* the header completes here *)
      replace (Z.of_nat (length pre) + (32 - Z.of_nat (length pre)) =? 32)
        with true by (symmetry; apply Z.eqb_eq; lia).
      replace (Z.to_nat (32 - Z.of_nat (length pre)))
        with (32 - length pre)%nat by lia.
      rewrite (header_completed _ pre dl_data later Hl Hp Hpre)
        by lia.
      destruct Hhdr as (Hmagic & Hg & Hf);
        [rewrite !length_app; lia|].
      rewrite Hmagic.
      pose proof (setStageVersion_ok
                    (ih_ver (firstn 32 (pre ++ dl_data ++ later)))
                    (nvstore d) Hg Hf) as Hok.
      destruct (nvImgUpgSt_setStageVersion _ (nvstore d)) as [ok kv'].
      cbn [fst] in Hok. subst ok.
      eexists _, _. split; [reflexivity|].
      split; [reflexivity|].
      cbn [fwu_stage_image_header with_stage_header].
      split; [rewrite length_firstn, !length_app; lia|].
      rewrite length_app. lia.
Qed.

Lemma chunk_stream_writes (chunks : list (list byte)) :
  forall (pre : list byte) (d : Device) (c : OTA_OperationContext_t),
  let P := secondary_bd_progunit_size c in
  otaCtx_opaque d = Some c -> writer_ready c ->
  length (fwu_stage_image_header c) = 32%nat ->
  dl_prog_offset c = Z.of_nat (length pre) ->
  ((length pre < 32)%nat ->
   firstn (length pre) (fwu_stage_image_header c) = pre) ->
  ((length pre < 32)%nat ->
   (32 <= length (pre ++ concat chunks))%nat ->
   ih_magic_ok (firstn 32 (pre ++ concat chunks)) = true
   /\ nvImgUpgSt_getAll (nvstore d) <> None
   /\ kv_set_fault (nvstore d) = false) ->
  all_served (secondary d) ->
  (forall a, 0 <= a < Z.of_nat (length pre) ->
     bd_mem (secondary d) a = nth (Z.to_nat a) pre x00) ->
  Z.of_nat (length (pre ++ concat chunks)) + P <= 2 ^ 32 ->
  exists d',
    http_body (uncancelled chunks) ADUC_Result_Download_Success d
    = (Returns ADUC_Result_Download_Success, d')
    /\ forall a, 0 <= a < Z.of_nat (length (pre ++ concat chunks)) ->
         bd_mem (secondary d') a
         = nth (Z.to_nat a) (pre ++ concat chunks) x00.
Proof.
  induction chunks as [|dl_data rest IH];
    intros pre d c P Hc Hready Hl Ho Hpre Hhdr Hs Hmem Hfit.
  - exists d. split; [reflexivity|]. simpl. rewrite app_nil_r. exact Hmem.
  - change (uncancelled (dl_data :: rest))
      with ((false, dl_data) :: uncancelled rest).
    cbn [http_body]. unfold CombinedDownloadInstallTask.
    cbn [IsAducResultCodeFailure orb].
    simpl concat in *.
    destruct (catch_header_passes dl_data pre (concat rest) d c Hc Hl Ho Hpre
                Hhdr) as (dh & ch & Hh & Hch & Hlh & Hnext).
    assert (Hfit1 : dl_prog_offset c + Z.of_nat (length dl_data) + P
                    <= 2 ^ 32)
      by (rewrite !length_app in Hfit; lia).
    destruct (CombinedDownloadInstall_writes dl_data d dh c Hc Hready
                ltac:(lia) Hfit1 Hs Hh)
      as (ch0 & bd' & Hch0 & Hcfg & Hrun & Hw & _).
    rewrite Hch in Hch0. injection Hch0 as <-.
    rewrite Hrun.
    set (c1 := with_dl_prog (dl_prog_offset c + Z.of_nat (length dl_data))
                            (dl_prog_total_exp ch) (dl_prog_total_act ch) ch).
    set (d1 := with_ctx (Some c1) (with_secondary bd' dh)).
    assert (Hready1 : writer_ready c1)
      by (apply (same_config_ready ch); [repeat split|];
          apply (same_config_ready c); assumption).
    assert (HP1 : secondary_bd_progunit_size c1 = P)
      by (destruct Hcfg as (_ & _ & _ & _ & H4 & _); exact H4).
    destruct (IH (pre ++ dl_data) d1 c1 eq_refl Hready1 Hlh) as (d' & Hrun' & Hmem').
    + simpl. rewrite length_app. lia.
    + intros Hlt. apply Hnext. exact Hlt.
    + intros Hlt Hlong. rewrite <- app_assoc.
      destruct (Hnext Hlt) as (_ & Hkv).
      change (nvstore d1) with (nvstore dh). rewrite Hkv.
      apply Hhdr; [rewrite length_app in Hlt; lia|].
      rewrite <- app_assoc in Hlong. exact Hlong.
    + apply (all_served_same _ _ (proj2 Hw) Hs).
    + intros a Ha. change (secondary d1) with bd'.
      destruct Hw as [Hw _]. rewrite Hw, Ho.
      rewrite length_app in Ha.
      destruct (Z_lt_le_dec a (Z.of_nat (length pre))) as [Hlo|Hhi].
      * rewrite poke_outside by lia. rewrite Hmem by lia.
        rewrite app_nth1 by lia. reflexivity.
      * rewrite poke_inside by lia. rewrite app_nth2 by lia.
        f_equal. lia.
    + rewrite HP1, <- app_assoc. exact Hfit.
    + exists d'. split; [exact Hrun'|].
      rewrite <- app_assoc in Hmem'. exact Hmem'.
Qed.

(** C1, as the code has it.  Let the context be the one [OTACtx_Reinit]
    leaves when its two allocations succeed (the program-unit buffer and
    the read-block buffer are not null), the read block be a whole number
    of program units, the stream fit below the 32-bit address limit with
    one unit to spare, the device serve every request and, when the
    stream reaches the header size, its header carry the magic and the
    store take the stage version.  Then every split of the stream into
    chunks delivered from offset 0 succeeds and leaves the stream itself
    in [[0, L)] of the device. *)
Theorem chunk_split_invariance (data : list byte) (chunks : list (list byte))
    (d : Device) (c : OTA_OperationContext_t) :
  concat chunks = data ->
  otaCtx_opaque d = Some c -> writer_ready c ->
  dl_prog_offset c = 0 ->
  length (fwu_stage_image_header c) = 32%nat ->
  all_served (secondary d) ->
  Z.of_nat (length data) + secondary_bd_progunit_size c <= 2 ^ 32 ->
  ((32 <= length data)%nat ->
   ih_magic_ok (firstn 32 data) = true
   /\ nvImgUpgSt_getAll (nvstore d) <> None
   /\ kv_set_fault (nvstore d) = false) ->
  exists d',
    http_body (uncancelled chunks) ADUC_Result_Download_Success d
    = (Returns ADUC_Result_Download_Success, d')
    /\ bd_peek (bd_mem (secondary d')) 0 (length data) = data.
Proof.
  intros Hcat Hc Hready Ho Hl Hs Hfit Hhdr. subst data.
  destruct (chunk_stream_writes chunks [] d c Hc Hready Hl Ho)
    as (d' & Hrun & Hmem); try assumption.
  - reflexivity.
  - intros _. exact Hhdr.
  - simpl. intros a Ha. lia.
  - exists d'. split; [exact Hrun|]. simpl in Hmem.
    apply (nth_ext _ _ x00 x00); [apply peek_length|].
    intros i Hi. rewrite peek_length in Hi.
    rewrite peek_nth by exact Hi. rewrite Hmem by lia.
    f_equal. lia.
Qed.

(** A 100-byte image on 8-byte program units, in chunks of 30 bytes. *)
Lemma chunk_split_invariance_witness :
  let data := sample_header ++ repeat x41 68 in
  let chunks := [firstn 30 data; firstn 30 (skipn 30 data);
                 firstn 30 (skipn 60 data); skipn 90 data] in
  let d := sample_device 8 1024 in
  concat chunks = data
  /\ exists d',
      http_body (uncancelled chunks) ADUC_Result_Download_Success d
      = (Returns ADUC_Result_Download_Success, d')
      /\ bd_peek (bd_mem (secondary d')) 0 (length data) = data.
Proof.
  intros data chunks d.
  assert (Hcat : concat chunks = data) by reflexivity.
  split; [exact Hcat|].
  apply (chunk_split_invariance data chunks d
           (mkCtx (repeat x00 32) (repeat x00 32) true true
                  true 8 true 1024 0 0 0) Hcat eq_refl).
  - repeat split; reflexivity.
  - reflexivity.
  - reflexivity.
  - intros rq. reflexivity.
  - simpl. lia.
  - intros _. split; [reflexivity|]. split; [discriminate|reflexivity].
Defined.

(** C1 as stated fails.  A stream whose first 32 bytes lack the image
    magic is refused at the header gate and nothing of it reaches the
    device.  And with three-byte program units under the 1024-byte read
    block, a stream with a valid header stops in the read of the unit
    that straddles the first read-block boundary: that unit does not lie
    inside the read block [bd_read_program_unit] fetched. *)
Lemma chunk_split_counterexample :
  (let data := repeat x22 40 in
   let r := http_body (uncancelled [data]) ADUC_Result_Download_Success
                      (sample_device 4 1024) in
   fst r = Returns ADUC_Result_Failure
   /\ bd_peek (bd_mem (secondary (snd r))) 0 40 <> data)
  /\ (let data := sample_header ++ repeat x41 995 in
      let r := http_body (uncancelled [firstn 1025 data; skipn 1025 data])
                         ADUC_Result_Download_Success
                         (sample_device 3 1024) in
      fst r = Faults OutOfBounds
      /\ bd_peek (bd_mem (secondary (snd r))) 1023 4
         <> firstn 4 (skipn 1023 data)).
Proof.
  split; vm_compute; (split; [reflexivity|discriminate]).
Qed.

(* ----------------------------------------------------------------- *)
(** ** The whole cycle on one example *)

(** Stage an image of version 2.0.0+0, apply it with criteria "v2.0",
    let the bootloader swap it in unconfirmed, run the recovery routine:
    the image is confirmed, the criteria settled, and [IsInstalled]
    answers Installed. *)
Example stage_apply_recover_installed :
  let image := sample_header ++ [x41; x42] in
  let fileEntity := mkFileEntity 1 [mkHash (Some image) (Some [x73])] 34 in
  let wf := mkWorkflow false true 1 (Some fileEntity)
                       (Some [x76; x32; x2e; x30]) false in
  let tr := mkTransport [(false, firstn 20 image); (false, skipn 20 image)]
                        false false in
  let staged := Download wf tr (fresh_device 4) in
  let applied := Apply wf (snd staged) in
  let swapped := mkBoot sample_header 0 0 BOOT_FLAG_UNSET 0 0 false in
  let recovered :=
    Update_NVImgUpgSt_PostReboot (nvstore (snd applied)) swapped in
  fst (fst staged) = Returns ADUC_Result_Download_Success
  /\ fst (fst applied) = ADUC_Result_Apply_RequiredReboot
  /\ image_ok (snd (fst recovered)) = BOOT_FLAG_SET
  /\ snd recovered = false
  /\ IsInstalled wf (with_nvstore (fst (fst recovered)) (snd applied))
     = ADUC_Result_IsInstalled_Installed.
Proof. vm_compute. repeat split. Qed.

(* ================================================================= *)
(** * Further properties of the handler *)

(* ----------------------------------------------------------------- *)
(** ** Failed updates of the record *)

Lemma setAll_false_same (st : list byte) (kv : KVStore) :
  fst (nvImgUpgSt_setAll st kv) = false -> snd (nvImgUpgSt_setAll st kv) = kv.
Proof.
  unfold nvImgUpgSt_setAll, kv_set. destruct (kv_set_fault kv); simpl.
  - reflexivity.
  - discriminate.
Qed.

(** X1.  Each update of the stored record ([nvImgUpgSt_reset],
    [nvImgUpgSt_setStageVersion], [nvImgUpgSt_setInstallRebooted],
    [nvImgUpgSt_setStageInstalledCriteria],
    [nvImgUpgSt_settleInstalledCriteria]) that returns false leaves the
    key-value store as it was. *)
Theorem failed_update_writes_nothing (u : nv_update) (kv : KVStore) :
  fst (nv_apply u kv) = false -> snd (nv_apply u kv) = kv.
Proof.
  destruct u; simpl.
  - unfold nvImgUpgSt_reset.
    destruct (if includeReserved then None else nvImgUpgSt_getAll kv);
      apply setAll_false_same.
  - unfold nvImgUpgSt_setStageVersion.
    destruct (nvImgUpgSt_getAll kv); [apply setAll_false_same|reflexivity].
  - unfold nvImgUpgSt_setInstallRebooted.
    destruct (nvImgUpgSt_getAll kv); [apply setAll_false_same|reflexivity].
  - unfold nvImgUpgSt_setStageInstalledCriteria.
    destruct (nvImgUpgSt_getAll kv); [|reflexivity].
    destruct (Nat.ltb _ _); [reflexivity|apply setAll_false_same].
  - unfold nvImgUpgSt_settleInstalledCriteria.
    destruct (nvImgUpgSt_getAll kv); [|reflexivity].
    destruct (negb _); [reflexivity|].
    destruct (Nat.ltb _ _); [reflexivity|apply setAll_false_same].
Qed.

Lemma failed_update_writes_nothing_witness :
  fst (nv_apply NvSettleInstalledCriteria sample_kv) = false
  /\ snd (nv_apply NvSettleInstalledCriteria sample_kv) = sample_kv.
Proof.
  split; [reflexivity|].
  apply (failed_update_writes_nothing NvSettleInstalledCriteria sample_kv).
  reflexivity.
Defined.

(* ----------------------------------------------------------------- *)
(** ** The persistent criteria depend on the reserved part only *)

Section ReservedFacts.
Local Open Scope nat_scope.

Lemma skipn_memcpy_at (dst src : list byte) (pos n k : nat) :
  n <= length src -> pos + n <= k -> k <= length dst ->
  skipn k (memcpy_at dst pos src n) = skipn k dst.
Proof.
  intros Hs Hk Hd. unfold memcpy_at.
  rewrite skipn_app, length_firstn, Nat.min_l by lia.
  rewrite (skipn_all2 (firstn pos dst)) by (rewrite length_firstn; lia).
  rewrite skipn_app, length_firstn, Nat.min_l by lia.
  rewrite (skipn_all2 (firstn n src)) by (rewrite length_firstn; lia).
  simpl. rewrite skipn_skipn. f_equal. lia.
Qed.

Lemma skipn_store_bool (off k : nat) (v : bool) (st : list byte) :
  off < k -> k <= length st ->
  skipn k (store_bool off v st) = skipn k st.
Proof.
  intros Hk Hl. unfold store_bool. apply skipn_memcpy_at; simpl; lia.
Qed.

Lemma skipn_memset (buf : list byte) (c : byte) (n k : nat) :
  n <= k -> skipn k (memset buf c n) = skipn k buf.
Proof.
  intros Hk. unfold memset.
  rewrite skipn_app, repeat_length.
  rewrite (skipn_all2 (repeat c n)) by (rewrite repeat_length; lia).
  simpl. rewrite skipn_skipn. f_equal. lia.
Qed.

(** What [nvImgUpgSt_persistentInstalledCriteria] answers depends on the
    record from [reserved] on only. *)
Lemma persistent_depends_on_reserved (kv kv' : KVStore) (st st' : list byte) :
  nvImgUpgSt_getAll kv = Some st -> nvImgUpgSt_getAll kv' = Some st' ->
  skipn offsetof_reserved st' = skipn offsetof_reserved st ->
  same_persistent kv kv'.
Proof.
  intros Hg Hg' Hr n. unfold nvImgUpgSt_persistentInstalledCriteria.
  rewrite Hg, Hg'.
  assert (Hf : field_bool offsetof_persistentInstalledCriteria_valid st'
               = field_bool offsetof_persistentInstalledCriteria_valid st).
  { unfold field_bool. f_equal.
    change offsetof_persistentInstalledCriteria_valid
      with (offsetof_reserved + 4).
    rewrite <- !nth_skipn, Hr. reflexivity. }
  assert (Hs : skipn offsetof_persistentInstalledCriteria st'
               = skipn offsetof_persistentInstalledCriteria st).
  { change offsetof_persistentInstalledCriteria
      with (5 + offsetof_reserved).
    rewrite <- !skipn_skipn, Hr. reflexivity. }
  rewrite Hf, Hs. reflexivity.
Qed.

Lemma same_persistent_refl (kv : KVStore) : same_persistent kv kv.
Proof. intros n. reflexivity. Qed.

Lemma same_persistent_trans (kv1 kv2 kv3 : KVStore) :
  same_persistent kv1 kv2 -> same_persistent kv2 kv3 ->
  same_persistent kv1 kv3.
Proof. intros H12 H23 n. rewrite H23. apply H12. Qed.

(** Writing back a record that agrees with the stored one from
    [reserved] on keeps the persistent criteria. *)
Lemma setAll_same_persistent (kv : KVStore) (st st' : list byte) :
  nvImgUpgSt_getAll kv = Some st -> length st' = sizeof_state ->
  skipn offsetof_reserved st' = skipn offsetof_reserved st ->
  same_persistent kv (snd (nvImgUpgSt_setAll st' kv)).
Proof.
  intros Hg Hl Hr.
  destruct (getAll_Some_inv _ _ Hg) as (Hgf & _).
  destruct (kv_set_fault kv) eqn:Hsf.
  - rewrite setAll_fault_snd by exact Hsf. apply same_persistent_refl.
  - rewrite setAll_ok by assumption. simpl. rewrite Hgf.
    apply (persistent_depends_on_reserved _ _ st st'); try assumption.
    apply getAll_stored. exact Hl.
Qed.

Lemma persistent_unreadable (kv : KVStore) (n : nat) :
  nvImgUpgSt_getAll kv = None ->
  nvImgUpgSt_persistentInstalledCriteria n kv = None.
Proof.
  intros Hg. unfold nvImgUpgSt_persistentInstalledCriteria. rewrite Hg.
  reflexivity.
Qed.

Lemma reset_false_same_persistent (kv : KVStore) :
  same_persistent kv (snd (nvImgUpgSt_reset false kv)).
Proof.
  destruct (nvImgUpgSt_getAll kv) as [st|] eqn:Hg.
  - rewrite (reset_readable _ _ Hg).
    pose proof (getAll_length _ _ Hg) as Hl.
    apply (setAll_same_persistent _ st); [exact Hg| |].
    + rewrite memset_length; [exact Hl|]. rewrite Hl.
      unfold offsetof_reserved, sizeof_state. lia.
    + apply skipn_memset. lia.
  - intros n. rewrite (persistent_unreadable kv n Hg).
    unfold nvImgUpgSt_reset. rewrite Hg.
    unfold nvImgUpgSt_setAll, kv_set.
    destruct (kv_set_fault kv); simpl.
    + apply persistent_unreadable. exact Hg.
    + unfold nvImgUpgSt_persistentInstalledCriteria, nvImgUpgSt_getAll, kv_get.
      simpl. destruct (kv_get_fault kv); reflexivity.
Qed.

Lemma setStageVersion_same_persistent (v : list byte) (kv : KVStore) :
  sizeof_image_version <= length v ->
  same_persistent kv (snd (nvImgUpgSt_setStageVersion v kv)).
Proof.
  intros Hv. unfold nvImgUpgSt_setStageVersion.
  destruct (nvImgUpgSt_getAll kv) as [st|] eqn:Hg;
    [|apply same_persistent_refl].
  pose proof (getAll_length _ _ Hg) as Hl.
  unfold sizeof_state, sizeof_image_version in *.
  assert (Hl1 : length (memcpy_at st offsetof_stageVersion v 8) = 152).
  { rewrite memcpy_at_length; unfold offsetof_stageVersion; lia. }
  apply (setAll_same_persistent _ st); [exact Hg| |].
  - unfold sizeof_state.
    rewrite store_bool_length; unfold offsetof_stageVersion_valid; lia.
  - unfold offsetof_reserved.
    rewrite skipn_store_bool by (unfold offsetof_stageVersion_valid; lia).
    apply skipn_memcpy_at; unfold offsetof_stageVersion; lia.
Qed.

Lemma setInstallRebooted_same_persistent (b : bool) (kv : KVStore) :
  same_persistent kv (snd (nvImgUpgSt_setInstallRebooted b kv)).
Proof.
  unfold nvImgUpgSt_setInstallRebooted.
  destruct (nvImgUpgSt_getAll kv) as [st|] eqn:Hg;
    [|apply same_persistent_refl].
  pose proof (getAll_length _ _ Hg) as Hl. unfold sizeof_state in *.
  assert (Hl1 : length (store_bool offsetof_installRebooted b st) = 152).
  { rewrite store_bool_length; unfold offsetof_installRebooted; lia. }
  apply (setAll_same_persistent _ st); [exact Hg| |].
  - unfold sizeof_state.
    rewrite store_bool_length; unfold offsetof_installRebooted_valid; lia.
  - unfold offsetof_reserved.
    rewrite skipn_store_bool by (unfold offsetof_installRebooted_valid; lia).
    apply skipn_store_bool; unfold offsetof_installRebooted; lia.
Qed.

Lemma firstn_strlen_length (s : list byte) :
  length (firstn (strlen s) s) = strlen s.
Proof.
  induction s as [|c s IH]; simpl; [reflexivity|].
  destruct (Byte.eqb c x00); simpl; [reflexivity|]. f_equal. exact IH.
Qed.

Lemma setStageInstalledCriteria_same_persistent (s : list byte)
    (kv : KVStore) :
  same_persistent kv (snd (nvImgUpgSt_setStageInstalledCriteria s kv)).
Proof.
  unfold nvImgUpgSt_setStageInstalledCriteria.
  destruct (nvImgUpgSt_getAll kv) as [st|] eqn:Hg;
    [|apply same_persistent_refl].
  destruct (Nat.ltb_spec INSTALLEDCRITERIA_MAXCHAR (strlen s)) as [Hlen|Hlen];
    [apply same_persistent_refl|].
  pose proof (getAll_length _ _ Hg) as Hl.
  unfold sizeof_state, INSTALLEDCRITERIA_MAXCHAR in *.
  set (src := firstn (strlen s) s ++ [x00]).
  assert (Hsrc : length src = strlen s + 1).
  { unfold src. rewrite length_app, firstn_strlen_length. reflexivity. }
  assert (Hl1 : length (memcpy_at st offsetof_stageInstalledCriteria src
                                  (strlen s + 1)) = 152).
  { rewrite memcpy_at_length; unfold offsetof_stageInstalledCriteria; lia. }
  apply (setAll_same_persistent _ st); [exact Hg| |].
  - unfold sizeof_state. rewrite store_bool_length;
      unfold offsetof_stageInstalledCriteria_valid; lia.
  - unfold offsetof_reserved.
    rewrite skipn_store_bool
      by (unfold offsetof_stageInstalledCriteria_valid; lia).
    apply skipn_memcpy_at; unfold offsetof_stageInstalledCriteria; lia.
Qed.

End ReservedFacts.

Lemma IsInstalled_same_persistent (wf : Workflow) (d d' : Device) :
  same_persistent (nvstore d) (nvstore d') ->
  IsInstalled wf d' = IsInstalled wf d.
Proof.
  intros Hp. unfold IsInstalled. rewrite (Hp (INSTALLEDCRITERIA_MAXCHAR + 1)%nat).
  reflexivity.
Qed.

Lemma Apply_same_persistent (wf : Workflow) (d : Device) :
  same_persistent (nvstore d) (nvstore (snd (Apply wf d))).
Proof.
  unfold Apply.
  destruct (IsNullOrEmpty (wf_installed_criteria wf));
    [apply same_persistent_refl|].
  destruct (wf_cancel_requested wf).
  { destruct (Cancel wf). apply same_persistent_refl. }
  set (s := match wf_installed_criteria wf with Some s => s | None => [] end).
  pose proof (setStageInstalledCriteria_same_persistent s (nvstore d)) as H1.
  destruct (nvImgUpgSt_setStageInstalledCriteria s (nvstore d))
    as [ok kv1]. simpl in H1.
  destruct ok; simpl; [|exact H1].
  destruct (boot_set_pending false (bootloader d)) as [rc bl]. simpl.
  destruct (rc =? 0); simpl; [|exact H1].
  pose proof (setInstallRebooted_same_persistent false kv1) as H2.
  destruct (nvImgUpgSt_setInstallRebooted false kv1) as [ok2 kv2].
  simpl in H2.
  assert (H12 := same_persistent_trans _ _ _ H1 H2).
  destruct ok2; simpl; exact H12.
Qed.

(** X2.  [Apply], whatever it returns, leaves the answer of [IsInstalled]
    as it was, for every workflow: it writes stage fields only, never
    the persistent installed criteria. *)
Theorem apply_keeps_is_installed (wf wf' : Workflow) (d : Device) :
  IsInstalled wf' (snd (Apply wf d)) = IsInstalled wf' d.
Proof.
  apply IsInstalled_same_persistent. apply Apply_same_persistent.
Qed.

(* ----------------------------------------------------------------- *)
(** ** Records held by the store *)

Section RecordFacts.
Local Open Scope nat_scope.

Lemma firstn_memcpy_at (dst src : list byte) (pos n k : nat) :
  k <= pos -> pos <= length dst ->
  firstn k (memcpy_at dst pos src n) = firstn k dst.
Proof.
  intros Hk Hd. unfold memcpy_at.
  rewrite firstn_app, length_firstn, Nat.min_l by lia.
  rewrite firstn_firstn, Nat.min_l by lia.
  replace (k - pos) with 0 by lia. simpl. apply app_nil_r.
Qed.

Lemma firstn_store_bool (off k : nat) (v : bool) (st : list byte) :
  k <= off -> off < length st ->
  firstn k (store_bool off v st) = firstn k st.
Proof.
  intros Hk Hl. unfold store_bool. apply firstn_memcpy_at; lia.
Qed.

Lemma strlen_le_length (s : list byte) : strlen s <= length s.
Proof.
  induction s as [|c s IH]; simpl; [lia|].
  destruct (Byte.eqb c x00); lia.
Qed.

Lemma strlen_terminated (s r : list byte) :
  strlen (firstn (strlen s) s ++ x00 :: r) = strlen s.
Proof.
  induction s as [|c s IH]; simpl; [reflexivity|].
  destruct (Byte.eqb c x00) eqn:Hc; simpl; [reflexivity|].
  rewrite Hc. f_equal. exact IH.
Qed.

Lemma c_string_terminated (s r : list byte) :
  c_string (firstn (strlen s) s ++ x00 :: r) = firstn (strlen s) s ++ [x00].
Proof.
  unfold c_string. rewrite strlen_terminated.
  rewrite firstn_app, firstn_strlen_length.
  rewrite firstn_all2 by (rewrite firstn_strlen_length; lia).
  replace (strlen s + 1 - strlen s) with 1 by lia. reflexivity.
Qed.

(** A string that ends inside the array is read the same from any buffer
    that starts with it. *)
Lemma c_string_prefix (s t : list byte) :
  strlen s < length s -> firstn (strlen s + 1) t = c_string s ->
  strlen t = strlen s /\ c_string t = c_string s.
Proof.
  intros Hl He.
  assert (Hs : strlen t = strlen s).
  { apply (strlen_prefix s t (strlen s + 1)); [lia|exact Hl|].
    symmetry. exact He. }
  split; [exact Hs|]. unfold c_string at 1. rewrite Hs. exact He.
Qed.

Lemma stored_intro (st : list byte) (kv : KVStore) :
  kv_get_fault kv = false -> kv_set_fault kv = false ->
  length st = sizeof_state ->
  nvImgUpgSt_setAll st kv
  = (true, mkKV (Some st) (kv_get_fault kv) (kv_set_fault kv))
  /\ stored (mkKV (Some st) (kv_get_fault kv) (kv_set_fault kv)) st.
Proof.
  intros Hgf Hsf Hl. split; [apply setAll_ok; assumption|].
  split; [|exact Hsf]. rewrite Hgf. apply getAll_stored. exact Hl.
Qed.

Lemma stored_faults (kv : KVStore) (st : list byte) :
  stored kv st ->
  kv_get_fault kv = false /\ kv_set_fault kv = false
  /\ length st = sizeof_state.
Proof.
  intros [Hg Hsf]. destruct (getAll_Some_inv _ _ Hg) as (Hgf & _).
  split; [exact Hgf|]. split; [exact Hsf|]. apply (getAll_length _ _ Hg).
Qed.

(** [nvImgUpgSt_setInstallRebooted] on a working store. *)
Lemma setInstallRebooted_stored (b : bool) (kv : KVStore) (st : list byte) :
  stored kv st ->
  exists kv' st',
    nvImgUpgSt_setInstallRebooted b kv = (true, kv')
    /\ stored kv' st'
    /\ field_bool offsetof_installRebooted_valid st' = true
    /\ field_bool offsetof_installRebooted st' = b
    /\ firstn offsetof_installRebooted_valid st'
       = firstn offsetof_installRebooted_valid st
    /\ skipn offsetof_stageInstalledCriteria_valid st'
       = skipn offsetof_stageInstalledCriteria_valid st.
Proof.
  intros Hst. destruct (stored_faults _ _ Hst) as (Hgf & Hsf & Hl).
  destruct Hst as [Hg _].
  unfold nvImgUpgSt_setInstallRebooted. rewrite Hg.
  set (st1 := store_bool offsetof_installRebooted b st).
  set (st2 := store_bool offsetof_installRebooted_valid true st1).
  unfold sizeof_state, offsetof_installRebooted,
    offsetof_installRebooted_valid, offsetof_stageInstalledCriteria_valid in *.
  assert (Hl1 : length st1 = 152)
    by (unfold st1; rewrite store_bool_length; lia).
  assert (Hl2 : length st2 = 152)
    by (unfold st2; rewrite store_bool_length; lia).
  destruct (stored_intro st2 kv Hgf Hsf Hl2) as [Hset Hst2].
  eexists _, st2. split; [exact Hset|]. split; [exact Hst2|].
  split; [unfold st2; apply store_bool_field; lia|].
  split.
  { unfold st2. rewrite store_bool_field_other by lia.
    unfold st1. apply store_bool_field. lia. }
  split.
  - unfold st2. rewrite firstn_store_bool by lia.
    unfold st1. apply firstn_store_bool; lia.
  - unfold st2. rewrite skipn_store_bool by lia.
    unfold st1. apply skipn_store_bool; lia.
Qed.

(** [nvImgUpgSt_setStageInstalledCriteria] on a working store. *)
Lemma setStageInstalledCriteria_stored (s : list byte) (kv : KVStore)
    (st : list byte) :
  stored kv st -> strlen s <= INSTALLEDCRITERIA_MAXCHAR ->
  exists kv' st',
    nvImgUpgSt_setStageInstalledCriteria s kv = (true, kv')
    /\ stored kv' st'
    /\ field_bool offsetof_stageInstalledCriteria_valid st' = true
    /\ strlen (skipn offsetof_stageInstalledCriteria st') = strlen s
    /\ c_string (skipn offsetof_stageInstalledCriteria st')
       = firstn (strlen s) s ++ [x00]
    /\ firstn offsetof_stageInstalledCriteria_valid st'
       = firstn offsetof_stageInstalledCriteria_valid st
    /\ skipn offsetof_reserved st' = skipn offsetof_reserved st.
Proof.
  intros Hst Hlen. destruct (stored_faults _ _ Hst) as (Hgf & Hsf & Hl).
  destruct Hst as [Hg _].
  unfold nvImgUpgSt_setStageInstalledCriteria. rewrite Hg.
  destruct (Nat.ltb_spec INSTALLEDCRITERIA_MAXCHAR (strlen s)) as [Hbad|_];
    [lia|].
  set (src := firstn (strlen s) s ++ [x00]).
  set (st1 := memcpy_at st offsetof_stageInstalledCriteria src
                        (strlen s + 1)).
  set (st2 := store_bool offsetof_stageInstalledCriteria_valid true st1).
  unfold sizeof_state, INSTALLEDCRITERIA_MAXCHAR,
    offsetof_stageInstalledCriteria, offsetof_stageInstalledCriteria_valid,
    offsetof_reserved in *.
  assert (Hsrc : length src = strlen s + 1).
  { unfold src. rewrite length_app, firstn_strlen_length. reflexivity. }
  assert (Hl1 : length st1 = 152)
    by (unfold st1; rewrite memcpy_at_length; lia).
  assert (Hl2 : length st2 = 152)
    by (unfold st2; rewrite store_bool_length; lia).
  destruct (stored_intro st2 kv Hgf Hsf Hl2) as [Hset Hst2].
  assert (Hstage : skipn 15 st2 = firstn (strlen s) s
                                  ++ x00 :: skipn (15 + (strlen s + 1)) st).
  { unfold st2. rewrite skipn_store_bool by lia.
    unfold st1, memcpy_at.
    rewrite skipn_app, length_firstn, Nat.min_l by lia.
    rewrite skipn_all2 by (rewrite length_firstn; lia).
    replace (15 - 15) with 0 by lia. simpl skipn. simpl app.
    rewrite firstn_all2 by lia. unfold src. rewrite <- app_assoc.
    reflexivity. }
  eexists _, st2. split; [exact Hset|]. split; [exact Hst2|].
  split; [unfold st2; apply store_bool_field; lia|].
  split; [rewrite Hstage; apply strlen_terminated|].
  split; [rewrite Hstage; apply c_string_terminated|].
  split.
  - unfold st2. rewrite firstn_store_bool by lia.
    unfold st1. apply firstn_memcpy_at; lia.
  - unfold st2. rewrite skipn_store_bool by lia.
    unfold st1. apply skipn_memcpy_at; lia.
Qed.

(** [nvImgUpgSt_settleInstalledCriteria] on a working store whose stage
    criteria are valid. *)
Lemma settle_stored (kv : KVStore) (st : list byte) :
  stored kv st ->
  field_bool offsetof_stageInstalledCriteria_valid st = true ->
  strlen (skipn offsetof_stageInstalledCriteria st)
  <= INSTALLEDCRITERIA_MAXCHAR ->
  exists kv' st',
    nvImgUpgSt_settleInstalledCriteria kv = (true, kv')
    /\ stored kv' st'
    /\ field_bool offsetof_persistentInstalledCriteria_valid st' = true
    /\ strlen (skipn offsetof_persistentInstalledCriteria st')
       = strlen (skipn offsetof_stageInstalledCriteria st)
    /\ c_string (skipn offsetof_persistentInstalledCriteria st')
       = c_string (skipn offsetof_stageInstalledCriteria st)
    /\ field_bool offsetof_stageInstalledCriteria_valid st' = false
    /\ firstn offsetof_stageInstalledCriteria_valid st'
       = firstn offsetof_stageInstalledCriteria_valid st.
Proof.
  intros Hst Hv Hlen. destruct (stored_faults _ _ Hst) as (Hgf & Hsf & Hl).
  destruct Hst as [Hg _].
  unfold nvImgUpgSt_settleInstalledCriteria. rewrite Hg, Hv. cbv [negb].
  destruct (Nat.ltb_spec INSTALLEDCRITERIA_MAXCHAR
              (strlen (skipn offsetof_stageInstalledCriteria st)))
    as [Hbad|_]; [lia|].
  set (stage := skipn offsetof_stageInstalledCriteria st) in *.
  set (len := strlen stage) in *.
  set (st1 := memcpy_at st offsetof_persistentInstalledCriteria stage
                        (len + 1)).
  set (st2 := store_bool offsetof_persistentInstalledCriteria_valid true st1).
  set (st3 := store_bool offsetof_stageInstalledCriteria_valid false st2).
  unfold offsetof_stageInstalledCriteria, offsetof_reserved,
    offsetof_persistentInstalledCriteria_valid, INSTALLEDCRITERIA_MAXCHAR,
    offsetof_persistentInstalledCriteria, sizeof_state,
    offsetof_stageInstalledCriteria_valid in *.
  assert (Hstage : length stage = 137)
    by (unfold stage; rewrite length_skipn; lia).
  assert (Hl1 : length st1 = 152)
    by (unfold st1; rewrite memcpy_at_length; lia).
  assert (Hl2 : length st2 = 152)
    by (unfold st2; rewrite store_bool_length; lia).
  assert (Hl3 : length st3 = 152)
    by (unfold st3; rewrite store_bool_length; lia).
  pose proof (settle_clear_as_memcpy st3 Hl3) as Hclr.
  unfold offsetof_stageInstalledCriteria, INSTALLEDCRITERIA_MAXCHAR in Hclr.
  rewrite Hclr.
  set (st4 := memcpy_at st3 15 (repeat x00 (64 + 1)) (64 + 1)).
  assert (Hl4 : length st4 = 152).
  { unfold st4. rewrite memcpy_at_length; rewrite ?repeat_length; lia. }
  destruct (stored_intro st4 kv Hgf Hsf Hl4) as [Hset Hst4].
  assert (Hpers : skipn 85 st4 = firstn (len + 1) stage
                                 ++ skipn (85 + (len + 1)) st).
  { unfold st4. rewrite skipn_memcpy_at by (rewrite ?repeat_length; lia).
    unfold st3. rewrite skipn_store_bool by lia.
    unfold st2. rewrite skipn_store_bool by lia.
    unfold st1, memcpy_at.
    rewrite skipn_app, length_firstn, Nat.min_l by lia.
    rewrite skipn_all2 by (rewrite length_firstn; lia).
    replace (85 - 85) with 0 by lia. reflexivity. }
  assert (Hcopy : firstn (len + 1) (skipn 85 st4) = c_string stage).
  { rewrite Hpers, firstn_app, length_firstn, Nat.min_l by lia.
    rewrite firstn_firstn, Nat.min_id.
    replace (len + 1 - (len + 1)) with 0 by lia. simpl. apply app_nil_r. }
  destruct (c_string_prefix stage (skipn 85 st4) ltac:(lia) Hcopy)
    as [Hslen Hcstr].
  eexists _, st4. split; [exact Hset|]. split; [exact Hst4|].
  split.
  { unfold field_bool, st4.
    rewrite memcpy_at_nth_after by (rewrite ?repeat_length; lia).
    unfold st3. rewrite store_bool_nth_other by lia.
    fold (field_bool 84 st2). unfold st2. apply store_bool_field. lia. }
  split; [exact Hslen|]. split; [exact Hcstr|].
  split.
  { unfold field_bool, st4. rewrite memcpy_at_nth_before by lia.
    fold (field_bool 14 st3). unfold st3. apply store_bool_field. lia. }
  unfold st4. rewrite firstn_memcpy_at by lia.
  unfold st3. rewrite firstn_store_bool by lia.
  unfold st2. rewrite firstn_store_bool by lia.
  unfold st1. apply firstn_memcpy_at; lia.
Qed.

(** [nvImgUpgSt_reset(false)] on a working store. *)
Lemma reset_false_stored (kv : KVStore) (st : list byte) :
  stored kv st ->
  exists kv',
    nvImgUpgSt_reset false kv = (true, kv')
    /\ stored kv' (memset st x00 offsetof_reserved).
Proof.
  intros Hst. destruct (stored_faults _ _ Hst) as (Hgf & Hsf & Hl).
  destruct Hst as [Hg _]. rewrite (reset_readable _ _ Hg).
  assert (Hl' : length (memset st x00 offsetof_reserved) = sizeof_state).
  { rewrite memset_length; [exact Hl|]. rewrite Hl.
    unfold offsetof_reserved, sizeof_state. lia. }
  destruct (stored_intro _ kv Hgf Hsf Hl') as [Hset Hst'].
  eexists. split; [exact Hset|exact Hst'].
Qed.

(** What [nvImgUpgSt_persistentInstalledCriteria] hands to a caller whose
    buffer takes the whole array. *)
Lemma persistent_of_record (kv : KVStore) (st : list byte) :
  nvImgUpgSt_getAll kv = Some st ->
  nvImgUpgSt_persistentInstalledCriteria (INSTALLEDCRITERIA_MAXCHAR + 1) kv
  = if field_bool offsetof_persistentInstalledCriteria_valid st
       && (strlen (skipn offsetof_persistentInstalledCriteria st)
           <=? INSTALLEDCRITERIA_MAXCHAR)
    then Some (c_string (skipn offsetof_persistentInstalledCriteria st))
    else None.
Proof.
  intros Hg. unfold nvImgUpgSt_persistentInstalledCriteria. rewrite Hg.
  destruct (field_bool offsetof_persistentInstalledCriteria_valid st);
    cbn [negb andb]; [|reflexivity].
  set (p := skipn offsetof_persistentInstalledCriteria st).
  fold (c_string p). unfold INSTALLEDCRITERIA_MAXCHAR.
  destruct (Nat.ltb_spec (64 + 1) (strlen p + 1));
    destruct (Nat.leb_spec (strlen p) 64); try lia; reflexivity.
Qed.

End RecordFacts.

(* ----------------------------------------------------------------- *)
(** ** Staging and settling criteria, and [IsInstalled] *)

Lemma bytes_eqb_eq (a b : list byte) : bytes_eqb a b = true <-> a = b.
Proof.
  unfold bytes_eqb. destruct (list_eq_dec byte_eq_dec a b); split;
    intros; congruence.
Qed.

Section StringFacts.
Local Open Scope nat_scope.

(** Comparing with a copy that stops after the terminator compares with
    the array. *)
Lemma strcmp_c_string (a p : list byte) :
  strlen p < length p ->
  strcmp_eqb a (c_string p) = strcmp_eqb a p.
Proof.
  intros Hl. unfold strcmp_eqb.
  assert (He : firstn (strlen p + 1) (c_string p) = c_string p).
  { unfold c_string. rewrite firstn_firstn, Nat.min_id. reflexivity. }
  destruct (c_string_prefix p (c_string p) Hl He) as [Hs _].
  rewrite Hs. unfold c_string. rewrite firstn_firstn, Nat.min_l by lia.
  reflexivity.
Qed.

End StringFacts.

(** X3.  On a stored record, staging criteria of at most
    [INSTALLEDCRITERIA_MAXCHAR] characters and then settling them both
    succeed, and the persistent query then returns those criteria, up
    to and with their terminator. *)
Theorem staged_criteria_round_trip (s : list byte) (kv : KVStore)
    (st : list byte) :
  stored kv st -> (strlen s <= INSTALLEDCRITERIA_MAXCHAR)%nat ->
  exists kv1 kv2,
    nvImgUpgSt_setStageInstalledCriteria s kv = (true, kv1)
    /\ nvImgUpgSt_settleInstalledCriteria kv1 = (true, kv2)
    /\ nvImgUpgSt_persistentInstalledCriteria
         (INSTALLEDCRITERIA_MAXCHAR + 1) kv2
       = Some (firstn (strlen s) s ++ [x00]).
Proof.
  intros Hst Hlen.
  destruct (setStageInstalledCriteria_stored s kv st Hst Hlen)
    as (kv1 & st1 & Hset & Hst1 & Hv1 & Hl1 & Hc1 & _).
  destruct (settle_stored kv1 st1 Hst1 Hv1 ltac:(rewrite Hl1; exact Hlen))
    as (kv2 & st2 & Hsettle & Hst2 & Hv2 & Hl2 & Hc2 & _).
  exists kv1, kv2. split; [exact Hset|]. split; [exact Hsettle|].
  rewrite (persistent_of_record kv2 st2 (proj1 Hst2)), Hv2, Hl2, Hl1.
  apply Nat.leb_le in Hlen. rewrite Hlen. cbn [andb].
  rewrite Hc2, Hc1. reflexivity.
Qed.

Lemma staged_criteria_round_trip_witness :
  exists kv1 kv2,
    nvImgUpgSt_setStageInstalledCriteria [x76; x32] sample_kv = (true, kv1)
    /\ nvImgUpgSt_settleInstalledCriteria kv1 = (true, kv2)
    /\ nvImgUpgSt_persistentInstalledCriteria
         (INSTALLEDCRITERIA_MAXCHAR + 1) kv2
       = Some ([x76; x32] ++ [x00]).
Proof.
  apply (staged_criteria_round_trip [x76; x32] sample_kv (repeat x00 152)).
  - split; reflexivity.
  - vm_compute. repeat constructor.
Defined.

(** X4.  [IsInstalled] fails exactly when the workflow's installed
    criteria are null or empty.  It answers Installed exactly when the
    record can be read, its persistent criteria are valid and
    terminated within [INSTALLEDCRITERIA_MAXCHAR] characters, and they
    are the workflow's criteria. *)
Theorem is_installed_characterised (wf : Workflow) (d : Device) :
  (IsInstalled wf d = ADUC_Result_Failure
   <-> IsNullOrEmpty (wf_installed_criteria wf) = true)
  /\ (IsInstalled wf d = ADUC_Result_IsInstalled_Installed
      <-> exists s st,
            wf_installed_criteria wf = Some s
            /\ strlen s <> 0%nat
            /\ nvImgUpgSt_getAll (nvstore d) = Some st
            /\ field_bool offsetof_persistentInstalledCriteria_valid st = true
            /\ (strlen (skipn offsetof_persistentInstalledCriteria st)
                <= INSTALLEDCRITERIA_MAXCHAR)%nat
            /\ field_str offsetof_persistentInstalledCriteria st
               = firstn (strlen s) s).
Proof.
  unfold IsInstalled.
  destruct (IsNullOrEmpty (wf_installed_criteria wf)) eqn:Hne.
  { split; [split; reflexivity|]. split; [discriminate|].
    intros (s & st & Hs & Hn & _). rewrite Hs in Hne. simpl in Hne.
    apply Nat.eqb_eq in Hne. contradiction. }
  destruct (wf_installed_criteria wf) as [s|] eqn:Hs; [|discriminate].
  simpl in Hne. apply Nat.eqb_neq in Hne.
  destruct (nvImgUpgSt_getAll (nvstore d)) as [st|] eqn:Hg.
  2:{ unfold nvImgUpgSt_persistentInstalledCriteria. rewrite Hg.
      split; [split; discriminate|]. split; [discriminate|].
      intros (s' & st' & _ & _ & Hg' & _). discriminate. }
  rewrite (persistent_of_record _ _ Hg).
  pose proof (getAll_length _ _ Hg) as Hl.
  set (p := skipn offsetof_persistentInstalledCriteria st).
  destruct (field_bool offsetof_persistentInstalledCriteria_valid st) eqn:Hv;
    cbn [andb].
  2:{ split; [split; discriminate|]. split; [discriminate|].
      intros (s' & st' & _ & _ & Hg' & Hv' & _).
      injection Hg' as <-. congruence. }
  destruct (Nat.leb_spec (strlen p) INSTALLEDCRITERIA_MAXCHAR) as [Hlen|Hlen].
  2:{ split; [split; discriminate|]. split; [discriminate|].
      intros (s' & st' & _ & _ & Hg' & _ & Hlen' & _).
      injection Hg' as <-. fold p in Hlen'. lia. }
  assert (Hp : (strlen p < length p)%nat).
  { unfold p. rewrite length_skipn, Hl.
    unfold INSTALLEDCRITERIA_MAXCHAR, sizeof_state,
      offsetof_persistentInstalledCriteria in *. fold p. lia. }
  rewrite (strcmp_c_string s p Hp).
  destruct (strcmp_eqb s p) eqn:Hcmp.
  - split; [split; discriminate|]. split; [|reflexivity]. intros _.
    exists s, st. repeat split; try assumption.
    unfold strcmp_eqb in Hcmp. apply bytes_eqb_eq in Hcmp.
    unfold field_str. fold p. symmetry. exact Hcmp.
  - split; [split; discriminate|]. split; [discriminate|].
    intros (s' & st' & Hs' & _ & Hg' & _ & _ & Hstr).
    injection Hs' as <-. injection Hg' as <-.
    unfold field_str in Hstr. fold p in Hstr.
    unfold strcmp_eqb in Hcmp.
    assert (Ht : bytes_eqb (firstn (strlen s) s) (firstn (strlen p) p) = true)
      by (apply bytes_eqb_eq; symmetry; exact Hstr).
    congruence.
Qed.

(* ----------------------------------------------------------------- *)
(** ** The recovery routine at boot *)

Section RecoveryFacts.
Local Open Scope nat_scope.

(** The stage-version fields lie in the first 12 bytes. *)
Lemma stage_version_of_prefix (st st' : list byte) :
  firstn offsetof_installRebooted_valid st'
  = firstn offsetof_installRebooted_valid st ->
  field_bool offsetof_stageVersion_valid st'
  = field_bool offsetof_stageVersion_valid st
  /\ field_bytes offsetof_stageVersion sizeof_image_version st'
     = field_bytes offsetof_stageVersion sizeof_image_version st.
Proof.
  intros He. split.
  - unfold field_bool. f_equal.
    transitivity (nth offsetof_stageVersion_valid
                      (firstn offsetof_installRebooted_valid st') x00).
    + rewrite nth_firstn. reflexivity.
    + rewrite He, nth_firstn. reflexivity.
  - unfold field_bytes.
    change sizeof_image_version with (offsetof_installRebooted_valid - offsetof_stageVersion).
    rewrite <- !skipn_firstn_comm, He. reflexivity.
Qed.

Lemma firstn_shorter (k n : nat) (a b : list byte) :
  k <= n -> firstn n a = firstn n b -> firstn k a = firstn k b.
Proof.
  intros Hk He. rewrite <- (Nat.min_l k n) by exact Hk.
  rewrite <- !firstn_firstn, He. reflexivity.
Qed.

Lemma skipn_further (k n : nat) (a b : list byte) :
  n <= k -> skipn n a = skipn n b -> skipn k a = skipn k b.
Proof.
  intros Hk He. replace k with ((k - n) + n) by lia.
  rewrite <- !skipn_skipn, He. reflexivity.
Qed.

(** The fields from [stageInstalledCriteria_valid] on. *)
Lemma stage_criteria_of_suffix (st st' : list byte) :
  skipn offsetof_stageInstalledCriteria_valid st'
  = skipn offsetof_stageInstalledCriteria_valid st ->
  field_bool offsetof_stageInstalledCriteria_valid st'
  = field_bool offsetof_stageInstalledCriteria_valid st
  /\ skipn offsetof_stageInstalledCriteria st'
     = skipn offsetof_stageInstalledCriteria st.
Proof.
  intros He. split.
  - unfold field_bool. f_equal.
    transitivity (nth 0 (skipn offsetof_stageInstalledCriteria_valid st')
                      x00).
    + rewrite nth_skipn, Nat.add_0_r. reflexivity.
    + rewrite He, nth_skipn, Nat.add_0_r. reflexivity.
  - apply (skipn_further _ offsetof_stageInstalledCriteria_valid);
      [unfold offsetof_stageInstalledCriteria,
         offsetof_stageInstalledCriteria_valid; lia|exact He].
Qed.

End RecoveryFacts.

(** The store after "indicate install rebooted", when the record carries a
    valid [installRebooted]. *)
Lemma indicate_stored (kv : KVStore) (st : list byte) :
  stored kv st ->
  field_bool offsetof_installRebooted_valid st = true ->
  exists st1,
    stored (indicate_install_rebooted kv) st1
    /\ field_bool offsetof_installRebooted_valid st1 = true
    /\ field_bool offsetof_installRebooted st1 = true
    /\ firstn offsetof_installRebooted_valid st1
       = firstn offsetof_installRebooted_valid st
    /\ skipn offsetof_stageInstalledCriteria_valid st1
       = skipn offsetof_stageInstalledCriteria_valid st.
Proof.
  intros Hst Hv. unfold indicate_install_rebooted, nvImgUpgSt_installRebooted.
  rewrite (proj1 Hst), Hv. cbn [negb].
  destruct (field_bool offsetof_installRebooted st) eqn:Hr.
  - exists st. repeat split; try assumption; apply Hst.
  - destruct (setInstallRebooted_stored true kv st Hst)
      as (kv1 & st1 & Hset & Hst1 & H12 & H13 & Hpre & Hsuf).
    rewrite Hset. exists st1. repeat split; try assumption; apply Hst1.
Qed.

(** The bootloader after "try to confirm" when the flag can be set or is
    set already. *)
Lemma boot_set_confirmed_fields (bl : Bootloader) :
  primary_header (boot_set_confirmed bl) = primary_header bl
  /\ flash_area_open_rc (boot_set_confirmed bl) = flash_area_open_rc bl
  /\ boot_read_image_ok_rc (boot_set_confirmed bl) = boot_read_image_ok_rc bl
  /\ boot_set_confirmed_rc (boot_set_confirmed bl) = boot_set_confirmed_rc bl
  /\ image_ok (boot_set_confirmed bl)
     = if boot_set_confirmed_rc bl =? 0 then BOOT_FLAG_SET else image_ok bl.
Proof.
  unfold boot_set_confirmed. destruct (boot_set_confirmed_rc bl =? 0);
    repeat split; reflexivity.
Qed.

(** The recovery routine on a staged image that runs and can be
    confirmed. *)
Lemma recovery_settles_spec (kv : KVStore) (bl : Bootloader)
    (st : list byte) :
  stored kv st ->
  field_bool offsetof_stageVersion_valid st = true ->
  field_bytes offsetof_stageVersion sizeof_image_version st
  = ih_ver (primary_header bl) ->
  field_bool offsetof_installRebooted_valid st = true ->
  field_bool offsetof_stageInstalledCriteria_valid st = true ->
  (strlen (skipn offsetof_stageInstalledCriteria st)
   <= INSTALLEDCRITERIA_MAXCHAR)%nat ->
  flash_area_open_rc bl = 0 -> boot_read_image_ok_rc bl = 0 ->
  image_ok bl = BOOT_FLAG_SET \/ boot_set_confirmed_rc bl = 0 ->
  exists kv' bl' st',
    Update_NVImgUpgSt_PostReboot kv bl = (kv', bl', false)
    /\ image_ok bl' = BOOT_FLAG_SET
    /\ stored kv' st'
    /\ firstn offsetof_reserved st' = repeat x00 offsetof_reserved
    /\ nvImgUpgSt_persistentInstalledCriteria
         (INSTALLEDCRITERIA_MAXCHAR + 1) kv'
       = Some (c_string (skipn offsetof_stageInstalledCriteria st)).
Proof.
  intros Hst Hvv Hver Hrv Hcv Hlen Hopen Hread Hconf.
  destruct (indicate_stored kv st Hst Hrv)
    as (st1 & Hst1 & H12 & H13 & Hpre & Hsuf).
  destruct (stage_version_of_prefix st st1 Hpre) as [Hvv1 Hver1].
  destruct (stage_criteria_of_suffix st st1 Hsuf) as [Hcv1 Hstage1].
  set (kv1 := indicate_install_rebooted kv) in *.
  assert (Hinst : forall b : Bootloader,
             primary_header b = primary_header bl ->
             flash_area_open_rc b = 0 -> boot_read_image_ok_rc b = 0 ->
             nvImgUpgSt_installed kv1 b
             = Some (image_ok b =? BOOT_FLAG_SET)).
  { intros b Hh Ho Hr. rewrite (installed_unfold kv1 b st1 (proj1 Hst1)).
    rewrite H12, H13, Hvv1, Hvv, Hver1, Hver, Hh, Ho, Hr.
    replace (bytes_eqb (ih_ver (primary_header bl))
                       (ih_ver (primary_header bl))) with true
      by (symmetry; apply bytes_eqb_eq; reflexivity).
    reflexivity. }
  set (bl1 := try_confirm kv1 bl).
  assert (Hbl1 : primary_header bl1 = primary_header bl
                 /\ flash_area_open_rc bl1 = 0
                 /\ boot_read_image_ok_rc bl1 = 0
                 /\ image_ok bl1 = BOOT_FLAG_SET).
  { unfold bl1, try_confirm.
    rewrite (Hinst bl eq_refl Hopen Hread).
    destruct (Z.eqb_spec (image_ok bl) BOOT_FLAG_SET) as [Hset|Hunset].
    - repeat split; assumption.
    - destruct Hconf as [Hc|Hc]; [contradiction|].
      destruct (boot_set_confirmed_fields bl) as (Hh & Ho & Hr & _ & Hi).
      rewrite Hh, Ho, Hr, Hi, Hc. repeat split; assumption. }
  destruct Hbl1 as (Hh1 & Ho1 & Hr1 & Hi1).
  assert (Hcv' : field_bool offsetof_stageInstalledCriteria_valid st1 = true)
    by congruence.
  assert (Hlen' : (strlen (skipn offsetof_stageInstalledCriteria st1)
                   <= INSTALLEDCRITERIA_MAXCHAR)%nat)
    by (rewrite Hstage1; exact Hlen).
  destruct (settle_stored kv1 st1 Hst1 Hcv' Hlen')
    as (kv2 & st2 & Hsettle & Hst2 & Hpv & Hpl & Hpc & _).
  destruct (reset_false_stored kv2 st2 Hst2) as (kv3 & Hreset & Hst3).
  exists kv3, bl1, (memset st2 x00 offsetof_reserved).
  split.
  { unfold Update_NVImgUpgSt_PostReboot. fold kv1. fold bl1.
    unfold settle_or_revert. rewrite (Hinst bl1 Hh1 Ho1 Hr1), Hi1.
    change (BOOT_FLAG_SET =? BOOT_FLAG_SET) with true. cbv iota.
    rewrite Hsettle. cbn [snd]. rewrite Hreset. reflexivity. }
  split; [exact Hi1|]. split; [exact Hst3|]. split.
  { unfold memset. rewrite firstn_app, repeat_length, Nat.sub_diag.
    rewrite firstn_all2 by (rewrite repeat_length; lia).
    simpl firstn. apply app_nil_r. }
  assert (Hsame : same_persistent kv2 kv3).
  { replace kv3 with (snd (nvImgUpgSt_reset false kv2))
      by (rewrite Hreset; reflexivity).
    apply reset_false_same_persistent. }
  rewrite Hsame, (persistent_of_record kv2 st2 (proj1 Hst2)), Hpv, Hpl.
  apply Nat.leb_le in Hlen'. rewrite Hlen'. cbn [andb].
  rewrite Hpc, Hstage1. reflexivity.
Qed.

(** X5.  At boot, on a stored record with an install recorded, a stage
    version that is the version of the running image and staged
    criteria, and with an image that is confirmed or can be, the
    recovery routine requests no reset, leaves the image confirmed,
    clears the stage fields and makes the staged criteria the
    persistent installed criteria. *)
Theorem recovery_settles_confirmed_image (kv : KVStore) (bl : Bootloader)
    (st : list byte) :
  stored kv st ->
  field_bool offsetof_stageVersion_valid st = true ->
  field_bytes offsetof_stageVersion sizeof_image_version st
  = ih_ver (primary_header bl) ->
  field_bool offsetof_installRebooted_valid st = true ->
  field_bool offsetof_stageInstalledCriteria_valid st = true ->
  (strlen (skipn offsetof_stageInstalledCriteria st)
   <= INSTALLEDCRITERIA_MAXCHAR)%nat ->
  flash_area_open_rc bl = 0 -> boot_read_image_ok_rc bl = 0 ->
  image_ok bl = BOOT_FLAG_SET \/ boot_set_confirmed_rc bl = 0 ->
  exists kv' bl' st',
    Update_NVImgUpgSt_PostReboot kv bl = (kv', bl', false)
    /\ image_ok bl' = BOOT_FLAG_SET
    /\ stored kv' st'
    /\ firstn offsetof_reserved st' = repeat x00 offsetof_reserved
    /\ nvImgUpgSt_persistentInstalledCriteria
         (INSTALLEDCRITERIA_MAXCHAR + 1) kv'
       = Some (c_string (skipn offsetof_stageInstalledCriteria st)).
Proof. exact (recovery_settles_spec kv bl st). Qed.

Lemma recovery_settles_confirmed_image_witness :
  exists kv' bl' st',
    Update_NVImgUpgSt_PostReboot sample_applied_kv sample_swapped_boot
    = (kv', bl', false)
    /\ image_ok bl' = BOOT_FLAG_SET
    /\ stored kv' st'
    /\ firstn offsetof_reserved st' = repeat x00 offsetof_reserved
    /\ nvImgUpgSt_persistentInstalledCriteria
         (INSTALLEDCRITERIA_MAXCHAR + 1) kv'
       = Some [x76; x00].
Proof.
  apply (recovery_settles_confirmed_image sample_applied_kv
           sample_swapped_boot
           (match nvImgUpgSt_getAll sample_applied_kv with
            | Some st => st
            | None => []
            end)).
  - split; reflexivity.
  - reflexivity.
  - reflexivity.
  - reflexivity.
  - reflexivity.
  - vm_compute. repeat constructor.
  - reflexivity.
  - reflexivity.
  - right. reflexivity.
Defined.

(** X6.  After an [Apply] that returned RequiredReboot, on a record
    whose stage version is the version of the image that boots next,
    the recovery routine run at that boot confirms the image without a
    reset and [IsInstalled] then answers Installed for the applied
    workflow.  The [Apply] has requested the reboot and marked the swap
    pending. *)
Theorem applied_update_is_installed_after_reboot (wf wf' : Workflow)
    (d d' : Device) (st : list byte) (swapped : Bootloader) :
  Apply wf d = (ADUC_Result_Apply_RequiredReboot, wf', d') ->
  nvImgUpgSt_getAll (nvstore d) = Some st ->
  field_bool offsetof_stageVersion_valid st = true ->
  field_bytes offsetof_stageVersion sizeof_image_version st
  = ih_ver (primary_header swapped) ->
  flash_area_open_rc swapped = 0 -> boot_read_image_ok_rc swapped = 0 ->
  image_ok swapped = BOOT_FLAG_SET \/ boot_set_confirmed_rc swapped = 0 ->
  exists kv' bl',
    Update_NVImgUpgSt_PostReboot (nvstore d') swapped = (kv', bl', false)
    /\ image_ok bl' = BOOT_FLAG_SET
    /\ IsInstalled wf (with_nvstore kv' d') = ADUC_Result_IsInstalled_Installed
    /\ wf_reboot_requested wf' = true
    /\ swap_pending (bootloader d') = true.
Proof.
  intros Happly Hg Hvv Hver Hopen Hread Hconf. unfold Apply in Happly.
  destruct (IsNullOrEmpty (wf_installed_criteria wf)) eqn:Hne;
    [discriminate|].
  destruct (wf_cancel_requested wf);
    [unfold Cancel in Happly;
     destruct (workflow_request_cancel wf) as [[|] wfc]; discriminate|].
  destruct (wf_installed_criteria wf) as [s|] eqn:Hs; [|discriminate].
  simpl in Hne. apply Nat.eqb_neq in Hne.
  destruct (nvImgUpgSt_setStageInstalledCriteria s (nvstore d))
    as [ok1 kv1] eqn:Hset.
  destruct ok1; [|discriminate]. cbn [negb] in Happly.
  cbn [nvstore with_nvstore bootloader] in Happly.
  destruct (boot_set_pending false (bootloader d)) as [rc bl] eqn:Hbp.
  destruct (rc =? 0) eqn:Hrc; cbn [negb] in Happly; [|discriminate].
  assert (Hpend : swap_pending bl = true).
  { unfold boot_set_pending in Hbp.
    destruct (boot_set_pending_rc (bootloader d) =? 0) eqn:Hp.
    - injection Hbp as _ <-. reflexivity.
    - injection Hbp as <- _. congruence. }
  cbn [nvstore with_nvstore with_bootloader] in Happly.
  destruct (nvImgUpgSt_setInstallRebooted false kv1) as [ok2 kv2] eqn:Hir.
  destruct ok2; [|discriminate]. cbn [negb] in Happly.
  injection Happly as <- <-.
  (* the store accepted the writes *)
  assert (Hsf : kv_set_fault (nvstore d) = false).
  { destruct (kv_set_fault (nvstore d)) eqn:Hf; [|reflexivity].
    unfold nvImgUpgSt_setStageInstalledCriteria in Hset. rewrite Hg in Hset.
    destruct (Nat.ltb _ _); [discriminate|].
    rewrite setAll_fault in Hset by exact Hf. discriminate. }
  assert (Hlen : (strlen s <= INSTALLEDCRITERIA_MAXCHAR)%nat).
  { unfold nvImgUpgSt_setStageInstalledCriteria in Hset. rewrite Hg in Hset.
    destruct (Nat.ltb_spec INSTALLEDCRITERIA_MAXCHAR (strlen s));
      [discriminate|assumption]. }
  destruct (setStageInstalledCriteria_stored s (nvstore d) st
              (conj Hg Hsf) Hlen)
    as (kv1' & st1 & Hset' & Hst1 & Hcv1 & Hl1 & Hc1 & Hpre1 & _).
  rewrite Hset in Hset'. injection Hset' as <-.
  destruct (setInstallRebooted_stored false kv1 st1 Hst1)
    as (kv2' & st2 & Hir' & Hst2 & H12 & _ & Hpre2 & Hsuf2).
  rewrite Hir in Hir'. injection Hir' as <-.
  assert (Hpre1' : firstn offsetof_installRebooted_valid st1
                   = firstn offsetof_installRebooted_valid st).
  { apply (firstn_shorter _ offsetof_stageInstalledCriteria_valid);
      [|exact Hpre1].
    unfold offsetof_installRebooted_valid,
      offsetof_stageInstalledCriteria_valid. lia. }
  destruct (stage_version_of_prefix st st1 Hpre1') as [Hvv1 Hver1].
  destruct (stage_version_of_prefix st1 st2 Hpre2) as [Hvv2 Hver2].
  destruct (stage_criteria_of_suffix st1 st2 Hsuf2) as [Hcv2 Hstage2].
  destruct (recovery_settles_spec kv2 swapped st2 Hst2
              ltac:(congruence) ltac:(congruence) H12 ltac:(congruence)
              ltac:(rewrite Hstage2, Hl1; exact Hlen) Hopen Hread Hconf)
    as (kv' & bl' & st' & Hrec & Hi & _ & _ & Hpers).
  exists kv', bl'. cbn [nvstore].
  split; [exact Hrec|]. split; [exact Hi|].
  split; [|split; [reflexivity|exact Hpend]].
  unfold IsInstalled. rewrite Hs. cbn [IsNullOrEmpty].
  apply Nat.eqb_neq in Hne. rewrite Hne. cbn [nvstore with_nvstore].
  rewrite Hpers, Hstage2, Hc1.
  replace (strcmp_eqb s (firstn (strlen s) s ++ [x00])) with true;
    [reflexivity|].
  symmetry. unfold strcmp_eqb. rewrite strlen_terminated.
  rewrite firstn_app, firstn_strlen_length, Nat.sub_diag.
  rewrite (firstn_all2 (firstn (strlen s) s))
    by (rewrite firstn_strlen_length; lia).
  simpl firstn. rewrite app_nil_r. apply bytes_eqb_eq. reflexivity.
Qed.

Lemma applied_update_is_installed_after_reboot_witness :
  let wf := mkWorkflow false true 1 None (Some [x76]) false in
  let kv := snd (nvImgUpgSt_setStageVersion (ih_ver sample_header) sample_kv) in
  let d := mkDevice None (sample_bd 4 1) false (fun _ => false) kv
                    sample_boot in
  exists kv' bl',
    Update_NVImgUpgSt_PostReboot (nvstore (snd (Apply wf d)))
                                 sample_swapped_boot = (kv', bl', false)
    /\ image_ok bl' = BOOT_FLAG_SET
    /\ IsInstalled wf (with_nvstore kv' (snd (Apply wf d)))
       = ADUC_Result_IsInstalled_Installed
    /\ wf_reboot_requested (snd (fst (Apply wf d))) = true
    /\ swap_pending (bootloader (snd (Apply wf d))) = true.
Proof.
  intros wf kv d.
  apply (applied_update_is_installed_after_reboot wf (snd (fst (Apply wf d)))
           d (snd (Apply wf d))
           (match nvImgUpgSt_getAll kv with Some st => st | None => [] end)
           sample_swapped_boot).
  - reflexivity.
  - reflexivity.
  - reflexivity.
  - reflexivity.
  - reflexivity.
  - reflexivity.
  - right. reflexivity.
Defined.

Lemma installRebooted_None_inv (kv : KVStore) :
  nvImgUpgSt_installRebooted kv = None ->
  nvImgUpgSt_getAll kv = None
  \/ exists st, nvImgUpgSt_getAll kv = Some st
                /\ field_bool offsetof_installRebooted_valid st = false.
Proof.
  unfold nvImgUpgSt_installRebooted.
  destruct (nvImgUpgSt_getAll kv) as [st|]; [|left; reflexivity].
  destruct (field_bool offsetof_installRebooted_valid st) eqn:Hv;
    [discriminate|].
  intros _. right. exists st. split; [reflexivity|exact Hv].
Qed.

(** The recovery routine when no install is recorded. *)
Lemma recovery_noop_spec (kv : KVStore) (bl : Bootloader) :
  nvImgUpgSt_installRebooted kv = None ->
  Update_NVImgUpgSt_PostReboot kv bl = (kv, bl, false).
Proof.
  intros Hn. pose proof (installRebooted_None_inv kv Hn) as Hq.
  unfold Update_NVImgUpgSt_PostReboot, indicate_install_rebooted.
  rewrite Hn. unfold try_confirm, settle_or_revert.
  rewrite !(fun b => quiet_installed kv b Hq). reflexivity.
Qed.

(** X7.  When the install-rebooted flag cannot be read (the record is
    unreadable, or no install is recorded in it), the recovery routine
    changes neither the store nor the bootloader state and requests no
    reset. *)
Theorem recovery_without_install_is_noop (kv : KVStore) (bl : Bootloader) :
  nvImgUpgSt_installRebooted kv = None ->
  Update_NVImgUpgSt_PostReboot kv bl = (kv, bl, false).
Proof. exact (recovery_noop_spec kv bl). Qed.

Lemma recovery_without_install_is_noop_witness :
  Update_NVImgUpgSt_PostReboot (mkKV None false false) sample_boot
  = (mkKV None false false, sample_boot, false).
Proof.
  apply (recovery_without_install_is_noop (mkKV None false false) sample_boot).
  reflexivity.
Defined.

Lemma setInstallRebooted_set_fault (b : bool) (kv : KVStore) :
  kv_set_fault (snd (nvImgUpgSt_setInstallRebooted b kv)) = kv_set_fault kv.
Proof.
  unfold nvImgUpgSt_setInstallRebooted.
  destruct (nvImgUpgSt_getAll kv); [apply setAll_set_fault|reflexivity].
Qed.

Lemma indicate_set_fault (kv : KVStore) :
  kv_set_fault (indicate_install_rebooted kv) = kv_set_fault kv.
Proof.
  unfold indicate_install_rebooted.
  destruct (nvImgUpgSt_installRebooted kv) as [[|]|]; try reflexivity.
  apply setInstallRebooted_set_fault.
Qed.

(** X8.  If the recovery routine requested a system reset, on a store
    that takes writes, then run again on the store it left, with any
    bootloader state, it changes nothing and requests no reset: the
    reset is not repeated at the next boot. *)
Theorem recovery_reset_not_repeated (kv kv' : KVStore) (bl bl' bl2 : Bootloader) :
  kv_set_fault kv = false ->
  Update_NVImgUpgSt_PostReboot kv bl = (kv', bl', true) ->
  Update_NVImgUpgSt_PostReboot kv' bl2 = (kv', bl2, false).
Proof.
  intros Hsf Hrun. unfold Update_NVImgUpgSt_PostReboot in Hrun.
  set (kv1 := indicate_install_rebooted kv) in *.
  set (bl1 := try_confirm kv1 bl) in *.
  unfold settle_or_revert in Hrun.
  destruct (nvImgUpgSt_installed kv1 bl1) as [[|]|]; try discriminate.
  injection Hrun as <- _.
  assert (Hsf1 : kv_set_fault kv1 = false)
    by (unfold kv1; rewrite indicate_set_fault; exact Hsf).
  pose proof (reset_false_clears kv1 Hsf1) as Hq. cbv zeta in Hq.
  apply recovery_noop_spec.
  apply quiet_installRebooted. exact Hq.
Qed.

Lemma recovery_reset_not_repeated_witness :
  let bl := mkBoot sample_header 0 0 BOOT_FLAG_UNSET 1 0 false in
  let kv' := fst (fst (Update_NVImgUpgSt_PostReboot sample_applied_kv bl)) in
  snd (Update_NVImgUpgSt_PostReboot sample_applied_kv bl) = true
  /\ Update_NVImgUpgSt_PostReboot kv' sample_boot = (kv', sample_boot, false).
Proof.
  intros bl kv'. split; [reflexivity|].
  apply (recovery_reset_not_repeated sample_applied_kv kv' bl bl sample_boot).
  - reflexivity.
  - reflexivity.
Defined.

Lemma indicate_same_persistent (kv : KVStore) :
  same_persistent kv (indicate_install_rebooted kv).
Proof.
  unfold indicate_install_rebooted.
  destruct (nvImgUpgSt_installRebooted kv) as [[|]|];
    try apply same_persistent_refl.
  apply setInstallRebooted_same_persistent.
Qed.

Lemma try_confirm_header (kv : KVStore) (bl : Bootloader) :
  primary_header (try_confirm kv bl) = primary_header bl.
Proof.
  unfold try_confirm. destruct (nvImgUpgSt_installed kv bl) as [[|]|];
    try reflexivity.
  apply boot_set_confirmed_fields.
Qed.

(** The record before and after "indicate install rebooted" agree on the
    stage version and on the stage criteria. *)
Lemma indicate_fields (kv : KVStore) (st1 : list byte) :
  nvImgUpgSt_getAll (indicate_install_rebooted kv) = Some st1 ->
  exists st,
    nvImgUpgSt_getAll kv = Some st
    /\ field_bool offsetof_stageVersion_valid st
       = field_bool offsetof_stageVersion_valid st1
    /\ field_bytes offsetof_stageVersion sizeof_image_version st
       = field_bytes offsetof_stageVersion sizeof_image_version st1
    /\ field_bool offsetof_stageInstalledCriteria_valid st
       = field_bool offsetof_stageInstalledCriteria_valid st1.
Proof.
  unfold indicate_install_rebooted.
  destruct (nvImgUpgSt_installRebooted kv) as [[|]|] eqn:Hi;
    try (intros Hg; exists st1; repeat split; assumption).
  destruct (kv_set_fault kv) eqn:Hsf.
  { rewrite setInstallRebooted_fault by exact Hsf.
    intros Hg; exists st1; repeat split; assumption. }
  unfold nvImgUpgSt_installRebooted in Hi.
  destruct (nvImgUpgSt_getAll kv) as [st|] eqn:Hg; [|discriminate].
  destruct (setInstallRebooted_stored true kv st (conj Hg Hsf))
    as (kv1 & st1' & Hset & Hst1 & _ & _ & Hpre & Hsuf).
  rewrite Hset. cbn [snd]. rewrite (proj1 Hst1). intros [= <-].
  destruct (stage_version_of_prefix st st1' Hpre) as [Hvv Hver].
  destruct (stage_criteria_of_suffix st st1' Hsuf) as [Hcv _].
  exists st. repeat split; congruence.
Qed.

(** X9.  If the recovery routine changes what the persistent
    installed-criteria query returns, then it requested no reset, the
    image is confirmed, and the record held a valid stage version, that
    of the running image, and valid staged criteria. *)
Theorem recovery_changes_criteria_only_when_confirmed (kv kv' : KVStore)
    (bl bl' : Bootloader) (system_reset : bool) (n : nat) :
  Update_NVImgUpgSt_PostReboot kv bl = (kv', bl', system_reset) ->
  nvImgUpgSt_persistentInstalledCriteria n kv'
  <> nvImgUpgSt_persistentInstalledCriteria n kv ->
  system_reset = false
  /\ image_ok bl' = BOOT_FLAG_SET
  /\ exists st,
       nvImgUpgSt_getAll kv = Some st
       /\ field_bool offsetof_stageVersion_valid st = true
       /\ field_bytes offsetof_stageVersion sizeof_image_version st
          = ih_ver (primary_header bl)
       /\ field_bool offsetof_stageInstalledCriteria_valid st = true.
Proof.
  intros Hrun Hchg. unfold Update_NVImgUpgSt_PostReboot in Hrun.
  pose proof (indicate_same_persistent kv) as Hs1.
  pose proof (indicate_fields kv) as Hfld.
  set (kv1 := indicate_install_rebooted kv) in *.
  pose proof (try_confirm_header kv1 bl) as Hhdr.
  set (bl1 := try_confirm kv1 bl) in *.
  unfold settle_or_revert in Hrun.
  destruct (nvImgUpgSt_installed kv1 bl1) as [[|]|] eqn:Hinst.
  - injection Hrun as <- <- <-.
    destruct (nvImgUpgSt_getAll kv1) as [st1|] eqn:Hg1.
    2:{ unfold nvImgUpgSt_installed in Hinst. rewrite Hg1 in Hinst.
        discriminate. }
    rewrite (installed_unfold kv1 bl1 st1 Hg1) in Hinst.
    destruct (field_bool offsetof_installRebooted_valid st1); [|discriminate].
    destruct (field_bool offsetof_installRebooted st1); [|discriminate].
    destruct (field_bool offsetof_stageVersion_valid st1) eqn:Hvv;
      [|discriminate].
    destruct (bytes_eqb _ _) eqn:Hver; [|discriminate].
    destruct (flash_area_open_rc bl1 =? 0); [|discriminate].
    cbn [andb] in Hinst. injection Hinst as Hok.
    assert (Hi : image_ok bl1 = BOOT_FLAG_SET).
    { destruct (boot_read_image_ok_rc bl1 =? 0).
      - apply Z.eqb_eq. exact Hok.
      - discriminate Hok. }
    apply bytes_eqb_eq in Hver. rewrite Hhdr in Hver.
    split; [reflexivity|]. split; [exact Hi|].
    destruct (Hfld st1 eq_refl) as (st & Hg & Hvv' & Hver' & Hcv').
    exists st. split; [exact Hg|]. split; [congruence|].
    split; [congruence|]. rewrite Hcv'.
    destruct (field_bool offsetof_stageInstalledCriteria_valid st1) eqn:Hcv;
      [reflexivity|].
    exfalso. apply Hchg.
    unfold nvImgUpgSt_settleInstalledCriteria. rewrite Hg1, Hcv.
    cbn [negb snd]. rewrite (reset_false_same_persistent kv1 n). apply Hs1.
  - injection Hrun as <- _ _. exfalso. apply Hchg.
    rewrite (reset_false_same_persistent kv1 n). apply Hs1.
  - injection Hrun as <- _ _. exfalso. apply Hchg. apply Hs1.
Qed.

Lemma recovery_changes_criteria_only_when_confirmed_witness :
  let run := Update_NVImgUpgSt_PostReboot sample_applied_kv
                                          sample_swapped_boot in
  snd run = false
  /\ image_ok (snd (fst run)) = BOOT_FLAG_SET
  /\ exists st,
       nvImgUpgSt_getAll sample_applied_kv = Some st
       /\ field_bool offsetof_stageVersion_valid st = true
       /\ field_bytes offsetof_stageVersion sizeof_image_version st
          = ih_ver (primary_header sample_swapped_boot)
       /\ field_bool offsetof_stageInstalledCriteria_valid st = true.
Proof.
  intros run.
  apply (recovery_changes_criteria_only_when_confirmed sample_applied_kv
           (fst (fst run)) sample_swapped_boot (snd (fst run)) (snd run)
           65%nat).
  - reflexivity.
  - vm_compute. discriminate.
Defined.

(** X10.  At boot, on a stored record with an install recorded and a
    stage version that is the version of the running image, when the
    image cannot be confirmed (its flag cannot be read, or is not set
    and cannot be set) the recovery routine requests a system reset,
    clears the stage fields and leaves the reserved part of the record,
    the persistent criteria, as it was. *)
Theorem recovery_reverts_unconfirmed_image (kv : KVStore) (bl : Bootloader)
    (st : list byte) :
  stored kv st ->
  field_bool offsetof_stageVersion_valid st = true ->
  field_bytes offsetof_stageVersion sizeof_image_version st
  = ih_ver (primary_header bl) ->
  field_bool offsetof_installRebooted_valid st = true ->
  flash_area_open_rc bl = 0 ->
  boot_read_image_ok_rc bl <> 0
  \/ (image_ok bl <> BOOT_FLAG_SET /\ boot_set_confirmed_rc bl <> 0) ->
  exists kv' st',
    Update_NVImgUpgSt_PostReboot kv bl = (kv', boot_set_confirmed bl, true)
    /\ stored kv' st'
    /\ firstn offsetof_reserved st' = repeat x00 offsetof_reserved
    /\ skipn offsetof_reserved st' = skipn offsetof_reserved st.
Proof.
  intros Hst Hvv Hver Hrv Hopen Hbad.
  destruct (indicate_stored kv st Hst Hrv)
    as (st1 & Hst1 & H12 & H13 & Hpre & Hsuf).
  destruct (stage_version_of_prefix st st1 Hpre) as [Hvv1 Hver1].
  set (kv1 := indicate_install_rebooted kv) in *.
  destruct (boot_set_confirmed_fields bl) as (Hh & Ho & Hr & _ & Hi).
  assert (Hinst : forall b : Bootloader,
             primary_header b = primary_header bl ->
             flash_area_open_rc b = 0 ->
             nvImgUpgSt_installed kv1 b
             = Some ((if boot_read_image_ok_rc b =? 0 then image_ok b
                      else BOOT_FLAG_UNSET) =? BOOT_FLAG_SET)).
  { intros b Hhb Hob. rewrite (installed_unfold kv1 b st1 (proj1 Hst1)).
    rewrite H12, H13, Hvv1, Hvv, Hver1, Hver, Hhb, Hob.
    replace (bytes_eqb (ih_ver (primary_header bl))
                       (ih_ver (primary_header bl))) with true
      by (symmetry; apply bytes_eqb_eq; reflexivity).
    reflexivity. }
  assert (H1 : nvImgUpgSt_installed kv1 bl = Some false).
  { rewrite (Hinst bl eq_refl Hopen). f_equal.
    destruct (Z.eqb_spec (boot_read_image_ok_rc bl) 0) as [Hz|Hnz].
    - apply Z.eqb_neq. destruct Hbad as [Hb|[Hb _]]; [contradiction|exact Hb].
    - reflexivity. }
  assert (H2 : nvImgUpgSt_installed kv1 (boot_set_confirmed bl) = Some false).
  { rewrite (Hinst _ Hh (eq_trans Ho Hopen)). f_equal. rewrite Hr, Hi.
    destruct (Z.eqb_spec (boot_read_image_ok_rc bl) 0) as [Hz|Hnz].
    - destruct Hbad as [Hb|[Hb Hc]]; [contradiction|].
      apply Z.eqb_neq in Hc. rewrite Hc. apply Z.eqb_neq. exact Hb.
    - reflexivity. }
  destruct (reset_false_stored kv1 st1 Hst1) as (kv2 & Hreset & Hst2).
  exists kv2, (memset st1 x00 offsetof_reserved).
  split.
  { unfold Update_NVImgUpgSt_PostReboot. fold kv1.
    unfold try_confirm. rewrite H1. unfold settle_or_revert. rewrite H2.
    rewrite Hreset. reflexivity. }
  split; [exact Hst2|]. split.
  { unfold memset. rewrite firstn_app, repeat_length, Nat.sub_diag.
    rewrite firstn_all2 by (rewrite repeat_length; lia).
    simpl firstn. apply app_nil_r. }
  rewrite skipn_memset by lia.
  apply (skipn_further _ offsetof_stageInstalledCriteria_valid);
    [unfold offsetof_reserved, offsetof_stageInstalledCriteria_valid; lia|].
  exact Hsuf.
Qed.

Lemma recovery_reverts_unconfirmed_image_witness :
  let bl := mkBoot sample_header 0 0 BOOT_FLAG_UNSET 1 0 false in
  exists kv' st',
    Update_NVImgUpgSt_PostReboot sample_applied_kv bl
    = (kv', boot_set_confirmed bl, true)
    /\ stored kv' st'
    /\ firstn offsetof_reserved st' = repeat x00 offsetof_reserved
    /\ skipn offsetof_reserved st'
       = skipn offsetof_reserved
               (match nvImgUpgSt_getAll sample_applied_kv with
                | Some st => st
                | None => []
                end).
Proof.
  intros bl.
  apply (recovery_reverts_unconfirmed_image sample_applied_kv bl
           (match nvImgUpgSt_getAll sample_applied_kv with
            | Some st => st
            | None => []
            end)).
  - split; reflexivity.
  - reflexivity.
  - reflexivity.
  - reflexivity.
  - reflexivity.
  - right. split; [vm_compute; discriminate|vm_compute; discriminate].
Defined.

(* ----------------------------------------------------------------- *)
(** ** The requests of the aligned writer *)

Section Runs.
Variable Rel : Device -> Device -> Prop.
Hypothesis Rel_refl : forall d, Rel d d.
Hypothesis Rel_trans : forall d1 d2 d3, Rel d1 d2 -> Rel d2 d3 -> Rel d1 d3.

Lemma runs_ret {A} (post : A -> Prop) (a : A) : post a -> runs Rel post (ret a).
Proof.
  intros Hp d. split; [apply Rel_refl|]. simpl. intros a' [= <-]. exact Hp.
Qed.

Lemma runs_raise {A} (post : A -> Prop) (f : fault) :
  runs Rel post (raise f).
Proof. intros d. split; [apply Rel_refl|]. simpl. discriminate. Qed.

Lemma runs_goto_failure {A} (post : A -> Prop) :
  runs Rel post goto_failure.
Proof. intros d. split; [apply Rel_refl|]. simpl. discriminate. Qed.

Lemma runs_bind {A B} (postA : A -> Prop) (postB : B -> Prop) (m : M A)
    (k : A -> M B) :
  runs Rel postA m -> (forall a, postA a -> runs Rel postB (k a)) ->
  runs Rel postB (bind m k).
Proof.
  intros Hm Hk d. unfold bind. destruct (Hm d) as [Hr Hp].
  destruct (m d) as [[a|e] d1]; simpl in *.
  - destruct (Hk a (Hp a eq_refl) d1) as [Hr' Hp'].
    split; [exact (Rel_trans _ _ _ Hr Hr')|exact Hp'].
  - split; [exact Hr|discriminate].
Qed.

Lemma runs_weaken {A} (post post' : A -> Prop) (m : M A) :
  (forall a, post a -> post' a) -> runs Rel post m -> runs Rel post' m.
Proof.
  intros Hw Hm d. destruct (Hm d) as [Hr Hp].
  split; [exact Hr|]. intros a Ha. apply Hw, Hp, Ha.
Qed.

Lemma runs_assert (c : bool) :
  runs Rel (fun _ => c = true) (MBED_ASSERT c).
Proof.
  destruct c; [apply runs_ret; reflexivity|apply runs_raise].
Qed.

Lemma runs_assert_any (c : bool) :
  runs Rel (fun _ => True) (MBED_ASSERT c).
Proof.
  destruct c; [apply runs_ret; exact I|apply runs_raise].
Qed.

Lemma runs_udiv (a b : Z) :
  runs Rel (fun q => b <> 0 /\ q = a / b) (udiv a b).
Proof.
  unfold udiv. destruct (Z.eqb_spec b 0); [apply runs_raise|].
  apply runs_ret. split; [assumption|reflexivity].
Qed.

Lemma runs_udiv_any (a b : Z) : runs Rel (fun _ => True) (udiv a b).
Proof.
  unfold udiv. destruct (b =? 0); [apply runs_raise|apply runs_ret; exact I].
Qed.

Lemma runs_memcpy_from (src : list byte) (pos n : Z) :
  runs Rel (fun _ => True) (memcpy_from src pos n).
Proof.
  unfold memcpy_from.
  destruct (_ && _); [apply runs_ret; exact I|apply runs_raise].
Qed.

Lemma runs_memcpy_into (dst : list byte) (pos : Z) (src : list byte) (n : Z) :
  runs Rel (fun _ => True) (memcpy_into dst pos src n).
Proof.
  unfold memcpy_into.
  destruct (_ && _); [apply runs_ret; exact I|apply runs_raise].
Qed.

End Runs.

Lemma requests_since_refl (Q : bd_request -> Prop) (d : Device) :
  requests_since Q d d.
Proof. exists []. split; [reflexivity|constructor]. Qed.

Lemma requests_since_trans (Q : bd_request -> Prop) (d1 d2 d3 : Device) :
  requests_since Q d1 d2 -> requests_since Q d2 d3 -> requests_since Q d1 d3.
Proof.
  intros (n1 & H1 & F1) (n2 & H2 & F2). exists (n2 ++ n1). split.
  - rewrite H2, H1. apply app_assoc.
  - apply Forall_app. split; assumption.
Qed.

Lemma bd_serve_log (rq : bd_request) (mem' : Z -> byte) (bd : BlockDevice) :
  bd_log (snd (bd_serve rq mem' bd)) = rq :: bd_log bd.
Proof. unfold bd_serve. destruct (bd_rejects bd rq); reflexivity. Qed.

Lemma requests_bd_read (Q : bd_request -> Prop) (addr size : Z) :
  Q (BdRead addr size) ->
  runs (requests_since Q) (fun _ => True) (on_secondary (bd_read addr size)).
Proof.
  intros HQ d. unfold on_secondary, bd_read.
  pose proof (bd_serve_log (BdRead addr size) (bd_mem (secondary d))
                (secondary d)) as Hl.
  destruct (bd_serve _ _ _) as [rc bd']. simpl in *.
  split; [|intros; exact I].
  exists [BdRead addr size]. split; [exact Hl|repeat constructor; exact HQ].
Qed.

Lemma requests_bd_program (Q : bd_request -> Prop) (buf : list byte)
    (addr size : Z) :
  Q (BdProgram addr size) ->
  runs (requests_since Q) (fun _ => True)
       (on_secondary (bd_program buf addr size)).
Proof.
  intros HQ d. unfold on_secondary, bd_program.
  pose proof (bd_serve_log (BdProgram addr size)
                (bd_poke (bd_mem (secondary d)) addr size buf)
                (secondary d)) as Hl.
  destruct (bd_serve _ _ _) as [rc bd']. simpl in *.
  split; [|intros; exact I].
  exists [BdProgram addr size]. split; [exact Hl|repeat constructor; exact HQ].
Qed.

Section AlignedRequests.
Variables P R : Z.
Hypothesis HP : 0 < P.
Hypothesis HR : 0 < R.

Lemma requests_read_program_unit (offset : Z) :
  0 <= offset < 2 ^ 32 ->
  runs (requests_since (aligned_request P R)) (fun _ => True) (bd_read_program_unit P R offset).
Proof.
  intros Ho. unfold bd_read_program_unit.
  apply (runs_bind (requests_since (aligned_request P R)) (requests_since_trans (aligned_request P R)) (fun _ => (P <=? R) = true)
                   ); [apply runs_assert; exact (requests_since_refl (aligned_request P R))|intros _ _].
  apply (runs_bind (requests_since (aligned_request P R)) (requests_since_trans (aligned_request P R)) (fun q => R <> 0 /\ q = offset / R));
    [apply runs_udiv; exact (requests_since_refl (aligned_request P R))|intros qr [_ ->]].
  apply (runs_bind (requests_since (aligned_request P R)) (requests_since_trans (aligned_request P R)) (fun q => P <> 0 /\ q = offset / P));
    [apply runs_udiv; exact (requests_since_refl (aligned_request P R))|intros qp [_ ->]].
  apply (runs_bind (requests_since (aligned_request P R)) (requests_since_trans (aligned_request P R)) (fun _ => True));
    [apply runs_assert_any; exact (requests_since_refl (aligned_request P R))|intros _ _].
  pose proof (aligndown_bounds R HR offset (proj1 Ho)) as Hd.
  apply (runs_bind (requests_since (aligned_request P R)) (requests_since_trans (aligned_request P R)) (fun _ => True)).
  { apply requests_bd_read. unfold aligned_request. split; [reflexivity|].
    unfold SizeT.mul. rewrite wrap_small by lia. apply Z_mod_mult. }
  intros [rc readblock] _.
  destruct (negb (rc =? 0)); [apply runs_ret; [exact (requests_since_refl (aligned_request P R))|exact I]|].
  apply (runs_bind (requests_since (aligned_request P R)) (requests_since_trans (aligned_request P R)) (fun _ => True));
    [apply runs_memcpy_from; exact (requests_since_refl (aligned_request P R))|intros progunit _].
  apply runs_ret; [exact (requests_since_refl (aligned_request P R))|exact I].
Qed.

Lemma requests_program_first (c : Cursor) :
  in_range P c ->
  runs (requests_since (aligned_request P R)) (fun c' => in_range P c' /\ at_boundary P c') (program_first P R c).
Proof.
  destruct c as [data o rmn]. unfold in_range, at_boundary. simpl.
  intros (Ho & Hrmn & Hfit).
  pose proof (alignup_bounds P HP o Ho) as Hup.
  pose proof (aligndown_bounds P HP o Ho) as Hdn.
  assert (Hmult : ((o + P - 1) / P * P) mod P = 0) by apply Z_mod_mult.
  unfold program_first. simpl.
  rewrite sub_add_wrap. rewrite (wrap_small (o + P - 1)) by lia.
  apply (runs_bind (requests_since (aligned_request P R)) (requests_since_trans (aligned_request P R)) (fun q => P <> 0 /\ q = (o + P - 1) / P));
    [apply runs_udiv; exact (requests_since_refl (aligned_request P R))|intros q [_ ->]].
  unfold SizeT.mul, SizeT.sub.
  set (up := (o + P - 1) / P * P) in *.
  rewrite (wrap_small up) by lia. rewrite (wrap_small (up - o)) by lia.
  set (todo := if rmn <? up - o then rmn else up - o).
  assert (Htodo : 0 <= todo <= rmn /\ todo <= up - o
                  /\ (todo = rmn \/ todo = up - o)).
  { unfold todo. destruct (Z.ltb_spec rmn (up - o)); lia. }
  apply (runs_bind (requests_since (aligned_request P R)) (requests_since_trans (aligned_request P R)) (fun _ => True));
    [apply runs_assert_any; exact (requests_since_refl (aligned_request P R))|intros _ _].
  destruct (Z.eqb_spec todo 0) as [Hz|Hnz].
  { apply runs_ret; [exact (requests_since_refl (aligned_request P R))|]. simpl. split; [lia|].
    destruct Htodo as (_ & _ & [He|He]); [left; lia|right].
    replace o with up by lia. exact Hmult. }
  apply (runs_bind (requests_since (aligned_request P R)) (requests_since_trans (aligned_request P R)) (fun _ => True));
    [apply requests_read_program_unit; lia|intros [rc progunit] _].
  destruct (negb (rc =? 0)); [apply runs_goto_failure; exact (requests_since_refl (aligned_request P R))|].
  apply (runs_bind (requests_since (aligned_request P R)) (requests_since_trans (aligned_request P R)) (fun q => P <> 0 /\ q = o / P));
    [apply runs_udiv; exact (requests_since_refl (aligned_request P R))|intros qf [_ ->]].
  apply (runs_bind (requests_since (aligned_request P R)) (requests_since_trans (aligned_request P R)) (fun _ => True));
    [apply runs_memcpy_into; exact (requests_since_refl (aligned_request P R))|intros first _].
  apply (runs_bind (requests_since (aligned_request P R)) (requests_since_trans (aligned_request P R)) (fun _ => True)).
  { apply requests_bd_program. unfold aligned_request.
    split; [exact HP|]. split; [|apply Z_mod_same_full].
    rewrite wrap_small by lia. apply Z_mod_mult. }
  intros rc' _.
  destruct (negb (rc' =? 0)); [apply runs_goto_failure; exact (requests_since_refl (aligned_request P R))|].
  apply runs_ret; [exact (requests_since_refl (aligned_request P R))|]. unfold advance. simpl.
  unfold SizeT.add, SizeT.sub. rewrite !wrap_small by lia.
  split; [lia|].
  destruct Htodo as (_ & _ & [He|He]); [left; lia|right].
  replace (o + todo) with up by lia. exact Hmult.
Qed.

Lemma requests_program_aligned (c : Cursor) :
  in_range P c -> at_boundary P c ->
  runs (requests_since (aligned_request P R)) (fun c' => in_range P c' /\ at_boundary P c') (program_aligned P c).
Proof.
  destruct c as [data o rmn]. unfold in_range, at_boundary. simpl.
  intros (Ho & Hrmn & Hfit) Hb.
  pose proof (remainder_bounds P HP rmn Hrmn) as Hm.
  unfold program_aligned. simpl.
  apply (runs_bind (requests_since (aligned_request P R)) (requests_since_trans (aligned_request P R)) (fun q => P <> 0 /\ q = rmn / P));
    [apply runs_udiv; exact (requests_since_refl (aligned_request P R))|intros q [_ ->]].
  unfold SizeT.mul. rewrite wrap_small by lia.
  set (m := rmn / P * P) in *.
  destruct (Z.eqb_spec m 0) as [Hz|Hnz].
  { apply runs_ret; [exact (requests_since_refl (aligned_request P R))|]. simpl. split; [lia|exact Hb]. }
  assert (Hal : o mod P = 0) by (destruct Hb as [Hb|Hb]; [lia|exact Hb]).
  apply (runs_bind (requests_since (aligned_request P R)) (requests_since_trans (aligned_request P R)) (fun _ => True)).
  { apply requests_bd_program. unfold aligned_request.
    split; [lia|]. split; [exact Hal|apply Z_mod_mult]. }
  intros rc _.
  destruct (negb (rc =? 0)); [apply runs_goto_failure; exact (requests_since_refl (aligned_request P R))|].
  apply runs_ret; [exact (requests_since_refl (aligned_request P R))|]. unfold advance. simpl.
  unfold SizeT.add, SizeT.sub. rewrite !wrap_small by lia.
  split; [lia|]. right. apply (aligned_add P HP). exact Hal.
Qed.

Lemma requests_program_last (c : Cursor) :
  in_range P c -> at_boundary P c ->
  runs (requests_since (aligned_request P R)) (fun _ => True) (program_last P R c).
Proof.
  destruct c as [data o rmn]. unfold in_range, at_boundary. simpl.
  intros (Ho & Hrmn & Hfit) Hb.
  unfold program_last. simpl.
  destruct (Z.eqb_spec rmn 0) as [Hz|Hnz];
    [apply runs_ret; [exact (requests_since_refl (aligned_request P R))|exact I]|].
  assert (Hal : o mod P = 0) by (destruct Hb as [Hb|Hb]; [lia|exact Hb]).
  apply (runs_bind (requests_since (aligned_request P R)) (requests_since_trans (aligned_request P R)) (fun _ => True));
    [apply runs_assert_any; exact (requests_since_refl (aligned_request P R))|intros _ _].
  apply (runs_bind (requests_since (aligned_request P R)) (requests_since_trans (aligned_request P R)) (fun _ => True));
    [apply requests_read_program_unit; lia|intros [rc progunit] _].
  destruct (negb (rc =? 0)); [apply runs_goto_failure; exact (requests_since_refl (aligned_request P R))|].
  apply (runs_bind (requests_since (aligned_request P R)) (requests_since_trans (aligned_request P R)) (fun _ => True));
    [apply runs_memcpy_into; exact (requests_since_refl (aligned_request P R))|intros last _].
  apply (runs_bind (requests_since (aligned_request P R)) (requests_since_trans (aligned_request P R)) (fun _ => True)).
  { apply requests_bd_program. unfold aligned_request.
    split; [exact HP|]. split; [exact Hal|apply Z_mod_same_full]. }
  intros rc' _.
  destruct (negb (rc' =? 0)); [apply runs_goto_failure; exact (requests_since_refl (aligned_request P R))|].
  apply runs_ret; [exact (requests_since_refl (aligned_request P R))|exact I].
Qed.

Lemma requests_write_phases (c : Cursor) :
  in_range P c ->
  runs (requests_since (aligned_request P R)) (fun _ => True)
       (c <- program_first P R c ;;
        c <- program_aligned P c ;;
        program_last P R c).
Proof.
  intros Hc.
  apply (runs_bind (requests_since (aligned_request P R)) (requests_since_trans (aligned_request P R)) (fun c' => in_range P c' /\ at_boundary P c'));
    [apply requests_program_first; exact Hc|intros c1 [H1 B1]].
  apply (runs_bind (requests_since (aligned_request P R)) (requests_since_trans (aligned_request P R)) (fun c' => in_range P c' /\ at_boundary P c'));
    [apply requests_program_aligned; assumption|intros c2 [H2 B2]].
  apply requests_program_last; assumption.
Qed.

End AlignedRequests.

Lemma requests_same_secondary (Q : bd_request -> Prop) (d d' : Device) :
  secondary d' = secondary d -> requests_since Q d d'.
Proof.
  intros He. exists []. rewrite He. split; [reflexivity|constructor].
Qed.

Lemma requests_set_ctx (Q : bd_request -> Prop) (c : OTA_OperationContext_t) :
  runs (requests_since Q) (fun _ => True) (set_ctx c).
Proof.
  intros d. split; [|intros; exact I].
  apply requests_same_secondary. reflexivity.
Qed.

Lemma write_through_requests (dl_data : list byte) (d : Device)
    (c : OTA_OperationContext_t) :
  let P := secondary_bd_progunit_size c in
  let R := secondary_bd_readblock_size c in
  otaCtx_opaque d = Some c -> 0 < P -> 0 < R ->
  0 <= dl_prog_offset c ->
  dl_prog_offset c + Z.of_nat (length dl_data) + P <= 2 ^ 32 ->
  requests_since (aligned_request P R) d (snd (write_through dl_data d)).
Proof.
  intros P R Hc HP HR Ho Hfit. unfold write_through.
  rewrite (bind_inl _ _ d d c) by (unfold the_ctx; rewrite Hc; reflexivity).
  set (Q := aligned_request P R).
  pose proof (requests_since_refl Q) as Rrefl.
  pose proof (requests_since_trans Q) as Rtrans.
  refine (proj1 ((_ : runs (requests_since Q) (fun _ : unit => True) _) d)).
  destruct (_ || _).
  { apply runs_goto_failure. exact Rrefl. }
  apply (runs_bind _ Rtrans (fun _ => True));
    [apply runs_assert_any; exact Rrefl|intros _ _].
  apply (runs_bind _ Rtrans (fun _ => True));
    [apply runs_assert_any; exact Rrefl|intros _ _].
  apply (runs_bind _ Rtrans (fun _ => True)).
  { apply (requests_write_phases P R HP HR).
    unfold in_range. simpl. unfold SizeT.add. rewrite wrap_small by lia.
    fold P. lia. }
  intros c3 _.
  apply (runs_bind _ Rtrans (fun _ => True));
    [apply runs_assert_any; exact Rrefl|intros _ _].
  apply requests_set_ctx.
Qed.

(** X11.  With positive program-unit and read-block sizes and a chunk
    that ends within the 32-bit range, every request one call of
    [CombinedDownloadInstall] makes of the secondary device is a read
    of one read block at a read-block boundary or a program of a
    positive whole number of program units at a unit boundary. *)
Theorem writer_requests_aligned (dl_data : list byte) (d : Device)
    (c : OTA_OperationContext_t) :
  let P := secondary_bd_progunit_size c in
  let R := secondary_bd_readblock_size c in
  otaCtx_opaque d = Some c -> 0 < P -> 0 < R ->
  0 <= dl_prog_offset c ->
  dl_prog_offset c + Z.of_nat (length dl_data) + P <= 2 ^ 32 ->
  exists new,
    bd_log (secondary (snd (CombinedDownloadInstall dl_data d)))
    = new ++ bd_log (secondary d)
    /\ Forall (aligned_request P R) new.
Proof.
  intros P R Hc HP HR Ho Hfit.
  change (requests_since (aligned_request P R) d
            (snd (CombinedDownloadInstall dl_data d))).
  rewrite (CombinedDownloadInstall_unfold dl_data d c Hc).
  destruct (catch_header_frame dl_data d c Hc)
    as (Hsec & c' & Hc' & Hcfg & Hoff).
  destruct (catch_header dl_data d) as [[[]|e] dh] eqn:Hh; simpl in *.
  - apply (requests_since_trans _ d dh).
    + apply requests_same_secondary. exact Hsec.
    + destruct Hcfg as (_ & _ & _ & _ & HPe & _ & HRe).
      pose proof (write_through_requests dl_data dh c' Hc') as Hw.
      cbv zeta in Hw. rewrite HPe, HRe, Hoff in Hw.
      specialize (Hw HP HR Ho Hfit).
      destruct (write_through dl_data dh) as [[[]|[|f]] d']; exact Hw.
  - destruct e; apply requests_same_secondary; exact Hsec.
Qed.

Lemma writer_requests_aligned_witness :
  exists new,
    bd_log (secondary (snd (CombinedDownloadInstall
                              [x41; x42; x43; x44; x45; x46]
                              (sample_device 4 1024))))
    = new ++ bd_log (secondary (sample_device 4 1024))
    /\ Forall (aligned_request 4 1024) new.
Proof.
  apply (writer_requests_aligned [x41; x42; x43; x44; x45; x46]
           (sample_device 4 1024)
           (mkCtx (repeat x00 32) (repeat x00 32) true true true 4 true 1024
                  0 0 0)).
  - reflexivity.
  - reflexivity.
  - reflexivity.
  - discriminate.
  - vm_compute. discriminate.
Defined.

(* ----------------------------------------------------------------- *)
(** ** The download offset *)

Lemma with_stage_header_id (c : OTA_OperationContext_t) :
  with_stage_header (fwu_stage_image_header c) c = c.
Proof. destruct c; reflexivity. Qed.

Lemma with_dl_prog_id (c : OTA_OperationContext_t) :
  with_dl_prog (dl_prog_offset c) (dl_prog_total_exp c) (dl_prog_total_act c) c
  = c.
Proof. destruct c; reflexivity. Qed.

Lemma ih_ver_length (h : list byte) :
  length h = 32%nat -> length (ih_ver h) = sizeof_image_version.
Proof.
  intros Hl. unfold ih_ver. rewrite length_firstn, length_skipn, Hl.
  reflexivity.
Qed.

(** What the header step does to the handler: it replaces the cached
    stage header, and records the stage version when the header is
    complete and carries the magic. *)
Lemma catch_header_effect (dl_data : list byte) (d : Device)
    (c : OTA_OperationContext_t) :
  otaCtx_opaque d = Some c ->
  exists h',
    otaCtx_opaque (snd (catch_header dl_data d))
    = Some (with_stage_header h' c)
    /\ length h' = length (fwu_stage_image_header c)
    /\ secondary (snd (catch_header dl_data d)) = secondary d
    /\ (length (fwu_stage_image_header c) = 32%nat ->
        same_persistent (nvstore d) (nvstore (snd (catch_header dl_data d)))).
Proof.
  intros Hc. destruct (catch_header dl_data d) as [r dh] eqn:Hh.
  simpl snd. revert Hh. unfold catch_header.
  rewrite (bind_inl _ _ d d c) by (unfold the_ctx; rewrite Hc; reflexivity).
  assert (Hcc : exists h',
             otaCtx_opaque d = Some (with_stage_header h' c)
             /\ length h' = length (fwu_stage_image_header c)
             /\ secondary d = secondary d
             /\ (length (fwu_stage_image_header c) = 32%nat ->
                 same_persistent (nvstore d) (nvstore d))).
  { exists (fwu_stage_image_header c). rewrite with_stage_header_id.
    repeat split; assumption. }
  destruct (dl_prog_offset c <? Z.of_nat sizeof_image_header);
    [|intros [= <- <-]; exact Hcc].
  unfold memcpy_into.
  match goal with |- context [if ?b then _ else _] =>
    destruct b eqn:Hb end; [|intros [= <- <-]; exact Hcc].
  rewrite !andb_true_iff, !Z.leb_le in Hb.
  destruct Hb as (((Hb1 & Hb2) & Hb3) & Hb4).
  unfold bind at 1. unfold ret at 1.
  match goal with |- context [set_ctx (with_stage_header ?x c)] =>
    set (h' := x) end.
  assert (Hl : length h' = length (fwu_stage_image_header c)).
  { unfold h'. apply memcpy_at_length; lia. }
  rewrite (bind_inl _ _ d (with_ctx (Some (with_stage_header h' c)) d) tt)
    by reflexivity.
  assert (Hch : forall kv,
            (length (fwu_stage_image_header c) = 32%nat ->
             same_persistent (nvstore d) kv) ->
            exists h'0,
              otaCtx_opaque (with_nvstore kv
                               (with_ctx (Some (with_stage_header h' c)) d))
              = Some (with_stage_header h'0 c)
              /\ length h'0 = length (fwu_stage_image_header c)
              /\ secondary (with_nvstore kv
                              (with_ctx (Some (with_stage_header h' c)) d))
                 = secondary d
              /\ (length (fwu_stage_image_header c) = 32%nat ->
                  same_persistent
                    (nvstore d)
                    (nvstore (with_nvstore kv
                                (with_ctx (Some (with_stage_header h' c))
                                          d)))))
    by (intros kv Hkv; exists h'; repeat split; assumption).
  assert (Hsame : forall len32 : length (fwu_stage_image_header c) = 32%nat,
             same_persistent (nvstore d) (nvstore d))
    by (intros _; apply same_persistent_refl).
  destruct (_ =? Z.of_nat sizeof_image_header);
    [|intros [= <- <-]; exact (Hch (nvstore d) Hsame)].
  destruct (negb _); [intros [= <- <-]; exact (Hch (nvstore d) Hsame)|].
  unfold bind, on_nvstore. cbn [nvstore with_ctx].
  pose proof (setStageVersion_same_persistent (ih_ver h') (nvstore d)) as Hp.
  destruct (nvImgUpgSt_setStageVersion _ _) as [ok kv']. simpl in Hp.
  assert (Hkv : length (fwu_stage_image_header c) = 32%nat ->
                same_persistent (nvstore d) kv').
  { intros H32. apply Hp. rewrite ih_ver_length by congruence.
    apply Nat.le_refl. }
  destruct ok; intros [= <- <-]; exact (Hch kv' Hkv).
Qed.

(** What one chunk write does to the handler. *)
Lemma CombinedDownloadInstall_effect (dl_data : list byte) (d : Device)
    (c : OTA_OperationContext_t) :
  otaCtx_opaque d = Some c ->
  let run := CombinedDownloadInstall dl_data d in
  exists h',
    otaCtx_opaque (snd run)
    = Some (with_dl_prog
              (match fst run with
               | Returns ADUC_Result_Download_Success =>
                   SizeT.add (dl_prog_offset c) (Z.of_nat (length dl_data))
               | _ => dl_prog_offset c
               end)
              (dl_prog_total_exp c) (dl_prog_total_act c)
              (with_stage_header h' c))
    /\ length h' = length (fwu_stage_image_header c)
    /\ (fst run = Returns ADUC_Result_Download_Success
        \/ fst run = Returns ADUC_Result_Failure
        \/ exists f, fst run = Faults f)
    /\ (length (fwu_stage_image_header c) = 32%nat ->
        same_persistent (nvstore d) (nvstore (snd run))).
Proof.
  intros Hc run. unfold run.
  rewrite (CombinedDownloadInstall_unfold dl_data d c Hc).
  destruct (catch_header_effect dl_data d c Hc)
    as (h' & Hc' & Hl & _ & Hp).
  exists h'.
  assert (Hid : with_dl_prog (dl_prog_offset c) (dl_prog_total_exp c)
                  (dl_prog_total_act c) (with_stage_header h' c)
                = with_stage_header h' c) by (destruct c; reflexivity).
  destruct (catch_header dl_data d) as [[[]|e] dh] eqn:Hh; simpl in Hc', Hp.
  - destruct (write_through_handler dl_data dh _ Hc') as [Hkv Hctx].
    destruct (write_through dl_data dh) as [[[]|[|f]] d'];
      simpl in Hkv, Hctx; simpl; rewrite Hctx, ?Hid, ?Hkv;
      (split; [reflexivity|split; [exact Hl|split; [|exact Hp]]]).
    + left. reflexivity.
    + right. left. reflexivity.
    + right. right. eexists. reflexivity.
  - destruct e as [|f]; simpl; rewrite Hc', Hid;
      (split; [reflexivity|split; [exact Hl|split; [|exact Hp]]]).
    + right. left. reflexivity.
    + right. right. eexists. reflexivity.
Qed.

(** X12.  A call of [CombinedDownloadInstall] that returns
    Download_Success advances the download offset by the chunk length
    (modulo 2^32); any other returns or faults leave the offset as it
    was.  The expected and actual totals and the device configuration
    of the context are never changed. *)
Theorem chunk_write_advances_offset_on_success (dl_data : list byte)
    (d : Device) (c : OTA_OperationContext_t) :
  otaCtx_opaque d = Some c ->
  exists c',
    otaCtx_opaque (snd (CombinedDownloadInstall dl_data d)) = Some c'
    /\ dl_prog_offset c'
       = match fst (CombinedDownloadInstall dl_data d) with
         | Returns ADUC_Result_Download_Success =>
             SizeT.add (dl_prog_offset c) (Z.of_nat (length dl_data))
         | _ => dl_prog_offset c
         end
    /\ dl_prog_total_exp c' = dl_prog_total_exp c
    /\ dl_prog_total_act c' = dl_prog_total_act c
    /\ same_config c c'.
Proof.
  intros Hc.
  destruct (CombinedDownloadInstall_effect dl_data d c Hc)
    as (h' & Hc' & _). cbv zeta in Hc'.
  eexists. split; [exact Hc'|]. repeat split.
Qed.

Lemma chunk_write_advances_offset_on_success_witness :
  exists c',
    otaCtx_opaque (snd (CombinedDownloadInstall [x41; x42]
                          (sample_device 4 1024))) = Some c'
    /\ dl_prog_offset c' = 2
    /\ dl_prog_total_exp c' = 0
    /\ dl_prog_total_act c' = 0
    /\ same_config (mkCtx (repeat x00 32) (repeat x00 32) true true true 4
                          true 1024 0 0 0) c'.
Proof.
  apply (chunk_write_advances_offset_on_success [x41; x42]
           (sample_device 4 1024)
           (mkCtx (repeat x00 32) (repeat x00 32) true true true 4 true 1024
                  0 0 0)).
  reflexivity.
Defined.

(* ----------------------------------------------------------------- *)
(** ** The body callback *)

Lemma http_body_app (xs ys : list (bool * list byte))
    (result : ADUC_ResultCode) (d : Device) :
  http_body (xs ++ ys) result d
  = match http_body xs result d with
    | (Returns result', d') => http_body ys result' d'
    | (Faults f, d') => (Faults f, d')
    end.
Proof.
  revert result d. induction xs as [|[cancel dl_data] xs IH];
    intros result d; simpl; [reflexivity|].
  destruct (CombinedDownloadInstallTask result cancel dl_data d)
    as [[result'|f] d']; [apply IH|reflexivity].
Qed.

(** X13.  Once the body callback has ended in Failure, the chunks that
    follow change neither the result nor the device. *)
Theorem failed_chunk_stops_delivery (before after : list (bool * list byte))
    (result : ADUC_ResultCode) (d d1 : Device) :
  http_body before result d = (Returns ADUC_Result_Failure, d1) ->
  http_body (before ++ after) result d = (Returns ADUC_Result_Failure, d1).
Proof.
  intros Hb. rewrite http_body_app, Hb. apply http_body_failed.
Qed.

Lemma failed_chunk_stops_delivery_witness :
  let d := sample_device 4 1024 in
  let before := [(false, repeat x00 32)] in
  http_body before ADUC_Result_Download_Success d
  = (Returns ADUC_Result_Failure, snd (http_body before ADUC_Result_Download_Success d))
  /\ http_body (before ++ [(false, [x41; x42; x43; x44])])
               ADUC_Result_Download_Success d
     = (Returns ADUC_Result_Failure,
        snd (http_body before ADUC_Result_Download_Success d)).
Proof.
  intros d before. split; [reflexivity|].
  apply (failed_chunk_stops_delivery before [(false, [x41; x42; x43; x44])]
           ADUC_Result_Download_Success d). reflexivity.
Defined.




(** The handler after a body that was delivered without a failure. *)
Lemma http_body_effect (chunks : list (bool * list byte)) :
  forall (d d' : Device) (c : OTA_OperationContext_t)
         (result : outcome ADUC_ResultCode),
    otaCtx_opaque d = Some c ->
    length (fwu_stage_image_header c) = 32%nat ->
    http_body chunks ADUC_Result_Download_Success d = (result, d') ->
    same_persistent (nvstore d) (nvstore d')
    /\ exists c',
        otaCtx_opaque d' = Some c'
        /\ dl_prog_total_exp c' = dl_prog_total_exp c
        /\ same_config c c'
        /\ (result = Returns ADUC_Result_Download_Success ->
            SizeT.wrap (dl_prog_offset c')
            = SizeT.wrap (dl_prog_offset c
                          + Z.of_nat (length (concat (delivered chunks))))).
Proof.
  induction chunks as [|[cancel dl_data] chunks IH];
    intros d d' c result Hc H32 Hrun.
  - simpl in Hrun. injection Hrun as <- <-.
    split; [apply same_persistent_refl|]. exists c.
    split; [exact Hc|]. split; [reflexivity|].
    split; [repeat split|]. intros _. simpl. rewrite Z.add_0_r. reflexivity.
  - simpl in Hrun. unfold CombinedDownloadInstallTask in Hrun.
    simpl in Hrun. destruct cancel.
    { destruct (IH d d' c result Hc H32 Hrun) as (Hp & c' & H1 & H2 & H3 & H4).
      split; [exact Hp|]. exists c'. split; [exact H1|].
      split; [exact H2|]. split; [exact H3|exact H4]. }
    destruct (CombinedDownloadInstall_effect dl_data d c Hc)
      as (h' & Hc1 & Hl1 & Hres & Hp1). cbv zeta in *.
    specialize (Hp1 H32).
    destruct (CombinedDownloadInstall dl_data d) as [r1 d1].
    simpl in Hc1, Hres, Hp1.
    destruct Hres as [-> | [-> | [f ->]]].
    + match type of Hc1 with _ = Some ?x => set (c1 := x) in * end.
      assert (H32' : length (fwu_stage_image_header c1) = 32%nat)
        by (unfold c1; simpl; congruence).
      destruct (IH d1 d' c1 result Hc1 H32' Hrun)
        as (Hp & c' & H1 & H2 & H3 & H4).
      split; [exact (same_persistent_trans _ _ _ Hp1 Hp)|].
      exists c'. split; [exact H1|]. split; [exact H2|].
      split.
      { destruct H3 as (A1 & A2 & A3 & A4 & A5 & A6 & A7).
        repeat split; assumption. }
      intros Hs. rewrite (H4 Hs). unfold c1. simpl.
      unfold delivered. simpl. fold (delivered chunks).
      rewrite length_app, Nat2Z.inj_add.
      unfold SizeT.add, SizeT.wrap.
      rewrite Zplus_mod_idemp_l. f_equal. lia.
    + rewrite http_body_failed in Hrun. injection Hrun as <- <-.
      split; [exact Hp1|]. eexists. split; [exact Hc1|].
      split; [reflexivity|]. split; [repeat split|]. discriminate.
    + injection Hrun as <- <-.
      split; [exact Hp1|]. eexists. split; [exact Hc1|].
      split; [reflexivity|]. split; [repeat split|]. discriminate.
Qed.

(* ----------------------------------------------------------------- *)
(** ** The verifier under the streaming law *)

Lemma peek_app (mem : Z -> byte) (a : Z) (n m : nat) :
  bd_peek mem a (n + m)
  = bd_peek mem a n ++ bd_peek mem (a + Z.of_nat n) m.
Proof.
  apply bytes_ext.
  - rewrite length_app, !peek_length. reflexivity.
  - intros i Hi. rewrite peek_length in Hi.
    rewrite peek_nth by exact Hi.
    destruct (Nat.lt_ge_cases i n) as [Hlt|Hge].
    + rewrite app_nth1 by (rewrite peek_length; exact Hlt).
      rewrite peek_nth by exact Hlt. reflexivity.
    + rewrite app_nth2 by (rewrite peek_length; exact Hge).
      rewrite peek_length, peek_nth by lia. f_equal. lia.
Qed.

Lemma bd_read_result (addr size : Z) (bd : BlockDevice) :
  exists rc bd',
    bd_read addr size bd = (rc, bd_peek (bd_mem bd) addr (Z.to_nat size), bd')
    /\ bd_mem bd' = bd_mem bd /\ bd_rejects bd' = bd_rejects bd
    /\ (rc <> 0 -> ~ all_served bd).
Proof.
  unfold bd_read, bd_serve.
  destruct (bd_rejects bd (BdRead addr size)) eqn:Hr;
    eexists _, _; (split; [reflexivity|]); simpl; repeat split.
  - intros _ Hs. rewrite Hs in Hr. discriminate.
  - intros Hn. contradiction Hn. reflexivity.
Qed.

Section VerifierFacts.
Context {H : HashLibrary}.
Hypothesis Hlaw : USHA_streams.

Lemma USHAInput_app_None (ctx : USHAContext) (a b : list byte) :
  USHAInput ctx a = None -> USHAInput ctx (a ++ b) = None.
Proof. intros Ha. rewrite (proj2 Hlaw), Ha. reflexivity. Qed.

Lemma USHAInput_app_Some (ctx ctx' : USHAContext) (a b : list byte) :
  USHAInput ctx a = Some ctx' -> USHAInput ctx (a ++ b) = USHAInput ctx' b.
Proof. intros Ha. rewrite (proj2 Hlaw), Ha. reflexivity. Qed.

(** The loop over whole read blocks feeds the hash with the bytes of
    [[fwu_offset, fwu_offset + fwu_rmn / R * R)]. *)
Lemma read_aligned_blocks_spec (R : Z) (mem : Z -> byte)
    (rej : bd_request -> bool) :
  0 < R ->
  forall (fuel : nat) (fwu_offset fwu_rmn : Z) (shaCtx : USHAContext)
         (d : Device),
    bd_mem (secondary d) = mem -> bd_rejects (secondary d) = rej ->
    0 <= fwu_offset -> 0 <= fwu_rmn -> fwu_offset + fwu_rmn < 2 ^ 32 ->
    (Z.to_nat (fwu_rmn / R) < fuel)%nat ->
    let run := read_aligned_blocks fuel R fwu_offset fwu_rmn shaCtx d in
    let whole := fwu_rmn / R * R in
    bd_mem (secondary (snd run)) = mem
    /\ bd_rejects (secondary (snd run)) = rej
    /\ match fst run with
       | inl (fwu_offset', fwu_rmn', shaCtx') =>
           fwu_offset' = fwu_offset + whole
           /\ fwu_rmn' = fwu_rmn - whole
           /\ USHAInput shaCtx (bd_peek mem fwu_offset (Z.to_nat whole))
              = Some shaCtx'
       | inr ExitFailure =>
           ~ all_served (secondary d)
           \/ USHAInput shaCtx (bd_peek mem fwu_offset (Z.to_nat whole))
              = None
       | inr (ExitFault _) => False
       end.
Proof.
  intros HR. induction fuel as [|fuel IH];
    intros o rmn ctx d Hmem Hrej Ho Hrmn Hfit Hfuel run whole; [lia|].
  subst run.
  destruct (read_aligned_blocks (S fuel) R o rmn ctx d) as [res d'] eqn:Hrun.
  cbn [fst snd]. cbn [read_aligned_blocks] in Hrun. revert Hrun.
  destruct (Z.eqb_spec rmn 0) as [Hz|Hnz].
  { intros [= <- <-]. split; [exact Hmem|]. split; [exact Hrej|].
    unfold whole. rewrite Hz, Z.div_0_l by lia.
    change (Z.to_nat (0 * R)) with 0%nat.
    split; [lia|]. split; [reflexivity|]. apply (proj1 Hlaw). }
  set (todo := if R <? rmn then R else rmn).
  destruct (Z.ltb_spec todo R) as [Hlt|Hge].
  { assert (Hsmall : rmn < R)
      by (unfold todo in Hlt; destruct (Z.ltb_spec R rmn); lia).
    intros [= <- <-]. split; [exact Hmem|]. split; [exact Hrej|].
    unfold whole. rewrite Z.div_small by lia.
    change (Z.to_nat (0 * R)) with 0%nat.
    split; [lia|]. split; [lia|]. apply (proj1 Hlaw). }
  assert (Htodo : todo = R /\ R <= rmn)
    by (unfold todo in *; destruct (Z.ltb_spec R rmn); lia).
  destruct Htodo as [-> Hle].
  pose proof (Z.div_mod rmn R ltac:(lia)) as Hdm.
  pose proof (Z.mod_pos_bound rmn R HR) as Hmb.
  assert (Hq : rmn / R = (rmn - R) / R + 1).
  { replace rmn with ((rmn - R) + 1 * R) at 1 by lia.
    rewrite Z.div_add by lia. reflexivity. }
  assert (Hq0 : 0 <= (rmn - R) / R) by (apply Z.div_pos; lia).
  destruct (bd_read_result o R (secondary d))
    as (rc & bd1 & Hrd & Hmem1 & Hrej1 & Hrc).
  unfold bind at 1. unfold on_secondary at 1. rewrite Hrd, Hmem.
  destruct (Z.eqb_spec rc 0) as [Hrc0|Hrc0]; cbn [negb].
  2:{ intros [= <- <-]. cbn [secondary with_secondary].
      split; [congruence|]. split; [congruence|].
      left. apply Hrc. exact Hrc0. }
  rewrite firstn_all2 by (rewrite peek_length; lia).
  assert (Hsplit : bd_peek mem o (Z.to_nat whole)
                   = bd_peek mem o (Z.to_nat R)
                     ++ bd_peek mem (o + R)
                                (Z.to_nat ((rmn - R) / R * R))).
  { unfold whole. rewrite Hq. replace (((rmn - R) / R + 1) * R)
      with (R + (rmn - R) / R * R) by lia.
    rewrite Z2Nat.inj_add by nia. rewrite peek_app.
    rewrite Z2Nat.id by lia. reflexivity. }
  destruct (USHAInput ctx (bd_peek mem o (Z.to_nat R))) as [ctx1|] eqn:Hin.
  2:{ intros [= <- <-]. cbn [secondary with_secondary].
      split; [congruence|]. split; [congruence|].
      right. rewrite Hsplit. apply USHAInput_app_None. exact Hin. }
  unfold SizeT.add, SizeT.sub. rewrite !wrap_small by lia.
  specialize (IH (o + R) (rmn - R) ctx1 (with_secondary bd1 d)
                 ltac:(simpl; congruence) ltac:(simpl; congruence)
                 ltac:(lia) ltac:(lia) ltac:(lia)
                 ltac:(rewrite Hq in Hfuel;
                       rewrite Z2Nat.inj_add in Hfuel by lia;
                       simpl in Hfuel; lia)).
  cbv zeta in IH. intros Hrun. rewrite Hrun in IH. cbn [fst snd] in IH.
  destruct IH as (Hm' & Hr' & Hres).
  split; [exact Hm'|]. split; [exact Hr'|].
  destruct res as [[[o' rmn'] ctx']|[|f]].
  - destruct Hres as (Ho' & Hrmn' & Hin').
    unfold whole.
    split; [rewrite Ho', Hq; lia|]. split; [rewrite Hrmn', Hq; lia|].
    fold whole. rewrite Hsplit, (USHAInput_app_Some _ _ _ _ Hin). exact Hin'.
  - destruct Hres as [Hs|Hn].
    + left. intros Hall. apply Hs. intros rq. cbn [secondary with_secondary].
      rewrite Hrej1. apply Hall.
    + right. rewrite Hsplit, (USHAInput_app_Some _ _ _ _ Hin). exact Hn.
  - exact Hres.
Qed.

End VerifierFacts.

Lemma peek_firstn (mem : Z -> byte) (a : Z) (n m : nat) :
  (n <= m)%nat -> firstn n (bd_peek mem a m) = bd_peek mem a n.
Proof.
  intros Hn. replace m with (n + (m - n))%nat by lia.
  rewrite peek_app, firstn_app, peek_length, Nat.sub_diag.
  rewrite firstn_all2 by (rewrite peek_length; lia).
  simpl. apply app_nil_r.
Qed.

Lemma all_served_rejects (bd bd' : BlockDevice) :
  bd_rejects bd' = bd_rejects bd -> ~ all_served bd' -> ~ all_served bd.
Proof.
  intros He Hn Hs. apply Hn. intros rq. rewrite He. apply Hs.
Qed.

Section VerifierSpec.
Context {H : HashLibrary}.
Hypothesis Hlaw : USHA_streams.

(** The read of the last, partial block feeds the hash with the bytes
    that remain. *)
Lemma read_last_block_spec (R : Z) (mem : Z -> byte)
    (rej : bd_request -> bool) (fwu_offset fwu_rmn : Z)
    (shaCtx : USHAContext) (d : Device) :
  bd_mem (secondary d) = mem -> bd_rejects (secondary d) = rej ->
  0 <= fwu_rmn < R ->
  let run := read_last_block R fwu_offset fwu_rmn shaCtx d in
  bd_mem (secondary (snd run)) = mem
  /\ bd_rejects (secondary (snd run)) = rej
  /\ match fst run with
     | inl shaCtx' =>
         USHAInput shaCtx (bd_peek mem fwu_offset (Z.to_nat fwu_rmn))
         = Some shaCtx'
     | inr ExitFailure =>
         ~ all_served (secondary d)
         \/ USHAInput shaCtx (bd_peek mem fwu_offset (Z.to_nat fwu_rmn))
            = None
     | inr (ExitFault _) => False
     end.
Proof.
  intros Hmem Hrej Hrmn run. subst run.
  destruct (read_last_block R fwu_offset fwu_rmn shaCtx d) as [res d']
    eqn:Hrun.
  cbn [fst snd]. revert Hrun. unfold read_last_block.
  destruct (Z.eqb_spec fwu_rmn 0) as [Hz|Hnz].
  { intros [= <- <-]. split; [exact Hmem|]. split; [exact Hrej|].
    rewrite Hz. apply (proj1 Hlaw). }
  rewrite (bind_inl _ _ d d tt)
    by (apply assert_true; apply Z.ltb_lt; lia).
  destruct (bd_read_result fwu_offset R (secondary d))
    as (rc & bd1 & Hrd & Hmem1 & Hrej1 & Hrc).
  unfold bind at 1. unfold on_secondary at 1. rewrite Hrd, Hmem.
  destruct (Z.eqb_spec rc 0) as [Hrc0|Hrc0]; cbn [negb].
  2:{ intros [= <- <-]. cbn [secondary with_secondary].
      split; [congruence|]. split; [congruence|].
      left. apply Hrc. exact Hrc0. }
  rewrite peek_firstn by lia.
  destruct (USHAInput shaCtx (bd_peek mem fwu_offset (Z.to_nat fwu_rmn)))
    as [ctx1|] eqn:Hin; intros [= <- <-]; cbn [secondary with_secondary];
    (split; [congruence|]); (split; [congruence|]).
  - reflexivity.
  - right. reflexivity.
Qed.

(** What [VerifySignature] answers for a file entity that carries a
    hash. *)
Lemma VerifySignature_spec (fileEntity : ADUC_FileEntity) (d : Device)
    (c : OTA_OperationContext_t) :
  otaCtx_opaque d = Some c ->
  HashCount fileEntity <> 0%nat ->
  0 < secondary_bd_readblock_size c ->
  0 <= SizeInBytes fileEntity < 2 ^ 32 ->
  let run := VerifySignature fileEntity d in
  let image := bd_peek (bd_mem (secondary d)) 0
                       (Z.to_nat (SizeInBytes fileEntity)) in
  match fst run with
  | Returns true => digest_matches fileEntity image = true
  | Returns false =>
      ~ all_served (secondary d) \/ digest_matches fileEntity image = false
  | Faults f =>
      f = AssertFailed
      /\ secondary_bd c && secondary_bd_inited c && secondary_bd_readblock c
         = false
  end.
Proof.
  intros Hc Hcount HR Hsize run image. subst run.
  unfold VerifySignature.
  destruct (VerifySignature_body fileEntity d) as [res d'] eqn:Hrun.
  revert Hrun. unfold VerifySignature_body, digest_matches.
  rewrite (bind_inl _ _ d d c) by (unfold the_ctx; rewrite Hc; reflexivity).
  apply Nat.eqb_neq in Hcount. rewrite Hcount.
  destruct (ADUC_HashUtils_GetHashType _ _ _) as [hashType|];
    [|intros [= <- <-]; right; reflexivity].
  destruct (ADUC_HashUtils_GetShaVersionForTypeString hashType)
    as [shaVersion|]; [|intros [= <- <-]; right; reflexivity].
  destruct (USHAReset shaVersion) as [shaCtx|];
    [|intros [= <- <-]; right; reflexivity].
  destruct (secondary_bd c);
    [|intros [= <- <-]; split; reflexivity].
  rewrite (bind_inl _ _ d d tt) by reflexivity.
  destruct (secondary_bd_inited c);
    [|intros [= <- <-]; split; reflexivity].
  rewrite (bind_inl _ _ d d tt) by reflexivity.
  destruct (secondary_bd_readblock c);
    [|intros [= <- <-]; split; reflexivity].
  rewrite (bind_inl _ _ d d tt) by reflexivity.
  rewrite (bind_inl _ _ d d tt)
    by (apply assert_true; apply negb_true_iff; apply Z.eqb_neq; lia).
  cbv zeta.
  set (R := secondary_bd_readblock_size c) in *.
  set (size := SizeInBytes fileEntity) in *.
  set (mem := bd_mem (secondary d)) in *.
  pose proof (Z.div_mod size R ltac:(lia)) as Hdm.
  pose proof (Z.mod_pos_bound size R HR) as Hmb.
  assert (Hq0 : 0 <= size / R) by (apply Z.div_pos; lia).
  assert (Hwhole : 0 <= size / R * R <= size) by nia.
  assert (Hqle : size / R <= size) by nia.
  assert (Himage0 : image
                    = bd_peek mem 0 (Z.to_nat (size / R * R))
                      ++ bd_peek mem (0 + size / R * R)
                                 (Z.to_nat (size - size / R * R))).
  { unfold image.
    replace (Z.to_nat size)
      with (Z.to_nat (size / R * R)
            + Z.to_nat (size - size / R * R))%nat by lia.
    rewrite peek_app. do 2 f_equal. lia. }
  pose proof (read_aligned_blocks_spec Hlaw R mem (bd_rejects (secondary d))
                HR (S (Z.to_nat size)) 0 size shaCtx d eq_refl eq_refl
                ltac:(lia) ltac:(lia) ltac:(lia) ltac:(lia)) as Hloop.
  cbv zeta in Hloop. destruct Hloop as (Hm1 & Hr1 & Hres1).
  unfold bind at 1.
  destruct (read_aligned_blocks (S (Z.to_nat size)) R 0 size shaCtx d)
    as [[[[o1 rmn1] ctx1]|[|f]] d1]; cbn [fst snd] in Hm1, Hr1, Hres1.
  2:{ intros [= <- <-]. destruct Hres1 as [Hs|Hn]; [left; exact Hs|right].
      rewrite Himage0, (USHAInput_app_None Hlaw _ _ _ Hn). reflexivity. }
  2:{ contradiction. }
  destruct Hres1 as (Ho1 & Hrmn1 & Hin1).
  assert (Himage : image = bd_peek mem 0 (Z.to_nat (size / R * R))
                           ++ bd_peek mem o1 (Z.to_nat rmn1)).
  { rewrite Himage0. do 2 f_equal; lia. }
  pose proof (read_last_block_spec R mem (bd_rejects (secondary d)) o1 rmn1
                ctx1 d1 Hm1 Hr1 ltac:(lia)) as Hlast.
  cbv zeta in Hlast. destruct Hlast as (Hm2 & Hr2 & Hres2).
  unfold bind at 1.
  destruct (read_last_block R o1 rmn1 ctx1 d1) as [[ctx2|[|f]] d2];
    cbn [fst snd] in Hm2, Hr2, Hres2.
  2:{ intros [= <- <-]. destruct Hres2 as [Hs|Hn].
      - left. exact (all_served_rejects _ _ Hr1 Hs).
      - right. rewrite Himage, (USHAInput_app_Some Hlaw _ _ _ _ Hin1), Hn.
        reflexivity. }
  2:{ contradiction. }
  rewrite Himage, (USHAInput_app_Some Hlaw _ _ _ _ Hin1), Hres2.
  destruct (USHAResult ctx2) as [shaDigest|];
    [|intros [= <- <-]; right; reflexivity].
  destruct (Azure_Base64_Encode_Bytes shaDigest) as [b64|];
    [|intros [= <- <-]; right; reflexivity].
  destruct (ADUC_HashUtils_GetHashValue _ _ _) as [expected|];
    [|intros [= <- <-]; right; reflexivity].
  destruct (strcmp_eqb expected b64); cbn [negb]; intros [= <- <-].
  - reflexivity.
  - right. reflexivity.
Qed.

End VerifierSpec.

Lemma only_reads_refl (d : Device) : only_reads d d.
Proof. repeat split. apply requests_since_refl. Qed.

Lemma only_reads_trans (d1 d2 d3 : Device) :
  only_reads d1 d2 -> only_reads d2 d3 -> only_reads d1 d3.
Proof.
  intros (A1 & A2 & A3 & A4 & A5) (B1 & B2 & B3 & B4 & B5).
  repeat split; try congruence.
  exact (requests_since_trans _ _ _ _ A5 B5).
Qed.

Lemma only_reads_bd_read (addr size : Z) :
  runs only_reads (fun _ => True) (on_secondary (bd_read addr size)).
Proof.
  intros d. split; [|intros; exact I].
  destruct (requests_bd_read is_read addr size I d) as [Hrq _].
  destruct (bd_read_result addr size (secondary d))
    as (rc & bd' & Hrd & Hmem & _).
  revert Hrq. unfold on_secondary. rewrite Hrd. simpl. intros Hrq.
  repeat split; assumption.
Qed.

Lemma only_reads_the_ctx :
  runs only_reads (fun _ : OTA_OperationContext_t => True) the_ctx.
Proof.
  intros d. unfold the_ctx. destruct (otaCtx_opaque d); simpl;
    (split; [apply only_reads_refl|intros; exact I]).
Qed.

Section VerifierFrame.
Context {H : HashLibrary}.

Lemma only_reads_aligned_blocks (fuel : nat) :
  forall (R fwu_offset fwu_rmn : Z) (shaCtx : USHAContext),
    runs only_reads (fun _ => True)
         (read_aligned_blocks fuel R fwu_offset fwu_rmn shaCtx).
Proof.
  induction fuel as [|fuel IH]; intros R o rmn ctx; simpl.
  - apply runs_raise. exact only_reads_refl.
  - destruct (rmn =? 0); [apply runs_ret; [exact only_reads_refl|exact I]|].
    destruct (_ <? R); [apply runs_ret; [exact only_reads_refl|exact I]|].
    apply (runs_bind _ only_reads_trans (fun _ => True));
      [apply only_reads_bd_read|intros [rc data] _].
    destruct (negb _); [apply runs_goto_failure; exact only_reads_refl|].
    destruct (USHAInput _ _);
      [apply IH|apply runs_goto_failure; exact only_reads_refl].
Qed.

Lemma only_reads_last_block (R fwu_offset fwu_rmn : Z)
    (shaCtx : USHAContext) :
  runs only_reads (fun _ => True)
       (read_last_block R fwu_offset fwu_rmn shaCtx).
Proof.
  unfold read_last_block.
  destruct (fwu_rmn =? 0); [apply runs_ret; [exact only_reads_refl|exact I]|].
  apply (runs_bind _ only_reads_trans (fun _ => True));
    [apply runs_assert_any; exact only_reads_refl|intros _ _].
  apply (runs_bind _ only_reads_trans (fun _ => True));
    [apply only_reads_bd_read|intros [rc data] _].
  destruct (negb _); [apply runs_goto_failure; exact only_reads_refl|].
  destruct (USHAInput _ _);
    [apply runs_ret; [exact only_reads_refl|exact I]
    |apply runs_goto_failure; exact only_reads_refl].
Qed.

Lemma only_reads_VerifySignature_body (fileEntity : ADUC_FileEntity) :
  runs only_reads (fun _ => True) (VerifySignature_body fileEntity).
Proof.
  unfold VerifySignature_body.
  apply (runs_bind _ only_reads_trans (fun _ => True));
    [apply only_reads_the_ctx|intros c _].
  destruct (Nat.eqb _ _); [apply runs_ret; [exact only_reads_refl|exact I]|].
  destruct (ADUC_HashUtils_GetHashType _ _ _);
    [|apply runs_goto_failure; exact only_reads_refl].
  destruct (ADUC_HashUtils_GetShaVersionForTypeString _);
    [|apply runs_goto_failure; exact only_reads_refl].
  destruct (USHAReset _);
    [|apply runs_goto_failure; exact only_reads_refl].
  do 4 (apply (runs_bind _ only_reads_trans (fun _ => True));
        [apply runs_assert_any; exact only_reads_refl|intros _ _]).
  cbv zeta.
  apply (runs_bind _ only_reads_trans (fun _ => True));
    [apply only_reads_aligned_blocks|intros [[o rmn] ctx] _].
  apply (runs_bind _ only_reads_trans (fun _ => True));
    [apply only_reads_last_block|intros ctx' _].
  destruct (USHAResult _);
    [|apply runs_goto_failure; exact only_reads_refl].
  destruct (Azure_Base64_Encode_Bytes _);
    [|apply runs_goto_failure; exact only_reads_refl].
  destruct (ADUC_HashUtils_GetHashValue _ _ _);
    [|apply runs_goto_failure; exact only_reads_refl].
  destruct (negb _);
    [apply runs_goto_failure; exact only_reads_refl
    |apply runs_ret; [exact only_reads_refl|exact I]].
Qed.

(** X15.  [VerifySignature] only reads: it leaves the handler context,
    the store, the bootloader state and the contents of the secondary
    device as they were, and every request it makes of the device is a
    read. *)
Theorem verifier_only_reads (fileEntity : ADUC_FileEntity) (d : Device) :
  let d' := snd (VerifySignature fileEntity d) in
  otaCtx_opaque d' = otaCtx_opaque d
  /\ nvstore d' = nvstore d
  /\ bootloader d' = bootloader d
  /\ bd_mem (secondary d') = bd_mem (secondary d)
  /\ exists new,
       bd_log (secondary d') = new ++ bd_log (secondary d)
       /\ Forall is_read new.
Proof.
  intros d'. subst d'. unfold VerifySignature.
  destruct (only_reads_VerifySignature_body fileEntity d) as [Hr _].
  destruct (VerifySignature_body fileEntity d) as [[[]|[|f]] d1];
    exact Hr.
Qed.

(** X16.  With a hash library that consumes its input as a stream, an
    initialised context and a device that serves every read,
    [VerifySignature] on a file with a hash returns exactly whether the
    digest of the first [SizeInBytes] bytes of the secondary device,
    encoded, is the value of the first hash entry. *)
Theorem verifier_hashes_staged_image (fileEntity : ADUC_FileEntity)
    (d : Device) (c : OTA_OperationContext_t) :
  USHA_streams ->
  otaCtx_opaque d = Some c ->
  secondary_bd c = true -> secondary_bd_inited c = true ->
  secondary_bd_readblock c = true -> 0 < secondary_bd_readblock_size c ->
  HashCount fileEntity <> 0%nat ->
  0 <= SizeInBytes fileEntity < 2 ^ 32 ->
  all_served (secondary d) ->
  fst (VerifySignature fileEntity d)
  = Returns (digest_matches fileEntity
               (bd_peek (bd_mem (secondary d)) 0
                        (Z.to_nat (SizeInBytes fileEntity)))).
Proof.
  intros Hlaw Hc Hbd Hin Hrb HR Hcount Hsize Hs.
  pose proof (VerifySignature_spec Hlaw fileEntity d c Hc Hcount HR Hsize)
    as Hspec. cbv zeta in Hspec.
  destruct (fst (VerifySignature fileEntity d)) as [[|]|f].
  - rewrite Hspec. reflexivity.
  - destruct Hspec as [Hn|Hm]; [contradiction|]. rewrite Hm. reflexivity.
  - destruct Hspec as [_ Hf]. rewrite Hbd, Hin, Hrb in Hf. discriminate.
Qed.

End VerifierFrame.

Lemma sample_hash_streams : @USHA_streams sample_hash.
Proof.
  split; simpl.
  - intros ctx. rewrite app_nil_r. reflexivity.
  - intros ctx a b. rewrite app_assoc. reflexivity.
Qed.

Lemma verifier_hashes_staged_image_witness :
  let fileEntity := mkFileEntity 1 [mkHash (Some [x41; x42]) (Some [x73])] 2 in
  let d := snd (CombinedDownloadInstall [x41; x42] (sample_device 4 1024)) in
  fst (VerifySignature fileEntity d)
  = Returns (digest_matches fileEntity
               (bd_peek (bd_mem (secondary d)) 0
                        (Z.to_nat (SizeInBytes fileEntity)))).
Proof.
  intros fileEntity d.
  apply (verifier_hashes_staged_image fileEntity d
           (mkCtx (repeat x00 32)
                  ([x41; x42] ++ repeat x00 30) true true true 4 true 1024
                  2 0 0)).
  - exact sample_hash_streams.
  - reflexivity.
  - reflexivity.
  - reflexivity.
  - reflexivity.
  - reflexivity.
  - discriminate.
  - split; [discriminate|reflexivity].
  - intros rq. reflexivity.
Defined.

(* ----------------------------------------------------------------- *)
(** ** [OTACtx_Reinit] *)

Lemma bd_serve_effect (rq : bd_request) (mem' : Z -> byte)
    (bd : BlockDevice) :
  fst (bd_serve rq mem' bd)
  = (if bd_rejects bd rq then BD_ERROR_DEVICE_ERROR else 0)
  /\ bd_mem (snd (bd_serve rq mem' bd))
     = (if bd_rejects bd rq then bd_mem bd else mem')
  /\ same_geometry bd (snd (bd_serve rq mem' bd)).
Proof.
  unfold bd_serve. destruct (bd_rejects bd rq); repeat split.
Qed.

Lemma same_geometry_refl (bd : BlockDevice) : same_geometry bd bd.
Proof. repeat split. Qed.

Lemma same_geometry_trans (bd1 bd2 bd3 : BlockDevice) :
  same_geometry bd1 bd2 -> same_geometry bd2 bd3 -> same_geometry bd1 bd3.
Proof.
  intros (A1 & A2 & A3 & A4 & A5) (B1 & B2 & B3 & B4 & B5).
  repeat split; congruence.
Qed.

(** [OTACtx_Deinit] drops the context and leaves the rest of the handler,
    the device contents included. *)
Lemma OTACtx_Deinit_effect (d : Device) :
  otaCtx_opaque (OTACtx_Deinit d) = None
  /\ nvstore (OTACtx_Deinit d) = nvstore d
  /\ bootloader (OTACtx_Deinit d) = bootloader d
  /\ get_secondary_bd_null (OTACtx_Deinit d) = get_secondary_bd_null d
  /\ malloc_null (OTACtx_Deinit d) = malloc_null d
  /\ bd_mem (secondary (OTACtx_Deinit d)) = bd_mem (secondary d)
  /\ same_geometry (secondary d) (secondary (OTACtx_Deinit d)).
Proof.
  unfold OTACtx_Deinit. destruct (otaCtx_opaque d) as [c|] eqn:Hc.
  - simpl. destruct (secondary_bd c && secondary_bd_inited c).
    + unfold bd_deinit.
      destruct (bd_serve_effect BdDeinit (bd_mem (secondary d)) (secondary d))
        as (_ & Hm & Hg).
      repeat split; try apply Hg.
      rewrite Hm. destruct (bd_rejects _ _); reflexivity.
    + repeat split.
  - repeat split. exact Hc.
Qed.

Lemma reset_result (b : bool) (kv : KVStore) :
  fst (nvImgUpgSt_reset b kv) = negb (kv_set_fault kv).
Proof.
  unfold nvImgUpgSt_reset.
  destruct (if b then None else nvImgUpgSt_getAll kv);
    unfold nvImgUpgSt_setAll, kv_set; destruct (kv_set_fault kv); reflexivity.
Qed.

(** [OTACtx_Reinit], step by step. *)
Lemma OTACtx_Reinit_effect (d : Device) :
  let bd0 := secondary (OTACtx_Deinit d) in
  let size := SizeT.wrap (bd_size bd0) in
  let ok := negb (kv_set_fault (nvstore d))
            && negb (get_secondary_bd_null d)
            && negb (bd_rejects bd0 BdInit)
            && negb (bd_rejects bd0 (BdErase 0 size)) in
  let d' := snd (OTACtx_Reinit d) in
  fst (OTACtx_Reinit d) = ok
  /\ nvstore d' = snd (nvImgUpgSt_reset false (nvstore d))
  /\ bootloader d' = bootloader d
  /\ get_secondary_bd_null d' = get_secondary_bd_null d
  /\ malloc_null d' = malloc_null d
  /\ same_geometry (secondary d) (secondary d')
  /\ otaCtx_opaque d' = (if ok then Some (fresh_ctx d) else None)
  /\ (ok = true ->
      bd_mem (secondary d')
      = bd_poke (bd_mem (secondary d)) 0 size
                (repeat (bd_erase_value bd0) (Z.to_nat size))).
Proof.
  destruct (OTACtx_Deinit_effect d)
    as (Hc0 & Hkv0 & Hbl0 & Hnull0 & Hmal0 & Hmem0 & Hg0).
  unfold OTACtx_Reinit.
  set (d0 := OTACtx_Deinit d) in *. cbv zeta.
  pose proof (reset_result false (nvstore d0)) as Hres.
  rewrite Hkv0 in *.
  destruct (nvImgUpgSt_reset false (nvstore d)) as [ok1 kv1].
  cbn [fst snd] in Hres. subst ok1.
  destruct (kv_set_fault (nvstore d)); cbn [negb andb fst snd].
  { cbn [fst snd nvstore bootloader get_secondary_bd_null malloc_null
         secondary otaCtx_opaque with_secondary with_nvstore].
    repeat split;
      first [assumption | apply Hg0 | discriminate]. }
  cbn [get_secondary_bd_null with_nvstore]. rewrite Hnull0.
  destruct (get_secondary_bd_null d); cbn [negb andb fst snd].
  { cbn [fst snd nvstore bootloader get_secondary_bd_null malloc_null
         secondary otaCtx_opaque with_secondary with_nvstore].
    repeat split;
      first [assumption | apply Hg0 | discriminate]. }
  cbn [secondary with_nvstore]. unfold bd_init.
  destruct (bd_serve_effect BdInit (bd_mem (secondary d0)) (secondary d0))
    as (Hrc1 & Hm1 & Hg1).
  destruct (bd_serve BdInit (bd_mem (secondary d0)) (secondary d0))
    as [rc1 bd1]. cbn [fst snd] in Hrc1, Hm1, Hg1. subst rc1.
  destruct (bd_rejects (secondary d0) BdInit); cbn [negb andb fst snd].
  { change (negb (BD_ERROR_DEVICE_ERROR =? 0)) with true. cbv iota.
    cbn [fst snd nvstore bootloader get_secondary_bd_null malloc_null
         secondary otaCtx_opaque with_secondary with_nvstore].
    pose proof (same_geometry_trans _ _ _ Hg0 Hg1) as Hg.
    repeat split; first [assumption | apply Hg | discriminate]. }
  change (negb (0 =? 0)) with false. cbv iota.
  cbn [secondary with_secondary].
  assert (Hsz : bd_size bd1 = bd_size (secondary d0)) by apply Hg1.
  assert (Hev : bd_erase_value bd1 = bd_erase_value (secondary d0))
    by apply Hg1.
  assert (Hrj : bd_rejects bd1 = bd_rejects (secondary d0)) by apply Hg1.
  rewrite Hsz. set (size := SizeT.wrap (bd_size (secondary d0))).
  unfold bd_erase.
  destruct (bd_serve_effect (BdErase 0 size)
              (bd_poke (bd_mem bd1) 0 size
                       (repeat (bd_erase_value bd1) (Z.to_nat size))) bd1)
    as (Hrc2 & Hm2 & Hg2).
  destruct (bd_serve (BdErase 0 size) _ bd1) as [rc2 bd2].
  cbn [fst snd] in Hrc2, Hm2, Hg2. subst rc2. rewrite Hrj in *.
  pose proof (same_geometry_trans _ _ _ Hg0
                (same_geometry_trans _ _ _ Hg1 Hg2)) as Hg.
  destruct (bd_rejects (secondary d0) (BdErase 0 size));
    cbn [negb andb fst snd].
  { change (negb (BD_ERROR_DEVICE_ERROR =? 0)) with true. cbv iota.
    cbn [fst snd nvstore bootloader get_secondary_bd_null malloc_null
         secondary otaCtx_opaque with_secondary with_nvstore].
    repeat split; first [assumption | apply Hg | discriminate]. }
  change (negb (0 =? 0)) with false. cbv iota.
  cbn [fst snd nvstore bootloader get_secondary_bd_null malloc_null
       secondary otaCtx_opaque with_secondary with_nvstore with_ctx].
  split; [reflexivity|]. split; [reflexivity|]. split; [exact Hbl0|].
  split; [exact Hnull0|]. split; [exact Hmal0|]. split; [exact Hg|].
  split.
  { unfold fresh_ctx. rewrite Hmal0.
    destruct Hg1 as (_ & Hps & Hrs & _). rewrite Hps, Hrs.
    destruct Hg0 as (_ & Hps0 & Hrs0 & _). rewrite Hps0, Hrs0.
    reflexivity. }
  intros _. rewrite Hm2, Hev, Hm1, Hmem0. reflexivity.
Qed.

(** X17.  [OTACtx_Reinit] succeeds exactly when the store takes the
    write of the reset record, the secondary device exists and serves
    its init and the erase of its whole size.  On success the context
    is the fresh one of the device; on failure there is no context. *)
Theorem reinit_succeeds_iff (d : Device) :
  (fst (OTACtx_Reinit d) = true
   <-> kv_set_fault (nvstore d) = false
       /\ get_secondary_bd_null d = false
       /\ bd_rejects (secondary d) BdInit = false
       /\ bd_rejects (secondary d)
                     (BdErase 0 (SizeT.wrap (bd_size (secondary d)))) = false)
  /\ (fst (OTACtx_Reinit d) = true
      -> otaCtx_opaque (snd (OTACtx_Reinit d)) = Some (fresh_ctx d))
  /\ (fst (OTACtx_Reinit d) = false
      -> otaCtx_opaque (snd (OTACtx_Reinit d)) = None).
Proof.
  destruct (OTACtx_Reinit_effect d) as (Hok & _ & _ & _ & _ & _ & Hctx & _).
  cbv zeta in Hok, Hctx.
  destruct (OTACtx_Deinit_effect d) as (_ & _ & _ & _ & _ & _ & Hg).
  destruct Hg as (Hrj & _ & _ & Hsz & _). rewrite Hrj, Hsz in Hok, Hctx.
  rewrite Hok in *. split; [|split].
  - rewrite !andb_true_iff, !negb_true_iff. tauto.
  - intros Ht. rewrite Ht in Hctx. exact Hctx.
  - intros Hf. rewrite Hf in Hctx. exact Hctx.
Qed.

(** X18.  After a successful [OTACtx_Reinit] every byte of the secondary
    device within its size holds the erase value and the bytes outside
    are as they were; the context stands at offset 0, with the program
    unit size of the device and a read block of at least
    [FWU_READ_BLOCK_DEFSIZE] bytes and at least the read size of the
    device. *)
Theorem reinit_blanks_staging_area (d : Device) :
  fst (OTACtx_Reinit d) = true ->
  let d' := snd (OTACtx_Reinit d) in
  (forall a, 0 <= a < SizeT.wrap (bd_size (secondary d)) ->
             bd_mem (secondary d') a = bd_erase_value (secondary d))
  /\ (forall a, a < 0 \/ SizeT.wrap (bd_size (secondary d)) <= a ->
                bd_mem (secondary d') a = bd_mem (secondary d) a)
  /\ exists c,
       otaCtx_opaque d' = Some c
       /\ dl_prog_offset c = 0
       /\ secondary_bd_progunit_size c
          = SizeT.wrap (bd_program_size (secondary d))
       /\ FWU_READ_BLOCK_DEFSIZE <= secondary_bd_readblock_size c
       /\ SizeT.wrap (bd_read_size (secondary d))
          <= secondary_bd_readblock_size c.
Proof.
  intros Ht d'. subst d'.
  destruct (OTACtx_Reinit_effect d)
    as (Hok & _ & _ & _ & _ & _ & Hctx & Hmem).
  cbv zeta in Hok, Hctx, Hmem. rewrite Hok in Ht. rewrite Ht in Hctx.
  specialize (Hmem Ht).
  destruct (OTACtx_Deinit_effect d) as (_ & _ & _ & _ & _ & _ & Hg).
  destruct Hg as (_ & _ & _ & Hsz & Hev). rewrite Hsz, Hev in Hmem.
  set (size := SizeT.wrap (bd_size (secondary d))) in *.
  split; [|split].
  - intros a Ha. rewrite Hmem, poke_inside by lia.
    apply nth_repeat_lt. lia.
  - intros a Ha. rewrite Hmem. apply poke_outside. lia.
  - exists (fresh_ctx d). split; [exact Hctx|]. unfold fresh_ctx. simpl.
    split; [reflexivity|]. split; [reflexivity|].
    destruct (Z.ltb_spec FWU_READ_BLOCK_DEFSIZE
                (SizeT.wrap (bd_read_size (secondary d)))); lia.
Qed.

Lemma reinit_blanks_staging_area_witness :
  let d' := snd (OTACtx_Reinit (fresh_device 4)) in
  (forall a, 0 <= a < 4096 -> bd_mem (secondary d') a = xff)
  /\ (forall a, a < 0 \/ 4096 <= a ->
                bd_mem (secondary d') a
                = bd_mem (secondary (fresh_device 4)) a)
  /\ exists c,
       otaCtx_opaque d' = Some c
       /\ dl_prog_offset c = 0
       /\ secondary_bd_progunit_size c = 4
       /\ FWU_READ_BLOCK_DEFSIZE <= secondary_bd_readblock_size c
       /\ 1 <= secondary_bd_readblock_size c.
Proof.
  apply (reinit_blanks_staging_area (fresh_device 4)). reflexivity.
Defined.

(* ----------------------------------------------------------------- *)
(** ** The geometry of the device *)

Lemma keeps_geometry_refl (d : Device) : keeps_geometry d d.
Proof. apply same_geometry_refl. Qed.

Lemma keeps_geometry_trans (d1 d2 d3 : Device) :
  keeps_geometry d1 d2 -> keeps_geometry d2 d3 -> keeps_geometry d1 d3.
Proof. apply same_geometry_trans. Qed.

Lemma geometry_bd_read (addr size : Z) :
  runs keeps_geometry (fun _ => True) (on_secondary (bd_read addr size)).
Proof.
  intros d. split; [|intros; exact I]. unfold on_secondary, bd_read.
  destruct (bd_serve_effect (BdRead addr size) (bd_mem (secondary d))
              (secondary d)) as (_ & _ & Hg).
  destruct (bd_serve _ _ _) as [rc bd']. exact Hg.
Qed.

Lemma geometry_bd_program (buf : list byte) (addr size : Z) :
  runs keeps_geometry (fun _ => True)
       (on_secondary (bd_program buf addr size)).
Proof.
  intros d. split; [|intros; exact I]. unfold on_secondary, bd_program.
  destruct (bd_serve_effect (BdProgram addr size)
              (bd_poke (bd_mem (secondary d)) addr size buf)
              (secondary d)) as (_ & _ & Hg).
  destruct (bd_serve _ _ _) as [rc bd']. exact Hg.
Qed.

Ltac geometry_step :=
  first
    [ apply (runs_bind _ keeps_geometry_trans (fun _ => True));
      [|intros ? _]
    | apply runs_ret; [exact keeps_geometry_refl|exact I]
    | apply runs_raise; exact keeps_geometry_refl
    | apply runs_goto_failure; exact keeps_geometry_refl
    | apply runs_assert_any; exact keeps_geometry_refl
    | apply runs_udiv_any; exact keeps_geometry_refl
    | apply runs_memcpy_from; exact keeps_geometry_refl
    | apply runs_memcpy_into; exact keeps_geometry_refl
    | apply geometry_bd_read
    | apply geometry_bd_program
    | match goal with
      | |- runs _ _ (if ?b then _ else _) => destruct b
      | |- runs _ _ (let '(_, _) := ?p in _) => destruct p
      end ].

Lemma geometry_read_program_unit (P R offset : Z) :
  runs keeps_geometry (fun _ => True) (bd_read_program_unit P R offset).
Proof. unfold bd_read_program_unit. repeat geometry_step. Qed.

Lemma geometry_write_phases (P R : Z) (c : Cursor) :
  runs keeps_geometry (fun _ => True)
       (c <- program_first P R c ;;
        c <- program_aligned P c ;;
        program_last P R c).
Proof.
  pose proof geometry_read_program_unit as Hu.
  unfold program_first, program_aligned, program_last.
  repeat first [apply Hu | geometry_step].
Qed.

Lemma write_through_geometry (dl_data : list byte) (d : Device) :
  keeps_geometry d (snd (write_through dl_data d)).
Proof.
  unfold write_through, bind at 1, the_ctx.
  destruct (otaCtx_opaque d) as [c|]; [|apply keeps_geometry_refl].
  refine (proj1 ((_ : runs keeps_geometry (fun _ : unit => True) _) d)).
  destruct (_ || _); [geometry_step|].
  do 2 geometry_step. 1: geometry_step.
  geometry_step; [apply geometry_write_phases|].
  geometry_step; [geometry_step|].
  intros d1. split; [|intros; exact I].
  unfold keeps_geometry. simpl. apply same_geometry_refl.
Qed.

(* ----------------------------------------------------------------- *)
(** ** [Download] *)

Lemma CombinedDownloadInstall_geometry (dl_data : list byte) (d : Device) :
  keeps_geometry d (snd (CombinedDownloadInstall dl_data d)).
Proof.
  unfold CombinedDownloadInstall, CombinedDownloadInstall_body.
  unfold bind at 1, the_ctx.
  destruct (otaCtx_opaque d) as [c|] eqn:Hc; [|apply keeps_geometry_refl].
  destruct (catch_header_effect dl_data d c Hc) as (h' & _ & _ & Hsec & _).
  unfold bind.
  destruct (catch_header dl_data d) as [[[]|[|f]] dh]; simpl in Hsec.
  - pose proof (write_through_geometry dl_data dh) as Hw.
    unfold keeps_geometry in *. rewrite Hsec in Hw.
    destruct (write_through dl_data dh) as [[[]|[|f]] d']; exact Hw.
  - unfold keeps_geometry. simpl. rewrite Hsec. apply same_geometry_refl.
  - unfold keeps_geometry. simpl. rewrite Hsec. apply same_geometry_refl.
Qed.

Lemma wrap_range (z : Z) : 0 <= SizeT.wrap z < 2 ^ 32.
Proof. unfold SizeT.wrap, SizeT.modulus. apply Z.mod_pos_bound. lia. Qed.

(** The device geometry and the range of the offset along a body. *)
Lemma http_body_frame (chunks : list (bool * list byte)) :
  forall (d d' : Device) (c : OTA_OperationContext_t)
         (result : ADUC_ResultCode) (out : outcome ADUC_ResultCode),
    otaCtx_opaque d = Some c ->
    0 <= dl_prog_offset c < 2 ^ 32 ->
    http_body chunks result d = (out, d') ->
    keeps_geometry d d'
    /\ exists c',
        otaCtx_opaque d' = Some c' /\ 0 <= dl_prog_offset c' < 2 ^ 32.
Proof.
  induction chunks as [|[cancel dl_data] chunks IH];
    intros d d' c result out Hc Ho Hrun.
  - simpl in Hrun. injection Hrun as <- <-.
    split; [apply keeps_geometry_refl|]. exists c. split; assumption.
  - simpl in Hrun. unfold CombinedDownloadInstallTask in Hrun.
    destruct (IsAducResultCodeFailure result || cancel).
    { exact (IH d d' c result out Hc Ho Hrun). }
    pose proof (CombinedDownloadInstall_geometry dl_data d) as Hg.
    destruct (CombinedDownloadInstall_effect dl_data d c Hc)
      as (h' & Hc1 & _). cbv zeta in Hc1.
    assert (Ho1 : 0 <= match fst (CombinedDownloadInstall dl_data d) with
                       | Returns ADUC_Result_Download_Success =>
                           SizeT.add (dl_prog_offset c)
                                     (Z.of_nat (length dl_data))
                       | _ => dl_prog_offset c
                       end < 2 ^ 32).
    { destruct (fst (CombinedDownloadInstall dl_data d)) as [[]|];
        try exact Ho. apply wrap_range. }
    destruct (CombinedDownloadInstall dl_data d) as [[r1|f] d1];
      cbn [fst snd] in *.
    + destruct (IH d1 d' _ r1 out Hc1 Ho1 Hrun) as (Hg' & c' & Hc' & Ho').
      split; [exact (keeps_geometry_trans _ _ _ Hg Hg')|].
      exists c'. split; assumption.
    + injection Hrun as <- <-. split; [exact Hg|].
      eexists. split; [exact Hc1|exact Ho1].
Qed.

Lemma VerifySignature_only_reads {H : HashLibrary}
    (fileEntity : ADUC_FileEntity) (d : Device) :
  only_reads d (snd (VerifySignature fileEntity d)).
Proof.
  unfold VerifySignature.
  destruct (only_reads_VerifySignature_body fileEntity d) as [Hr _].
  destruct (VerifySignature_body fileEntity d) as [[[]|[|f]] d1];
    exact Hr.
Qed.

Lemma Cancel_result (wf : Workflow) :
  fst (Cancel wf) = ADUC_Result_Cancel_Success
  \/ fst (Cancel wf) = ADUC_Result_Cancel_UnableToCancel.
Proof.
  unfold Cancel. destruct (workflow_request_cancel wf) as [[|] wf'];
    [left|right]; reflexivity.
Qed.

(* ----------------------------------------------------------------- *)
(** ** [Download] and the reserved part of a readable record *)

Lemma keeps_reserved_refl (kv : KVStore) : keeps_reserved kv kv.
Proof. intros st Hg. exists st. split; [exact Hg|reflexivity]. Qed.

Lemma keeps_reserved_trans (kv1 kv2 kv3 : KVStore) :
  keeps_reserved kv1 kv2 -> keeps_reserved kv2 kv3 -> keeps_reserved kv1 kv3.
Proof.
  intros H12 H23 st Hg. destruct (H12 st Hg) as (st2 & Hg2 & Hr2).
  destruct (H23 st2 Hg2) as (st3 & Hg3 & Hr3).
  exists st3. split; [exact Hg3|]. rewrite Hr3. exact Hr2.
Qed.

(** Writing back a record that agrees with the stored one from
    [reserved] on keeps the reserved part, whether the write succeeds
    or not. *)
Lemma setAll_keeps_reserved (kv : KVStore) (st st' : list byte) :
  nvImgUpgSt_getAll kv = Some st -> length st' = sizeof_state ->
  skipn offsetof_reserved st' = skipn offsetof_reserved st ->
  keeps_reserved kv (snd (nvImgUpgSt_setAll st' kv)).
Proof.
  intros Hg Hl Hr st0 Hg0. rewrite Hg in Hg0. injection Hg0 as <-.
  destruct (getAll_Some_inv _ _ Hg) as (Hgf & _).
  destruct (kv_set_fault kv) eqn:Hsf.
  - rewrite setAll_fault_snd by exact Hsf. exists st.
    split; [exact Hg|reflexivity].
  - exists st'. split; [|exact Hr].
    apply getAll_after_setAll; assumption.
Qed.

(** [nvImgUpgSt_reset(false)] on a record that can be read. *)
Lemma reset_false_keeps_reserved (kv : KVStore) :
  keeps_reserved kv (snd (nvImgUpgSt_reset false kv)).
Proof.
  intros st Hg. rewrite (reset_readable _ _ Hg).
  pose proof (getAll_length _ _ Hg) as Hl.
  apply (setAll_keeps_reserved kv st); [exact Hg| | |exact Hg].
  - rewrite memset_length; [exact Hl|]. rewrite Hl.
    unfold offsetof_reserved, sizeof_state. lia.
  - apply skipn_memset. lia.
Qed.

Lemma setStageVersion_keeps_reserved (v : list byte) (kv : KVStore) :
  (sizeof_image_version <= length v)%nat ->
  keeps_reserved kv (snd (nvImgUpgSt_setStageVersion v kv)).
Proof.
  intros Hv st Hg. unfold nvImgUpgSt_setStageVersion. rewrite Hg.
  pose proof (getAll_length _ _ Hg) as Hl.
  unfold sizeof_state, sizeof_image_version in *.
  assert (Hl1 : length (memcpy_at st offsetof_stageVersion v 8) = 152%nat).
  { rewrite memcpy_at_length; unfold offsetof_stageVersion; lia. }
  apply (setAll_keeps_reserved kv st); [exact Hg| | |exact Hg].
  - unfold sizeof_state.
    rewrite store_bool_length; unfold offsetof_stageVersion_valid; lia.
  - unfold offsetof_reserved.
    rewrite skipn_store_bool by (unfold offsetof_stageVersion_valid; lia).
    apply skipn_memcpy_at; unfold offsetof_stageVersion; lia.
Qed.

(** The header step writes the store through [nvImgUpgSt_setStageVersion]
    or not at all. *)
Lemma catch_header_store (dl_data : list byte) (d : Device)
    (c : OTA_OperationContext_t) :
  otaCtx_opaque d = Some c ->
  length (fwu_stage_image_header c) = 32%nat ->
  nvstore (snd (catch_header dl_data d)) = nvstore d
  \/ exists v,
       length v = sizeof_image_version
       /\ nvstore (snd (catch_header dl_data d))
          = snd (nvImgUpgSt_setStageVersion v (nvstore d)).
Proof.
  intros Hc H32. destruct (catch_header dl_data d) as [r dh] eqn:Hh.
  simpl snd. revert Hh. unfold catch_header.
  rewrite (bind_inl _ _ d d c) by (unfold the_ctx; rewrite Hc; reflexivity).
  destruct (dl_prog_offset c <? Z.of_nat sizeof_image_header);
    [|intros [= <- <-]; left; reflexivity].
  unfold memcpy_into.
  match goal with |- context [if ?b then _ else _] =>
    destruct b eqn:Hb end; [|intros [= <- <-]; left; reflexivity].
  rewrite !andb_true_iff, !Z.leb_le in Hb.
  destruct Hb as (((Hb1 & Hb2) & Hb3) & Hb4).
  unfold bind at 1. unfold ret at 1.
  match goal with |- context [set_ctx (with_stage_header ?x c)] =>
    set (h' := x) end.
  assert (Hl : length h' = 32%nat).
  { unfold h'. rewrite <- H32. apply memcpy_at_length; lia. }
  rewrite (bind_inl _ _ d (with_ctx (Some (with_stage_header h' c)) d) tt)
    by reflexivity.
  destruct (_ =? Z.of_nat sizeof_image_header);
    [|intros [= <- <-]; left; reflexivity].
  destruct (negb _); [intros [= <- <-]; left; reflexivity|].
  unfold bind, on_nvstore. cbn [nvstore with_ctx].
  destruct (nvImgUpgSt_setStageVersion (ih_ver h') (nvstore d))
    as [ok kv'] eqn:Hset.
  assert (Hkv : exists v,
             length v = sizeof_image_version
             /\ kv' = snd (nvImgUpgSt_setStageVersion v (nvstore d))).
  { exists (ih_ver h'). split; [apply ih_ver_length; exact Hl|].
    rewrite Hset. reflexivity. }
  destruct ok; intros [= <- <-]; right; exact Hkv.
Qed.

Lemma CombinedDownloadInstall_reserved (dl_data : list byte) (d : Device)
    (c : OTA_OperationContext_t) :
  otaCtx_opaque d = Some c ->
  length (fwu_stage_image_header c) = 32%nat ->
  keeps_reserved (nvstore d) (nvstore (snd (CombinedDownloadInstall dl_data d))).
Proof.
  intros Hc H32.
  assert (Hh : keeps_reserved (nvstore d)
                 (nvstore (snd (catch_header dl_data d)))).
  { destruct (catch_header_store dl_data d c Hc H32) as [->|(v & Hv & ->)].
    - apply keeps_reserved_refl.
    - apply setStageVersion_keeps_reserved. rewrite Hv. apply Nat.le_refl. }
  rewrite (CombinedDownloadInstall_unfold dl_data d c Hc).
  destruct (catch_header_effect dl_data d c Hc) as (h' & Hc' & _).
  destruct (catch_header dl_data d) as [[[]|e] dh]; cbn [snd] in Hh, Hc'.
  - destruct (write_through_handler dl_data dh _ Hc') as [Hkv _].
    destruct (write_through dl_data dh) as [[[]|[|f]] d'];
      cbn [snd] in *; rewrite Hkv; exact Hh.
  - destruct e as [|f]; exact Hh.
Qed.

Lemma http_body_reserved (chunks : list (bool * list byte)) :
  forall (d d' : Device) (c : OTA_OperationContext_t)
         (result : outcome ADUC_ResultCode),
    otaCtx_opaque d = Some c ->
    length (fwu_stage_image_header c) = 32%nat ->
    http_body chunks ADUC_Result_Download_Success d = (result, d') ->
    keeps_reserved (nvstore d) (nvstore d').
Proof.
  induction chunks as [|[cancel dl_data] chunks IH];
    intros d d' c result Hc H32 Hrun.
  - simpl in Hrun. injection Hrun as <- <-. apply keeps_reserved_refl.
  - simpl in Hrun. unfold CombinedDownloadInstallTask in Hrun.
    simpl in Hrun. destruct cancel; [exact (IH d d' c result Hc H32 Hrun)|].
    pose proof (CombinedDownloadInstall_reserved dl_data d c Hc H32) as Hp1.
    destruct (CombinedDownloadInstall_effect dl_data d c Hc)
      as (h' & Hc1 & Hl1 & Hres & _). cbv zeta in *.
    destruct (CombinedDownloadInstall dl_data d) as [r1 d1].
    simpl in Hc1, Hres, Hp1.
    destruct Hres as [-> | [-> | [f ->]]].
    + refine (keeps_reserved_trans _ _ _ Hp1 (IH d1 d' _ result Hc1 _ Hrun)).
      simpl. congruence.
    + rewrite http_body_failed in Hrun. injection Hrun as <- <-. exact Hp1.
    + injection Hrun as <- <-. exact Hp1.
Qed.

Section DownloadReserved.
Context {H : HashLibrary}.

Lemma Download_keeps_reserved (wf : Workflow) (tr : Transport) (d : Device) :
  keeps_reserved (nvstore d) (nvstore (snd (Download wf tr d))).
Proof.
  unfold Download.
  destruct (wf_cancel_requested wf).
  { destruct (Cancel wf). apply keeps_reserved_refl. }
  destruct (negb (wf_update_files_count wf =? 1));
    [apply keeps_reserved_refl|].
  destruct (wf_update_file wf) as [fileEntity|];
    [|apply keeps_reserved_refl].
  destruct (OTACtx_Reinit_effect d)
    as (Hok & Hkv & _ & _ & _ & _ & Hctx & _). cbv zeta in Hok, Hctx.
  assert (Hp1 : keeps_reserved (nvstore d) (nvstore (snd (OTACtx_Reinit d))))
    by (rewrite Hkv; apply reset_false_keeps_reserved).
  destruct (OTACtx_Reinit d) as [ok d1]. cbn [fst snd] in *.
  rewrite <- Hok in Hctx. clear Hok.
  destruct ok; cbn [negb]; [|exact Hp1].
  rewrite Hctx.
  destruct (negb (ih_magic_ok (primary_header (bootloader d1))));
    [exact Hp1|].
  match goal with |- context [http_body _ _ ?x] => set (d2 := x) end.
  assert (Hc2 : exists c2, otaCtx_opaque d2 = Some c2
                           /\ length (fwu_stage_image_header c2) = 32%nat)
    by (eexists; split; [reflexivity|reflexivity]).
  destruct Hc2 as (c2 & Hc2 & H32).
  destruct (http_body (http_chunks tr) ADUC_Result_Download_Success d2)
    as [out d3] eqn:Hbody.
  pose proof (http_body_reserved (http_chunks tr) d2 d3 c2 out Hc2 H32 Hbody)
    as Hp2.
  destruct (http_body_effect (http_chunks tr) d2 d3 c2 out Hc2 H32 Hbody)
    as (_ & c3 & Hc3 & _).
  assert (Hp3 : keeps_reserved (nvstore d) (nvstore d3))
    by exact (keeps_reserved_trans _ _ _ Hp1 Hp2).
  destruct out as [result|f]; [|exact Hp3].
  destruct (http_response_null tr && negb (cancel_after_send tr));
    [exact Hp3|].
  destruct (cancel_after_send tr).
  { destruct (Cancel wf). exact Hp3. }
  destruct (IsAducResultCodeFailure result); [exact Hp3|].
  rewrite Hc3.
  destruct (negb _); [exact Hp3|].
  match goal with |- context [VerifySignature fileEntity ?x] =>
    set (d4 := x) end.
  destruct (VerifySignature_only_reads fileEntity d4) as (_ & Hkv4 & _).
  destruct (VerifySignature fileEntity d4) as [[[|]|f] d5];
    cbn [snd] in *; rewrite Hkv4; exact Hp3.
Qed.

(** X19.  On a store whose record can be read, [Download], whatever it
    returns and whatever the transport delivers, leaves a record that
    can be read and has the reserved part it had: the persistent
    installed criteria and their flag are not written, and the answer
    of [IsInstalled] is as it was, for every workflow.  The hypothesis
    is needed: when the record cannot be read, [OTACtx_Reinit] resets
    it to zero, the reserved part included. *)
Theorem download_keeps_readable_criteria (wf : Workflow) (tr : Transport)
    (d : Device) (st : list byte) :
  nvImgUpgSt_getAll (nvstore d) = Some st ->
  let d' := snd (Download wf tr d) in
  (exists st',
     nvImgUpgSt_getAll (nvstore d') = Some st'
     /\ skipn offsetof_reserved st' = skipn offsetof_reserved st)
  /\ forall wf', IsInstalled wf' d' = IsInstalled wf' d.
Proof.
  intros Hg d'.
  destruct (Download_keeps_reserved wf tr d st Hg) as (st' & Hg' & Hr).
  fold d' in Hg'. split.
  - exists st'. split; assumption.
  - intros wf'. apply IsInstalled_same_persistent.
    exact (persistent_depends_on_reserved _ _ st st' Hg Hg' Hr).
Qed.

End DownloadReserved.

(** A record with persistent criteria "v2", through the download of the
    sample image: the criteria are still there. *)
Lemma download_keeps_readable_criteria_witness :
  let st := repeat x00 offsetof_persistentInstalledCriteria_valid
            ++ [x01; x76; x32] ++ repeat x00 65 in
  let d := with_nvstore (mkKV (Some st) false false) (fresh_device 4) in
  let d' := snd (Download sample_workflow sample_transport d) in
  (exists st',
     nvImgUpgSt_getAll (nvstore d') = Some st'
     /\ skipn offsetof_reserved st' = skipn offsetof_reserved st)
  /\ forall wf', IsInstalled wf' d' = IsInstalled wf' d.
Proof.
  intros st d.
  apply (download_keeps_readable_criteria sample_workflow sample_transport
           d st).
  reflexivity.
Defined.

Lemma fresh_ctx_readblock (d : Device) :
  FWU_READ_BLOCK_DEFSIZE <= secondary_bd_readblock_size (fresh_ctx d).
Proof.
  unfold fresh_ctx. simpl.
  destruct (Z.ltb_spec FWU_READ_BLOCK_DEFSIZE
              (SizeT.wrap (bd_read_size (secondary d)))); lia.
Qed.

Section DownloadSound.
Context {H : HashLibrary}.
Hypothesis Hlaw : USHA_streams.

(** X20.  With a streaming hash library, a [Download] that returns
    Download_Success had exactly one file, received exactly
    [SizeInBytes] bytes (modulo 2^32) in the chunks delivered with no
    cancel pending and, when the file has a hash, has left on the
    secondary device [SizeInBytes] bytes whose digest is that hash. *)
Theorem download_success_sound (wf wf' : Workflow) (tr : Transport)
    (d d' : Device) :
  Download wf tr d = (Returns ADUC_Result_Download_Success, wf', d') ->
  exists fileEntity,
    wf_update_file wf = Some fileEntity
    /\ wf_update_files_count wf = 1
    /\ SizeInBytes fileEntity
       = SizeT.wrap (Z.of_nat (length (concat (delivered (http_chunks tr)))))
    /\ (HashCount fileEntity <> 0%nat ->
        digest_matches fileEntity
          (bd_peek (bd_mem (secondary d')) 0
                   (Z.to_nat (SizeInBytes fileEntity))) = true).
Proof.
  intros Hrun. unfold Download in Hrun.
  destruct (wf_cancel_requested wf).
  { destruct (Cancel_result wf) as [Hc|Hc];
      destruct (Cancel wf) as [r w]; simpl in Hc; subst r; discriminate. }
  destruct (Z.eqb_spec (wf_update_files_count wf) 1) as [Hcount|];
    cbn [negb] in Hrun; [|discriminate].
  destruct (wf_update_file wf) as [fileEntity|]; [|discriminate].
  exists fileEntity. split; [reflexivity|]. split; [exact Hcount|].
  destruct (OTACtx_Reinit_effect d)
    as (Hok & _ & _ & _ & _ & _ & Hctx & _). cbv zeta in Hok, Hctx.
  destruct (OTACtx_Reinit d) as [ok d1]. cbn [fst snd] in *.
  rewrite <- Hok in Hctx. clear Hok.
  destruct ok; cbn [negb] in Hrun; [|discriminate].
  rewrite Hctx in Hrun.
  destruct (negb (ih_magic_ok (primary_header (bootloader d1))));
    [discriminate|].
  match type of Hrun with context [http_body _ _ ?x] => set (d2 := x) in * end.
  set (c2 := mkCtx (firstn sizeof_image_header
                           (primary_header (bootloader d1)))
                   (fwu_stage_image_header (fresh_ctx d))
                   (secondary_bd (fresh_ctx d))
                   (secondary_bd_inited (fresh_ctx d))
                   (secondary_bd_progunit (fresh_ctx d))
                   (secondary_bd_progunit_size (fresh_ctx d))
                   (secondary_bd_readblock (fresh_ctx d))
                   (secondary_bd_readblock_size (fresh_ctx d))
                   0 (SizeInBytes fileEntity) 0) in *.
  assert (Hc2 : otaCtx_opaque d2 = Some c2) by reflexivity.
  destruct (http_body (http_chunks tr) ADUC_Result_Download_Success d2)
    as [out d3] eqn:Hbody.
  destruct (http_body_effect (http_chunks tr) d2 d3 c2 out Hc2 eq_refl Hbody)
    as (_ & c3 & Hc3 & Hexp & Hcfg & Hoff).
  destruct (http_body_frame (http_chunks tr) d2 d3 c2 _ out Hc2
              ltac:(simpl; lia) Hbody) as (_ & c3' & Hc3' & Hrange).
  assert (Heq : c3' = c3) by congruence. subst c3'. clear Hc3'.
  destruct out as [result|f]; [|discriminate].
  destruct (http_response_null tr && negb (cancel_after_send tr));
    [discriminate|].
  destruct (cancel_after_send tr).
  { destruct (Cancel_result wf) as [Hc|Hc];
      destruct (Cancel wf) as [r w]; simpl in Hc; subst r; discriminate. }
  destruct (IsAducResultCodeFailure result) eqn:Hfail;
    [injection Hrun as -> _ _; discriminate Hfail|].
  rewrite Hc3 in Hrun.
  destruct (Z.eqb_spec (dl_prog_offset c3) (dl_prog_total_exp c3))
    as [Hlen|]; cbn [negb] in Hrun; [|discriminate].
  match type of Hrun with context [VerifySignature fileEntity ?x] =>
    set (d4 := x) in * end.
  pose proof (VerifySignature_only_reads fileEntity d4)
    as (_ & _ & _ & Hmem & _).
  destruct (VerifySignature fileEntity d4) as [[[|]|f] d5] eqn:Hver;
    try discriminate.
  injection Hrun as -> _ <-. cbn [snd] in Hmem.
  assert (Hsize : SizeInBytes fileEntity = dl_prog_offset c3)
    by (rewrite Hlen, Hexp; reflexivity).
  split.
  { rewrite Hsize, <- (wrap_small (dl_prog_offset c3)) by exact Hrange.
    rewrite (Hoff eq_refl). reflexivity. }
  intros Hhash.
  assert (Hc4 : exists c4, otaCtx_opaque d4 = Some c4
                           /\ secondary_bd_readblock_size c4
                              = secondary_bd_readblock_size (fresh_ctx d)).
  { eexists. split; [reflexivity|]. simpl. destruct Hcfg as (_ & _ & _ & _ & _ & _ & HR). exact HR. }
  destruct Hc4 as (c4 & Hc4 & HR4).
  pose proof (VerifySignature_spec Hlaw fileEntity d4 c4 Hc4 Hhash
                ltac:(rewrite HR4; pose proof (fresh_ctx_readblock d);
                      unfold FWU_READ_BLOCK_DEFSIZE in *; lia)
                ltac:(rewrite Hsize; exact Hrange)) as Hspec.
  cbv zeta in Hspec. rewrite Hver in Hspec. cbn [fst] in Hspec.
  rewrite Hmem. exact Hspec.
Qed.

End DownloadSound.

Lemma delivered_uncancelled (chunks : list (list byte)) :
  delivered (uncancelled chunks) = chunks.
Proof.
  unfold delivered, uncancelled.
  induction chunks as [|x xs IH]; simpl; [reflexivity|].
  f_equal. exact IH.
Qed.

Lemma reset_set_fault (b : bool) (kv : KVStore) :
  kv_set_fault (snd (nvImgUpgSt_reset b kv)) = kv_set_fault kv.
Proof.
  unfold nvImgUpgSt_reset.
  destruct (if b then None else nvImgUpgSt_getAll kv); apply setAll_set_fault.
Qed.

(** After a [reset] on a working store the record can be read. *)
Lemma reset_readable_after (kv : KVStore) :
  kv_get_fault kv = false -> kv_set_fault kv = false ->
  nvImgUpgSt_getAll (snd (nvImgUpgSt_reset false kv)) <> None.
Proof.
  intros Hgf Hsf. destruct (nvImgUpgSt_getAll kv) as [st|] eqn:Hg.
  - destruct (reset_false_stored kv st (conj Hg Hsf)) as (kv' & Hr & Hst).
    rewrite Hr. cbn [snd]. rewrite (proj1 Hst). discriminate.
  - unfold nvImgUpgSt_reset. rewrite Hg.
    rewrite getAll_after_setAll by (try assumption; apply repeat_length).
    discriminate.
Qed.

Lemma peek_of_contents (mem : Z -> byte) (data : list byte) :
  (forall a, 0 <= a < Z.of_nat (length data) ->
             mem a = nth (Z.to_nat a) data x00) ->
  bd_peek mem 0 (length data) = data.
Proof.
  intros Hmem. apply (nth_ext _ _ x00 x00); [apply peek_length|].
  intros i Hi. rewrite peek_length in Hi.
  rewrite peek_nth by exact Hi. rewrite Hmem by lia. f_equal. lia.
Qed.

Section DownloadTotal.
Context {H : HashLibrary}.
Hypothesis Hlaw : USHA_streams.

(** X21.  With working collaborators (store, device, allocator,
    transport, a streaming hash library), no cancel, one file whose
    size is the length of the body, a read block that is a whole number
    of program units, a valid active header, a body that carries the
    image magic when it has a header and whose digest is the hash of
    the file when it has one, [Download] returns Download_Success and
    the secondary device holds the body from address 0, however the
    body is cut into chunks. *)
Theorem download_stages_image (wf : Workflow) (tr : Transport) (d : Device)
    (fileEntity : ADUC_FileEntity) (chunks : list (list byte)) :
  let data := concat chunks in
  let P := SizeT.wrap (bd_program_size (secondary d)) in
  let R := secondary_bd_readblock_size (fresh_ctx d) in
  wf_cancel_requested wf = false ->
  wf_update_files_count wf = 1 ->
  wf_update_file wf = Some fileEntity ->
  http_chunks tr = uncancelled chunks ->
  http_response_null tr = false -> cancel_after_send tr = false ->
  kv_get_fault (nvstore d) = false -> kv_set_fault (nvstore d) = false ->
  get_secondary_bd_null d = false -> all_served (secondary d) ->
  malloc_null d P = false -> malloc_null d R = false ->
  0 < P -> R mod P = 0 ->
  ih_magic_ok (primary_header (bootloader d)) = true ->
  SizeInBytes fileEntity = Z.of_nat (length data) ->
  Z.of_nat (length data) + P <= 2 ^ 32 ->
  ((32 <= length data)%nat -> ih_magic_ok (firstn 32 data) = true) ->
  (HashCount fileEntity <> 0%nat -> digest_matches fileEntity data = true) ->
  exists d',
    Download wf tr d = (Returns ADUC_Result_Download_Success, wf, d')
    /\ bd_peek (bd_mem (secondary d')) 0 (length data) = data.
Proof.
  intros data P R Hnc Hcount Hfile Hchunks Hresp Hcas Hgf Hsf Hnull Hs
         HmP HmR HP HRP Hactive Hsize Hfit Hmagic Hdigest.
  unfold Download. rewrite Hnc, Hcount, Hfile. cbn [negb Z.eqb].
  change (1 =? 1) with true. cbn [negb].
  destruct (OTACtx_Reinit_effect d)
    as (Hok & Hkv & Hbl & _ & _ & Hgeo & Hctx & _). cbv zeta in Hok, Hctx.
  destruct (OTACtx_Deinit_effect d) as (_ & _ & _ & _ & _ & _ & Hg0).
  assert (Hok' : fst (OTACtx_Reinit d) = true).
  { rewrite Hok, Hsf, Hnull. destruct Hg0 as (Hrj & _). rewrite Hrj, !Hs.
    reflexivity. }
  rewrite <- Hok, Hok' in Hctx. clear Hok.
  destruct (OTACtx_Reinit d) as [ok d1]. cbn [fst snd] in *. subst ok.
  cbn [negb]. rewrite Hctx, Hbl, Hactive. cbn [negb].
  match goal with |- context [http_body _ _ ?x] => set (d2 := x) end.
  set (c2 := mkCtx (firstn sizeof_image_header
                           (primary_header (bootloader d)))
                   (fwu_stage_image_header (fresh_ctx d))
                   (secondary_bd (fresh_ctx d))
                   (secondary_bd_inited (fresh_ctx d))
                   (secondary_bd_progunit (fresh_ctx d))
                   (secondary_bd_progunit_size (fresh_ctx d))
                   (secondary_bd_readblock (fresh_ctx d))
                   (secondary_bd_readblock_size (fresh_ctx d))
                   0 (SizeInBytes fileEntity) 0) in *.
  assert (Hc2 : otaCtx_opaque d2 = Some c2) by reflexivity.
  pose proof (fresh_ctx_readblock d) as HRmin.
  unfold FWU_READ_BLOCK_DEFSIZE in HRmin. fold R in HRmin.
  assert (Hready : writer_ready c2).
  { unfold writer_ready.
    change (secondary_bd c2) with true.
    change (secondary_bd_inited c2) with true.
    change (secondary_bd_progunit c2) with (negb (malloc_null d P)).
    change (secondary_bd_progunit_size c2) with P.
    change (secondary_bd_readblock c2) with (negb (malloc_null d R)).
    change (secondary_bd_readblock_size c2) with R.
    rewrite HmP, HmR. repeat split; try reflexivity; try assumption. lia. }
  assert (Hs2 : all_served (secondary d2)).
  { intros rq. unfold d2. cbn [secondary with_ctx].
    destruct Hgeo as (Hrj & _). rewrite Hrj. apply Hs. }
  destruct (chunk_stream_writes chunks [] d2 c2 Hc2 Hready eq_refl eq_refl)
    as (d3 & Hbody & Hmem3); try assumption.
  { reflexivity. }
  { intros _ Hlong. split; [exact (Hmagic Hlong)|].
    unfold d2. cbn [nvstore with_ctx]. rewrite Hkv. split.
    - apply reset_readable_after; assumption.
    - rewrite reset_set_fault. exact Hsf. }
  { simpl. intros a Ha. lia. }
  rewrite Hchunks, Hbody, Hresp, Hcas. cbn [andb negb IsAducResultCodeFailure].
  simpl app in Hmem3. fold data in Hmem3.
  destruct (http_body_effect _ d2 d3 c2 _ Hc2 eq_refl Hbody)
    as (_ & c3 & Hc3 & Hexp & Hcfg & Hoff).
  destruct (http_body_frame _ d2 d3 c2 _ _ Hc2 ltac:(simpl; lia) Hbody)
    as (Hgeo3 & c3' & Hc3' & Hrange).
  assert (Heq : c3' = c3) by congruence. subst c3'. clear Hc3'.
  specialize (Hoff eq_refl). rewrite delivered_uncancelled in Hoff.
  fold data in Hoff. cbn [dl_prog_offset c2] in Hoff.
  rewrite (wrap_small (dl_prog_offset c3)) in Hoff by exact Hrange.
  rewrite wrap_small in Hoff by lia.
  rewrite Hc3.
  assert (Hlen : dl_prog_offset c3 = dl_prog_total_exp c3).
  { rewrite Hexp, Hoff. simpl. rewrite Hsize. reflexivity. }
  apply Z.eqb_eq in Hlen. rewrite Hlen. cbn [negb].
  match goal with |- context [VerifySignature fileEntity ?x] =>
    set (d4 := x) end.
  pose proof (VerifySignature_only_reads fileEntity d4)
    as (_ & _ & _ & Hmem5 & _).
  assert (Himage : bd_peek (bd_mem (secondary d4)) 0 (length data) = data)
    by (apply peek_of_contents; exact Hmem3).
  assert (Hver : fst (VerifySignature fileEntity d4) = Returns true).
  { destruct (Nat.eq_dec (HashCount fileEntity) 0) as [Hz|Hnz].
    - unfold VerifySignature, VerifySignature_body.
      unfold bind, the_ctx. cbn [otaCtx_opaque d4 with_ctx].
      rewrite Hz. reflexivity.
    - destruct Hcfg as (_ & Hbd & Hin & _ & _ & Hrb & HR3).
      change (secondary_bd c2) with true in Hbd.
      change (secondary_bd_inited c2) with true in Hin.
      change (secondary_bd_readblock c2) with (negb (malloc_null d R))
        in Hrb.
      change (secondary_bd_readblock_size c2) with R in HR3.
      rewrite HmR in Hrb. cbn [negb] in Hrb.
      pose proof (VerifySignature_spec Hlaw fileEntity d4 _ eq_refl Hnz)
        as Hspec.
      cbn [secondary_bd_readblock_size secondary_bd secondary_bd_inited
           secondary_bd_readblock with_dl_prog] in Hspec.
      rewrite HR3, Hbd, Hin, Hrb in Hspec.
      specialize (Hspec ltac:(lia) ltac:(rewrite Hsize; lia)).
      cbv zeta in Hspec. rewrite Hsize, Nat2Z.id, Himage in Hspec.
      destruct (fst (VerifySignature fileEntity d4)) as [[|]|f].
      + reflexivity.
      + destruct Hspec as [Hn|Hm].
        * exfalso. apply Hn. intros rq. unfold d4.
          cbn [secondary with_ctx].
          destruct Hgeo3 as (Hrj & _). rewrite Hrj. apply Hs2.
        * rewrite (Hdigest Hnz) in Hm. discriminate.
      + destruct Hspec as [_ Hf]. discriminate. }
  destruct (VerifySignature fileEntity d4) as [[[|]|f] d5];
    cbn [fst snd] in *; try discriminate.
  exists d5. split; [reflexivity|]. rewrite Hmem5. exact Himage.
Qed.

End DownloadTotal.

Lemma download_stages_image_witness :
  exists d',
    Download sample_workflow sample_transport (fresh_device 4)
    = (Returns ADUC_Result_Download_Success, sample_workflow, d')
    /\ bd_peek (bd_mem (secondary d')) 0 (length (concat sample_chunks))
       = concat sample_chunks.
Proof.
  apply (download_stages_image sample_hash_streams sample_workflow
           sample_transport (fresh_device 4) sample_file sample_chunks).
  - reflexivity.
  - reflexivity.
  - reflexivity.
  - reflexivity.
  - reflexivity.
  - reflexivity.
  - reflexivity.
  - reflexivity.
  - reflexivity.
  - intros rq. reflexivity.
  - reflexivity.
  - reflexivity.
  - reflexivity.
  - reflexivity.
  - reflexivity.
  - reflexivity.
  - vm_compute. discriminate.
  - intros _. reflexivity.
  - intros _. reflexivity.
Defined.

Lemma download_success_sound_witness :
  let d' := snd (Download sample_workflow sample_transport (fresh_device 4)) in
  exists fileEntity,
    wf_update_file sample_workflow = Some fileEntity
    /\ wf_update_files_count sample_workflow = 1
    /\ SizeInBytes fileEntity
       = SizeT.wrap (Z.of_nat (length (concat (delivered
                                                (http_chunks sample_transport)))))
    /\ (HashCount fileEntity <> 0%nat ->
        digest_matches fileEntity
          (bd_peek (bd_mem (secondary d')) 0
                   (Z.to_nat (SizeInBytes fileEntity))) = true).
Proof.
  intros d'.
  apply (download_success_sound sample_hash_streams sample_workflow
           sample_workflow sample_transport (fresh_device 4) d').
  vm_compute; reflexivity.
Defined.

(* ================================================================= *)
(** * The extension manager *)

Section ExtensionManagerFacts.
Import ExtensionManager.

Lemma find_key_app (p : String.string * nat -> bool)
    (m : list (String.string * nat)) (e : String.string * nat) :
  find p (m ++ [e])
  = match find p m with
    | Some x => Some x
    | None => if p e then Some e else None
    end.
Proof.
  induction m as [|x m IH]; simpl.
  - reflexivity.
  - destruct (p x); [reflexivity|exact IH].
Qed.

Lemma find_existsb (p : String.string * nat -> bool)
    (m : list (String.string * nat)) :
  existsb p m = match find p m with Some _ => true | None => false end.
Proof.
  induction m as [|x m IH]; simpl.
  - reflexivity.
  - destruct (p x); [reflexivity|exact IH].
Qed.

Lemma cache_lookup (updateType : String.string) (s : Manager) :
  (if (0 <? count updateType (_contentHandlers s))%nat
   then at_ updateType (_contentHandlers s) else nullptr)
  = match cached updateType s with Some h => h | None => nullptr end.
Proof.
  unfold count, at_, cached. rewrite find_existsb.
  destruct (find _ _); reflexivity.
Qed.

Lemma cached_emplace (key updateType : String.string) (h : nat)
    (m : list (String.string * nat)) (objs objs' : list ContentHandler) :
  cached updateType (mkManager (emplace key h m) objs')
  = match cached updateType (mkManager m objs) with
    | Some h0 => Some h0
    | None => if String.eqb key updateType
              then match cached key (mkManager m objs) with
                   | Some _ => None
                   | None => Some h
                   end
              else None
    end.
Proof.
  unfold cached, emplace. cbn [_contentHandlers]. rewrite find_existsb.
  destruct (find (fun e => String.eqb (fst e) key) m) as [x|] eqn:Fk.
  - destruct (String.eqb_spec key updateType) as [<-|Hne].
    + rewrite Fk. reflexivity.
    + destruct (find (fun e => String.eqb (fst e) updateType) m);
        reflexivity.
  - rewrite find_key_app. cbn [fst snd].
    destruct (String.eqb_spec key updateType) as [<-|Hne].
    + rewrite Fk. reflexivity.
    + destruct (find (fun e => String.eqb (fst e) updateType) m);
        reflexivity.
Qed.

Lemma cached_erase (key updateType : String.string)
    (m : list (String.string * nat)) (objs objs' : list ContentHandler) :
  cached updateType (mkManager (erase key m) objs')
  = if String.eqb key updateType then None
    else cached updateType (mkManager m objs).
Proof.
  unfold cached, erase. cbn [_contentHandlers].
  destruct (String.eqb_spec key updateType) as [<-|Hne].
  - induction m as [|[k v] m IH]; [reflexivity|]. cbn [filter find fst].
    destruct (String.eqb_spec k key) as [->|Hk]; cbn [negb].
    + exact IH.
    + cbn [find fst]. apply String.eqb_neq in Hk. rewrite Hk. exact IH.
  - induction m as [|[k v] m IH]; [reflexivity|]. cbn [filter find fst].
    destruct (String.eqb_spec k key) as [->|Hk]; cbn [negb].
    + apply String.eqb_neq in Hne. rewrite Hne. exact IH.
    + cbn [find fst]. destruct (String.eqb k updateType);
        [reflexivity|exact IH].
Qed.

Lemma update_object_length (n : nat) (f : ContentHandler -> ContentHandler)
    (objs : list ContentHandler) :
  List.length (update_object n f objs) = List.length objs.
Proof.
  revert n. induction objs as [|o objs IH]; intros [|n]; simpl;
    try reflexivity.
  rewrite IH. reflexivity.
Qed.

Lemma on_object_length (p : nat) (f : ContentHandler -> ContentHandler)
    (objs : list ContentHandler) :
  List.length (on_object p f objs) = List.length objs.
Proof. destruct p; [reflexivity|apply update_object_length]. Qed.

Lemma update_object_last (f : ContentHandler -> ContentHandler)
    (objs : list ContentHandler) (o : ContentHandler) :
  update_object (List.length objs) f (objs ++ [o]) = objs ++ [f o].
Proof.
  induction objs as [|x objs IH]; simpl; [reflexivity|].
  rewrite IH. reflexivity.
Qed.

Lemma update_object_other (n k : nat) (f : ContentHandler -> ContentHandler)
    (objs : list ContentHandler) :
  k <> n -> nth_error (update_object n f objs) k = nth_error objs k.
Proof.
  revert n k. induction objs as [|o objs IH]; intros [|n] [|k] Hk; simpl;
    try reflexivity.
  - contradiction Hk; reflexivity.
  - apply IH. intros ->. contradiction Hk; reflexivity.
Qed.

Lemma deref_on_object_other (p q : nat)
    (f : ContentHandler -> ContentHandler) (objs : list ContentHandler) :
  q <> p -> deref q (on_object p f objs) = deref q objs.
Proof.
  intros Hq. destruct p as [|n]; [reflexivity|].
  destruct q as [|k]; [reflexivity|].
  simpl. apply update_object_other. intros ->. contradiction Hq; reflexivity.
Qed.

(** What [LoadUpdateContentHandlerExtension] does, by cases. *)
Lemma Load_cases (mcuboot : bool) (updateType : String.string)
    (s : Manager) :
  let info :=
    mkContractInfo ADUC_V1_CONTRACT_MAJOR_VER ADUC_V1_CONTRACT_MINOR_VER in
  let created c :=
    (mkResult ADUC_GeneralResult_Success ERC_ZERO,
     S (List.length (objects s)),
     mkManager (emplace updateType (S (List.length (objects s)))
                        (_contentHandlers s))
               (objects s ++ [mkContentHandler c (Some info) false])) in
  LoadUpdateContentHandlerExtension mcuboot updateType false s
  = if steps_update_type updateType then created StepsHandlerImpl
    else if mcuboot && String.eqb updateType mcubupdate_type
    then created MCUbUpdateHandlerImpl
    else match cached updateType s with
         | Some (S n) =>
             (mkResult ADUC_GeneralResult_Success ERC_ZERO, S n,
              mkManager (_contentHandlers s)
                        (on_object (S n) (SetContractInfo info) (objects s)))
         | _ =>
             (mkResult ADUC_GeneralResult_Failure
                ADUC_ERC_UPDATE_CONTENT_HANDLER_CREATE_FAILURE_CREATE,
              nullptr, s)
         end.
Proof.
  intros info created.
  unfold LoadUpdateContentHandlerExtension.
  cbn [ResultCode IsAducResultCodeSuccess ADUC_Result_Failure andb Z.ltb
       Z.compare].
  rewrite cache_lookup. fold mcubupdate_type.
  destruct (steps_update_type updateType).
  { unfold new_handler, created. cbn [Nat.eqb nullptr on_object].
    rewrite update_object_last. reflexivity. }
  destruct (mcuboot && String.eqb updateType mcubupdate_type).
  { unfold new_handler, created. cbn [Nat.eqb nullptr on_object].
    rewrite update_object_last. reflexivity. }
  destruct (cached updateType s) as [[|n]|] eqn:Hc; cbn [Nat.eqb nullptr].
  - destruct s; reflexivity.
  - f_equal. f_equal. unfold emplace. rewrite find_existsb.
    unfold cached in Hc.
    destruct (find _ (_contentHandlers s)); [reflexivity|discriminate].
  - destruct s; reflexivity.
Qed.

End ExtensionManagerFacts.

Section ExtensionManagerCache.
Import ExtensionManager.

Lemma manager_eta (s : Manager) :
  mkManager (_contentHandlers s) (objects s) = s.
Proof. destruct s; reflexivity. Qed.

Lemma existsb_key_In (key : String.string) (m : list (String.string * nat)) :
  existsb (fun e => String.eqb (fst e) key) m = false ->
  ~ In key (map fst m).
Proof.
  induction m as [|[k v] m IH]; simpl; [tauto|].
  destruct (String.eqb_spec k key) as [->|Hk]; [discriminate|].
  intros He [H|H]; [contradiction|]. exact (IH He H).
Qed.

Lemma NoDup_snoc (l : list String.string) (a : String.string) :
  NoDup l -> ~ In a l -> NoDup (l ++ [a]).
Proof.
  induction 1 as [|x l Hx Hl IH]; simpl; intros Ha.
  - constructor; [intros []|constructor].
  - constructor.
    + rewrite in_app_iff. simpl. intros [H|[H|[]]]; [contradiction|].
      subst. apply Ha. left. reflexivity.
    + apply IH. tauto.
Qed.

Lemma emplace_ok (key : String.string) (h : nat)
    (m : list (String.string * nat)) (objs objs' : list ContentHandler) :
  h <> nullptr -> cache_ok (mkManager m objs) ->
  cache_ok (mkManager (emplace key h m) objs').
Proof.
  unfold cache_ok, emplace. cbn [_contentHandlers]. intros Hh [Hn Hf].
  destruct (existsb _ m) eqn:He; [split; assumption|].
  split.
  - rewrite map_app. apply NoDup_snoc; [exact Hn|].
    apply existsb_key_In. exact He.
  - apply Forall_app. split; [exact Hf|]. constructor; [exact Hh|constructor].
Qed.

Lemma erase_ok (key : String.string) (m : list (String.string * nat))
    (objs objs' : list ContentHandler) :
  cache_ok (mkManager m objs) -> cache_ok (mkManager (erase key m) objs').
Proof.
  unfold cache_ok, erase. cbn [_contentHandlers]. intros [Hn Hf]. split.
  - clear Hf. induction m as [|[k v] m IH]; [constructor|].
    inversion Hn as [|? ? Hk Hm]; subst. simpl.
    destruct (negb (String.eqb k key)); [|apply IH; exact Hm].
    simpl. constructor; [|apply IH; exact Hm].
    intros Hin. apply Hk. apply in_map_iff in Hin.
    destruct Hin as (e & He & Hin). apply filter_In in Hin.
    apply in_map_iff. exists e. tauto.
  - apply Forall_forall. intros e He. apply filter_In in He.
    rewrite Forall_forall in Hf. apply Hf. tauto.
Qed.

Lemma cached_not_null (updateType : String.string) (s : Manager) (h : nat) :
  cache_ok s -> cached updateType s = Some h -> h <> nullptr.
Proof.
  unfold cache_ok, cached. intros [_ Hf] Hc.
  destruct (find _ (_contentHandlers s)) as [e|] eqn:F; [|discriminate].
  injection Hc as <-. apply find_some in F. rewrite Forall_forall in Hf.
  apply Hf. tauto.
Qed.

Lemma Load_ok (mcuboot : bool) (updateType : String.string) (s : Manager) :
  cache_ok s ->
  cache_ok (snd (LoadUpdateContentHandlerExtension mcuboot updateType
                   false s)).
Proof.
  intros Hs. rewrite Load_cases. cbv zeta.
  assert (Hnew : forall objs',
             cache_ok (mkManager (emplace updateType
                                    (S (List.length (objects s)))
                                    (_contentHandlers s)) objs')).
  { intros objs'. apply (emplace_ok _ _ _ (objects s)); [discriminate|].
    rewrite manager_eta. exact Hs. }
  destruct (steps_update_type updateType); [apply Hnew|].
  destruct (mcuboot && _); [apply Hnew|].
  destruct (cached updateType s) as [[|n]|]; cbn [snd]; exact Hs.
Qed.

Lemma Set_ok (updateType : String.string) (handler : nat) (s : Manager) :
  cache_ok s ->
  cache_ok (snd (SetUpdateContentHandlerExtension updateType handler s)).
Proof.
  intros Hs. unfold SetUpdateContentHandlerExtension.
  destruct (Nat.eqb_spec handler nullptr) as [_|Hh]; [exact Hs|].
  cbn [snd]. apply (emplace_ok _ _ _ (objects s)); [exact Hh|].
  apply (erase_ok _ _ (objects s)). rewrite manager_eta. exact Hs.
Qed.

Lemma serve_ok (mcuboot : bool) (s : Manager) (rq : request) :
  cache_ok s -> cache_ok (serve mcuboot s rq).
Proof.
  intros Hs. destruct rq as [updateType|updateType handler|]; cbn [serve].
  - apply Load_ok. exact Hs.
  - apply Set_ok. exact Hs.
  - split; constructor.
Qed.

Lemma unload_keeps_object (m : list (String.string * nat)) (q : nat)
    (objs : list ContentHandler) :
  Forall (fun e => snd e <> q) m ->
  deref q (fold_left (fun objs e => on_object (snd e) delete objs) m objs)
  = deref q objs.
Proof.
  revert objs. induction m as [|e m IH]; intros objs Hf; [reflexivity|].
  inversion Hf as [|? ? He Hm]; subst. simpl. rewrite IH by exact Hm.
  apply deref_on_object_other. intros ->. apply He. reflexivity.
Qed.

Lemma emplace_present (key : String.string) (h h' : nat)
    (m : list (String.string * nat)) :
  emplace key h' (emplace key h m) = emplace key h m.
Proof.
  unfold emplace at 1.
  assert (He : existsb (fun e => String.eqb (fst e) key) (emplace key h m)
               = true).
  { unfold emplace. destruct (existsb _ m) eqn:E; [exact E|].
    rewrite existsb_app. simpl. rewrite String.eqb_refl.
    rewrite orb_true_r. reflexivity. }
  rewrite He. reflexivity.
Qed.

Lemma emplace_valid (key : String.string) (h n : nat)
    (m : list (String.string * nat)) :
  (h <= n)%nat -> Forall (fun e => (snd e <= n)%nat) m ->
  Forall (fun e => (snd e <= n)%nat) (emplace key h m).
Proof.
  intros Hh Hm. unfold emplace. destruct (existsb _ m); [exact Hm|].
  apply Forall_app. split; [exact Hm|]. constructor; [exact Hh|constructor].
Qed.

End ExtensionManagerCache.

Section ExtensionManagerLoad.
Import ExtensionManager.

Lemma cached_after_emplace (updateType : String.string) (h : nat)
    (s : Manager) (objs' : list ContentHandler) :
  cached updateType
         (mkManager (emplace updateType h (_contentHandlers s)) objs')
  = match cached updateType s with
    | Some h0 => Some h0
    | None => Some h
    end.
Proof.
  rewrite (cached_emplace _ _ _ _ (objects s)), manager_eta.
  rewrite String.eqb_refl. destruct (cached updateType s); reflexivity.
Qed.

Lemma cached_other_emplace (key updateType : String.string) (h : nat)
    (s : Manager) (objs' : list ContentHandler) :
  key <> updateType ->
  cached updateType (mkManager (emplace key h (_contentHandlers s)) objs')
  = cached updateType s.
Proof.
  intros Hne. rewrite (cached_emplace _ _ _ _ (objects s)), manager_eta.
  apply String.eqb_neq in Hne. rewrite Hne.
  destruct (cached updateType s); reflexivity.
Qed.

Lemma cached_objects (updateType : String.string)
    (m : list (String.string * nat)) (objs objs' : list ContentHandler) :
  cached updateType (mkManager m objs') = cached updateType (mkManager m objs).
Proof. reflexivity. Qed.

(** X22.  [LoadUpdateContentHandlerExtension] succeeds exactly for the
    update types the manager creates a handler for and for those with
    a non-null handler in the cache.  On success the handler returned
    is not null and the cache holds a handler for the type; on failure
    the result is [ADUC_GeneralResult_Failure] with the create-failure
    code, the handler is null and the manager is unchanged. *)
Theorem load_succeeds_iff (mcuboot : bool) (updateType : String.string)
    (s : Manager) :
  let '(result, handler, s') :=
    LoadUpdateContentHandlerExtension mcuboot updateType false s in
  (IsAducResultCodeSuccess (ResultCode result) = true
   <-> built_in mcuboot updateType = true
       \/ exists n, cached updateType s = Some (S n))
  /\ (IsAducResultCodeSuccess (ResultCode result) = true ->
      result = mkResult ADUC_GeneralResult_Success ERC_ZERO
      /\ handler <> nullptr
      /\ exists h, cached updateType s' = Some h)
  /\ (IsAducResultCodeSuccess (ResultCode result) = false ->
      result = mkResult ADUC_GeneralResult_Failure
                 ADUC_ERC_UPDATE_CONTENT_HANDLER_CREATE_FAILURE_CREATE
      /\ handler = nullptr /\ s' = s).
Proof.
  rewrite Load_cases. cbv zeta. unfold built_in. fold mcubupdate_type.
  assert (Hin : forall h objs',
             exists h',
               cached updateType
                 (mkManager (emplace updateType h (_contentHandlers s)) objs')
               = Some h').
  { intros h objs'. rewrite cached_after_emplace.
    destruct (cached updateType s); eexists; reflexivity. }
  destruct (steps_update_type updateType); cbn [orb].
  { split; [split; [left; reflexivity|reflexivity]|].
    split; [|discriminate]. intros _.
    split; [reflexivity|]. split; [discriminate|]. apply Hin. }
  destruct (mcuboot && String.eqb updateType mcubupdate_type).
  { split; [split; [left; reflexivity|reflexivity]|].
    split; [|discriminate]. intros _.
    split; [reflexivity|]. split; [discriminate|]. apply Hin. }
  destruct (cached updateType s) as [[|n]|] eqn:Hc.
  - split; [split; [discriminate|intros [H|[n H]]; discriminate]|].
    split; [discriminate|]. intros _. repeat split.
  - split; [split; [right; exists n; reflexivity|reflexivity]|].
    split; [|discriminate]. intros _.
    split; [reflexivity|]. split; [discriminate|].
    exists (S n). rewrite (cached_objects _ _ (objects s)), manager_eta.
    exact Hc.
  - split; [split; [discriminate|intros [H|[n H]]; discriminate]|].
    split; [discriminate|]. intros _. repeat split.
Qed.

(** X23.  For an update type the manager creates a handler for, every
    load creates a new handler object, with the V1 contract, and
    returns it, whatever the cache holds: a cached handler is never
    returned.  The cache keeps the entry it had, and gets the new
    handler when it had none; other update types are unaffected. *)
Theorem load_built_in_creates_handler (mcuboot : bool)
    (updateType : String.string) (s : Manager) :
  built_in mcuboot updateType = true ->
  let '(result, handler, s') :=
    LoadUpdateContentHandlerExtension mcuboot updateType false s in
  result = mkResult ADUC_GeneralResult_Success ERC_ZERO
  /\ handler = S (List.length (objects s))
  /\ objects s'
     = objects s
       ++ [mkContentHandler
             (if steps_update_type updateType then StepsHandlerImpl
              else MCUbUpdateHandlerImpl)
             (Some (mkContractInfo 1 0)) false]
  /\ cached updateType s'
     = match cached updateType s with
       | Some h0 => Some h0
       | None => Some handler
       end
  /\ forall other, updateType <> other -> cached other s' = cached other s.
Proof.
  unfold built_in. fold mcubupdate_type. intros Hb.
  rewrite Load_cases. cbv zeta.
  destruct (steps_update_type updateType); cbn [orb] in Hb.
  { repeat split; cbn [objects].
    - apply cached_after_emplace.
    - intros other Hne. apply cached_other_emplace. exact Hne. }
  rewrite Hb. repeat split; cbn [objects].
  - apply cached_after_emplace.
  - intros other Hne. apply cached_other_emplace. exact Hne.
Qed.

Lemma load_built_in_creates_handler_witness :
  let '(result, handler, s') :=
    LoadUpdateContentHandlerExtension true mcubupdate_type false
      (mkManager [(mcubupdate_type, 1%nat)]
                 [mkContentHandler OtherContentHandler None false]) in
  result = mkResult ADUC_GeneralResult_Success ERC_ZERO
  /\ handler = 2%nat
  /\ objects s'
     = [mkContentHandler OtherContentHandler None false;
        mkContentHandler MCUbUpdateHandlerImpl
          (Some (mkContractInfo 1 0)) false]
  /\ cached mcubupdate_type s' = Some 1%nat
  /\ forall other,
       mcubupdate_type <> other ->
       cached other s'
       = cached other
           (mkManager [(mcubupdate_type, 1%nat)]
                      [mkContentHandler OtherContentHandler None false]).
Proof.
  exact (load_built_in_creates_handler true mcubupdate_type
           (mkManager [(mcubupdate_type, 1%nat)]
                      [mkContentHandler OtherContentHandler None false])
           eq_refl).
Defined.

(** X24.  Registering a non-null handler succeeds and makes it the
    cached handler of its update type, leaving the other types alone.
    A later load returns that handler when the manager creates none
    for the type; for a type the manager creates a handler for, the
    load returns a new object instead and the registered handler stays
    in the cache. *)
Theorem registered_handler_round_trip (mcuboot : bool)
    (updateType : String.string) (n : nat) (s : Manager) :
  let '(result, s1) :=
    SetUpdateContentHandlerExtension updateType (S n) s in
  let '(loaded, handler, s2) :=
    LoadUpdateContentHandlerExtension mcuboot updateType false s1 in
  result = mkResult ADUC_GeneralResult_Success ERC_ZERO
  /\ cached updateType s1 = Some (S n)
  /\ (forall other, updateType <> other -> cached other s1 = cached other s)
  /\ loaded = mkResult ADUC_GeneralResult_Success ERC_ZERO
  /\ handler = (if built_in mcuboot updateType
                then S (List.length (objects s)) else S n)
  /\ cached updateType s2 = Some (S n).
Proof.
  unfold SetUpdateContentHandlerExtension. cbn [Nat.eqb nullptr].
  set (s1 := mkManager _ (objects s)).
  assert (Hc1 : cached updateType s1 = Some (S n)).
  { unfold s1. rewrite (cached_emplace _ _ _ _ (objects s)).
    rewrite (cached_erase _ _ _ (objects s)), !String.eqb_refl.
    reflexivity. }
  assert (Hother : forall other, updateType <> other ->
                                 cached other s1 = cached other s).
  { intros other Hne. unfold s1. rewrite (cached_emplace _ _ _ _ (objects s)).
    rewrite (cached_erase _ _ _ (objects s)), manager_eta.
    apply String.eqb_neq in Hne. rewrite Hne.
    destruct (cached other s); reflexivity. }
  rewrite Load_cases. cbv zeta. unfold built_in. fold mcubupdate_type.
  destruct (steps_update_type updateType); cbn [orb].
  { repeat split; try assumption.
    rewrite cached_after_emplace, Hc1. reflexivity. }
  destruct (mcuboot && String.eqb updateType mcubupdate_type).
  { repeat split; try assumption.
    rewrite cached_after_emplace, Hc1. reflexivity. }
  rewrite Hc1. repeat split; try assumption.
Qed.

(** X25.  Whatever is asked of the manager from start-up on, loads,
    registrations and unloads in any order, the cache holds one entry
    per update type and never a null handler. *)
Theorem cache_never_holds_null (mcuboot : bool) (rqs : list request) :
  cache_ok (fold_left (serve mcuboot) rqs initial).
Proof.
  assert (H : forall s, cache_ok s ->
                        cache_ok (fold_left (serve mcuboot) rqs s)).
  { induction rqs as [|rq rqs IH]; intros s Hs; [exact Hs|].
    simpl. apply IH. apply serve_ok. exact Hs. }
  apply H. split; constructor.
Qed.

(** X26.  The handler a second load of the same built-in update type
    returns is a second object, is not the one in the cache, and is
    not deleted by [UnloadAllUpdateContentHandlers], which empties the
    cache: nothing the manager holds refers to it any more. *)
Theorem reloaded_handler_outlives_unload (mcuboot : bool)
    (updateType : String.string) (s : Manager) :
  built_in mcuboot updateType = true -> cache_valid s ->
  let '(_, h1, s1) :=
    LoadUpdateContentHandlerExtension mcuboot updateType false s in
  let '(_, h2, s2) :=
    LoadUpdateContentHandlerExtension mcuboot updateType false s1 in
  let s3 := UnloadAllUpdateContentHandlers s2 in
  h2 <> h1
  /\ cached updateType s2 <> Some h2
  /\ _contentHandlers s3 = []
  /\ exists o, deref h2 (objects s3) = Some o /\ deleted o = false.
Proof.
  unfold built_in. fold mcubupdate_type. intros Hb Hv.
  set (info := mkContractInfo ADUC_V1_CONTRACT_MAJOR_VER
                              ADUC_V1_CONTRACT_MINOR_VER).
  set (c := if steps_update_type updateType then StepsHandlerImpl
            else MCUbUpdateHandlerImpl).
  set (len := List.length (objects s)).
  set (s1 := mkManager (emplace updateType (S len) (_contentHandlers s))
                       (objects s ++ [mkContentHandler c (Some info) false])).
  set (s2 := mkManager (_contentHandlers s1)
                       (objects s1 ++ [mkContentHandler c (Some info) false])).
  assert (H1 : LoadUpdateContentHandlerExtension mcuboot updateType false s
               = (mkResult ADUC_GeneralResult_Success ERC_ZERO, S len, s1)).
  { rewrite Load_cases. cbv zeta. unfold s1, c, len, info.
    destruct (steps_update_type updateType); [reflexivity|].
    cbn [orb] in Hb. rewrite Hb. reflexivity. }
  assert (Hlen1 : List.length (objects s1) = S len).
  { unfold s1. cbn [objects]. rewrite length_app. simpl. unfold len. lia. }
  assert (H2 : LoadUpdateContentHandlerExtension mcuboot updateType false s1
               = (mkResult ADUC_GeneralResult_Success ERC_ZERO,
                  S (S len), s2)).
  { rewrite Load_cases. cbv zeta. rewrite Hlen1.
    assert (He : emplace updateType (S (S len)) (_contentHandlers s1)
                 = _contentHandlers s1).
    { unfold s1. cbn [_contentHandlers]. apply emplace_present. }
    rewrite He. unfold s2, c, info.
    destruct (steps_update_type updateType); [reflexivity|].
    cbn [orb] in Hb. rewrite Hb. reflexivity. }
  rewrite H1, H2. cbv zeta.
  assert (Hv1 : Forall (fun e => (snd e <= S len)%nat) (_contentHandlers s1)).
  { unfold s1. cbn [_contentHandlers]. apply emplace_valid; [lia|].
    unfold cache_valid in Hv. fold len in Hv.
    eapply Forall_impl; [|exact Hv]. simpl. intros e He. lia. }
  split; [lia|]. split.
  { unfold cached. cbn [_contentHandlers s2].
    destruct (find _ (_contentHandlers s1)) as [e|] eqn:F; [|discriminate].
    apply find_some in F. rewrite Forall_forall in Hv1.
    pose proof (Hv1 e (proj1 F)) as Hle. simpl. intros [= Heq]. lia. }
  split; [reflexivity|].
  exists (mkContentHandler c (Some info) false). split; [|reflexivity].
  unfold UnloadAllUpdateContentHandlers. cbn [objects].
  rewrite unload_keeps_object.
  - unfold s2. cbn [objects deref]. rewrite nth_error_app2 by lia.
    rewrite Hlen1, Nat.sub_diag. reflexivity.
  - cbn [_contentHandlers s2]. eapply Forall_impl; [|exact Hv1].
    simpl. intros e He. lia.
Qed.

Lemma reloaded_handler_outlives_unload_witness :
  let '(_, h1, s1) :=
    LoadUpdateContentHandlerExtension true mcubupdate_type false initial in
  let '(_, h2, s2) :=
    LoadUpdateContentHandlerExtension true mcubupdate_type false s1 in
  let s3 := UnloadAllUpdateContentHandlers s2 in
  h2 <> h1
  /\ cached mcubupdate_type s2 <> Some h2
  /\ _contentHandlers s3 = []
  /\ exists o, deref h2 (objects s3) = Some o /\ deleted o = false.
Proof.
  apply (reloaded_handler_outlives_unload true mcubupdate_type initial).
  - reflexivity.
  - constructor.
Defined.

End ExtensionManagerLoad.

Section ManifestHandler.
Import ExtensionManager.

Lemma to_int_printable (z : Z) :
  Z.to_int z <> Decimal.Pos Decimal.Nil
  /\ Z.to_int z <> Decimal.Neg Decimal.Nil.
Proof.
  destruct z as [|p|p]; simpl; split; try discriminate;
    intros [= H]; exact (DecimalPos.Unsigned.to_uint_nonnil p H).
Qed.

Lemma decimal_eqb (z k : Z) :
  String.eqb (DecimalString.NilZero.string_of_int (Z.to_int z))
             (DecimalString.NilZero.string_of_int (Z.to_int k))
  = (z =? k).
Proof.
  destruct (Z.eqb_spec z k) as [->|Hne].
  - apply String.eqb_refl.
  - apply String.eqb_neq. intros Heq. apply Hne.
    apply DecimalZ.to_int_inj.
    destruct (to_int_printable z) as [Hz1 Hz2].
    destruct (to_int_printable k) as [Hk1 Hk2].
    pose proof (DecimalString.NilZero.isi _ Hz1 Hz2) as Iz.
    pose proof (DecimalString.NilZero.isi _ Hk1 Hk2) as Ik.
    rewrite Heq in Iz. rewrite Iz in Ik. injection Ik as Ik. exact Ik.
Qed.

(** The handler names of the manifest versions: only versions 4 and 5
    name a type of the steps handler, none names this handler's type. *)
Lemma manifest_name_types (updateManifestVersion : Z) :
  steps_update_type (update_manifest_handler_name updateManifestVersion)
  = (updateManifestVersion =? 4) || (updateManifestVersion =? 5)
  /\ String.eqb (update_manifest_handler_name updateManifestVersion)
                mcubupdate_type = false.
Proof.
  split; [|reflexivity].
  unfold steps_update_type, update_manifest_handler_name.
  rewrite <- (decimal_eqb updateManifestVersion 4).
  rewrite <- (decimal_eqb updateManifestVersion 5).
  reflexivity.
Qed.

(** X27.  [GetUpdateManifestHandler] by manifest version.  Below
    version 4 it returns no handler, reports the unsupported-version
    failure and leaves the manager alone.  From version 4 on it always
    returns a handler and leaves [*result] alone: the handler
    registered under the name of the version when the version is
    neither 4 nor 5 and there is one, and a newly created steps handler
    in every other case. *)
Theorem manifest_handler_by_version (mcuboot : bool)
    (updateManifestVersion : Z) (result : ADUC_Result) (s : Manager) :
  let '(contentHandler, result', s') :=
    GetUpdateManifestHandler mcuboot updateManifestVersion result s in
  let registered :=
    cached (update_manifest_handler_name updateManifestVersion) s in
  (updateManifestVersion < 4 ->
   contentHandler = nullptr
   /\ result'
      = mkResult ADUC_Result_Failure
          ADUC_ERC_UTILITIES_UPDATE_DATA_PARSER_UNSUPPORTED_UPDATE_MANIFEST_VERSION
   /\ s' = s)
  /\ (4 <= updateManifestVersion ->
      contentHandler <> nullptr /\ result' = result
      /\ (forall n,
            6 <= updateManifestVersion -> registered = Some (S n) ->
            contentHandler = S n
            /\ _contentHandlers s' = _contentHandlers s
            /\ List.length (objects s') = List.length (objects s))
      /\ (updateManifestVersion <= 5
          \/ registered = None \/ registered = Some nullptr ->
          contentHandler = S (List.length (objects s))
          /\ objects s'
             = objects s
               ++ [mkContentHandler StepsHandlerImpl
                     (Some (mkContractInfo 1 0)) false])).
Proof.
  unfold GetUpdateManifestHandler.
  destruct (Z.leb_spec 4 updateManifestVersion) as [Hv|Hv].
  2:{ cbn. split; [intros _; repeat split|intros H; lia]. }
  destruct (manifest_name_types updateManifestVersion) as [Hsteps Hmcub].
  set (name := update_manifest_handler_name updateManifestVersion) in *.
  rewrite (Load_cases mcuboot name). cbv zeta.
  rewrite Hsteps, Hmcub, andb_false_r.
  assert (Hdefault :
            LoadUpdateContentHandlerExtension mcuboot
              UPDATE_MANIFEST_DEFAULT_HANDLER false s
            = (mkResult ADUC_GeneralResult_Success ERC_ZERO,
               S (List.length (objects s)),
               mkManager (emplace UPDATE_MANIFEST_DEFAULT_HANDLER
                                  (S (List.length (objects s)))
                                  (_contentHandlers s))
                         (objects s
                          ++ [mkContentHandler StepsHandlerImpl
                                (Some (mkContractInfo 1 0)) false]))).
  { rewrite Load_cases. reflexivity. }
  destruct ((updateManifestVersion =? 4) || (updateManifestVersion =? 5))
    eqn:H45.
  { cbn. split; [intros H; lia|intros _].
    split; [discriminate|]. split; [reflexivity|]. split.
    - intros n H6. apply orb_true_iff in H45. lia.
    - intros _. split; reflexivity. }
  apply orb_false_iff in H45. destruct H45 as [H4 H5].
  apply Z.eqb_neq in H4, H5.
  destruct (cached name s) as [[|n]|] eqn:Hc.
  - cbn [fst snd ResultCode IsAducResultCodeFailure
         ADUC_GeneralResult_Failure Z.leb Z.compare].
    rewrite Hdefault. cbn. split; [intros H; lia|intros _].
    split; [discriminate|]. split; [reflexivity|]. split.
    + intros n _ [=].
    + intros _. split; reflexivity.
  - cbn. split; [intros H; lia|intros _].
    split; [discriminate|]. split; [reflexivity|]. split.
    + intros k _ [= <-]. split; [reflexivity|]. split; [reflexivity|].
      apply update_object_length.
    + intros [H|[H|H]]; [lia|discriminate|discriminate].
  - cbn [fst snd ResultCode IsAducResultCodeFailure
         ADUC_GeneralResult_Failure Z.leb Z.compare].
    rewrite Hdefault. cbn. split; [intros H; lia|intros _].
    split; [discriminate|]. split; [reflexivity|]. split.
    + intros n _ [=].
    + intros _. split; reflexivity.
Qed.

End ManifestHandler.
